(** * GameCollection: the item-update protocol

    A shallow embedding of the record store ([database.js]), of the folder
    migration and of the update and delete routes of the main process,
    with the properties of the update protocol stated over it.

    Strings are sequences of 8-bit code units ([string]); integers are [Z];
    the store is a finite map from row ids to rows; the file system is an
    interface ([FileSystem]) whose operations either return or throw. *)

From Stdlib Require Import String Ascii ZArith List Lia Bool.
From Stdlib Require Import DecimalFacts DecimalPos.
From stdpp Require Import gmap strings list sorting.

Local Open Scope Z_scope.

(** ** Strings *)

Module Str.

Definition is_underscore (c : ascii) : bool := Ascii.eqb c "_"%char.

Definition in_range (lo hi : nat) (c : ascii) : bool :=
  (Nat.leb lo (nat_of_ascii c) && Nat.leb (nat_of_ascii c) hi)%bool.

(** The character class [[a-zA-Z0-9-]]. *)
Definition is_folder_char (c : ascii) : bool :=
  (in_range 97 122 c || in_range 65 90 c || in_range 48 57 c
   || Ascii.eqb c "-"%char)%bool.

Fixpoint map (f : ascii -> ascii) (s : string) : string :=
  match s with
  | EmptyString => EmptyString
  | String c s' => String (f c) (map f s')
  end.

(** [String.prototype.substring(0, n)]. *)
Fixpoint take (n : nat) (s : string) : string :=
  match n, s with
  | S n', String c s' => String c (take n' s')
  | _, _ => EmptyString
  end.

Fixpoint drop (n : nat) (s : string) : string :=
  match n, s with
  | S n', String _ s' => drop n' s'
  | _, _ => s
  end.

(** [String.prototype.toLowerCase] on the code units it is applied to here:
    the letters A-Z move to a-z, every other unit of the folder class and
    the underscore are fixed. *)
Definition lower (c : ascii) : ascii :=
  if in_range 65 90 c then ascii_of_nat (nat_of_ascii c + 32) else c.

Definition toLowerCase (s : string) : string := map lower s.

(** [s.replace(pat, rep)] with a string pattern: the first occurrence of
    [pat] is replaced.  The replacement is taken literally; the [$]-patterns
    of JavaScript replacement strings are not interpreted, which is exact
    for replacements without [$]. *)
Fixpoint replace (pat rep s : string) : string :=
  if String.prefix pat s then rep +:+ drop (String.length pat) s
  else match s with
       | EmptyString => EmptyString
       | String c s' => String c (replace pat rep s')
       end.

(** A replacement string that [replace] inserts as it is: no [$] occurs in
    it, so that no [$]-pattern can start.  The folder tokens are of this
    kind; the application directory is when its path has no [$]. *)
Definition literal (rep : string) : bool :=
  forallb (fun c => negb (Ascii.eqb c "$"%char)) (list_ascii_of_string rep).

End Str.

(** ** The identifier sanitizer *)

(** [.replace(/[^a-zA-Z0-9-]/g, '_')]: every code unit outside the class
    becomes an underscore. *)
Definition replace_unsafe (s : string) : string :=
  Str.map (fun c => if Str.is_folder_char c then c else "_"%char) s.

(** [.replace(/_+/g, '_')]: scanning from the left, a match starts at an
    underscore that does not continue a run and covers the whole run; one
    underscore is emitted where the match starts. *)
Fixpoint replace_runs (in_run : bool) (s : string) : string :=
  match s with
  | EmptyString => EmptyString
  | String c s' =>
      if Str.is_underscore c
      then if in_run then replace_runs true s'
           else String "_" (replace_runs true s')
      else String c (replace_runs false s')
  end.

Fixpoint drop_underscores (s : string) : string :=
  match s with
  | String c s' => if Str.is_underscore c then drop_underscores s' else s
  | EmptyString => EmptyString
  end.

(** Does [_+$] match at the start of [s]: [s] is a non-empty run of
    underscores up to its end. *)
Fixpoint underscores_to_end (s : string) : bool :=
  match s with
  | EmptyString => false
  | String c EmptyString => Str.is_underscore c
  | String c s' => (Str.is_underscore c && underscores_to_end s')%bool
  end.

(** Scan for [_+$] at positions after the start. *)
Fixpoint remove_end_run (s : string) : string :=
  match s with
  | EmptyString => EmptyString
  | String c s' =>
      if underscores_to_end s then EmptyString else String c (remove_end_run s')
  end.

(** [.replace(/^_+|_+$/g, '')]: at position 0 the first alternative takes
    the leading run; from there on only [_+$] can match. *)
Definition replace_edges (s : string) : string :=
  remove_end_run (drop_underscores s).

(** [sanitizeFolderName] *)
Definition sanitizeFolderName (title : string) : string :=
  Str.toLowerCase
    (Str.take 50 (replace_edges (replace_runs false (replace_unsafe title)))).

(** The characters of a folder token: lower-case letters, digits, the
    hyphen and the underscore. *)
Definition is_token_char (c : ascii) : bool :=
  (Str.in_range 97 122 c || Str.in_range 48 57 c || Ascii.eqb c "-"%char
   || Str.is_underscore c)%bool.

(** *** The sanitizer as the specification words it, over lists of characters *)

Module SanitizeSpec.

Abbreviation chars := list_ascii_of_string.
Abbreviation text := string_of_list_ascii.

Definition replace_outside (l : list ascii) : list ascii :=
  List.map (fun c => if Str.is_folder_char c then c else "_"%char) l.

(** Collapse consecutive underscores into one. *)
Fixpoint collapse (l : list ascii) : list ascii :=
  match l with
  | c :: ((d :: _) as l') =>
      if (Str.is_underscore c && Str.is_underscore d)%bool then collapse l'
      else c :: collapse l'
  | _ => l
  end.

Fixpoint strip_leading (l : list ascii) : list ascii :=
  match l with
  | c :: l' => if Str.is_underscore c then strip_leading l' else l
  | [] => []
  end.

Definition strip_trailing (l : list ascii) : list ascii :=
  rev (strip_leading (rev l)).

Definition all_underscores (l : list ascii) : bool :=
  forallb Str.is_underscore l.

Definition truncate (n : nat) (l : list ascii) : list ascii := firstn n l.

Definition lowercase (l : list ascii) : list ascii := List.map Str.lower l.

Definition sanitize (title : string) : string :=
  text (lowercase (truncate 50 (strip_trailing (strip_leading
         (collapse (replace_outside (chars title))))))).

End SanitizeSpec.

(** ** JSON values, [JSON.stringify] and [JSON.parse]

    The values of the list-valued columns are JSON data.  Numbers are the
    integers, written in plain decimal; an object is the list of its
    members in property order.  Text is handled as a list of characters.

    The parser reads the texts that the printer writes for these values,
    with any white space and escapes.  A number with a fraction or an
    exponent, and an escape for a character beyond one code unit, are
    outside it.  The statements below about a text that is refused are
    made for texts that do not begin a value at all; those about a text
    that is read assume that the parser returns a value. *)

Module JSON.

#[local] Unset Elimination Schemes.
Inductive json : Type :=
| JNull
| JBool (b : bool)
| JNum (n : Z)
| JStr (s : string)
| JArr (l : list json)
| JObj (m : list (string * json)).
#[local] Set Elimination Schemes.

Abbreviation chars := list_ascii_of_string.
Abbreviation text := string_of_list_ascii.

Definition c_quote : ascii := "034"%char.
Definition c_backslash : ascii := "\"%char.

Definition is_ws (c : ascii) : bool :=
  (Ascii.eqb c " " || Ascii.eqb c "009" || Ascii.eqb c "010"
   || Ascii.eqb c "013")%bool%char.

Fixpoint skip_ws (l : list ascii) : list ascii :=
  match l with
  | c :: r => if is_ws c then skip_ws r else l
  | [] => []
  end.

(** *** Printing *)

Definition hex_digit (n : nat) : ascii :=
  nth n (chars "0123456789abcdef") "0"%char.

Definition escape_char (c : ascii) : list ascii :=
  if Ascii.eqb c c_quote then [c_backslash; c_quote]
  else if Ascii.eqb c c_backslash then [c_backslash; c_backslash]
  else match nat_of_ascii c with
       | 8%nat => chars "\b"
       | 9%nat => chars "\t"
       | 10%nat => chars "\n"
       | 12%nat => chars "\f"
       | 13%nat => chars "\r"
       | n => if Nat.ltb n 32
              then chars "\u00" ++ [hex_digit (n / 16); hex_digit (n mod 16)]
              else [c]
       end.

Definition quote (s : string) : list ascii :=
  c_quote :: flat_map escape_char (chars s) ++ [c_quote].

Fixpoint print_uint (d : Decimal.uint) : list ascii :=
  match d with
  | Decimal.Nil => []
  | Decimal.D0 d => "0"%char :: print_uint d
  | Decimal.D1 d => "1"%char :: print_uint d
  | Decimal.D2 d => "2"%char :: print_uint d
  | Decimal.D3 d => "3"%char :: print_uint d
  | Decimal.D4 d => "4"%char :: print_uint d
  | Decimal.D5 d => "5"%char :: print_uint d
  | Decimal.D6 d => "6"%char :: print_uint d
  | Decimal.D7 d => "7"%char :: print_uint d
  | Decimal.D8 d => "8"%char :: print_uint d
  | Decimal.D9 d => "9"%char :: print_uint d
  end.

Definition print_Z (n : Z) : list ascii :=
  match n with
  | Z0 => ["0"%char]
  | Zpos p => print_uint (Pos.to_uint p)
  | Zneg p => "-"%char :: print_uint (Pos.to_uint p)
  end.

Section Join.

Context {A : Type} (f : A -> list ascii).

(** The items printed by [f], separated by commas. *)
Fixpoint join (l : list A) : list ascii :=
  match l with
  | [] => []
  | x :: l' =>
      f x ++ match l' with [] => [] | _ :: _ => ","%char :: join l' end
  end.

End Join.

Fixpoint print (v : json) : list ascii :=
  match v with
  | JNull => chars "null"
  | JBool true => chars "true"
  | JBool false => chars "false"
  | JNum n => print_Z n
  | JStr s => quote s
  | JArr l => "["%char :: join print l ++ ["]"%char]
  | JObj m =>
      "{"%char
      :: join (fun kv => quote (fst kv) ++ ":"%char :: print (snd kv)) m
      ++ ["}"%char]
  end.

(** [JSON.stringify] *)
Definition stringify (v : json) : string := text (print v).

(** *** Parsing *)

Definition hex_value (c : ascii) : option nat :=
  let n := nat_of_ascii c in
  if Str.in_range 48 57 c then Some (n - 48)%nat
  else if Str.in_range 97 102 c then Some (n - 87)%nat
  else if Str.in_range 65 70 c then Some (n - 55)%nat
  else None.

Definition unescape (c : ascii) : option ascii :=
  if Ascii.eqb c c_quote then Some c_quote
  else if Ascii.eqb c c_backslash then Some c_backslash
  else if Ascii.eqb c "/" then Some "/"%char
  else if Ascii.eqb c "b" then Some "008"%char
  else if Ascii.eqb c "f" then Some "012"%char
  else if Ascii.eqb c "n" then Some "010"%char
  else if Ascii.eqb c "r" then Some "013"%char
  else if Ascii.eqb c "t" then Some "009"%char
  else None.

(** The four hex digits of a [\u] escape; code units above 255 are outside
    the 8-bit strings of this model. *)
Definition unicode_escape (h1 h2 h3 h4 : ascii) : option ascii :=
  match hex_value h1, hex_value h2, hex_value h3, hex_value h4 with
  | Some a, Some b, Some c, Some d =>
      if (Nat.eqb a 0 && Nat.eqb b 0)%bool
      then Some (ascii_of_nat (16 * c + d)) else None
  | _, _, _, _ => None
  end.

(** The characters after an opening quote, up to the closing one. *)
Fixpoint parse_string_body (l : list ascii) : option (string * list ascii) :=
  match l with
  | [] => None
  | c :: r =>
      if Ascii.eqb c c_quote then Some (EmptyString, r)
      else if Ascii.eqb c c_backslash then
        match r with
        | [] => None
        | e :: r' =>
            if Ascii.eqb e "u" then
              match r' with
              | h1 :: h2 :: h3 :: h4 :: r'' =>
                  match unicode_escape h1 h2 h3 h4 with
                  | Some ch =>
                      match parse_string_body r'' with
                      | Some (s, rest) => Some (String ch s, rest)
                      | None => None
                      end
                  | None => None
                  end
              | _ => None
              end
            else
              match unescape e with
              | Some ch =>
                  match parse_string_body r' with
                  | Some (s, rest) => Some (String ch s, rest)
                  | None => None
                  end
              | None => None
              end
        end
      else if Nat.ltb (nat_of_ascii c) 32 then None
      else match parse_string_body r with
           | Some (s, rest) => Some (String c s, rest)
           | None => None
           end
  end.

Definition digit (c : ascii) : option (Decimal.uint -> Decimal.uint) :=
  match nat_of_ascii c with
  | 48%nat => Some Decimal.D0 | 49%nat => Some Decimal.D1
  | 50%nat => Some Decimal.D2 | 51%nat => Some Decimal.D3
  | 52%nat => Some Decimal.D4 | 53%nat => Some Decimal.D5
  | 54%nat => Some Decimal.D6 | 55%nat => Some Decimal.D7
  | 56%nat => Some Decimal.D8 | 57%nat => Some Decimal.D9
  | _ => None
  end.

(** The longest prefix of decimal digits. *)
Fixpoint read_uint (l : list ascii) : Decimal.uint * list ascii :=
  match l with
  | [] => (Decimal.Nil, [])
  | c :: r =>
      match digit c with
      | Some D => let (d, rest) := read_uint r in (D d, rest)
      | None => (Decimal.Nil, l)
      end
  end.

Definition starts_fraction (l : list ascii) : bool :=
  match l with
  | c :: _ => (Ascii.eqb c "." || Ascii.eqb c "e" || Ascii.eqb c "E")%bool
  | [] => false
  end.

(** An integer literal: an optional minus sign and digits without a
    superfluous leading zero.  Fractions and exponents are not integers and
    are outside this model. *)
Definition parse_number (l : list ascii) : option (json * list ascii) :=
  let (neg, l1) :=
    match l with
    | c :: r => if Ascii.eqb c "-" then (true, r) else (false, l)
    | [] => (false, l)
    end in
  let (d, rest) := read_uint l1 in
  match d with
  | Decimal.Nil => None
  | Decimal.D0 (Decimal.Nil) =>
      if starts_fraction rest then None else Some (JNum 0, rest)
  | Decimal.D0 _ => None
  | _ =>
      if starts_fraction rest then None
      else let n := Z.of_N (N.of_uint d) in
           Some (JNum (if neg then - n else n), rest)
  end.

Fixpoint strip_prefix (p l : list ascii) : option (list ascii) :=
  match p, l with
  | [], _ => Some l
  | a :: p', b :: l' => if Ascii.eqb a b then strip_prefix p' l' else None
  | _ :: _, [] => None
  end.

(** Assigning a member to an object under construction: a key already
    present keeps its place and takes the new value. *)
Fixpoint set_member (m : list (string * json)) (kv : string * json)
  : list (string * json) :=
  match m with
  | [] => [kv]
  | (k, v) :: m' =>
      if String.eqb k (fst kv) then (k, snd kv) :: m'
      else (k, v) :: set_member m' kv
  end.

Definition head_is (c : ascii) (l : list ascii) : bool :=
  match l with
  | d :: _ => Ascii.eqb c d
  | [] => false
  end.

Fixpoint parse_value (fuel : nat) (l : list ascii) {struct fuel}
  : option (json * list ascii) :=
  match fuel with
  | O => None
  | S fuel' =>
      let l := skip_ws l in
      match l with
      | [] => None
      | c :: r =>
          if Ascii.eqb c "n" then
            option_map (pair JNull) (strip_prefix (chars "null") l)
          else if Ascii.eqb c "t" then
            option_map (pair (JBool true)) (strip_prefix (chars "true") l)
          else if Ascii.eqb c "f" then
            option_map (pair (JBool false)) (strip_prefix (chars "false") l)
          else if Ascii.eqb c c_quote then
            match parse_string_body r with
            | Some (s, rest) => Some (JStr s, rest)
            | None => None
            end
          else if Ascii.eqb c "[" then
            if head_is "]" (skip_ws r) then Some (JArr [], tl (skip_ws r))
            else match parse_elements fuel' r with
                 | Some (vs, rest) => Some (JArr vs, rest)
                 | None => None
                 end
          else if Ascii.eqb c "{" then
            if head_is "}" (skip_ws r) then Some (JObj [], tl (skip_ws r))
            else match parse_members fuel' r with
                 | Some (kvs, rest) =>
                     Some (JObj (fold_left set_member kvs []), rest)
                 | None => None
                 end
          else parse_number l
      end
  end

with parse_elements (fuel : nat) (l : list ascii) {struct fuel}
  : option (list json * list ascii) :=
  match fuel with
  | O => None
  | S fuel' =>
      match parse_value fuel' l with
      | Some (v, r) =>
          let r := skip_ws r in
          if head_is "," r then
            match parse_elements fuel' (tl r) with
            | Some (vs, rest) => Some (v :: vs, rest)
            | None => None
            end
          else if head_is "]" r then Some ([v], tl r)
          else None
      | None => None
      end
  end

with parse_members (fuel : nat) (l : list ascii) {struct fuel}
  : option (list (string * json) * list ascii) :=
  match fuel with
  | O => None
  | S fuel' =>
      let l := skip_ws l in
      if head_is c_quote l then
        match parse_string_body (tl l) with
        | Some (k, r1) =>
            let r1 := skip_ws r1 in
            if head_is ":" r1 then
              match parse_value fuel' (tl r1) with
              | Some (v, r2) =>
                  let r2 := skip_ws r2 in
                  if head_is "," r2 then
                    match parse_members fuel' (tl r2) with
                    | Some (kvs, rest) => Some ((k, v) :: kvs, rest)
                    | None => None
                    end
                  else if head_is "}" r2 then Some ([(k, v)], tl r2)
                  else None
              | None => None
              end
            else None
        | None => None
        end
      else None
  end.

(** [JSON.parse]: one value, surrounded by optional white space.  [None]
    stands for the [SyntaxError] thrown on anything else. *)
Definition parse (s : string) : option json :=
  let l := chars s in
  match parse_value (S (List.length l)) l with
  | Some (v, rest) =>
      match skip_ws rest with
      | [] => Some v
      | _ :: _ => None
      end
  | None => None
  end.

(** Every object of the value has pairwise distinct keys, as the objects
    of the language do. *)
Fixpoint distinct_keys (v : json) : Prop :=
  match v with
  | JArr l => (fix all (l : list json) : Prop :=
                 match l with
                 | [] => True
                 | x :: l' => distinct_keys x /\ all l'
                 end) l
  | JObj m => NoDup (List.map fst m) /\
              (fix all (m : list (string * json)) : Prop :=
                 match m with
                 | [] => True
                 | kv :: m' => distinct_keys (snd kv) /\ all m'
                 end) m
  | _ => True
  end.

(** Truthiness of a value in a condition. *)
Definition truthy (v : json) : bool :=
  match v with
  | JNull => false
  | JBool b => b
  | JNum n => negb (Z.eqb n 0)
  | JStr s => negb (String.eqb s EmptyString)
  | JArr _ | JObj _ => true
  end.

End JSON.

(** ** Values of the language at the store boundary *)

(** A property of a JavaScript object as the store reads it: missing
    ([undefined]), [null], or a value of the column's type. *)
Inductive field (A : Type) : Type :=
| Undefined
| Null
| Val (a : A).
Arguments Undefined {A}.
Arguments Null {A}.
Arguments Val {A} a.

(** The outcome of a promise, or of a call that may throw. *)
Inductive result (A : Type) : Type :=
| Resolved (a : A)
| Rejected (message : string).
Arguments Resolved {A} a.
Arguments Rejected {A} message.

(** Truthiness, per type of value. *)
Class Truthy (A : Type) := truthy : A -> bool.

#[global] Instance truthy_string : Truthy string :=
  fun s => negb (String.eqb s EmptyString).
#[global] Instance truthy_Z : Truthy Z := fun n => negb (Z.eqb n 0).
#[global] Instance truthy_bool : Truthy bool := fun b => b.
#[global] Instance truthy_json : Truthy JSON.json := JSON.truthy.
(** [None] is [null]. *)
#[global] Instance truthy_option {A} `{Truthy A} : Truthy (option A) :=
  fun x => match x with Some a => truthy a | None => false end.

(** [x || d] for a default [d] of the type of [x]. *)
Definition or_default {A} `{Truthy A} (x : option A) (d : A) : A :=
  match x with
  | Some a => if truthy a then a else d
  | None => d
  end.

(** [x || null] *)
Definition or_null {A} `{Truthy A} (x : option A) : option A :=
  if truthy x then x else None.

(** [x ? 1 : 0] *)
Definition one_or_zero {A} `{Truthy A} (x : A) : Z :=
  if truthy x then 1 else 0.

(** ** The record store ([database.js]) *)

(** A row of the table [games], column by column; [None] is SQL [NULL].
    [title] is [NOT NULL]. *)
Module Row.
Record t : Type := mk {
  title : string;
  link : option string;
  rageRating : option Z;
  finished : option Z;
  is_checked : option Z;
  platform : option string;
  strikes : option Z;
  notes : option string;
  coverArtPath : option string;
  gameplayImagePath : option string;
  dateAdded : option string;
  additionalPhotos : option string;
  additionalNotes : option string
}.
End Row.

(** A game as [getGameById] returns it. *)
Module Game.
Record t : Type := mk {
  id : Z;
  title : string;
  link : option string;
  rageRating : Z;
  finished : bool;
  is_checked : bool;
  platform : option string;
  strikes : Z;
  notes : option string;
  coverArtPath : option string;
  gameplayImagePath : option string;
  dateAdded : option string;
  additionalPhotos : JSON.json;
  additionalNotes : JSON.json
}.
End Game.

(** The [gameData] argument of [createGame] and [updateGame]: each property
    is missing, [null] or a value of the type of its column. *)
Module GameData.
Record t : Type := mk {
  title : field string;
  link : field string;
  rageRating : field Z;
  finished : field bool;
  is_checked : field bool;
  platform : field string;
  strikes : field Z;
  notes : field string;
  coverArtPath : field string;
  gameplayImagePath : field string;
  additionalPhotos : field JSON.json;
  additionalNotes : field JSON.json
}.

(** The empty payload [{}]. *)
Definition empty : t :=
  mk Undefined Undefined Undefined Undefined Undefined Undefined
     Undefined Undefined Undefined Undefined Undefined Undefined.
End GameData.

(** The database: the rows by id, the last id handed out
    ([AUTOINCREMENT]) and the engine's current date ([DATE('now')]). *)
Record DB : Type := mkDB {
  rows : gmap Z Row.t;
  sequence : Z;
  today : string
}.

Definition last_rowid (d : DB) : Z :=
  map_fold (fun k _ acc => Z.max k acc) (sequence d) (rows d).

Definition syntax_error : string := "SyntaxError: Unexpected token in JSON".
Definition not_null_title : string := "NOT NULL constraint failed: games.title".
Definition game_not_found : string := "Game not found".

(** [col ? JSON.parse(col) : []] *)
Definition decode_list (col : option string) : result JSON.json :=
  match col with
  | Some s =>
      if truthy s then
        match JSON.parse s with
        | Some v => Resolved v
        | None => Rejected syntax_error
        end
      else Resolved (JSON.JArr [])
  | None => Resolved (JSON.JArr [])
  end.

(** [Boolean(col)] *)
Definition decode_bool (col : option Z) : bool := truthy col.

Definition decode_row (id : Z) (r : Row.t) : result Game.t :=
  match decode_list (Row.additionalPhotos r) with
  | Rejected e => Rejected e
  | Resolved photos =>
      match decode_list (Row.additionalNotes r) with
      | Rejected e => Rejected e
      | Resolved notes =>
          Resolved
            (Game.mk id (Row.title r) (Row.link r)
               (or_default (Row.rageRating r) 0)
               (decode_bool (Row.finished r))
               (decode_bool (Row.is_checked r))
               (Row.platform r)
               (or_default (Row.strikes r) 0)
               (Row.notes r) (Row.coverArtPath r) (Row.gameplayImagePath r)
               (Row.dateAdded r) photos notes)
      end
  end.

(** [getGameById]: [Resolved None] is the promise resolved with [null]. *)
Definition getGameById (id : Z) (d : DB) : result (option Game.t) :=
  match rows d !! id with
  | Some r =>
      match decode_row id r with
      | Resolved g => Resolved (Some g)
      | Rejected e => Rejected e
      end
  | None => Resolved None
  end.

(** [rows.map(row => ...)]: the rows decoded one after the other; the first
    row that does not decode rejects the whole. *)
Fixpoint decode_rows (l : list (Z * Row.t)) : result (list Game.t) :=
  match l with
  | [] => Resolved []
  | (id, r) :: l' =>
      match decode_row id r with
      | Rejected e => Rejected e
      | Resolved g =>
          match decode_rows l' with
          | Rejected e => Rejected e
          | Resolved gs => Resolved (g :: gs)
          end
      end
  end.

(** A scan of the table returns the rows by ascending id. *)
Definition by_id (x y : Z * Row.t) : Prop := x.1 <= y.1.

#[global] Instance by_id_dec : RelDecision by_id :=
  fun x y => decide (x.1 <= y.1).

Definition table_scan (d : DB) : list (Z * Row.t) :=
  merge_sort by_id (map_to_list (rows d)).

(** [getAllGames]: every row, in the order of the scan. *)
Definition getAllGames (d : DB) : result (list Game.t) :=
  decode_rows (table_scan d).

(** [v ? JSON.stringify(v) : '[]'] *)
Definition encode_list (v : option JSON.json) : string :=
  match v with
  | Some j => if truthy j then JSON.stringify j else "[]"
  | None => "[]"
  end.

Definition to_option {A} (x : field A) : option A :=
  match x with
  | Val a => Some a
  | _ => None
  end.

(** [createGame]: the new id, or the rejection of the statement.  A title
    that is missing is bound like [null], and the column is [NOT NULL]. *)
Definition createGame (g : GameData.t) (d : DB) : result Z * DB :=
  match GameData.title g with
  | Undefined => (Rejected not_null_title, d)
  | Null => (Rejected not_null_title, d)
  | Val title =>
      let id := last_rowid d + 1 in
      let row :=
        Row.mk title
          (Some (or_default (to_option (GameData.link g)) EmptyString))
          (Some (or_default (to_option (GameData.rageRating g)) 0))
          (Some (one_or_zero (to_option (GameData.finished g))))
          (Some (one_or_zero (to_option (GameData.is_checked g))))
          (Some (or_default (to_option (GameData.platform g)) EmptyString))
          (Some (or_default (to_option (GameData.strikes g)) 0))
          (Some (or_default (to_option (GameData.notes g)) EmptyString))
          (or_null (to_option (GameData.coverArtPath g)))
          (or_null (to_option (GameData.gameplayImagePath g)))
          (Some (today d))
          (Some (encode_list (to_option (GameData.additionalPhotos g))))
          (Some (encode_list (to_option (GameData.additionalNotes g)))) in
      (Resolved id, mkDB (<[id := row]> (rows d)) id (today d))
  end.

(** [data.k !== undefined ? data.k : existing.k]; [None] is [null]. *)
Definition provided_or {A} (x : field A) (existing : option A) : option A :=
  match x with
  | Undefined => existing
  | Null => None
  | Val a => Some a
  end.

(** The [mergedData] object of [updateGame]. *)
Module Merged.
Record t : Type := mk {
  title : option string;
  link : option string;
  rageRating : option Z;
  finished : option bool;
  is_checked : option bool;
  platform : option string;
  strikes : option Z;
  notes : option string;
  coverArtPath : option string;
  gameplayImagePath : option string;
  additionalPhotos : option JSON.json;
  additionalNotes : option JSON.json
}.
End Merged.

Definition merge (g : GameData.t) (e : Game.t) : Merged.t :=
  Merged.mk
    (provided_or (GameData.title g) (Some (Game.title e)))
    (provided_or (GameData.link g) (Game.link e))
    (provided_or (GameData.rageRating g) (Some (Game.rageRating e)))
    (provided_or (GameData.finished g) (Some (Game.finished e)))
    (provided_or (GameData.is_checked g) (Some (Game.is_checked e)))
    (provided_or (GameData.platform g) (Game.platform e))
    (provided_or (GameData.strikes g) (Some (Game.strikes e)))
    (provided_or (GameData.notes g) (Game.notes e))
    (provided_or (GameData.coverArtPath g) (Game.coverArtPath e))
    (provided_or (GameData.gameplayImagePath g) (Game.gameplayImagePath e))
    (provided_or (GameData.additionalPhotos g) (Some (Game.additionalPhotos e)))
    (provided_or (GameData.additionalNotes g) (Some (Game.additionalNotes e))).

(** The row that the [UPDATE] statement writes over [old]: every column of
    the [SET] list is bound, [dateAdded] is not in the list. *)
Definition write_row (title : string) (m : Merged.t) (old : Row.t) : Row.t :=
  Row.mk title
    (Some (or_default (Merged.link m) EmptyString))
    (Some (or_default (Merged.rageRating m) 0))
    (Some (one_or_zero (Merged.finished m)))
    (Some (one_or_zero (Merged.is_checked m)))
    (Some (or_default (Merged.platform m) EmptyString))
    (Some (or_default (Merged.strikes m) 0))
    (Some (or_default (Merged.notes m) EmptyString))
    (or_null (Merged.coverArtPath m))
    (or_null (Merged.gameplayImagePath m))
    (Row.dateAdded old)
    (Some (encode_list (Merged.additionalPhotos m)))
    (Some (encode_list (Merged.additionalNotes m))).

(** [updateGame]: the number of rows changed, or the rejection. *)
Definition updateGame (id : Z) (g : GameData.t) (d : DB) : result Z * DB :=
  match getGameById id d with
  | Rejected e => (Rejected e, d)
  | Resolved None => (Rejected game_not_found, d)
  | Resolved (Some existingGame) =>
      let mergedData := merge g existingGame in
      match Merged.title mergedData, rows d !! id with
      | None, _ => (Rejected not_null_title, d)
      | Some title, Some old =>
          (Resolved 1,
           mkDB (<[id := write_row title mergedData old]> (rows d))
                (sequence d) (today d))
      | Some _, None => (Resolved 0, d)
      end
  end.

(** ** The file system, as the main process uses it *)

(** The synchronous calls of [fs] that the process makes.  A call that
    throws leaves the file system as it was. *)
Class FileSystem (F : Type) : Type := {
  existsSync : string -> F -> bool;
  mkdirSync : string -> F -> result F;
  readdirSync : string -> F -> result (list string);
  renameSync : string -> string -> F -> result F;
  rmdirSync : string -> F -> result F;
  unlinkSync : string -> F -> result F
}.

(** [path.join(dir, name)] for a normalized [dir] and a [name] without
    separators; an empty [name] adds nothing. *)
Definition path_join (dir name : string) : string :=
  if String.eqb name EmptyString then dir else dir +:+ "/" +:+ name.

(** *** What the statements about files rely on

    The paths are taken as they are written: they are the normalized
    paths that [path.join] returns, and two of them name the same file
    only when they are the same string. *)

Definition no_separator (s : string) : bool :=
  forallb (fun c => negb (Ascii.eqb c "/"%char)) (list_ascii_of_string s).

(** A name in a folder: not empty, without a separator. *)
Definition is_name (name : string) : bool :=
  (negb (String.eqb name EmptyString) && no_separator name)%bool.

(** [c] is the path [a] or a path below it. *)
Definition below (a c : string) : bool :=
  (String.eqb c a || String.prefix (a +:+ "/") c)%bool.

(** A file: it exists and is not a folder that can be read. *)
Definition is_file {F} `{FileSystem F} (p : string) (f : F) : Prop :=
  existsSync p f = true /\ exists e, readdirSync p f = Rejected e.

(** Creating a folder leaves what exists in place, and a file a file; the
    files of a folder are among the names that reading the folder
    returns; after a move the target exists, and so does whatever existed
    elsewhere than at the source or below it; removing a folder or a
    file removes nothing else. *)
Class FileSystemLaws (F : Type) `{FileSystem F} : Prop := {
  mkdirSync_keeps p f f' c :
    mkdirSync p f = Resolved f' ->
    existsSync c f = true -> existsSync c f' = true;
  mkdirSync_keeps_file p f f' c :
    mkdirSync p f = Resolved f' -> is_file c f -> is_file c f';
  readdirSync_lists dir f names name :
    readdirSync dir f = Resolved names -> is_name name = true ->
    is_file (path_join dir name) f -> name ∈ names;
  renameSync_target a b f f' :
    renameSync a b f = Resolved f' -> existsSync b f' = true;
  renameSync_keeps a b f f' c :
    renameSync a b f = Resolved f' ->
    existsSync c f = true -> below a c = false -> existsSync c f' = true;
  rmdirSync_keeps p f f' c :
    rmdirSync p f = Resolved f' ->
    existsSync c f = true -> c <> p -> existsSync c f' = true;
  unlinkSync_keeps p f f' c :
    unlinkSync p f = Resolved f' ->
    existsSync c f = true -> c <> p -> existsSync c f' = true
}.

(** What a request handler acts on. *)
Record World (F : Type) : Type := mkWorld {
  db : DB;
  fs : F;
  console : list string
}.
Arguments mkWorld {F} db fs console.
Arguments db {F} w.
Arguments fs {F} w.
Arguments console {F} w.

(** *** Computations that act on the world and may throw *)

Definition M (F A : Type) : Type := World F -> result A * World F.

Definition ret {F A} (a : A) : M F A := fun w => (Resolved a, w).

Definition throw {F A} (e : string) : M F A := fun w => (Rejected e, w).

Definition bind {F A B} (m : M F A) (k : A -> M F B) : M F B :=
  fun w =>
    match m w with
    | (Resolved a, w') => k a w'
    | (Rejected e, w') => (Rejected e, w')
    end.

(** [try { m } catch (error) { h(error.message) }] *)
Definition try_catch {F A} (m : M F A) (h : string -> M F A) : M F A :=
  fun w =>
    match m w with
    | (Resolved a, w') => (Resolved a, w')
    | (Rejected e, w') => h e w'
    end.

Notation "'let*' x ':=' m 'in' k" := (bind m (fun x => k))
  (at level 10, x binder, m at level 100, k at level 200).

Definition console_log {F} (line : string) : M F unit :=
  fun w => (Resolved tt, mkWorld (db w) (fs w) (console w ++ [line])).

Definition fs_query {F A} (q : F -> A) : M F A :=
  fun w => (Resolved (q (fs w)), w).

Definition fs_call {F} (op : F -> result F) : M F unit :=
  fun w =>
    match op (fs w) with
    | Resolved f' => (Resolved tt, mkWorld (db w) f' (console w))
    | Rejected e => (Rejected e, w)
    end.

Definition fs_read {F A} (op : F -> result A) : M F A :=
  fun w => (op (fs w), w).

Definition db_read {F A} (q : DB -> result A) : M F A :=
  fun w => (q (db w), w).

Definition db_run {F A} (op : DB -> result A * DB) : M F A :=
  fun w =>
    let (r, d') := op (db w) in (r, mkWorld d' (fs w) (console w)).

Definition when {F} (b : bool) (m : M F unit) : M F unit :=
  if b then m else ret tt.

(** ** The main process *)

Definition base_url : string := "http://localhost:3000".

(** What [renameGameFolder] returns, by [return] statement. *)
Inductive RenameResult : Type :=
| Renamed (oldPath newPath : string)
| NoChange
| RenameError (message : string).

Definition success (r : RenameResult) : bool :=
  match r with
  | Renamed _ _ => true
  | _ => false
  end.

Definition no_change_message : string :=
  "No changes needed or folder not found".

(** The [message] of the result; the result of a migration done has
    none. *)
Definition message (r : RenameResult) : string :=
  match r with
  | Renamed _ _ => "undefined"
  | NoChange => no_change_message
  | RenameError m => m
  end.

(** The form fields of a request body; [None] is a field not sent. *)
Module Form.
Record t : Type := mk {
  title : option string;
  link : option string;
  rageRating : option string;
  finished : option string;
  is_checked : option string;
  platform : option string;
  strikes : option string;
  notes : option string
}.
End Form.

(** The stored names of the files of a request, by form field. *)
Module Files.
Record t : Type := mk {
  coverArt : option string;
  gameplayImage : option string
}.
Definition none : t := mk None None.
End Files.

Inductive Body : Type :=
| Message (text : string)
| Error (text : string).

Record Reply : Type := mkReply {
  status : Z;
  body : Body
}.

(** *** [parseInt] *)

Definition is_space (c : ascii) : bool :=
  existsb (Nat.eqb (nat_of_ascii c)) [9; 10; 11; 12; 13; 32; 160]%nat.

Fixpoint trim_start (l : list ascii) : list ascii :=
  match l with
  | c :: r => if is_space c then trim_start r else l
  | [] => []
  end.

Definition digit_value (radix : Z) (c : ascii) : option Z :=
  let n := Z.of_nat (nat_of_ascii c) in
  let v := if Str.in_range 48 57 c then Some (n - 48)
           else if Str.in_range 97 122 c then Some (n - 87)
           else if Str.in_range 65 90 c then Some (n - 55)
           else None in
  match v with
  | Some d => if d <? radix then Some d else None
  | None => None
  end.

(** The value of the longest prefix of digits; [acc] is [None] until a
    digit has been read. *)
Fixpoint read_digits (radix : Z) (l : list ascii) (acc : option Z)
  : option Z :=
  match l with
  | c :: r =>
      match digit_value radix c with
      | Some d => read_digits radix r (Some (radix * default 0 acc + d))
      | None => acc
      end
  | [] => acc
  end.

Definition hex_prefix (l : list ascii) : bool :=
  match l with
  | z :: x :: _ =>
      (Ascii.eqb z "0" && (Ascii.eqb x "x" || Ascii.eqb x "X"))%bool
  | _ => false
  end.

(** [parseInt(s)] without a radix; [None] is [NaN]. *)
Definition parseInt (s : string) : option Z :=
  let l := trim_start (list_ascii_of_string s) in
  let (sign, l) :=
    match l with
    | c :: r => if Ascii.eqb c "-" then (-1, r)
                else if Ascii.eqb c "+" then (1, r) else (1, l)
    | [] => (1, l)
    end in
  let (radix, l) := if hex_prefix l then (16, skipn 2 l) else (10, l) in
  option_map (Z.mul sign) (read_digits radix l None).

(** [parseInt(x) || 0] for a form field. *)
Definition parseInt_or_0 (x : option string) : Z :=
  or_default (x ≫= parseInt) 0.

(** [parseInt] returns a number, and a number holds an integer exactly up
    to 53 bits.  [parseInt] above reads the digits exactly: it is the
    function of the language on the strings whose value is such an
    integer, and a statement about the value read carries that
    condition. *)
Definition safe_integer (n : Z) : bool := Z.abs n <=? 2 ^ 53.

(** [Array.prototype.splice(start, deleteCount)] on the array itself;
    a [start] of [None] is [NaN]. *)
Definition splice {A} (start : option Z) (deleteCount : Z) (l : list A)
  : list A :=
  let len := Z.of_nat (List.length l) in
  let relativeStart := default 0 start in
  let actualStart := if relativeStart <? 0 then Z.max (len + relativeStart) 0
                     else Z.min relativeStart len in
  let count := Z.min (Z.max deleteCount 0) (len - actualStart) in
  firstn (Z.to_nat actualStart) l
  ++ skipn (Z.to_nat (actualStart + count)) l.

(** [array[index]]; [None] is [undefined]. *)
Definition element {A} (index : option Z) (l : list A) : option A :=
  match index with
  | Some i => if i <? 0 then None else nth_error l (Z.to_nat i)
  | None => None
  end.

(** [index < 0 || index >= length]: both comparisons are false on [NaN]. *)
Definition out_of_range (index : option Z) (length : nat) : bool :=
  match index with
  | Some i => ((i <? 0) || (Z.of_nat length <=? i))%bool
  | None => false
  end.

Definition to_field {A} (x : option A) : field A :=
  match x with
  | Some a => Val a
  | None => Null
  end.

Definition to_field_undefined {A} (x : option A) : field A :=
  match x with
  | Some a => Val a
  | None => Undefined
  end.

Definition set_coverArtPath (p : field string) (g : GameData.t) : GameData.t :=
  GameData.mk (GameData.title g) (GameData.link g) (GameData.rageRating g)
    (GameData.finished g) (GameData.is_checked g) (GameData.platform g)
    (GameData.strikes g) (GameData.notes g) p (GameData.gameplayImagePath g)
    (GameData.additionalPhotos g) (GameData.additionalNotes g).

Definition set_gameplayImagePath (p : field string) (g : GameData.t)
  : GameData.t :=
  GameData.mk (GameData.title g) (GameData.link g) (GameData.rageRating g)
    (GameData.finished g) (GameData.is_checked g) (GameData.platform g)
    (GameData.strikes g) (GameData.notes g) (GameData.coverArtPath g) p
    (GameData.additionalPhotos g) (GameData.additionalNotes g).

Definition cannot_read_replace : string :=
  "Cannot read properties of undefined (reading 'replace')".
Definition cannot_read_replace_of_null : string :=
  "Cannot read properties of null (reading 'replace')".
Definition cannot_read_path : string :=
  "Cannot read properties of undefined (reading 'path')".
Definition cannot_read_path_of_null : string :=
  "Cannot read properties of null (reading 'path')".
Definition replace_not_function : string :=
  "photoToDelete.path.replace is not a function".

(** [`/uploads/${folder}/`] *)
Definition uploads_segment (folder : string) : string :=
  "/uploads/" +:+ folder +:+ "/".

(** [`http://localhost:${PORT}/uploads/${folder}/${filename}`] *)
Definition upload_url (folder filename : string) : string :=
  base_url +:+ "/uploads/" +:+ folder +:+ "/" +:+ filename.

(** The file of that URL, where the upload middleware stores it and the
    static route [/uploads] finds it:
    [path.join(getAppDataPath(), 'uploads', folder, filename)]. *)
Definition upload_file (appDataPath folder filename : string) : string :=
  path_join (path_join (path_join appDataPath "uploads") folder) filename.

Section MainProcess.

Context {F : Type} `{FileSystem F}.

(** [getAppDataPath()] *)
Variable appDataPath : string.

(** The loop of [renameGameFolder] over the names read from the old
    folder. *)
Fixpoint move_files (oldPath newPath : string) (files : list string)
  : M F unit :=
  match files with
  | [] => ret tt
  | file :: rest =>
      let oldFilePath := path_join oldPath file in
      let newFilePath := path_join newPath file in
      let* _ := fs_call (renameSync oldFilePath newFilePath) in
      move_files oldPath newPath rest
  end.

(** [renameGameFolder]: it never throws, what goes wrong inside is caught
    and reported in the result. *)
Definition renameGameFolder (oldTitle newTitle : string)
  : M F RenameResult :=
  try_catch
    (let oldFolderName := sanitizeFolderName oldTitle in
     let newFolderName := sanitizeFolderName newTitle in
     let uploadsPath := path_join appDataPath "uploads" in
     let oldPath := path_join uploadsPath oldFolderName in
     let newPath := path_join uploadsPath newFolderName in
     let* old_exists := fs_query (existsSync oldPath) in
     if (old_exists && negb (String.eqb oldFolderName newFolderName))%bool
     then
       let* new_exists := fs_query (existsSync newPath) in
       let* _ := when (negb new_exists) (fs_call (mkdirSync newPath)) in
       let* files := fs_read (readdirSync oldPath) in
       let* _ := move_files oldPath newPath files in
       let* _ :=
         try_catch (fs_call (rmdirSync oldPath))
           (fun err =>
              console_log ("Could not remove old directory " +:+ oldPath
                           +:+ ": " +:+ err)) in
       ret (Renamed oldPath newPath)
     else ret NoChange)
    (fun error =>
       let* _ := console_log ("Error renaming game folder: " +:+ error) in
       ret (RenameError error)).

(** The image path of the update, with the folder segment of the old
    title replaced by that of the new one:
    [if (path) path = path.replace(old, new)]. *)
Definition rewrite_path (oldTitle newTitle : string) (p : field string)
  : field string :=
  match p with
  | Val s =>
      if truthy s then
        let oldFolder := sanitizeFolderName oldTitle in
        let newFolder := sanitizeFolderName newTitle in
        Val (Str.replace (uploads_segment oldFolder)
                         (uploads_segment newFolder) s)
      else p
  | _ => p
  end.

(** "Update image paths if they exist": both image paths of [gameData]
    rewritten. *)
Definition rewritten_data (oldTitle newTitle : string) (gameData : GameData.t)
  : GameData.t :=
  let rewrite := rewrite_path oldTitle newTitle in
  set_gameplayImagePath (rewrite (GameData.gameplayImagePath gameData))
    (set_coverArtPath (rewrite (GameData.coverArtPath gameData)) gameData).

(** The old file of a replaced image is removed from the disk when its
    path is set and the file is there. *)
Definition delete_old_file (old : option string) : M F unit :=
  if truthy old then
    let oldPath := Str.replace base_url appDataPath (default EmptyString old) in
    let* there := fs_query (existsSync oldPath) in
    when there (fs_call (unlinkSync oldPath))
  else ret tt.

(** [sanitizeFolderName(gameData.title)]: the method call throws on a
    title that is not there. *)
Definition folder_of (title : field string) : M F string :=
  match title with
  | Val t => ret (sanitizeFolderName t)
  | _ => throw cannot_read_replace
  end.

(** The [gameData] object that the update route builds from the form. *)
Definition form_data (b : Form.t) (existingGame : Game.t) : GameData.t :=
  GameData.mk
    (to_field_undefined (Form.title b))
    (Val (or_default (Form.link b) EmptyString))
    (Val (parseInt_or_0 (Form.rageRating b)))
    (Val (bool_decide (Form.finished b = Some "true")))
    (Val (bool_decide (Form.is_checked b = Some "true")))
    (Val (or_default (Form.platform b) EmptyString))
    (Val (parseInt_or_0 (Form.strikes b)))
    (Val (or_default (Form.notes b) EmptyString))
    (to_field (Game.coverArtPath existingGame))
    (to_field (Game.gameplayImagePath existingGame))
    Undefined Undefined.

(** [req.body.title && existingGame.title !== req.body.title] *)
Definition title_changed (b : Form.t) (existingGame : Game.t) : bool :=
  (truthy (Form.title b)
   && negb (String.eqb (Game.title existingGame)
              (default EmptyString (Form.title b))))%bool.

(** The block "Handle folder renaming if title changed". *)
Definition rename_step (b : Form.t) (existingGame : Game.t)
    (gameData : GameData.t) : M F GameData.t :=
  if title_changed b existingGame then
    let newTitle := default EmptyString (Form.title b) in
    let* renameResult := renameGameFolder (Game.title existingGame) newTitle in
    let* _ := when (negb (success renameResult))
                (console_log ("Folder rename warning: "
                              +:+ message renameResult)) in
    ret (rewritten_data (Game.title existingGame) newTitle gameData)
  else ret gameData.

(** The block "Handle file uploads". *)
Definition upload_step (files : Files.t) (existingGame : Game.t)
    (folderName : string) (gameData : GameData.t) : M F GameData.t :=
  let* gameData :=
    match Files.coverArt files with
    | Some filename =>
        let* _ := delete_old_file (Game.coverArtPath existingGame) in
        ret (set_coverArtPath (Val (upload_url folderName filename)) gameData)
    | None => ret gameData
    end in
  match Files.gameplayImage files with
  | Some filename =>
      let* _ := delete_old_file (Game.gameplayImagePath existingGame) in
      ret (set_gameplayImagePath (Val (upload_url folderName filename))
             gameData)
  | None => ret gameData
  end.

(** [POST /games/update/:id], after the upload middleware has stored the
    files of the request. *)
Definition update_route (gameId : Z) (b : Form.t) (files : Files.t)
  : M F Reply :=
  try_catch
    (let* existingGame := db_read (getGameById gameId) in
     match existingGame with
     | None => ret (mkReply 404 (Error game_not_found))
     | Some existingGame =>
         let gameData := form_data b existingGame in
         let* gameData := rename_step b existingGame gameData in
         let* folderName := folder_of (GameData.title gameData) in
         let* gameData := upload_step files existingGame folderName gameData in
         let* _ := db_run (updateGame gameId gameData) in
         ret (mkReply 200 (Message "Game updated successfully"))
     end)
    (fun error =>
       let* _ := console_log ("Error updating game: " +:+ error) in
       ret (mkReply 500 (Error error))).

(** *** Deleting a photo or a note by index *)

(** [value || []] for a stored list value that is an array or falsy.  The
    handlers below are not modelled on values of another shape (an object
    or a non-empty string, which only an import can store). *)
Definition as_array (v : JSON.json) : option (list JSON.json) :=
  match v with
  | JSON.JArr l => Some l
  | _ => if truthy v then None else Some []
  end.

Fixpoint property (key : string) (m : list (string * JSON.json))
  : option JSON.json :=
  match m with
  | [] => None
  | (k, v) :: m' => if String.eqb k key then Some v else property key m'
  end.

(** [photoToDelete.path.replace(base, root)]: the element must be there and
    carry a string under [path]. *)
Definition photo_file_path (photoToDelete : option JSON.json) : M F string :=
  match photoToDelete with
  | Some (JSON.JObj m) =>
      match property "path" m with
      | Some (JSON.JStr p) => ret (Str.replace base_url appDataPath p)
      | Some JSON.JNull => throw cannot_read_replace_of_null
      | Some _ => throw replace_not_function
      | None => throw cannot_read_replace
      end
  | Some JSON.JNull => throw cannot_read_path_of_null
  | None => throw cannot_read_path
  | Some _ => throw cannot_read_replace
  end.

Definition photos_payload (l : list JSON.json) : GameData.t :=
  GameData.mk Undefined Undefined Undefined Undefined Undefined Undefined
    Undefined Undefined Undefined Undefined (Val (JSON.JArr l)) Undefined.

Definition notes_payload (l : list JSON.json) : GameData.t :=
  GameData.mk Undefined Undefined Undefined Undefined Undefined Undefined
    Undefined Undefined Undefined Undefined Undefined (Val (JSON.JArr l)).

(** The handler of [DELETE /games/:id/delete-photo/:photoIndex] on the
    array of photos of the game. *)
Definition delete_photo_from (gameId : Z) (photoIndex : option Z)
    (additionalPhotos : list JSON.json) : M F Reply :=
  if out_of_range photoIndex (List.length additionalPhotos)
  then ret (mkReply 400 (Error "Invalid photo index"))
  else
    let photoToDelete := element photoIndex additionalPhotos in
    let* filePath := photo_file_path photoToDelete in
    let* there := fs_query (existsSync filePath) in
    let* _ := when there (fs_call (unlinkSync filePath)) in
    let additionalPhotos := splice photoIndex 1 additionalPhotos in
    let* _ := db_run (updateGame gameId (photos_payload additionalPhotos)) in
    ret (mkReply 200 (Message "Photo deleted successfully")).

(** [DELETE /games/:id/delete-photo/:photoIndex]; [None] on a stored value
    that [as_array] does not cover. *)
Definition delete_photo_route (gameId : Z) (photoIndexParam : string)
  : World F -> option (result Reply * World F) :=
  fun w =>
    let photoIndex := parseInt photoIndexParam in
    match getGameById gameId (db w) with
    | Resolved (Some game) =>
        match as_array (Game.additionalPhotos game) with
        | Some additionalPhotos =>
            Some (try_catch
                    (delete_photo_from gameId photoIndex additionalPhotos)
                    (fun error =>
                       let* _ := console_log ("Error deleting photo: "
                                              +:+ error) in
                       ret (mkReply 500 (Error error))) w)
        | None => None
        end
    | Resolved None => Some (ret (mkReply 404 (Error game_not_found)) w)
    | Rejected error =>
        Some ((let* _ := console_log ("Error deleting photo: " +:+ error) in
               ret (mkReply 500 (Error error))) w)
    end.

(** The handler of [DELETE /games/:id/delete-note/:noteIndex] on the array
    of notes of the game. *)
Definition delete_note_from (gameId : Z) (noteIndex : option Z)
    (additionalNotes : list JSON.json) : M F Reply :=
  if out_of_range noteIndex (List.length additionalNotes)
  then ret (mkReply 400 (Error "Invalid note index"))
  else
    let additionalNotes := splice noteIndex 1 additionalNotes in
    let* _ := db_run (updateGame gameId (notes_payload additionalNotes)) in
    ret (mkReply 200 (Message "Note deleted successfully")).

(** [DELETE /games/:id/delete-note/:noteIndex] *)
Definition delete_note_route (gameId : Z) (noteIndexParam : string)
  : World F -> option (result Reply * World F) :=
  fun w =>
    let noteIndex := parseInt noteIndexParam in
    match getGameById gameId (db w) with
    | Resolved (Some game) =>
        match as_array (Game.additionalNotes game) with
        | Some additionalNotes =>
            Some (try_catch
                    (delete_note_from gameId noteIndex additionalNotes)
                    (fun error =>
                       let* _ := console_log ("Error deleting note: "
                                              +:+ error) in
                       ret (mkReply 500 (Error error))) w)
        | None => None
        end
    | Resolved None => Some (ret (mkReply 404 (Error game_not_found)) w)
    | Rejected error =>
        Some ((let* _ := console_log ("Error deleting note: " +:+ error) in
               ret (mkReply 500 (Error error))) w)
    end.

End MainProcess.

(** ** A disk: folders of files

    A file system for running the handlers: the folders by path, each with
    the names of its files, and the paths of the files that may not be
    moved (the rename of such a file throws [EACCES]). *)

Module Disk.

Record t : Type := mk {
  folders : list (string * list string);
  locked : list string
}.

Fixpoint lookup (dir : string) (l : list (string * list string))
  : option (list string) :=
  match l with
  | [] => None
  | (d, files) :: l' => if String.eqb d dir then Some files else lookup dir l'
  end.

Fixpoint update (dir : string) (files : list string)
    (l : list (string * list string)) : list (string * list string) :=
  match l with
  | [] => []
  | (d, old) :: l' =>
      if String.eqb d dir then (d, files) :: l'
      else (d, old) :: update dir files l'
  end.

Fixpoint remove (dir : string) (l : list (string * list string))
  : list (string * list string) :=
  match l with
  | [] => []
  | (d, files) :: l' =>
      if String.eqb d dir then l' else (d, files) :: remove dir l'
  end.

(** The folder and the name of a path, split at its last separator. *)
Fixpoint split_path (p : string) : option (string * string) :=
  match p with
  | EmptyString => None
  | String c p' =>
      match split_path p' with
      | Some (dir, name) => Some (String c dir, name)
      | None => if Ascii.eqb c "/" then Some (EmptyString, p') else None
      end
  end.

Definition mem (x : string) (l : list string) : bool :=
  existsb (String.eqb x) l.

Definition without (x : string) (l : list string) : list string :=
  List.filter (fun y => negb (String.eqb x y)) l.

Definition has_file (p : string) (d : t) : bool :=
  match split_path p with
  | Some (dir, name) =>
      match lookup dir (folders d) with
      | Some files => mem name files
      | None => false
      end
  | None => false
  end.

Definition has_folder (p : string) (d : t) : bool :=
  match lookup p (folders d) with
  | Some _ => true
  | None => false
  end.

Definition exists_ (p : string) (d : t) : bool :=
  (has_folder p d || has_file p d)%bool.

Definition mkdir (p : string) (d : t) : result t :=
  if exists_ p d then Resolved d
  else Resolved (mk (folders d ++ [(p, [])]) (locked d)).

Definition readdir (p : string) (d : t) : result (list string) :=
  match lookup p (folders d) with
  | Some files => Resolved files
  | None => Rejected ("ENOENT: no such file or directory, scandir '"
                      +:+ p +:+ "'")
  end.

Definition rename (old new : string) (d : t) : result t :=
  if mem old (locked d) then
    Rejected ("EACCES: permission denied, rename '" +:+ old +:+ "' -> '"
              +:+ new +:+ "'")
  else
    match split_path old, split_path new with
    | Some (odir, oname), Some (ndir, nname) =>
        match lookup odir (folders d) with
        | Some ofiles =>
            if mem oname ofiles then
              let fs1 := update odir (without oname ofiles) (folders d) in
              match lookup ndir fs1 with
              | Some nfiles =>
                  Resolved
                    (mk (update ndir (without nname nfiles ++ [nname]) fs1)
                        (locked d))
              | None => Rejected "ENOENT: no such file or directory, rename"
              end
            else Rejected "ENOENT: no such file or directory, rename"
        | None => Rejected "ENOENT: no such file or directory, rename"
        end
    | _, _ => Rejected "ENOENT: no such file or directory, rename"
    end.

Definition rmdir (p : string) (d : t) : result t :=
  match lookup p (folders d) with
  | Some [] => Resolved (mk (remove p (folders d)) (locked d))
  | Some (_ :: _) => Rejected ("ENOTEMPTY: directory not empty, rmdir '"
                               +:+ p +:+ "'")
  | None => Rejected ("ENOENT: no such file or directory, rmdir '"
                      +:+ p +:+ "'")
  end.

Definition unlink (p : string) (d : t) : result t :=
  match split_path p with
  | Some (dir, name) =>
      match lookup dir (folders d) with
      | Some files =>
          if mem name files
          then Resolved (mk (update dir (without name files) (folders d))
                            (locked d))
          else Rejected "ENOENT: no such file or directory, unlink"
      | None => Rejected "ENOENT: no such file or directory, unlink"
      end
  | None => Rejected "ENOENT: no such file or directory, unlink"
  end.

#[global] Instance file_system : FileSystem t := {
  existsSync := exists_;
  mkdirSync := mkdir;
  readdirSync := readdir;
  renameSync := rename;
  rmdirSync := rmdir;
  unlinkSync := unlink
}.

End Disk.

(** ** Measures and predicates used in the proofs about JSON text *)

Module JSONSize.
Import JSON.

(** The number of nested calls that parsing the text of a value takes. *)
Fixpoint size (v : json) : nat :=
  match v with
  | JArr l =>
      S ((fix elements (l : list json) : nat :=
            match l with
            | [] => O
            | x :: l' => S (size x + elements l')
            end) l)
  | JObj m =>
      S ((fix members (m : list (string * json)) : nat :=
            match m with
            | [] => O
            | kv :: m' => S (size (snd kv) + members m')
            end) m)
  | _ => 1%nat
  end.

Fixpoint elements_size (l : list json) : nat :=
  match l with
  | [] => O
  | x :: l' => S (size x + elements_size l')
  end.

Fixpoint members_size (m : list (string * json)) : nat :=
  match m with
  | [] => O
  | kv :: m' => S (size (snd kv) + members_size m')
  end.

(** A character that may open the text of a value. *)
Definition value_start (c : ascii) : bool :=
  (Ascii.eqb c "n" || Ascii.eqb c "t" || Ascii.eqb c "f"
   || Ascii.eqb c c_quote || Ascii.eqb c "[" || Ascii.eqb c "{"
   || Ascii.eqb c "-" || Str.in_range 48 57 c)%bool.

(** What follows the text of a value does not continue a number. *)
Definition delimited (rest : list ascii) : Prop :=
  match rest with
  | [] => True
  | c :: _ => digit c = None /\ starts_fraction rest = false
  end.

(** The text of [v], whatever follows it, parses back to [v]. *)
Definition parses_back (v : json) : Prop :=
  forall fuel rest,
    (size v <= fuel)%nat -> delimited rest ->
    parse_value fuel (print v ++ rest) = Some (v, rest).

(** The printer of the members of an object. *)
Definition print_member (kv : string * json) : list ascii :=
  quote (fst kv) ++ ":"%char :: print (snd kv).

End JSONSize.

(** ** The rows that the store writes *)

(** A list column as the store writes it: the text of a truthy value. *)
Definition list_column (col : option string) : Prop :=
  exists v, JSON.distinct_keys v /\ truthy v = true /\
            col = Some (JSON.stringify v).

Definition flag_column (col : option Z) : Prop := col = Some 0 \/ col = Some 1.

(** What [createGame] and [updateGame] establish of a row. *)
Record written (r : Row.t) : Prop := {
  written_link : is_Some (Row.link r);
  written_rageRating : is_Some (Row.rageRating r);
  written_finished : flag_column (Row.finished r);
  written_is_checked : flag_column (Row.is_checked r);
  written_platform : is_Some (Row.platform r);
  written_strikes : is_Some (Row.strikes r);
  written_notes : is_Some (Row.notes r);
  written_coverArtPath : Row.coverArtPath r <> Some EmptyString;
  written_gameplayImagePath : Row.gameplayImagePath r <> Some EmptyString;
  written_additionalPhotos : list_column (Row.additionalPhotos r);
  written_additionalNotes : list_column (Row.additionalNotes r)
}.

(** Every row of the database is as the store writes rows. *)
Definition store_written (d : DB) : Prop :=
  forall id r, rows d !! id = Some r -> written r.

(** The list values of a payload are values of the language. *)
Definition payload_lists_ok (g : GameData.t) : Prop :=
  (forall v, GameData.additionalPhotos g = Val v -> JSON.distinct_keys v) /\
  (forall v, GameData.additionalNotes g = Val v -> JSON.distinct_keys v).

(** *** The partial update as the specification words it *)

Module UpdateSpec.

(** A key counts as provided when it is present in the payload. *)
Definition provided {A} (x : field A) : bool :=
  match x with
  | Undefined => false
  | _ => true
  end.

(** The stored value of a key: the payload's value where the key is
    provided, written through [encode]; the stored value otherwise. *)
Definition replaced {A B} (encode : option A -> B) (x : field A) (stored : B)
  : B :=
  if provided x then encode (to_option x) else stored.

(** "[r] with exactly the keys present in [p] replaced by [p]'s values":
    the values are taken as they are. *)
Definition replace_keys (p : GameData.t) (r : Row.t) : Row.t :=
  Row.mk
    (replaced (default EmptyString) (GameData.title p) (Row.title r))
    (replaced id (GameData.link p) (Row.link r))
    (replaced id (GameData.rageRating p) (Row.rageRating r))
    (replaced (option_map (fun b : bool => if b then 1 else 0))
       (GameData.finished p) (Row.finished r))
    (replaced (option_map (fun b : bool => if b then 1 else 0))
       (GameData.is_checked p) (Row.is_checked r))
    (replaced id (GameData.platform p) (Row.platform r))
    (replaced id (GameData.strikes p) (Row.strikes r))
    (replaced id (GameData.notes p) (Row.notes r))
    (replaced id (GameData.coverArtPath p) (Row.coverArtPath r))
    (replaced id (GameData.gameplayImagePath p) (Row.gameplayImagePath r))
    (Row.dateAdded r)
    (replaced (option_map JSON.stringify) (GameData.additionalPhotos p)
       (Row.additionalPhotos r))
    (replaced (option_map JSON.stringify) (GameData.additionalNotes p)
       (Row.additionalNotes r)).

(** The same, with each provided value normalized the way the write
    boundary of the store does. *)
Definition replace_keys_normalized (p : GameData.t) (r : Row.t) : Row.t :=
  Row.mk
    (replaced (default EmptyString) (GameData.title p) (Row.title r))
    (replaced (fun x => Some (or_default x EmptyString)) (GameData.link p)
       (Row.link r))
    (replaced (fun x => Some (or_default x 0)) (GameData.rageRating p)
       (Row.rageRating r))
    (replaced (fun x => Some (one_or_zero x)) (GameData.finished p)
       (Row.finished r))
    (replaced (fun x => Some (one_or_zero x)) (GameData.is_checked p)
       (Row.is_checked r))
    (replaced (fun x => Some (or_default x EmptyString)) (GameData.platform p)
       (Row.platform r))
    (replaced (fun x => Some (or_default x 0)) (GameData.strikes p)
       (Row.strikes r))
    (replaced (fun x => Some (or_default x EmptyString)) (GameData.notes p)
       (Row.notes r))
    (replaced or_null (GameData.coverArtPath p) (Row.coverArtPath r))
    (replaced or_null (GameData.gameplayImagePath p) (Row.gameplayImagePath r))
    (Row.dateAdded r)
    (replaced (fun x => Some (encode_list x)) (GameData.additionalPhotos p)
       (Row.additionalPhotos r))
    (replaced (fun x => Some (encode_list x)) (GameData.additionalNotes p)
       (Row.additionalNotes r)).

End UpdateSpec.

(** The provided values of a payload that the write boundary stores as
    they are: no [null] for a column with a default, no empty image path,
    no falsy list value. *)
Definition stored_as_given (p : GameData.t) : Prop :=
  GameData.link p <> Null /\ GameData.rageRating p <> Null /\
  GameData.finished p <> Null /\ GameData.is_checked p <> Null /\
  GameData.platform p <> Null /\ GameData.strikes p <> Null /\
  GameData.notes p <> Null /\
  GameData.coverArtPath p <> Val EmptyString /\
  GameData.gameplayImagePath p <> Val EmptyString /\
  GameData.additionalPhotos p <> Null /\
  (forall v, GameData.additionalPhotos p = Val v -> truthy v = true) /\
  GameData.additionalNotes p <> Null /\
  (forall v, GameData.additionalNotes p = Val v -> truthy v = true).

(** ** Sample data *)

Module Sample.

Definition doom_cover : string :=
  "http://localhost:3000/uploads/doom/cover_x.png".

(** A row as [createGame] writes it for the title "Doom" with a cover. *)
Definition doom : Row.t :=
  Row.mk "Doom" (Some EmptyString) (Some 5) (Some 0) (Some 0) (Some "PC")
    (Some 0) (Some EmptyString) (Some doom_cover) None (Some "2024-01-01")
    (Some "[]") (Some "[]").

Definition store : DB := mkDB {[ 1 := doom ]} 1 "2024-01-02".

(** The payload [{ coverArtPath: '' }]. *)
Definition empty_cover : GameData.t :=
  GameData.mk Undefined Undefined Undefined Undefined Undefined Undefined
    Undefined Undefined (Val EmptyString) Undefined Undefined Undefined.

(** The payload [{ finished: true }]. *)
Definition finished_only : GameData.t :=
  GameData.mk Undefined Undefined Undefined (Val true) Undefined Undefined
    Undefined Undefined Undefined Undefined Undefined Undefined.

Definition photo (file : string) : JSON.json :=
  JSON.JObj [("path", JSON.JStr (upload_url "doom" file));
             ("filename", JSON.JStr file);
             ("dateAdded", JSON.JStr "2024-01-02T10:00:00.000Z")].

Definition note (content : string) : JSON.json :=
  JSON.JObj [("content", JSON.JStr content);
             ("dateAdded", JSON.JStr "2024-01-02T10:00:00.000Z")].

Definition with_lists (title : string) (photos notes : list JSON.json)
  : GameData.t :=
  GameData.mk (Val title) Undefined Undefined Undefined Undefined Undefined
    Undefined Undefined Undefined Undefined
    (Val (JSON.JArr photos)) (Val (JSON.JArr notes)).

End Sample.

(** ** Predicates on handlers and rows used in the statements *)

(** A computation that does not touch the database. *)
Definition keeps_db {F A} (m : M F A) : Prop :=
  forall w r w', m w = (r, w') -> db w' = db w.

(** An image path is null or the upload URL of a file in the folder of
    [title]. *)
Definition keyed_by (title : string) (path : option string) : Prop :=
  forall p, path = Some p ->
            exists file, p = upload_url (sanitizeFolderName title) file.

(** The files that the uploads of a request replace: for each image that
    the request carries a file for, the file that the handler looks for
    under the stored path of that image, and removes. *)
Definition replaced_file (appDataPath : string) (upload old : option string)
  : list string :=
  match upload with
  | Some _ =>
      if truthy old
      then [Str.replace base_url appDataPath (default EmptyString old)]
      else []
  | None => []
  end.

Definition replaced_files (appDataPath : string) (files : Files.t)
    (coverArtPath gameplayImagePath : option string) : list string :=
  replaced_file appDataPath (Files.coverArt files) coverArtPath
  ++ replaced_file appDataPath (Files.gameplayImage files) gameplayImagePath.

(** The folder migration from the old title to the new one has nothing to
    move, because the two titles have the same token, or has moved the
    folder. *)
Definition migrated {F} `{FileSystem F} (appDataPath : string)
    (oldTitle newTitle : string) (w : World F) : Prop :=
  sanitizeFolderName oldTitle = sanitizeFolderName newTitle \/
  exists oldPath newPath w1,
    renameGameFolder appDataPath oldTitle newTitle w
    = (Resolved (Renamed oldPath newPath), w1).

(** The image paths of [gameData] after the uploads of the request. *)
Definition uploaded_data (files : Files.t) (folderName : string)
    (gameData : GameData.t) : GameData.t :=
  let gameData :=
    match Files.coverArt files with
    | Some filename =>
        set_coverArtPath (Val (upload_url folderName filename)) gameData
    | None => gameData
    end in
  match Files.gameplayImage files with
  | Some filename =>
      set_gameplayImagePath (Val (upload_url folderName filename)) gameData
  | None => gameData
  end.

(** The [gameData] that the update route hands to [updateGame] for a form
    with the title [title]. *)
Definition final_data (b : Form.t) (files : Files.t) (existingGame : Game.t)
    (title : string) : GameData.t :=
  let gameData := form_data b existingGame in
  let gameData :=
    if title_changed b existingGame
    then rewritten_data (Game.title existingGame) title gameData
    else gameData in
  uploaded_data files (sanitizeFolderName title) gameData.

(** *** Sample worlds *)

Module SampleWorld.

Definition root : string := "/app".

(** The upload folder of "Doom" holds the cover; the cover may not be
    moved on [locked_disk]. *)
Definition disk : Disk.t :=
  Disk.mk [("/app/uploads", []); ("/app/uploads/doom", ["cover_x.png"])] [].

Definition locked_disk : Disk.t :=
  Disk.mk [("/app/uploads", []); ("/app/uploads/doom", ["cover_x.png"])]
          ["/app/uploads/doom/cover_x.png"].

Definition world : World Disk.t := mkWorld Sample.store disk [].

Definition locked_world : World Disk.t := mkWorld Sample.store locked_disk [].

(** The form of the edit dialog, with the given title. *)
Definition form (title : option string) : Form.t :=
  Form.mk title (Some EmptyString) (Some "5") (Some "false") (Some "false")
    (Some "PC") (Some "0") (Some EmptyString).

(** A game with two photos and two notes. *)
Definition annotated : Row.t :=
  Row.mk "Doom" (Some EmptyString) (Some 5) (Some 0) (Some 0) (Some "PC")
    (Some 0) (Some EmptyString) None None (Some "2024-01-01")
    (Some (JSON.stringify
             (JSON.JArr [Sample.photo "additional_1.png";
                         Sample.photo "additional_2.png"])))
    (Some (JSON.stringify
             (JSON.JArr [Sample.note "first"; Sample.note "second"]))).

Definition annotated_world : World Disk.t :=
  mkWorld (mkDB {[ 1 := annotated ]} 1 "2024-01-02") disk [].

Definition doom_game : Game.t :=
  Game.mk 1 "Doom" (Some EmptyString) 5 false false (Some "PC") 0
    (Some EmptyString)
    (Some Sample.doom_cover) None (Some "2024-01-01")
    (JSON.JArr []) (JSON.JArr []).

(** The error of moving the locked cover. *)
Definition eacces : string :=
  "EACCES: permission denied, rename '/app/uploads/doom/cover_x.png'"
  +:+ " -> '/app/uploads/quake/cover_x.png'".

(** Renaming "Doom" to "Quake" where the cover may not be moved. *)
Definition failed_update : result Reply * World Disk.t :=
  update_route root 1 (form (Some "Quake")) Files.none locked_world.

(** Saving the form with an empty title. *)
Definition untitled_update : result Reply * World Disk.t :=
  update_route root 1 (form (Some EmptyString)) Files.none world.

(** Saving a form that carries the title and nothing else. *)
Definition bare_form : Form.t :=
  Form.mk (Some "Doom") None None None None None None None.

Definition bare_update : result Reply * World Disk.t :=
  update_route root 1 bare_form Files.none world.

(** Deleting the photo with the index "abc". *)
Definition delete_photo_abc : option (result Reply * World Disk.t) :=
  delete_photo_route root 1 "abc" annotated_world.

End SampleWorld.

(** ** The other operations of the store *)

(** [deleteGame]: the number of rows deleted. *)
Definition deleteGame (id : Z) (d : DB) : result Z * DB :=
  match rows d !! id with
  | Some _ => (Resolved 1, mkDB (delete id (rows d)) (sequence d) (today d))
  | None => (Resolved 0, d)
  end.

(** [clearAllGames]: the number of rows deleted; the counter of
    [AUTOINCREMENT] is not a column of the table and stays. *)
Definition clearAllGames (d : DB) : result Z * DB :=
  (Resolved (Z.of_nat (size (rows d))), mkDB ∅ (sequence d) (today d)).

(** No row has an id above the counter of [AUTOINCREMENT]. *)
Definition sequenced (d : DB) : Prop :=
  forall id r, rows d !! id = Some r -> id <= sequence d.

(** ** The other routes of the main process

    As for the update route, a handler is modelled from the point where
    the upload middleware has stored the files of the request.  The lines
    of [console.warn] and [console.error] are those of the console of the
    world; what [console.log] prints goes to the standard output, which
    the world does not hold. *)

(** [String.prototype.trim] on code units below 256: the white space and
    the line terminators that it strips are those that [parseInt] skips. *)
Definition trim (s : string) : string :=
  string_of_list_ascii
    (rev (trim_start (rev (trim_start (list_ascii_of_string s))))).

(** What a handler sends with [res.json]: a body with the status 200, or
    [{ error }] with another status. *)
Inductive Response (A : Type) : Type :=
| Json (body : A)
| Failure (status : Z) (error : string).
Arguments Json {A} body.
Arguments Failure {A} status error.

(** [{ id, message }] *)
Module CreateReply.
Record t : Type := mk {
  id : Z;
  message : string
}.
End CreateReply.

(** [{ createdCount, message }] *)
Module BulkReply.
Record t : Type := mk {
  createdCount : Z;
  message : string
}.
End BulkReply.

(** [{ message, photo: { path, filename } }] *)
Module PhotoReply.
Record t : Type := mk {
  message : string;
  path : string;
  filename : string
}.
End PhotoReply.

(** The [gameData] object that the create route builds from the form. *)
Definition create_data (b : Form.t) : GameData.t :=
  GameData.mk
    (to_field_undefined (Form.title b))
    (Val (or_default (Form.link b) EmptyString))
    (Val (parseInt_or_0 (Form.rageRating b)))
    (Val (bool_decide (Form.finished b = Some "true")))
    (Val (bool_decide (Form.is_checked b = Some "true")))
    (Val (or_default (Form.platform b) EmptyString))
    (Val (parseInt_or_0 (Form.strikes b)))
    (Val (or_default (Form.notes b) EmptyString))
    Null Null Undefined Undefined.

(** The image paths of the create route: the upload URL of each file of
    the request. *)
Definition created_paths (files : Files.t) (folderName : string)
    (gameData : GameData.t) : GameData.t :=
  let gameData :=
    match Files.coverArt files with
    | Some filename =>
        set_coverArtPath (Val (upload_url folderName filename)) gameData
    | None => gameData
    end in
  match Files.gameplayImage files with
  | Some filename =>
      set_gameplayImagePath (Val (upload_url folderName filename)) gameData
  | None => gameData
  end.

(** The [gameData] object of the bulk route for one title. *)
Definition bulk_data (title : string) : GameData.t :=
  GameData.mk (Val (trim title)) (Val EmptyString) (Val 0) (Val false)
    Undefined (Val EmptyString) (Val 0) (Val EmptyString) Null Null
    Undefined Undefined.

(** [typeof title === 'string' && title.trim() !== '']: the title of an
    element that passes the test. *)
Definition entry_title (title : JSON.json) : option string :=
  match title with
  | JSON.JStr s =>
      if negb (String.eqb (trim s) EmptyString) then Some s else None
  | _ => None
  end.

Definition bulk_message (createdCount : Z) : string :=
  "Successfully created " +:+ JSON.text (JSON.print_Z createdCount)
  +:+ " new entries".

(** The photo that the add-photo route pushes. *)
Definition photo_entry (photoPath filename now : string) : JSON.json :=
  JSON.JObj [("path", JSON.JStr photoPath);
             ("filename", JSON.JStr filename);
             ("dateAdded", JSON.JStr now)].

(** The note that the add-note route pushes. *)
Definition note_entry (content now : string) : JSON.json :=
  JSON.JObj [("content", JSON.JStr content);
             ("dateAdded", JSON.JStr now)].

(** [SELECT COUNT( * ) FROM games WHERE is_checked == flag]: a row whose
    column is [NULL] is not counted. *)
Definition count_is_checked (flag : Z) (d : DB) : Z :=
  Z.of_nat
    (length (filter (fun kr : Z * Row.t => Row.is_checked kr.2 = Some flag)
               (table_scan d))).

Section Routes.

Context {F : Type} `{FileSystem F}.

(** [getAppDataPath()] *)
Variable appDataPath : string.

(** [POST /games/create], after the upload middleware has stored the
    files of the request. *)
Definition create_route (b : Form.t) (files : Files.t)
  : M F (Response CreateReply.t) :=
  try_catch
    (let gameData := create_data b in
     let* folderName := folder_of (GameData.title gameData) in
     let gameData := created_paths files folderName gameData in
     let* gameId := db_run (createGame gameData) in
     ret (Json (CreateReply.mk gameId "Game created successfully")))
    (fun error =>
       let* _ := console_log ("Create game error: " +:+ error) in
       ret (Failure 500 error)).

(** The loop of the bulk route over the titles of the request. *)
Fixpoint bulk_create_loop (titles : list JSON.json) (createdCount : Z)
  : M F Z :=
  match titles with
  | [] => ret createdCount
  | title :: rest =>
      match entry_title title with
      | Some title =>
          let* _ := db_run (createGame (bulk_data title)) in
          bulk_create_loop rest (createdCount + 1)
      | None => bulk_create_loop rest createdCount
      end
  end.

(** [POST /games/bulk-create]; [titles] is [req.body.titles], [None] when
    the body has no such key. *)
Definition bulk_create_route (titles : option JSON.json)
  : M F (Response BulkReply.t) :=
  try_catch
    (match titles with
     | Some (JSON.JArr titles) =>
         let* createdCount := bulk_create_loop titles 0 in
         ret (Json (BulkReply.mk createdCount (bulk_message createdCount)))
     | _ => ret (Failure 400 "Invalid request: titles array required")
     end)
    (fun error =>
       let* _ := console_log ("Bulk create error: " +:+ error) in
       ret (Failure 500 error)).

(** [GET /games/:id] *)
Definition get_route (gameId : Z) : M F (Response Game.t) :=
  try_catch
    (let* game := db_read (getGameById gameId) in
     match game with
     | None => ret (Failure 404 game_not_found)
     | Some game => ret (Json game)
     end)
    (fun error => ret (Failure 500 error)).

(** [DELETE /games/delete/:id] *)
Definition delete_route (gameId : Z) : M F Reply :=
  try_catch
    (let* game := db_read (getGameById gameId) in
     match game with
     | None => ret (mkReply 404 (Error game_not_found))
     | Some game =>
         let* _ := delete_old_file appDataPath (Game.coverArtPath game) in
         let* _ := delete_old_file appDataPath
                     (Game.gameplayImagePath game) in
         let* _ := db_run (deleteGame gameId) in
         ret (mkReply 200 (Message "Game deleted successfully"))
     end)
    (fun error => ret (mkReply 500 (Error error))).

(** [value || []] followed by [.push(entry)]: a truthy value that is not an
    array has no [push]. *)
Definition push_entry (name : string) (v entry : JSON.json)
  : M F (list JSON.json) :=
  match v with
  | JSON.JArr l => ret (l ++ [entry])
  | _ => if truthy v then throw (name +:+ ".push is not a function")
         else ret [entry]
  end.

(** [POST /games/:id/add-photo], after the upload middleware has stored the
    photo; [file] is [req.file.filename] and [now] the time of the request
    as [new Date().toISOString()] gives it. *)
Definition add_photo_route (now : string) (gameId : Z) (file : option string)
  : M F (Response PhotoReply.t) :=
  try_catch
    (let* game := db_read (getGameById gameId) in
     match game, file with
     | None, _ => ret (Failure 404 game_not_found)
     | Some _, None => ret (Failure 400 "No photo uploaded")
     | Some game, Some filename =>
         let folderName := sanitizeFolderName (Game.title game) in
         let photoPath := upload_url folderName filename in
         let* additionalPhotos :=
           push_entry "additionalPhotos" (Game.additionalPhotos game)
             (photo_entry photoPath filename now) in
         let* _ := db_run (updateGame gameId
                             (photos_payload additionalPhotos)) in
         ret (Json (PhotoReply.mk "Photo added successfully" photoPath
                      filename))
     end)
    (fun error =>
       let* _ := console_log ("Error adding photo: " +:+ error) in
       ret (Failure 500 error)).

(** [!content || content.trim() === '']: [None] when the content is
    refused, the trimmed content otherwise; a truthy content that is not a
    string has no [trim]. *)
Definition note_content (content : option JSON.json) : M F (option string) :=
  match content with
  | Some (JSON.JStr s) =>
      if truthy s && negb (String.eqb (trim s) EmptyString)
      then ret (Some (trim s)) else ret None
  | Some v => if truthy v then throw "content.trim is not a function"
              else ret None
  | None => ret None
  end.

(** [POST /games/:id/add-note]; [content] is [req.body.content]. *)
Definition add_note_route (now : string) (gameId : Z)
    (content : option JSON.json) : M F Reply :=
  try_catch
    (let* game := db_read (getGameById gameId) in
     match game with
     | None => ret (mkReply 404 (Error game_not_found))
     | Some game =>
         let* content := note_content content in
         match content with
         | None => ret (mkReply 400 (Error "Note content is required"))
         | Some content =>
             let* additionalNotes :=
               push_entry "additionalNotes" (Game.additionalNotes game)
                 (note_entry content now) in
             let* _ := db_run (updateGame gameId
                                 (notes_payload additionalNotes)) in
             ret (mkReply 200 (Message "Note added successfully"))
         end
     end)
    (fun error =>
       let* _ := console_log ("Error adding note: " +:+ error) in
       ret (mkReply 500 (Error error))).

(** [GET /games/stats/checked]: the body is [{ count }]. *)
Definition stats_checked_route : M F (Response Z) :=
  try_catch
    (let* count := db_read (fun d => Resolved (count_is_checked 0 d)) in
     ret (Json count))
    (fun error =>
       let* _ := console_log ("Error getting checked count: " +:+ error) in
       ret (Failure 500 error)).

(** [GET /games/stats/todo] *)
Definition stats_todo_route : M F (Response Z) :=
  try_catch
    (let* count := db_read (fun d => Resolved (count_is_checked 1 d)) in
     ret (Json count))
    (fun error =>
       let* _ := console_log ("Error getting todo count: " +:+ error) in
       ret (Failure 500 error)).

End Routes.

(** ** Rows, games and databases with one part replaced *)

(** A row and a game with another value of a list. *)
Definition row_with_photos (col : string) (r : Row.t) : Row.t :=
  Row.mk (Row.title r) (Row.link r) (Row.rageRating r) (Row.finished r)
    (Row.is_checked r) (Row.platform r) (Row.strikes r) (Row.notes r)
    (Row.coverArtPath r) (Row.gameplayImagePath r) (Row.dateAdded r)
    (Some col) (Row.additionalNotes r).

Definition row_with_notes (col : string) (r : Row.t) : Row.t :=
  Row.mk (Row.title r) (Row.link r) (Row.rageRating r) (Row.finished r)
    (Row.is_checked r) (Row.platform r) (Row.strikes r) (Row.notes r)
    (Row.coverArtPath r) (Row.gameplayImagePath r) (Row.dateAdded r)
    (Row.additionalPhotos r) (Some col).

Definition game_with_photos (v : JSON.json) (g : Game.t) : Game.t :=
  Game.mk (Game.id g) (Game.title g) (Game.link g) (Game.rageRating g)
    (Game.finished g) (Game.is_checked g) (Game.platform g) (Game.strikes g)
    (Game.notes g) (Game.coverArtPath g) (Game.gameplayImagePath g)
    (Game.dateAdded g) v (Game.additionalNotes g).

Definition game_with_notes (v : JSON.json) (g : Game.t) : Game.t :=
  Game.mk (Game.id g) (Game.title g) (Game.link g) (Game.rageRating g)
    (Game.finished g) (Game.is_checked g) (Game.platform g) (Game.strikes g)
    (Game.notes g) (Game.coverArtPath g) (Game.gameplayImagePath g)
    (Game.dateAdded g) (Game.additionalPhotos g) v.

(** The database with another row under an id. *)
Definition db_with_row (id : Z) (r : Row.t) (d : DB) : DB :=
  mkDB (<[id := r]> (rows d)) (sequence d) (today d).

(** ** Export and import *)

(** [fs.readFileSync(path, 'utf8')] *)
Class FileReader (F : Type) : Type :=
  readFileSync : string -> F -> result string.

(** A game as [res.json] writes it: the columns in the order of the table,
    a missing text as [null]. *)
Definition text_json (x : option string) : JSON.json :=
  match x with
  | Some s => JSON.JStr s
  | None => JSON.JNull
  end.

Definition game_json (g : Game.t) : JSON.json :=
  JSON.JObj
    [("id", JSON.JNum (Game.id g));
     ("title", JSON.JStr (Game.title g));
     ("link", text_json (Game.link g));
     ("rageRating", JSON.JNum (Game.rageRating g));
     ("finished", JSON.JBool (Game.finished g));
     ("is_checked", JSON.JBool (Game.is_checked g));
     ("platform", text_json (Game.platform g));
     ("strikes", JSON.JNum (Game.strikes g));
     ("notes", text_json (Game.notes g));
     ("coverArtPath", text_json (Game.coverArtPath g));
     ("gameplayImagePath", text_json (Game.gameplayImagePath g));
     ("dateAdded", text_json (Game.dateAdded g));
     ("additionalPhotos", Game.additionalPhotos g);
     ("additionalNotes", Game.additionalNotes g)].

(** [{ exportDate, games }]: the data of an export file, as the handler
    registered for [GET /games/export] builds it from the games that
    [getAllGames] lists.  That handler is registered after the one of
    [GET /games/:id], whose pattern matches the path first. *)
Definition export_json (exportDate : string) (games : list Game.t)
  : JSON.json :=
  JSON.JObj [("exportDate", JSON.JStr exportDate);
             ("games", JSON.JArr (game_json <$> games))].

(** The properties of a game object of an import file as [createGame]
    reads them.  A text is a string, [null] or missing, and so is a
    number; of a flag only the truthiness is read, and a list is any
    value.  [None] stands for a property of another type, which this
    model of the store does not cover. *)
Definition text_property (v : option JSON.json) : option (field string) :=
  match v with
  | None => Some Undefined
  | Some JSON.JNull => Some Null
  | Some (JSON.JStr s) => Some (Val s)
  | Some _ => None
  end.

Definition number_property (v : option JSON.json) : option (field Z) :=
  match v with
  | None => Some Undefined
  | Some JSON.JNull => Some Null
  | Some (JSON.JNum n) => Some (Val n)
  | Some _ => None
  end.

Definition flag_property (v : option JSON.json) : field bool :=
  match v with
  | None => Undefined
  | Some v => Val (truthy v)
  end.

Definition list_property (v : option JSON.json) : field JSON.json :=
  match v with
  | None => Undefined
  | Some v => Val v
  end.

Definition game_data (game : JSON.json) : option GameData.t :=
  match game with
  | JSON.JObj m =>
      title ← text_property (property "title" m);
      link ← text_property (property "link" m);
      rageRating ← number_property (property "rageRating" m);
      platform ← text_property (property "platform" m);
      strikes ← number_property (property "strikes" m);
      notes ← text_property (property "notes" m);
      coverArtPath ← text_property (property "coverArtPath" m);
      gameplayImagePath ← text_property (property "gameplayImagePath" m);
      Some (GameData.mk title link rageRating
              (flag_property (property "finished" m))
              (flag_property (property "is_checked" m))
              platform strikes notes coverArtPath gameplayImagePath
              (list_property (property "additionalPhotos" m))
              (list_property (property "additionalNotes" m)))
  | _ => None
  end.

(** What [game_data] reads from a game written by [game_json]. *)
Definition exported_data (g : Game.t) : GameData.t :=
  GameData.mk (Val (Game.title g)) (to_field (Game.link g))
    (Val (Game.rageRating g)) (Val (Game.finished g))
    (Val (Game.is_checked g)) (to_field (Game.platform g))
    (Val (Game.strikes g)) (to_field (Game.notes g))
    (to_field (Game.coverArtPath g)) (to_field (Game.gameplayImagePath g))
    (Val (Game.additionalPhotos g)) (Val (Game.additionalNotes g)).

(** A game of the file that the model covers and that has a title. *)
Definition titled (game : JSON.json) (data : GameData.t) : Prop :=
  game_data game = Some data /\ exists title, GameData.title data = Val title.

(** [importData.games] of a value that is not [null]. *)
Definition games_of (importData : JSON.json) : option JSON.json :=
  match importData with
  | JSON.JObj m => property "games" m
  | _ => None
  end.

(** The row that [createGame] inserts for a payload with a title. *)
Definition created_row (g : GameData.t) (title today : string) : Row.t :=
  Row.mk title
    (Some (or_default (to_option (GameData.link g)) EmptyString))
    (Some (or_default (to_option (GameData.rageRating g)) 0))
    (Some (one_or_zero (to_option (GameData.finished g))))
    (Some (one_or_zero (to_option (GameData.is_checked g))))
    (Some (or_default (to_option (GameData.platform g)) EmptyString))
    (Some (or_default (to_option (GameData.strikes g)) 0))
    (Some (or_default (to_option (GameData.notes g)) EmptyString))
    (or_null (to_option (GameData.coverArtPath g)))
    (or_null (to_option (GameData.gameplayImagePath g)))
    (Some today)
    (Some (encode_list (to_option (GameData.additionalPhotos g))))
    (Some (encode_list (to_option (GameData.additionalNotes g)))).

(** A text that does not begin, after its white space, with a character
    that opens a JSON value. *)
Definition starts_no_value (s : string) : Prop :=
  match JSON.skip_ws (list_ascii_of_string s) with
  | [] => True
  | c :: _ => JSONSize.value_start c = false
  end.

Definition import_message (importedCount : Z) : string :=
  "Successfully imported " +:+ JSON.text (JSON.print_Z importedCount)
  +:+ " games".

Definition cannot_read_games : string :=
  "Cannot read properties of null (reading 'games')".

Section ExportImport.

Context {F : Type} `{FileSystem F} `{FileReader F}.

(** The loop of the import over the games of the file; [None] on a game
    that [game_data] does not cover. *)
Fixpoint import_loop (games : list JSON.json) (importedCount : Z)
  : World F -> option (result Z * World F) :=
  fun w =>
    match games with
    | [] => Some (Resolved importedCount, w)
    | game :: rest =>
        match game_data game with
        | Some gameData =>
            match db_run (createGame gameData) w with
            | (Resolved _, w') => import_loop rest (importedCount + 1) w'
            | (Rejected e, w') => Some (Rejected e, w')
            end
        | None => None
        end
    end.

(** The body of the [try] block of the import, from the parsed file
    on. *)
Definition import_data (path : string) (importData : JSON.json)
  : World F -> option (result Reply * World F) :=
  fun w =>
    let (_, w) := db_run clearAllGames w in
    match importData with
    | JSON.JNull => Some (Rejected cannot_read_games, w)
    | _ =>
        let imported :=
          match games_of importData with
          | Some (JSON.JArr games) => import_loop games 0 w
          | _ => Some (Resolved 0, w)
          end in
        match imported with
        | Some (Resolved importedCount, w) =>
            Some ((let* _ := fs_call (unlinkSync path) in
                   ret (mkReply 200 (Message (import_message importedCount))))
                    w)
        | Some (Rejected e, w) => Some (Rejected e, w)
        | None => None
        end
    end.

(** [POST /games/import], after the upload middleware has stored the
    file; [file] is [req.file.path]. *)
Definition import_route (file : option string)
  : World F -> option (result Reply * World F) :=
  fun w =>
    match file with
    | None => Some (Resolved (mkReply 400 (Error "No file uploaded")), w)
    | Some path =>
        let attempt :=
          match readFileSync path (fs w) with
          | Resolved fileContent =>
              match JSON.parse fileContent with
              | Some importData => import_data path importData w
              | None => Some (Rejected syntax_error, w)
              end
          | Rejected e => Some (Rejected e, w)
          end in
        match attempt with
        | Some (Resolved reply, w) => Some (Resolved reply, w)
        | Some (Rejected error, w) =>
            Some (Resolved (mkReply 500 (Error error)), w)
        | None => None
        end
    end.

End ExportImport.

(** ** The shape of a folder token *)

(** No two underscores in a row. *)
Fixpoint single_underscores (l : list ascii) : bool :=
  match l with
  | c :: ((d :: _) as l') =>
      (negb (Str.is_underscore c && Str.is_underscore d)
       && single_underscores l')%bool
  | _ => true
  end.

(** The first character, if any, is not an underscore. *)
Definition starts_clean (l : list ascii) : bool :=
  match l with
  | c :: _ => negb (Str.is_underscore c)
  | [] => true
  end.

(** ** A disk whose files have a text

    The disk above with the text of some of its files, for running the
    import. *)

Module TextDisk.

Record t : Type := mk {
  disk : Disk.t;
  texts : list (string * string)
}.

Fixpoint text_of (p : string) (l : list (string * string)) : string :=
  match l with
  | [] => EmptyString
  | (q, text) :: l' => if String.eqb q p then text else text_of p l'
  end.

Definition on_disk (op : Disk.t -> result Disk.t) (d : t) : result t :=
  match op (disk d) with
  | Resolved disk' => Resolved (mk disk' (texts d))
  | Rejected e => Rejected e
  end.

Definition read (p : string) (d : t) : result string :=
  if Disk.has_file p (disk d) then Resolved (text_of p (texts d))
  else Rejected ("ENOENT: no such file or directory, open '" +:+ p +:+ "'").

#[global] Instance file_system : FileSystem t := {
  existsSync p d := Disk.exists_ p (disk d);
  mkdirSync p := on_disk (Disk.mkdir p);
  readdirSync p d := Disk.readdir p (disk d);
  renameSync old new := on_disk (Disk.rename old new);
  rmdirSync p := on_disk (Disk.rmdir p);
  unlinkSync p := on_disk (Disk.unlink p)
}.

#[global] Instance file_reader : FileReader t := read.

End TextDisk.

(** ** Sample requests *)

Module SampleRoutes.

Definition now : string := "2024-01-03T10:00:00.000Z".

(** A game with a cover and two lists. *)
Definition quake : GameData.t :=
  Sample.with_lists "Quake" [Sample.photo "additional_1.png"]
    [Sample.note "first"].

(** A row whose photos are not JSON. *)
Definition broken : Row.t :=
  Row.mk "Doom" (Some EmptyString) (Some 5) (Some 0) (Some 0) (Some "PC")
    (Some 0) (Some EmptyString) None None (Some "2024-01-01")
    (Some "oops") (Some "[]").

Definition broken_store : DB := mkDB {[ 1 := broken ]} 1 "2024-01-02".

Definition annotated_game : Game.t :=
  Game.mk 1 "Doom" (Some EmptyString) 5 false false (Some "PC") 0
    (Some EmptyString) None None (Some "2024-01-01")
    (JSON.JArr [Sample.photo "additional_1.png";
                Sample.photo "additional_2.png"])
    (JSON.JArr [Sample.note "first"; Sample.note "second"]).

(** The file of an import, as the upload middleware stores it. *)
Definition import_path : string := "/app/uploads/temp/gameplay_1.json".

Definition import_disk (text : string) : TextDisk.t :=
  TextDisk.mk
    (Disk.mk [("/app/uploads", []);
              ("/app/uploads/temp", ["gameplay_1.json"])] [])
    [(import_path, text)].

Definition imported_disk (text : string) : TextDisk.t :=
  TextDisk.mk (Disk.mk [("/app/uploads", []); ("/app/uploads/temp", [])] [])
    [(import_path, text)].

Definition import_world (text : string) : World TextDisk.t :=
  mkWorld Sample.store (import_disk text) [].

(** Two files: an object without games, and two games of which the second
    has no title. *)
Definition no_games : JSON.json := JSON.JObj [("version", JSON.JNum 1)].

Definition titled_game : JSON.json :=
  JSON.JObj [("title", JSON.JStr "Quake"); ("rageRating", JSON.JNum 3)].

Definition untitled_game : JSON.json :=
  JSON.JObj [("link", JSON.JStr "https://example.org")].

Definition one_game : JSON.json :=
  JSON.JObj [("games", JSON.JArr [titled_game])].

Definition two_games : JSON.json :=
  JSON.JObj [("games", JSON.JArr [titled_game; untitled_game])].

Definition titled_data : GameData.t :=
  GameData.mk (Val "Quake") Undefined (Val 3) Undefined Undefined Undefined
    Undefined Undefined Undefined Undefined Undefined Undefined.

Definition untitled_data : GameData.t :=
  GameData.mk Undefined (Val "https://example.org") Undefined Undefined
    Undefined Undefined Undefined Undefined Undefined Undefined Undefined
    Undefined.

End SampleRoutes.

(** * Properties *)

Ltac unfold_truthy :=
  cbv [truthy truthy_option truthy_string truthy_Z truthy_bool truthy_json]
    in *.

(** ** The sanitizer *)

Section Sanitizer.

Import SanitizeSpec.

Lemma is_underscore_eq c : Str.is_underscore c = true -> c = "_"%char.
Proof. unfold Str.is_underscore. apply Ascii.eqb_eq. Qed.

Lemma chars_map f s : chars (Str.map f s) = List.map f (chars s).
Proof. induction s as [|c s IH]; simpl; [reflexivity | now rewrite <- IH]. Qed.

Lemma chars_take n s : chars (Str.take n s) = firstn n (chars s).
Proof.
  revert s; induction n as [|n IH]; intros [|c s]; simpl; try reflexivity.
  now rewrite <- IH.
Qed.

Lemma collapse_cons_other c l :
  Str.is_underscore c = false -> collapse (c :: l) = c :: collapse l.
Proof.
  intros Hc. destruct l as [|d l]; simpl; [reflexivity | now rewrite Hc].
Qed.

Lemma chars_replace_runs s :
  chars (replace_runs false s) = collapse (chars s) /\
  "_"%char :: chars (replace_runs true s) = collapse ("_"%char :: chars s).
Proof.
  induction s as [|c s [IHf IHt]]; [split; reflexivity|].
  cbn [replace_runs list_ascii_of_string].
  destruct (Str.is_underscore c) eqn:Hc.
  - apply is_underscore_eq in Hc as ->. split.
    + cbn [list_ascii_of_string].       exact IHt.
    + rewrite IHt. reflexivity.
  -  split.
    + cbn [list_ascii_of_string].
      rewrite collapse_cons_other by exact Hc. now rewrite IHf.
    + cbn [list_ascii_of_string].
      change (collapse ("_"%char :: c :: chars s))
        with (if (Str.is_underscore "_" && Str.is_underscore c)%bool
              then collapse (c :: chars s)
              else "_"%char :: collapse (c :: chars s)).
      rewrite Hc, andb_false_r, collapse_cons_other by exact Hc.
      now rewrite IHf.
Qed.

Lemma chars_drop_underscores s :
  chars (drop_underscores s) = strip_leading (chars s).
Proof.
  induction s as [|c s IH]; simpl; [reflexivity|].
  destruct (Str.is_underscore c); [exact IH | reflexivity].
Qed.

Lemma strip_leading_app l1 l2 :
  strip_leading (l1 ++ l2) =
  if all_underscores l1 then strip_leading l2 else strip_leading l1 ++ l2.
Proof.
  induction l1 as [|c l1 IH]; simpl; [reflexivity|].
  destruct (Str.is_underscore c); simpl; [exact IH | reflexivity].
Qed.

Lemma all_underscores_rev l : all_underscores (rev l) = all_underscores l.
Proof.
  unfold all_underscores. induction l as [|c l IH]; simpl; [reflexivity|].
  rewrite forallb_app, IH. simpl. rewrite andb_true_r. apply andb_comm.
Qed.

Lemma strip_trailing_cons c l :
  strip_trailing (c :: l) =
  if all_underscores l
  then (if Str.is_underscore c then [] else [c])
  else c :: strip_trailing l.
Proof.
  unfold strip_trailing. simpl rev. rewrite strip_leading_app.
  rewrite all_underscores_rev. destruct (all_underscores l).
  - simpl. destruct (Str.is_underscore c); reflexivity.
  - rewrite rev_app_distr. reflexivity.
Qed.

Lemma underscores_to_end_cons c s :
  underscores_to_end (String c s) =
  (Str.is_underscore c && all_underscores (chars s))%bool.
Proof.
  revert c; induction s as [|d s IH]; intros c.
  - simpl. now rewrite andb_true_r.
  - change (underscores_to_end (String c (String d s)))
      with (Str.is_underscore c && underscores_to_end (String d s))%bool.
    rewrite IH. reflexivity.
Qed.

Lemma remove_end_run_all s :
  all_underscores (chars s) = true -> remove_end_run s = EmptyString.
Proof.
  destruct s as [|c s]; [reflexivity|]. intros Hall.
  cbn [remove_end_run]. rewrite underscores_to_end_cons.
  simpl in Hall. apply andb_prop in Hall as [-> ->]. reflexivity.
Qed.

Lemma chars_remove_end_run s :
  chars (remove_end_run s) = strip_trailing (chars s).
Proof.
  induction s as [|c s IH]; [reflexivity|].
  cbn [remove_end_run]. rewrite underscores_to_end_cons.
  cbn [list_ascii_of_string].   rewrite strip_trailing_cons.
  destruct (all_underscores (chars s)) eqn:Hall.
  - destruct (Str.is_underscore c); simpl; [reflexivity|].
    now rewrite remove_end_run_all.
  - rewrite andb_false_r. simpl.     now rewrite IH.
Qed.

Lemma length_take n s : (String.length (Str.take n s) <= n)%nat.
Proof.
  revert s; induction n as [|n IH]; intros [|c s]; simpl; try lia.
  specialize (IH s). lia.
Qed.

Lemma length_map f s : String.length (Str.map f s) = String.length s.
Proof. induction s; simpl; congruence. Qed.

(** The chain of replacements is the transform of the specification. *)
Lemma sanitizeFolderName_sanitize title :
  sanitizeFolderName title = SanitizeSpec.sanitize title.
Proof.
  rewrite <- (string_of_list_ascii_of_string (sanitizeFolderName title)).
  unfold sanitizeFolderName, Str.toLowerCase, replace_edges, replace_unsafe,
    sanitize, lowercase, truncate, replace_outside.
  rewrite chars_map, chars_take, chars_remove_end_run,
    chars_drop_underscores.
  destruct (chars_replace_runs
              (Str.map (fun c => if Str.is_folder_char c then c else "_"%char)
                 title)) as [-> _].
  rewrite chars_map. reflexivity.
Qed.

Lemma Forall_collapse (P : ascii -> Prop) l :
  Forall P l -> Forall P (collapse l).
Proof.
  induction 1 as [|c l Hc Hl IH]; [constructor|].
  destruct l as [|d l]; [now constructor|].
  cbn [collapse].
  destruct (Str.is_underscore c && Str.is_underscore d)%bool;
    [exact IH | now constructor].
Qed.

Lemma Forall_strip_leading (P : ascii -> Prop) l :
  Forall P l -> Forall P (strip_leading l).
Proof.
  induction 1 as [|c l Hc Hl IH]; [constructor|]. cbn.
  destruct (Str.is_underscore c); [exact IH | now constructor].
Qed.

Lemma Forall_strip_trailing (P : ascii -> Prop) l :
  Forall P l -> Forall P (strip_trailing l).
Proof.
  intros Hl. unfold strip_trailing.
  apply List.Forall_rev, Forall_strip_leading, List.Forall_rev, Hl.
Qed.

Lemma lower_token_char c :
  (Str.is_folder_char c || Str.is_underscore c)%bool = true ->
  is_token_char (Str.lower c) = true.
Proof.
  destruct c as [[] [] [] [] [] [] [] []]; try discriminate; reflexivity.
Qed.

(** The token is made of lower-case letters, digits, hyphens and
    underscores only; in particular it has no [$] and no separator. *)
Lemma sanitizeFolderName_alphabet title :
  Forall (fun c => is_token_char c = true) (chars (sanitizeFolderName title)).
Proof.
  rewrite sanitizeFolderName_sanitize.
  unfold sanitize. rewrite list_ascii_of_string_of_list_ascii.
  unfold lowercase, truncate, replace_outside.
  apply List.Forall_map.
  eapply Forall_impl; [|intros c; apply lower_token_char].
  apply Forall_take, Forall_strip_trailing, Forall_strip_leading,
    Forall_collapse, List.Forall_map.
  apply List.Forall_forall. intros c _.
  destruct (Str.is_folder_char c) eqn:Hc; [now rewrite Hc | reflexivity].
Qed.

(** C5. [sanitizeFolderName] is a function of the title alone, defined on
    every string, and computes what the specification describes: every
    character outside [[A-Za-z0-9-]] becomes an underscore, runs of
    underscores collapse to one, leading and trailing underscores are
    stripped, the result is cut to 50 characters and put in lower case.
    In particular "My Game!" gives "my_game" and the empty title gives the
    empty token. *)
Theorem sanitizeFolderName_spec :
  (forall title, sanitizeFolderName title = SanitizeSpec.sanitize title) /\
  (forall title, (String.length (sanitizeFolderName title) <= 50)%nat) /\
  sanitizeFolderName "My Game!" = "my_game" /\
  sanitizeFolderName EmptyString = EmptyString.
Proof.
  split; [exact sanitizeFolderName_sanitize|].
  split; [|split; reflexivity].
  intros title. unfold sanitizeFolderName, Str.toLowerCase.
  rewrite length_map. apply length_take.
Qed.

End Sanitizer.

(** ** JSON text: parsing what was printed *)

Section JSONRoundTrip.

Import JSON JSONSize.

Lemma json_ind (P : json -> Prop) :
  P JNull ->
  (forall b, P (JBool b)) ->
  (forall n, P (JNum n)) ->
  (forall s, P (JStr s)) ->
  (forall l, Forall P l -> P (JArr l)) ->
  (forall m, Forall (fun kv => P (snd kv)) m -> P (JObj m)) ->
  forall v, P v.
Proof.
  intros Hnull Hbool Hnum Hstr Harr Hobj.
  fix IH 1. intros [| b | n | s | l | m].
  - exact Hnull.
  - apply Hbool.
  - apply Hnum.
  - apply Hstr.
  - apply Harr. induction l as [|x l IHl]; [constructor|].
    constructor; [apply IH | exact IHl].
  - apply Hobj. induction m as [|kv m IHm]; [constructor|].
    constructor; [apply IH | exact IHm].
Qed.

Lemma size_arr l : size (JArr l) = S (elements_size l).
Proof. induction l as [|x l IH]; simpl in *; congruence. Qed.

Lemma size_obj m : size (JObj m) = S (members_size m).
Proof. induction m as [|x m IH]; simpl in *; congruence. Qed.

Lemma distinct_keys_arr l :
  distinct_keys (JArr l) <-> Forall distinct_keys l.
Proof.
  simpl. induction l as [|x l IH]; split; intros Hl.
  - constructor.
  - exact I.
  - destruct Hl as [Hx Hl]. constructor; [exact Hx | now apply IH].
  - inversion Hl; subst. split; [assumption | now apply IH].
Qed.

Lemma distinct_keys_obj m :
  distinct_keys (JObj m) <->
  NoDup (List.map fst m) /\ Forall (fun kv => distinct_keys (snd kv)) m.
Proof.
  simpl. apply and_iff_compat_l.
  induction m as [|x m IH]; split; intros Hm.
  - constructor.
  - exact I.
  - destruct Hm as [Hx Hm]. constructor; [exact Hx | now apply IH].
  - inversion Hm; subst. split; [assumption | now apply IH].
Qed.

(** *** Strings *)

Lemma parse_escape_char c tl :
  parse_string_body (escape_char c ++ tl) =
  match parse_string_body tl with
  | Some (s, rest) => Some (String c s, rest)
  | None => None
  end.
Proof.
  destruct c as [[] [] [] [] [] [] [] []]; reflexivity.
Qed.

Lemma parse_string_body_escaped s rest :
  parse_string_body (flat_map escape_char (chars s) ++ c_quote :: rest)
  = Some (s, rest).
Proof.
  induction s as [|c s IH]; [reflexivity|].
  cbn [list_ascii_of_string flat_map]. rewrite <- app_assoc.
  now rewrite parse_escape_char, IH.
Qed.

Lemma quote_app s rest :
  quote s ++ rest
  = c_quote :: flat_map escape_char (chars s) ++ c_quote :: rest.
Proof. unfold quote. simpl. now rewrite <- app_assoc. Qed.

(** *** Numbers *)

Lemma read_uint_print d rest :
  delimited rest -> read_uint (print_uint d ++ rest) = (d, rest).
Proof.
  intros Hrest.
  induction d as [|d IH|d IH|d IH|d IH|d IH|d IH|d IH|d IH|d IH|d IH];
    try (simpl; now rewrite IH).
  simpl. destruct rest as [|c rest]; [reflexivity|].
  destruct Hrest as [Hc _]. cbn [read_uint]. now rewrite Hc.
Qed.

Lemma to_uint_head p :
  match Pos.to_uint p with
  | Decimal.Nil | Decimal.D0 _ => False
  | _ => True
  end.
Proof.
  pose proof (DecimalPos.Unsigned.to_uint_nonnil p) as Hnil.
  pose proof (DecimalPos.Unsigned.to_uint_nonzero p) as Hzero.
  pose proof (DecimalPos.Unsigned.to_of (Pos.to_uint p)) as Hnorm.
  rewrite DecimalPos.Unsigned.of_to in Hnorm. simpl in Hnorm.
  destruct (Pos.to_uint p) as [|u|u|u|u|u|u|u|u|u|u]; try exact I.
  - now apply Hnil.
  - rewrite DecimalFacts.unorm_D0 in Hnorm. unfold Decimal.unorm in Hnorm.
    pose proof (DecimalFacts.nzhead_nonzero u) as Hnz.
    destruct (Decimal.nzhead u) eqn:Hu;
      try (symmetry in Hnorm; now apply Hnz in Hnorm).
    now apply Hzero.
Qed.

Lemma starts_fraction_delimited rest :
  delimited rest -> starts_fraction rest = false.
Proof. destruct rest as [|c rest]; [reflexivity | now intros [_ ?]]. Qed.

(** Reading back the digits of a positive number. *)
Lemma parse_digits_pos (neg : bool) p rest :
  delimited rest ->
  (let (d, rest') := read_uint (print_uint (Pos.to_uint p) ++ rest) in
   match d with
   | Decimal.Nil => None
   | Decimal.D0 Decimal.Nil =>
       if starts_fraction rest' then None else Some (JNum 0, rest')
   | Decimal.D0 _ => None
   | _ =>
       if starts_fraction rest' then None
       else let n := Z.of_N (N.of_uint d) in
            Some (JNum (if neg then - n else n), rest')
   end) = Some (JNum (if neg then Zneg p else Zpos p), rest).
Proof.
  intros Hrest. rewrite read_uint_print by exact Hrest.
  rewrite (starts_fraction_delimited _ Hrest).
  pose proof (to_uint_head p) as Hhead.
  pose proof (DecimalPos.Unsigned.of_to p) as Hof.
  unfold N.of_uint.
  destruct (Pos.to_uint p) as [|u|u|u|u|u|u|u|u|u|u];
    try contradiction; rewrite Hof; destruct neg; reflexivity.
Qed.

Lemma print_uint_head p :
  exists c tl, print_uint (Pos.to_uint p) = c :: tl /\
               Str.in_range 48 57 c = true.
Proof.
  pose proof (to_uint_head p) as Hhead.
  destruct (Pos.to_uint p) as [|u|u|u|u|u|u|u|u|u|u];
    try contradiction; eexists _, _; split; reflexivity.
Qed.

Lemma parse_number_print n rest :
  delimited rest -> parse_number (print_Z n ++ rest) = Some (JNum n, rest).
Proof.
  intros Hrest. destruct n as [|p|p].
  - unfold parse_number. simpl.
    change (read_uint rest) with (read_uint (print_uint Decimal.Nil ++ rest)).
    rewrite read_uint_print by exact Hrest.
    now rewrite (starts_fraction_delimited _ Hrest).
  - unfold parse_number, print_Z.
    destruct (print_uint_head p) as (c & tl & Hp & Hc).
    rewrite <- (parse_digits_pos false p rest Hrest).
    rewrite Hp. cbn [app].
    replace (Ascii.eqb c "-") with false; [reflexivity|].
    destruct c as [[] [] [] [] [] [] [] []]; try discriminate; reflexivity.
  - unfold parse_number, print_Z. cbn [app Ascii.eqb Bool.eqb].
    apply (parse_digits_pos true p rest Hrest).
Qed.

Lemma print_cons v : exists c tl, print v = c :: tl /\ value_start c = true.
Proof.
  destruct v as [| [] | [|p|p] | s | l | m];
    try (eexists _, _; split; reflexivity).
  destruct (print_uint_head p) as (c & tl & Hp & Hc).
  exists c, tl. split; [exact Hp|].
  unfold value_start. rewrite Hc. now rewrite !orb_true_r.
Qed.

Lemma value_start_facts c :
  value_start c = true ->
  is_ws c = false /\ Ascii.eqb "]" c = false /\ Ascii.eqb "}" c = false /\
  Ascii.eqb "," c = false.
Proof.
  destruct c as [[] [] [] [] [] [] [] []]; try discriminate; intros _;
    repeat split; reflexivity.
Qed.

Lemma skip_ws_print v rest : skip_ws (print v ++ rest) = print v ++ rest.
Proof.
  destruct (print_cons v) as (c & tl & -> & Hc).
  apply value_start_facts in Hc as (Hws & _). simpl. now rewrite Hws.
Qed.

Lemma head_is_print c v rest :
  value_start c = false -> head_is c (print v ++ rest) = false.
Proof.
  destruct (print_cons v) as (d & tl & -> & Hd). intros Hc. simpl.
  destruct (Ascii.eqb c d) eqn:Heq; [|reflexivity].
  apply Ascii.eqb_eq in Heq. congruence.
Qed.

Lemma parse_value_number fuel n rest :
  delimited rest ->
  parse_value (S fuel) (print_Z n ++ rest) = Some (JNum n, rest).
Proof.
  intros Hrest. rewrite <- (parse_number_print n rest Hrest).
  pose proof (skip_ws_print (JNum n) rest) as Hws.
  assert (exists c tl, print_Z n = c :: tl /\
            (Ascii.eqb c "-" || Str.in_range 48 57 c)%bool = true)
    as (c & tl & Hp & Hc).
  { destruct n as [|p|p]; try (eexists _, _; split; reflexivity).
    destruct (print_uint_head p) as (c & tl & Hp & Hc).
    exists c, tl. split; [exact Hp|]. rewrite Hc. apply orb_true_r. }
  cbn [parse_value]. cbn [print] in Hws. rewrite Hws. rewrite Hp. cbn [app].
  destruct c as [[] [] [] [] [] [] [] []]; try discriminate; reflexivity.
Qed.

Lemma delimited_separator c rest :
  (Ascii.eqb c "," || Ascii.eqb c "]" || Ascii.eqb c "}")%bool = true ->
  delimited (c :: rest).
Proof.
  destruct c as [[] [] [] [] [] [] [] []]; try discriminate; intros _;
    split; reflexivity.
Qed.

Lemma join_cons {A} (f : A -> list ascii) x l rest :
  join f (x :: l) ++ rest =
  f x ++ match l with
         | [] => rest
         | _ :: _ => ","%char :: join f l ++ rest
         end.
Proof. destruct l; cbn [join]; rewrite <- app_assoc; reflexivity. Qed.

Lemma parse_elements_join l :
  Forall parses_back l -> l <> [] ->
  forall fuel rest,
    (elements_size l <= fuel)%nat ->
    parse_elements fuel (join print l ++ "]"%char :: rest) = Some (l, rest).
Proof.
  induction 1 as [|x l Hx Hl IH]; [congruence|]. intros _ fuel rest Hfuel.
  destruct fuel as [|fuel]; [simpl in Hfuel; lia|].
  cbn [elements_size] in Hfuel. rewrite join_cons. cbn [parse_elements].
  destruct l as [|y l].
  - rewrite Hx; [reflexivity | lia | now apply delimited_separator].
  - rewrite Hx; [| lia | now apply delimited_separator].
    cbn [skip_ws is_ws Ascii.eqb Bool.eqb orb head_is tl].
    rewrite IH; [reflexivity | congruence | lia].
Qed.

Lemma parse_members_join m :
  Forall (fun kv => parses_back (snd kv)) m -> m <> [] ->
  forall fuel rest,
    (members_size m <= fuel)%nat ->
    parse_members fuel (join print_member m ++ "}"%char :: rest)
    = Some (m, rest).
Proof.
  induction 1 as [|x m Hx Hm IH]; [congruence|]. intros _ fuel rest Hfuel.
  destruct x as [k v].
  destruct fuel as [|fuel]; [simpl in Hfuel; lia|].
  cbn [members_size snd] in Hfuel, Hx. rewrite join_cons.
  unfold print_member at 1. cbn [fst snd]. rewrite <- app_assoc, quote_app.
  cbn [parse_members skip_ws]. 
  replace (is_ws c_quote) with false by reflexivity.
  cbn [head_is tl].
  replace (Ascii.eqb c_quote c_quote) with true by reflexivity.
  rewrite parse_string_body_escaped.
  cbn [app skip_ws is_ws Ascii.eqb Bool.eqb orb head_is tl].
  destruct m as [|y m].
  - rewrite Hx; [reflexivity | lia | now apply delimited_separator].
  - rewrite Hx; [| lia | now apply delimited_separator].
    cbn [skip_ws is_ws Ascii.eqb Bool.eqb orb head_is tl].
    rewrite IH; [reflexivity | congruence | lia].
Qed.

Lemma set_member_fresh m kv :
  ~ In (fst kv) (List.map fst m) -> set_member m kv = m ++ [kv].
Proof.
  induction m as [|[k v] m IH]; intros Hfresh; [reflexivity|].
  cbn [set_member app]. cbn [List.map fst In] in Hfresh.
  destruct (String.eqb k (fst kv)) eqn:Heq.
  - apply String.eqb_eq in Heq. tauto.
  - f_equal. apply IH. tauto.
Qed.

Lemma fold_set_member kvs acc :
  NoDup (List.map fst (acc ++ kvs)) ->
  fold_left set_member kvs acc = acc ++ kvs.
Proof.
  revert acc; induction kvs as [|kv kvs IH]; intros acc Hnd.
  - now rewrite app_nil_r.
  - cbn [fold_left].
    assert (acc ++ kv :: kvs = (acc ++ [kv]) ++ kvs) as Heq
        by now rewrite <- app_assoc.
    rewrite Heq in *. rewrite set_member_fresh.
    + now apply IH.
    + rewrite !List.map_app in Hnd. apply NoDup_app in Hnd as (Hnd & _ & _).
      apply NoDup_app in Hnd as (_ & Hdisjoint & _).
      intros Hin. apply list_elem_of_In in Hin.
      apply (Hdisjoint _ Hin). cbn [List.map]. apply list_elem_of_here.
Qed.

Lemma parse_value_print v : distinct_keys v -> parses_back v.
Proof.
  induction v as [| b | n | s | l IH | m IH] using json_ind;
    intros Hkeys fuel rest Hfuel Hrest;
    (destruct fuel as [|fuel]; [simpl in Hfuel; lia|]).
  - reflexivity.
  - destruct b; reflexivity.
  - now apply parse_value_number.
  - cbn [print]. rewrite quote_app. cbn [parse_value skip_ws].
    replace (is_ws c_quote) with false by reflexivity.
    replace (Ascii.eqb c_quote "n") with false by reflexivity.
    replace (Ascii.eqb c_quote "t") with false by reflexivity.
    replace (Ascii.eqb c_quote "f") with false by reflexivity.
    replace (Ascii.eqb c_quote c_quote) with true by reflexivity.
    now rewrite parse_string_body_escaped.
  - rewrite size_arr in Hfuel. apply distinct_keys_arr in Hkeys.
    cbn [print app]. rewrite <- app_assoc.
    cbn [parse_value skip_ws is_ws Ascii.eqb Bool.eqb orb].
    destruct l as [|x l]; [reflexivity|].
    rewrite join_cons, skip_ws_print, head_is_print by reflexivity.
    rewrite <- join_cons. cbn [app].
    rewrite parse_elements_join; [reflexivity | | congruence | lia].
    rewrite Forall_forall in *. intros y Hy. apply IH; [exact Hy|].
    now apply Hkeys.
  - rewrite size_obj in Hfuel. apply distinct_keys_obj in Hkeys as [Hnd Hkeys].
    cbn [print app]. rewrite <- app_assoc.
    cbn [parse_value skip_ws is_ws Ascii.eqb Bool.eqb orb].
    destruct m as [|x m]; [reflexivity|].
    fold print_member.
    rewrite join_cons. unfold print_member at 1.
    rewrite <- app_assoc, quote_app.
    cbn [skip_ws].
    replace (is_ws c_quote) with false by reflexivity.
    cbn [head_is]. replace (Ascii.eqb "}" c_quote) with false by reflexivity.
    rewrite <- quote_app, app_assoc. fold (print_member x).
    rewrite <- join_cons. cbn [app].
    rewrite parse_members_join; [| | congruence | lia].
    + rewrite fold_set_member; [reflexivity | exact Hnd].
    + rewrite Forall_forall in *. intros y Hy. apply IH; [exact Hy|].
      now apply Hkeys.
Qed.

Lemma elements_size_join {A} (f : A -> list ascii) (sz : A -> nat) l :
  Forall (fun x => (sz x <= List.length (f x))%nat) l ->
  (fold_right (fun x n => S (sz x + n)) O l <= List.length (join f l) + 1)%nat.
Proof.
  induction 1 as [|x l Hx Hl IH]; [simpl; lia|].
  cbn [fold_right join]. rewrite List.length_app.
  destruct l as [|y l]; [simpl; lia|].
  cbn [List.length]. lia.
Qed.

Lemma elements_size_fold l :
  elements_size l = fold_right (fun x n => S (size x + n)) O l.
Proof. induction l; simpl; congruence. Qed.

Lemma members_size_fold m :
  members_size m = fold_right (fun kv n => S (size (snd kv) + n)) O m.
Proof. induction m; simpl; congruence. Qed.

Lemma size_le_print v : (size v <= List.length (print v))%nat.
Proof.
  induction v as [| b | n | s | l IH | m IH] using json_ind.
  - simpl; lia.
  - destruct b; simpl; lia.
  - destruct (print_cons (JNum n)) as (c & tl & -> & _). simpl; lia.
  - simpl; lia.
  - rewrite size_arr, elements_size_fold. cbn [print List.length].
    rewrite List.length_app. cbn [List.length].
    pose proof (elements_size_join print size l IH). lia.
  - rewrite size_obj, members_size_fold. cbn [print List.length].
    rewrite List.length_app. cbn [List.length]. fold print_member.
    assert (Forall (fun kv => (size (snd kv)
                               <= List.length (print_member kv))%nat) m) as IH'.
    { eapply Forall_impl; [exact IH|]. intros [k v] Hv. cbn [snd] in *.
      unfold print_member. rewrite List.length_app. cbn [List.length snd].
      lia. }
    pose proof (elements_size_join print_member (fun kv => size (snd kv))
                  m IH'). lia.
Qed.

(** What [JSON.stringify] wrote, [JSON.parse] reads back. *)
Lemma parse_stringify v : distinct_keys v -> parse (stringify v) = Some v.
Proof.
  intros Hkeys. unfold parse, stringify.
  rewrite list_ascii_of_string_of_list_ascii.
  pose proof (parse_value_print v Hkeys (S (List.length (print v))) []) as Hv.
  rewrite app_nil_r in Hv. rewrite Hv; [reflexivity | | exact I].
  pose proof (size_le_print v). lia.
Qed.

Lemma stringify_nonempty v : stringify v <> EmptyString.
Proof.
  unfold stringify. destruct (print_cons v) as (c & tl & -> & _). discriminate.
Qed.

(** *** What the parser returns has objects with distinct keys *)

Lemma set_member_keys m kv :
  List.map fst (set_member m kv)
  = if existsb (String.eqb (fst kv)) (List.map fst m)
    then List.map fst m else List.map fst m ++ [fst kv].
Proof.
  induction m as [|[k v] m IH]; [reflexivity|].
  cbn [set_member List.map fst existsb].
  rewrite (String.eqb_sym (fst kv) k).
  destruct (String.eqb k (fst kv)) eqn:Hk; [reflexivity|].
  cbn [List.map fst orb]. rewrite IH.
  now destruct (existsb (String.eqb (fst kv)) (List.map fst m)).
Qed.

Lemma set_member_NoDup m kv :
  NoDup (List.map fst m) -> NoDup (List.map fst (set_member m kv)).
Proof.
  intros Hm. rewrite set_member_keys.
  destruct (existsb (String.eqb (fst kv)) (List.map fst m)) eqn:Hin;
    [exact Hm|].
  apply NoDup_app. split; [exact Hm|]. split; [|apply NoDup_singleton].
  intros k Hk Hk'. apply list_elem_of_singleton in Hk' as ->.
  apply list_elem_of_In in Hk.
  assert (existsb (String.eqb (fst kv)) (List.map fst m) = true); [|congruence].
  apply existsb_exists. exists (fst kv). split; [exact Hk|].
  apply String.eqb_refl.
Qed.

Lemma set_member_Forall m kv :
  Forall (fun x => distinct_keys (snd x)) m -> distinct_keys (snd kv) ->
  Forall (fun x => distinct_keys (snd x)) (set_member m kv).
Proof.
  intros Hm Hkv. induction Hm as [|[k v] m Hx Hm IH]; cbn [set_member].
  - now constructor.
  - destruct (String.eqb k (fst kv)); constructor; auto.
Qed.

Lemma fold_set_member_distinct kvs acc :
  NoDup (List.map fst acc) ->
  Forall (fun x => distinct_keys (snd x)) acc ->
  Forall (fun x => distinct_keys (snd x)) kvs ->
  distinct_keys (JObj (fold_left set_member kvs acc)).
Proof.
  intros Hnd Hacc Hkvs. revert acc Hnd Hacc.
  induction Hkvs as [|kv kvs Hkv Hkvs IH]; intros acc Hnd Hacc.
  - apply distinct_keys_obj. now split.
  - cbn [fold_left]. apply IH.
    + now apply set_member_NoDup.
    + now apply set_member_Forall.
Qed.

Lemma parse_number_distinct l v r :
  parse_number l = Some (v, r) -> distinct_keys v.
Proof.
  unfold parse_number.
  destruct (match l with
            | [] => (false, l)
            | c :: r0 => if Ascii.eqb c "-" then (true, r0) else (false, l)
            end) as [neg l1].
  destruct (read_uint l1) as [d rest].
  destruct d as [|d|d|d|d|d|d|d|d|d|d]; try discriminate;
    try (destruct (starts_fraction rest); [discriminate|];
         intros [= <- _]; exact I).
  destruct d; try discriminate.
  destruct (starts_fraction rest); [discriminate|]. intros [= <- _]. exact I.
Qed.

Lemma parse_distinct_keys_fuel fuel :
  (forall l v r, parse_value fuel l = Some (v, r) -> distinct_keys v) /\
  (forall l vs r, parse_elements fuel l = Some (vs, r) ->
                  Forall distinct_keys vs) /\
  (forall l kvs r, parse_members fuel l = Some (kvs, r) ->
                   Forall (fun x => distinct_keys (snd x)) kvs).
Proof.
  induction fuel as [|fuel (IHv & IHe & IHm)];
    [repeat split; intros; discriminate|].
  split; [|split].
  - intros l v r. cbn [parse_value]. cbv zeta.
    destruct (skip_ws l) as [|c tl] eqn:Hl; [discriminate|].
    destruct (Ascii.eqb c "n").
    { destruct (strip_prefix (chars "null") (c :: tl)); [|discriminate].
      intros [= <- _]. exact I. }
    destruct (Ascii.eqb c "t").
    { destruct (strip_prefix (chars "true") (c :: tl)); [|discriminate].
      intros [= <- _]. exact I. }
    destruct (Ascii.eqb c "f").
    { destruct (strip_prefix (chars "false") (c :: tl)); [|discriminate].
      intros [= <- _]. exact I. }
    destruct (Ascii.eqb c c_quote).
    { destruct (parse_string_body tl) as [[s rest]|]; [|discriminate].
      intros [= <- _]. exact I. }
    destruct (Ascii.eqb c "[").
    { destruct (head_is "]" (skip_ws tl)).
      - intros [= <- _]. exact I.
      - destruct (parse_elements fuel tl) as [[vs rest]|] eqn:He;
          [|discriminate].
        intros [= <- _]. apply distinct_keys_arr. eapply IHe, He. }
    destruct (Ascii.eqb c "{").
    { destruct (head_is "}" (skip_ws tl)).
      - intros [= <- _]. apply distinct_keys_obj. split; constructor.
      - destruct (parse_members fuel tl) as [[kvs rest]|] eqn:Hm;
          [|discriminate].
        intros [= <- _]. apply fold_set_member_distinct;
          [constructor | constructor | eapply IHm, Hm]. }
    apply parse_number_distinct.
  - intros l vs r. cbn [parse_elements]. cbv zeta.
    destruct (parse_value fuel l) as [[v r1]|] eqn:Hv; [|discriminate].
    apply IHv in Hv.
    destruct (head_is "," (skip_ws r1)).
    + destruct (parse_elements fuel (tl (skip_ws r1))) as [[vs' rest]|] eqn:He;
        [|discriminate].
      intros [= <- _]. constructor; [exact Hv | eapply IHe, He].
    + destruct (head_is "]" (skip_ws r1)); [|discriminate].
      intros [= <- _]. now repeat constructor.
  - intros l kvs r. cbn [parse_members]. cbv zeta.
    destruct (head_is c_quote (skip_ws l)); [|discriminate].
    destruct (parse_string_body (tl (skip_ws l))) as [[k r1]|];
      [|discriminate].
    destruct (head_is ":" (skip_ws r1)); [|discriminate].
    destruct (parse_value fuel (tl (skip_ws r1))) as [[v r2]|] eqn:Hv;
      [|discriminate].
    apply IHv in Hv.
    destruct (head_is "," (skip_ws r2)).
    + destruct (parse_members fuel (tl (skip_ws r2))) as [[kvs' rest]|] eqn:Hm;
        [|discriminate].
      intros [= <- _]. constructor; [exact Hv | eapply IHm, Hm].
    + destruct (head_is "}" (skip_ws r2)); [|discriminate].
      intros [= <- _]. now repeat constructor.
Qed.

(** Every value that [JSON.parse] returns has objects with distinct keys. *)
Lemma parse_distinct_keys s v : parse s = Some v -> distinct_keys v.
Proof.
  unfold parse.
  destruct (parse_value (S (List.length (chars s))) (chars s))
    as [[v' rest]|] eqn:Hv; [|discriminate].
  destruct (skip_ws rest); [|discriminate]. intros [= <-].
  eapply (proj1 (parse_distinct_keys_fuel _)), Hv.
Qed.

End JSONRoundTrip.

(** ** The record store *)

Section Store.

Lemma truthy_stringify v : truthy (Some (JSON.stringify v)) = true.
Proof.
  unfold_truthy. pose proof (stringify_nonempty v) as Hne.
  destruct (String.eqb (JSON.stringify v) EmptyString) eqn:Heq;
    [|reflexivity].
  apply String.eqb_eq in Heq. contradiction.
Qed.

Lemma decode_list_stringify v :
  JSON.distinct_keys v -> decode_list (Some (JSON.stringify v)) = Resolved v.
Proof.
  intros Hv. unfold decode_list.
  change (truthy (JSON.stringify v)) with (truthy (Some (JSON.stringify v))).
  rewrite truthy_stringify. now rewrite parse_stringify.
Qed.

Lemma encode_list_truthy v :
  truthy v = true -> encode_list (Some v) = JSON.stringify v.
Proof. intros Hv. unfold encode_list. now rewrite Hv. Qed.

(** Whatever is encoded decodes to the value, or to the empty list for a
    falsy value. *)
Lemma decode_encode_list x :
  (forall v, x = Some v -> JSON.distinct_keys v) ->
  decode_list (Some (encode_list x))
  = Resolved (if truthy x then default JSON.JNull x else JSON.JArr []).
Proof.
  intros Hx. destruct x as [v|]; [|reflexivity].
  unfold default, encode_list.
  change (truthy (Some v)) with (truthy v).
  destruct (truthy v) eqn:Hv; [|reflexivity].
  apply decode_list_stringify. now apply Hx.
Qed.

Lemma encode_list_column x :
  (forall v, x = Some v -> JSON.distinct_keys v) ->
  list_column (Some (encode_list x)).
Proof.
  intros Hx. destruct x as [v|].
  - unfold encode_list. destruct (truthy v) eqn:Hv.
    + exists v. split; [now apply Hx | split; [exact Hv | reflexivity]].
    + exists (JSON.JArr []). now repeat split.
  - exists (JSON.JArr []). now repeat split.
Qed.

Lemma or_null_not_empty (x : option string) : or_null x <> Some EmptyString.
Proof.
  unfold or_null. unfold_truthy. destruct x as [s|]; [|discriminate].
  destruct s; cbn; discriminate.
Qed.

Lemma one_or_zero_flag {A} `{Truthy A} (x : A) :
  flag_column (Some (one_or_zero x)).
Proof. unfold one_or_zero, flag_column. destruct (truthy x); auto. Qed.

(** A written row decodes. *)
Lemma decode_written id r :
  written r ->
  exists game, decode_row id r = Resolved game /\
    Game.id game = id /\
    Game.title game = Row.title r /\
    Game.link game = Row.link r /\
    Row.rageRating r = Some (Game.rageRating game) /\
    Row.finished r = Some (if Game.finished game then 1 else 0) /\
    Row.is_checked r = Some (if Game.is_checked game then 1 else 0) /\
    Game.platform game = Row.platform r /\
    Row.strikes r = Some (Game.strikes game) /\
    Game.notes game = Row.notes r /\
    Game.coverArtPath game = Row.coverArtPath r /\
    Game.gameplayImagePath game = Row.gameplayImagePath r /\
    Game.dateAdded game = Row.dateAdded r /\
    (JSON.distinct_keys (Game.additionalPhotos game) /\
     truthy (Game.additionalPhotos game) = true /\
     Row.additionalPhotos r
     = Some (JSON.stringify (Game.additionalPhotos game))) /\
    (JSON.distinct_keys (Game.additionalNotes game) /\
     truthy (Game.additionalNotes game) = true /\
     Row.additionalNotes r
     = Some (JSON.stringify (Game.additionalNotes game))).
Proof.
  intros [Hlink [rating Hrating] Hfin Hchk Hplat [strikes Hstrikes] Hnotes
            Hcover Hplay (ph & Hph & Hpht & Hphc) (nt & Hnt & Hntt & Hntc)].
  unfold decode_row. rewrite Hphc, Hntc.
  rewrite !decode_list_stringify by assumption.
  eexists. split; [reflexivity|]. cbn.
  repeat split; try assumption.
  - rewrite Hrating. unfold or_default. unfold_truthy.
    destruct (Z.eqb_spec rating 0); cbn; congruence.
  - destruct Hfin as [-> | ->]; reflexivity.
  - destruct Hchk as [-> | ->]; reflexivity.
  - rewrite Hstrikes. unfold or_default. unfold_truthy.
    destruct (Z.eqb_spec strikes 0); cbn; congruence.
Qed.

Lemma or_default_idem_string (x : option string) :
  is_Some x -> Some (or_default x EmptyString) = x.
Proof.
  intros [s ->]. unfold or_default. unfold_truthy.
  destruct (String.eqb_spec s EmptyString); cbn; congruence.
Qed.

Lemma or_default_idem_Z (n : Z) : or_default (Some n) 0 = n.
Proof.
  unfold or_default. unfold_truthy. destruct (Z.eqb_spec n 0); cbn; congruence.
Qed.

Lemma or_null_written (x : option string) :
  x <> Some EmptyString -> or_null x = x.
Proof.
  intros Hx. unfold or_null. unfold_truthy. destruct x as [s|]; [|reflexivity].
  destruct (String.eqb_spec s EmptyString); cbn; congruence.
Qed.

Lemma one_or_zero_bool (b : bool) :
  one_or_zero (Some b) = if b then 1 else 0.
Proof. reflexivity. Qed.

#[local] Opaque or_default or_null one_or_zero encode_list.

(** What [updateGame] does to a written row: the row it writes is the old
    row with the provided keys replaced, each through the normalization of
    the write boundary. *)
Lemma updateGame_written id p d r :
  rows d !! id = Some r -> written r ->
  GameData.title p <> Null ->
  updateGame id p d =
  (Resolved 1,
   mkDB (<[id := UpdateSpec.replace_keys_normalized p r]> (rows d))
        (sequence d) (today d)).
Proof.
  intros Hrow Hr Htitle.
  destruct (decode_written id r Hr)
    as (game & Hgame & _ & Ht & Hlink & Hrating & Hfin & Hchk & Hplat
        & Hstrikes & Hnotes & Hcover & Hplay & _ & (Hph & Hpht & Hphc)
        & (Hnt & Hntt & Hntc)).
  destruct Hr as [Hl _ _ _ Hp _ Hn Hc Hg _ _].
  unfold updateGame, getGameById. rewrite Hrow, Hgame.
  assert (exists title,
             Merged.title (merge p game) = Some title /\
             title = UpdateSpec.replaced (default EmptyString)
                       (GameData.title p) (Row.title r))
    as (title & Hmt & Htitle').
  { cbn. destruct (GameData.title p); cbn; eauto; congruence. }
  rewrite Hmt. do 3 f_equal. unfold write_row, merge,
    UpdateSpec.replace_keys_normalized, UpdateSpec.replaced. cbn.
  rewrite Htitle'. unfold UpdateSpec.replaced.
  f_equal.
  - destruct (GameData.link p); cbn; try reflexivity.
    rewrite Hlink. now apply or_default_idem_string.
  - destruct (GameData.rageRating p); cbn; try reflexivity.
    now rewrite or_default_idem_Z, Hrating.
  - destruct (GameData.finished p); cbn; try reflexivity.
    now rewrite one_or_zero_bool, Hfin.
  - destruct (GameData.is_checked p); cbn; try reflexivity.
    now rewrite one_or_zero_bool, Hchk.
  - destruct (GameData.platform p); cbn; try reflexivity.
    rewrite Hplat. now apply or_default_idem_string.
  - destruct (GameData.strikes p); cbn; try reflexivity.
    now rewrite or_default_idem_Z, Hstrikes.
  - destruct (GameData.notes p); cbn; try reflexivity.
    rewrite Hnotes. now apply or_default_idem_string.
  - destruct (GameData.coverArtPath p); cbn; try reflexivity.
    rewrite Hcover. now apply or_null_written.
  - destruct (GameData.gameplayImagePath p); cbn; try reflexivity.
    rewrite Hplay. now apply or_null_written.
  - destruct (GameData.additionalPhotos p); cbn; try reflexivity.
    now rewrite encode_list_truthy, Hphc.
  - destruct (GameData.additionalNotes p); cbn; try reflexivity.
    now rewrite encode_list_truthy, Hntc.
Qed.

#[local] Transparent or_default or_null one_or_zero encode_list.

#[local] Opaque or_default or_null one_or_zero encode_list.

Lemma replace_keys_as_given p r :
  GameData.title p <> Null -> stored_as_given p ->
  UpdateSpec.replace_keys_normalized p r = UpdateSpec.replace_keys p r.
Proof.
  intros Htitle (Hl & Hr & Hf & Hc & Hp & Hs & Hn & Hcov & Hplay & Hph & Hpht
                 & Hnt & Hntt).
  unfold UpdateSpec.replace_keys_normalized, UpdateSpec.replace_keys,
    UpdateSpec.replaced.
  f_equal.
  - destruct (GameData.link p) as [| |s]; [reflexivity | congruence | cbn].
    now rewrite or_default_idem_string by eauto.
  - destruct (GameData.rageRating p) as [| |n];
      [reflexivity | congruence | cbn].
    now rewrite or_default_idem_Z.
  - destruct (GameData.finished p) as [| |[]];
      congruence || (cbn; now rewrite one_or_zero_bool) || reflexivity.
  - destruct (GameData.is_checked p) as [| |[]];
      congruence || (cbn; now rewrite one_or_zero_bool) || reflexivity.
  - destruct (GameData.platform p) as [| |s]; [reflexivity | congruence | cbn].
    now rewrite or_default_idem_string by eauto.
  - destruct (GameData.strikes p) as [| |n]; [reflexivity | congruence | cbn].
    now rewrite or_default_idem_Z.
  - destruct (GameData.notes p) as [| |s]; [reflexivity | congruence | cbn].
    now rewrite or_default_idem_string by eauto.
  - destruct (GameData.coverArtPath p) as [| |s];
      [reflexivity | reflexivity | cbn].
    apply or_null_written. congruence.
  - destruct (GameData.gameplayImagePath p) as [| |s];
      [reflexivity | reflexivity | cbn].
    apply or_null_written. congruence.
  - destruct (GameData.additionalPhotos p) as [| |v];
      [reflexivity | congruence | cbn].
    now rewrite encode_list_truthy by auto.
  - destruct (GameData.additionalNotes p) as [| |v];
      [reflexivity | congruence | cbn].
    now rewrite encode_list_truthy by auto.
Qed.

#[local] Transparent or_default or_null one_or_zero encode_list.

Lemma written_doom : written Sample.doom.
Proof.
  constructor; cbn; try (eexists; reflexivity); try discriminate;
    try (left; reflexivity);
    (exists (JSON.JArr []); repeat split).
Defined.

(** C2 as stated fails: the payload [{ coverArtPath: '' }] applied to the
    sample row leaves [NULL] in the column, not the empty string that the
    payload provides.  And through the update route a form that carries
    only the title does not retain the stored platform and rating: they
    are overwritten by the defaults. *)
Lemma updateGame_empty_path_counterexample :
  (fst (updateGame 1 Sample.empty_cover Sample.store) = Resolved 1 /\
   rows (snd (updateGame 1 Sample.empty_cover Sample.store)) !! 1
   <> Some (UpdateSpec.replace_keys Sample.empty_cover Sample.doom) /\
   Row.coverArtPath
     (UpdateSpec.replace_keys Sample.empty_cover Sample.doom)
   = Some EmptyString /\
   (Row.coverArtPath <$>
      rows (snd (updateGame 1 Sample.empty_cover Sample.store)) !! 1)
   = Some None) /\
  (fst SampleWorld.bare_update
   = Resolved (mkReply 200 (Message "Game updated successfully")) /\
   Row.platform Sample.doom = Some "PC" /\
   Row.rageRating Sample.doom = Some 5 /\
   (Row.platform <$> rows (db (snd SampleWorld.bare_update)) !! 1)
   = Some (Some EmptyString) /\
   (Row.rageRating <$> rows (db (snd SampleWorld.bare_update)) !! 1)
   = Some (Some 0)).
Proof.
  repeat split; try (vm_compute; reflexivity).
  vm_compute. discriminate.
Qed.

(** What a successful [updateGame] has done. *)
Lemma updateGame_resolved id g d n d' :
  updateGame id g d = (Resolved n, d') ->
  exists existing old title,
    getGameById id d = Resolved (Some existing) /\
    rows d !! id = Some old /\
    Merged.title (merge g existing) = Some title /\
    n = 1 /\
    d' = mkDB (<[id := write_row title (merge g existing) old]> (rows d))
              (sequence d) (today d).
Proof.
  unfold updateGame. intros Hrun.
  destruct (getGameById id d) as [[existing|]|e] eqn:Hget; try discriminate.
  destruct (Merged.title (merge g existing)) as [title|] eqn:Htitle;
    try discriminate.
  destruct (rows d !! id) as [old|] eqn:Hrow.
  - injection Hrun as <- <-. now exists existing, old, title.
  - unfold getGameById in Hget. rewrite Hrow in Hget. discriminate.
Qed.

(** C9.  After every successful [updateGame] the row is normalized where
    it is written, whatever the merged values are: [link], [platform] and
    [notes] hold the empty string whenever the merged value is falsy
    ([null] included) and the merged string otherwise; [rageRating] and
    [strikes] hold 0 whenever it is falsy; the image paths hold [NULL]
    whenever it is falsy, so that an empty path given in the payload is
    stored as [NULL] and not as the empty string; a falsy list value is
    stored as the text of the empty list. *)
Theorem updateGame_normalizes_row id g d n d' :
  updateGame id g d = (Resolved n, d') ->
  exists existing row,
    getGameById id d = Resolved (Some existing) /\
    rows d' !! id = Some row /\
    let m := merge g existing in
    (truthy (Merged.link m) = false -> Row.link row = Some EmptyString) /\
    (truthy (Merged.platform m) = false ->
     Row.platform row = Some EmptyString) /\
    (truthy (Merged.notes m) = false -> Row.notes row = Some EmptyString) /\
    (truthy (Merged.link m) = true -> Row.link row = Merged.link m) /\
    (truthy (Merged.platform m) = true ->
     Row.platform row = Merged.platform m) /\
    (truthy (Merged.notes m) = true -> Row.notes row = Merged.notes m) /\
    (truthy (Merged.rageRating m) = false -> Row.rageRating row = Some 0) /\
    (truthy (Merged.strikes m) = false -> Row.strikes row = Some 0) /\
    (truthy (Merged.coverArtPath m) = false -> Row.coverArtPath row = None) /\
    (truthy (Merged.gameplayImagePath m) = false ->
     Row.gameplayImagePath row = None) /\
    (GameData.coverArtPath g = Val EmptyString ->
     Row.coverArtPath row = None) /\
    (GameData.gameplayImagePath g = Val EmptyString ->
     Row.gameplayImagePath row = None) /\
    (truthy (Merged.additionalPhotos m) = false ->
     Row.additionalPhotos row = Some "[]") /\
    (truthy (Merged.additionalNotes m) = false ->
     Row.additionalNotes row = Some "[]").
Proof.
  intros Hrun.
  apply updateGame_resolved in Hrun
    as (existing & old & title & Hget & Hrow & Htitle & -> & ->).
  exists existing, (write_row title (merge g existing) old).
  split; [exact Hget|]. split; [apply lookup_insert_eq|].
  cbn zeta. unfold write_row. cbn [Row.link Row.platform Row.notes
    Row.rageRating Row.strikes Row.coverArtPath Row.gameplayImagePath
    Row.additionalPhotos Row.additionalNotes].
  assert (forall (x : option string),
             truthy x = false -> Some (or_default x EmptyString)
                                 = Some EmptyString) as Hstr.
  { intros [s|] Hs; [|reflexivity]. unfold or_default.
    change (truthy (Some s)) with (truthy s) in Hs. now rewrite Hs. }
  assert (forall (x : option string),
             truthy x = true -> Some (or_default x EmptyString) = x) as Hstr'.
  { intros [s|] Hs; [|discriminate]. unfold or_default.
    change (truthy (Some s)) with (truthy s) in Hs. now rewrite Hs. }
  assert (forall (x : option Z),
             truthy x = false -> Some (or_default x 0) = Some 0) as Hnum.
  { intros [z|] Hz; [|reflexivity]. unfold or_default.
    change (truthy (Some z)) with (truthy z) in Hz. now rewrite Hz. }
  assert (forall (x : option string), truthy x = false -> or_null x = None)
    as Hpath.
  { intros x Hx. unfold or_null. now rewrite Hx. }
  assert (forall (x : option JSON.json),
             truthy x = false -> Some (encode_list x) = Some "[]") as Hlist.
  { intros [v|] Hv; [|reflexivity]. unfold encode_list.
    change (truthy (Some v)) with (truthy v) in Hv. now rewrite Hv. }
  repeat split; auto.
  - intros Hg. apply Hpath. unfold merge. cbn [Merged.coverArtPath].
    now rewrite Hg.
  - intros Hg. apply Hpath. unfold merge. cbn [Merged.gameplayImagePath].
    now rewrite Hg.
Qed.

Lemma updateGame_normalizes_row_witness :
  updateGame 1 Sample.empty_cover Sample.store
  = (Resolved 1, snd (updateGame 1 Sample.empty_cover Sample.store)) /\
  exists existing row,
    getGameById 1 Sample.store = Resolved (Some existing) /\
    rows (snd (updateGame 1 Sample.empty_cover Sample.store)) !! 1
    = Some row /\
    Row.coverArtPath row = None.
Proof.
  split; [reflexivity|].
  destruct (updateGame_normalizes_row 1 Sample.empty_cover Sample.store 1
              (snd (updateGame 1 Sample.empty_cover Sample.store))
              eq_refl)
    as (existing & row & Hget & Hrow & Hnorm).
  exists existing, row. split; [exact Hget|]. split; [exact Hrow|].
  apply Hnorm. reflexivity.
Defined.

(** *** The list of all games *)

Lemma decode_row_id id r game :
  decode_row id r = Resolved game -> Game.id game = id.
Proof.
  unfold decode_row.
  destruct (decode_list (Row.additionalPhotos r)); [|discriminate].
  destruct (decode_list (Row.additionalNotes r)); [|discriminate].
  now intros [= <-].
Qed.

Lemma decode_rows_elem l games game :
  decode_rows l = Resolved games -> game ∈ games ->
  exists id r, (id, r) ∈ l /\ decode_row id r = Resolved game.
Proof.
  revert games; induction l as [|[id r] l IH]; intros games.
  - intros [= <-] Hin. now apply not_elem_of_nil in Hin.
  - cbn [decode_rows].
    destruct (decode_row id r) as [g|] eqn:Hg; [|discriminate].
    destruct (decode_rows l) as [gs|] eqn:Hgs; [|discriminate].
    intros [= <-] Hin. apply elem_of_cons in Hin as [->|Hin].
    + exists id, r. split; [apply list_elem_of_here | exact Hg].
    + destruct (IH gs eq_refl Hin) as (id' & r' & Hin' & Hdec).
      exists id', r'. split; [now apply list_elem_of_further | exact Hdec].
Qed.

Lemma decode_rows_complete l games id r :
  decode_rows l = Resolved games -> (id, r) ∈ l ->
  exists game, decode_row id r = Resolved game /\ game ∈ games.
Proof.
  revert games; induction l as [|[id' r'] l IH]; intros games.
  - intros _ Hin. now apply not_elem_of_nil in Hin.
  - cbn [decode_rows].
    destruct (decode_row id' r') as [g|] eqn:Hg; [|discriminate].
    destruct (decode_rows l) as [gs|] eqn:Hgs; [|discriminate].
    intros [= <-] Hin. apply elem_of_cons in Hin as [[= -> ->]|Hin].
    + exists g. split; [exact Hg | apply list_elem_of_here].
    + destruct (IH gs eq_refl Hin) as (game & Hdec & Hgame).
      exists game. split; [exact Hdec | now apply list_elem_of_further].
Qed.

Lemma decode_rows_written l :
  Forall (fun x => written (snd x)) l ->
  exists games, decode_rows l = Resolved games.
Proof.
  induction 1 as [|[id r] l Hr Hl [games IH]]; [now exists []|].
  destruct (decode_written id r Hr) as (game & Hgame & _).
  exists (game :: games). cbn [decode_rows]. now rewrite Hgame, IH.
Qed.

(** The scan lists each row of the table once, by ascending id. *)
Lemma table_scan_rows d : table_scan d ≡ₚ map_to_list (rows d).
Proof. apply merge_sort_Permutation. Qed.

Lemma elem_of_table_scan d id r :
  (id, r) ∈ table_scan d <-> rows d !! id = Some r.
Proof. rewrite table_scan_rows. apply elem_of_map_to_list. Qed.

Lemma length_table_scan d : length (table_scan d) = size (rows d).
Proof. rewrite table_scan_rows. apply length_map_to_list. Qed.

Lemma NoDup_fst_table_scan d : NoDup (table_scan d).*1.
Proof. rewrite table_scan_rows. apply NoDup_fst_map_to_list. Qed.

Lemma table_scan_sorted d : Sorted by_id (table_scan d).
Proof.
  assert (Total by_id) by (intros x y; unfold by_id; lia).
  apply (Sorted_merge_sort by_id).
Qed.

Lemma table_scan_empty sequence today :
  table_scan (mkDB ∅ sequence today) = [].
Proof. unfold table_scan. cbn [rows]. now rewrite map_to_list_empty. Qed.

(** In a store of written rows [getAllGames] resolves, and the games it
    lists are the decoded rows. *)
Lemma getAllGames_written d :
  store_written d ->
  exists games,
    getAllGames d = Resolved games /\
    (forall id r, rows d !! id = Some r ->
                  exists game, decode_row id r = Resolved game /\
                               game ∈ games) /\
    (forall game, game ∈ games ->
                  exists r, rows d !! Game.id game = Some r /\
                            decode_row (Game.id game) r = Resolved game).
Proof.
  intros Hstore. unfold getAllGames.
  destruct (decode_rows_written (table_scan d)) as [games Hgames].
  { apply Forall_forall. intros [id r] Hin.
    apply elem_of_table_scan in Hin. exact (Hstore _ _ Hin). }
  exists games. split; [exact Hgames|]. split.
  - intros id r Hrow. apply elem_of_table_scan in Hrow.
    exact (decode_rows_complete _ _ _ _ Hgames Hrow).
  - intros game Hin.
    destruct (decode_rows_elem _ _ _ Hgames Hin) as (id & r & Hrow & Hdec).
    apply elem_of_table_scan in Hrow.
    rewrite (decode_row_id _ _ _ Hdec). eauto.
Qed.

(** *** The rows of the store stay as the store writes them *)

Lemma to_option_val {A} (x : field A) v : to_option x = Some v -> x = Val v.
Proof. destruct x; cbn; congruence. Qed.

Lemma write_row_written title m old :
  (forall v, Merged.additionalPhotos m = Some v -> JSON.distinct_keys v) ->
  (forall v, Merged.additionalNotes m = Some v -> JSON.distinct_keys v) ->
  written (write_row title m old).
Proof.
  intros Hphotos Hnotes. unfold write_row. constructor; cbn;
    try (eexists; reflexivity);
    try apply one_or_zero_flag;
    try apply or_null_not_empty;
    now apply encode_list_column.
Qed.

Lemma createGame_store_written g d id d' :
  store_written d -> payload_lists_ok g ->
  createGame g d = (Resolved id, d') -> store_written d'.
Proof.
  intros Hstore [Hphotos Hnotes]. unfold createGame.
  destruct (GameData.title g) as [| |title]; try discriminate.
  intros [= <- <-] id' r. cbn [rows].
  destruct (decide (last_rowid d + 1 = id')) as [<-|Hne].
  - rewrite lookup_insert_eq. intros [= <-]. constructor; cbn;
      try (eexists; reflexivity);
      try apply one_or_zero_flag;
      try apply or_null_not_empty;
      apply encode_list_column; intros v Hv; apply to_option_val in Hv; auto.
  - rewrite lookup_insert_ne by exact Hne. apply Hstore.
Qed.

Lemma updateGame_store_written id g d n d' :
  store_written d -> payload_lists_ok g ->
  updateGame id g d = (Resolved n, d') -> store_written d'.
Proof.
  intros Hstore [Hphotos Hnotes] Hrun.
  apply updateGame_resolved in Hrun
    as (existing & old & title & Hget & Hrow & _ & _ & ->).
  pose proof (Hstore _ _ Hrow) as Hold.
  destruct (decode_written id old Hold)
    as (game & Hgame & _ & _ & _ & _ & _ & _ & _ & _ & _ & _ & _ & _
        & (Hph & _ & _) & (Hnt & _ & _)).
  assert (game = existing) as ->.
  { unfold getGameById in Hget. rewrite Hrow, Hgame in Hget. congruence. }
  intros id' r. cbn [rows].
  destruct (decide (id = id')) as [<-|Hne].
  - rewrite lookup_insert_eq. intros [= <-]. apply write_row_written.
    + unfold merge. cbn [Merged.additionalPhotos].
      destruct (GameData.additionalPhotos g) eqn:Hg; cbn; intros v [= <-];
        auto.
    + unfold merge. cbn [Merged.additionalNotes].
      destruct (GameData.additionalNotes g) eqn:Hg; cbn; intros v [= <-];
        auto.
  - rewrite lookup_insert_ne by exact Hne. apply Hstore.
Qed.

(** *** Reading back what was written *)

Lemma decode_list_distinct col v :
  decode_list col = Resolved v -> JSON.distinct_keys v.
Proof.
  unfold decode_list. destruct col as [s|]; [|intros [= <-]; exact I].
  destruct (truthy s); [|intros [= <-]; exact I].
  destruct (JSON.parse s) as [v'|] eqn:Hparse; [|discriminate].
  intros [= <-]. now apply parse_distinct_keys in Hparse.
Qed.

Lemma decode_row_distinct id r game :
  decode_row id r = Resolved game ->
  JSON.distinct_keys (Game.additionalPhotos game) /\
  JSON.distinct_keys (Game.additionalNotes game).
Proof.
  unfold decode_row.
  destruct (decode_list (Row.additionalPhotos r)) as [photos|] eqn:Hp;
    [|discriminate].
  destruct (decode_list (Row.additionalNotes r)) as [notes|] eqn:Hn;
    [|discriminate].
  intros [= <-]. cbn. split; eapply decode_list_distinct; eassumption.
Qed.

(** The lists of a freshly written row, as [getGameById] decodes them. *)
Lemma decode_write_row id title m old :
  (forall v, Merged.additionalPhotos m = Some v -> JSON.distinct_keys v) ->
  (forall v, Merged.additionalNotes m = Some v -> JSON.distinct_keys v) ->
  exists game,
    decode_row id (write_row title m old) = Resolved game /\
    Game.title game = title /\
    Game.additionalPhotos game
    = (if truthy (Merged.additionalPhotos m)
       then default JSON.JNull (Merged.additionalPhotos m)
       else JSON.JArr []) /\
    Game.additionalNotes game
    = (if truthy (Merged.additionalNotes m)
       then default JSON.JNull (Merged.additionalNotes m)
       else JSON.JArr []).
Proof.
  intros Hphotos Hnotes. unfold decode_row, write_row.
  cbn [Row.additionalPhotos Row.additionalNotes].
  rewrite !decode_encode_list by assumption.
  eexists. split; [reflexivity|]. now cbn.
Qed.

(** *** The lists through the store *)



Lemma array_payload_ok g photos notes :
  Forall JSON.distinct_keys photos -> Forall JSON.distinct_keys notes ->
  GameData.additionalPhotos g = Val (JSON.JArr photos) ->
  GameData.additionalNotes g = Val (JSON.JArr notes) ->
  payload_lists_ok g.
Proof.
  intros Hphotos Hnotes Hp Hn. split; intros v Hv.
  - rewrite Hp in Hv. injection Hv as <-. now apply distinct_keys_arr.
  - rewrite Hn in Hv. injection Hv as <-. now apply distinct_keys_arr.
Qed.


Lemma sample_photo_keys file : JSON.distinct_keys (Sample.photo file).
Proof.
  cbn. split; [|tauto].
  apply (bool_decide_unpack _). vm_compute. exact I.
Qed.


End Store.

(** ** The handlers *)

Section Handlers.

Context {F : Type} `{FileSystem F}.
Variable appDataPath : string.

(** *** Computations that leave the database alone *)

Lemma keeps_db_ret {A} (a : A) : keeps_db (ret (F:=F) a).
Proof. intros w r w' [= _ <-]. reflexivity. Qed.

Lemma keeps_db_throw {A} e : keeps_db (throw (F:=F) (A:=A) e).
Proof. intros w r w' [= _ <-]. reflexivity. Qed.

Lemma keeps_db_bind {A B} (m : M F A) (k : A -> M F B) :
  keeps_db m -> (forall a, keeps_db (k a)) -> keeps_db (bind m k).
Proof.
  intros Hm Hk w r w'. unfold bind.
  destruct (m w) as [[a|e] w1] eqn:Hrun.
  - intros Hk'. apply Hk in Hk'. apply Hm in Hrun. congruence.
  - intros [= _ <-]. now apply Hm in Hrun.
Qed.

Lemma keeps_db_try_catch {A} (m : M F A) (h : string -> M F A) :
  keeps_db m -> (forall e, keeps_db (h e)) -> keeps_db (try_catch m h).
Proof.
  intros Hm Hh w r w'. unfold try_catch.
  destruct (m w) as [[a|e] w1] eqn:Hrun.
  - intros [= _ <-]. now apply Hm in Hrun.
  - intros Hh'. apply Hh in Hh'. apply Hm in Hrun. congruence.
Qed.

Lemma keeps_db_console_log line : keeps_db (console_log (F:=F) line).
Proof. intros w r w' [= _ <-]. reflexivity. Qed.

Lemma keeps_db_fs_query {A} (q : F -> A) : keeps_db (fs_query q).
Proof. intros w r w' [= _ <-]. reflexivity. Qed.

Lemma keeps_db_fs_read {A} (op : F -> result A) : keeps_db (fs_read op).
Proof. intros w r w' [= _ <-]. reflexivity. Qed.

Lemma keeps_db_fs_call (op : F -> result F) : keeps_db (fs_call op).
Proof.
  intros w r w'. unfold fs_call.
  destruct (op (fs w)); intros [= _ <-]; reflexivity.
Qed.

Lemma keeps_db_when b (m : M F unit) : keeps_db m -> keeps_db (when b m).
Proof. destruct b; [trivial | intros _; apply keeps_db_ret]. Qed.

Lemma keeps_db_move_files oldPath newPath files :
  keeps_db (move_files oldPath newPath files).
Proof.
  induction files as [|file files IH]; cbn [move_files].
  - apply keeps_db_ret.
  - apply keeps_db_bind; [apply keeps_db_fs_call | intros _; exact IH].
Qed.

Create HintDb keeps_db discriminated.
#[local] Hint Resolve keeps_db_ret keeps_db_throw keeps_db_console_log
  keeps_db_fs_query keeps_db_fs_read keeps_db_fs_call keeps_db_when
  keeps_db_move_files : keeps_db.

Ltac solve_keeps_db :=
  repeat first
    [ apply keeps_db_bind; [|intros ?]
    | apply keeps_db_try_catch; [|intros ?]
    | match goal with |- keeps_db (if ?b then _ else _) => destruct b end
    | match goal with |- keeps_db (match ?x with _ => _ end) => destruct x end
    | solve [auto with keeps_db] ].

Lemma keeps_db_renameGameFolder oldTitle newTitle :
  keeps_db (renameGameFolder appDataPath oldTitle newTitle).
Proof. unfold renameGameFolder. solve_keeps_db. Qed.

Lemma keeps_db_delete_old_file old :
  keeps_db (delete_old_file appDataPath old).
Proof. unfold delete_old_file. solve_keeps_db. Qed.

Lemma keeps_db_rename_step b existingGame gameData :
  keeps_db (rename_step appDataPath b existingGame gameData).
Proof.
  unfold rename_step.
  destruct (title_changed b existingGame); [|apply keeps_db_ret].
  apply keeps_db_bind; [apply keeps_db_renameGameFolder | intros r].
  solve_keeps_db.
Qed.

Lemma keeps_db_upload_step files existingGame folderName gameData :
  keeps_db (upload_step appDataPath files existingGame folderName gameData).
Proof.
  unfold upload_step. apply keeps_db_bind.
  - destruct (Files.coverArt files); [|apply keeps_db_ret].
    apply keeps_db_bind; [apply keeps_db_delete_old_file|].
    intros _. apply keeps_db_ret.
  - intros g. destruct (Files.gameplayImage files); [|apply keeps_db_ret].
    apply keeps_db_bind; [apply keeps_db_delete_old_file|].
    intros _. apply keeps_db_ret.
Qed.

(** *** The folder migration never throws *)

Lemma renameGameFolder_resolves oldTitle newTitle w :
  exists r w',
    renameGameFolder appDataPath oldTitle newTitle w = (Resolved r, w') /\
    db w' = db w.
Proof.
  destruct (renameGameFolder appDataPath oldTitle newTitle w) as [r w']
    eqn:Hrun.
  pose proof (keeps_db_renameGameFolder _ _ _ _ _ Hrun) as Hdb.
  revert Hrun. unfold renameGameFolder, try_catch.
  match goal with |- context [match ?m w with _ => _ end] =>
    destruct (m w) as [[a|e] w1] end.
  - intros [= <- <-]. eauto.
  - cbn. intros [= <- <-]. eauto.
Qed.

End Handlers.

(** ** Replacing inside strings *)

Section Replace.

Lemma append_cons c (a b : string) : String c a +:+ b = String c (a +:+ b).
Proof. reflexivity. Qed.

Lemma append_nil (b : string) : EmptyString +:+ b = b.
Proof. reflexivity. Qed.

Lemma prefix_nil s : String.prefix EmptyString s = true.
Proof. destruct s; reflexivity. Qed.

Lemma replace_skip pat rep c s :
  String.prefix pat (String c s) = false ->
  Str.replace pat rep (String c s) = String c (Str.replace pat rep s).
Proof. intros Hp. cbn [Str.replace]. now rewrite Hp. Qed.

Lemma replace_here pat rep s :
  String.prefix pat s = true ->
  Str.replace pat rep s = rep +:+ Str.drop (String.length pat) s.
Proof. intros Hp. destruct s; cbn [Str.replace]; now rewrite Hp. Qed.

Lemma prefix_drop p s :
  String.prefix p s = true -> p +:+ Str.drop (String.length p) s = s.
Proof.
  revert s; induction p as [|a p IH]; intros s Hp; [reflexivity|].
  destruct s as [|b s]; [discriminate|]. cbn in Hp.
  destruct (ascii_dec a b) as [->|]; [|discriminate].
  change (String b (p +:+ Str.drop (String.length p) s) = String b s).
  f_equal. now apply IH.
Qed.

Lemma prefix_append p x : String.prefix p (p +:+ x) = true.
Proof.
  induction p as [|a p IH]; [apply prefix_nil|].
  change (String.prefix (String a p) (String a (p +:+ x)) = true). cbn.
  destruct (ascii_dec a a); [exact IH | contradiction].
Qed.

Lemma drop_append p x : Str.drop (String.length p) (p +:+ x) = x.
Proof. induction p as [|a p IH]; [reflexivity | exact IH]. Qed.

(** Replacing a pattern by itself changes nothing. *)
Lemma replace_same p s : Str.replace p p s = s.
Proof.
  induction s as [|c s IH]; cbn [Str.replace].
  - destruct (String.prefix p EmptyString) eqn:Hp; [|reflexivity].
    now apply prefix_drop.
  - destruct (String.prefix p (String c s)) eqn:Hp.
    + now apply prefix_drop.
    + now rewrite IH.
Qed.

Lemma append_assoc (a b c : string) : (a +:+ b) +:+ c = a +:+ (b +:+ c).
Proof.
  induction a as [|x a IH]; [reflexivity|].
  change (String x ((a +:+ b) +:+ c) = String x (a +:+ b +:+ c)).
  now rewrite IH.
Qed.

(** The folder segment of an upload URL is its first match. *)
Lemma replace_upload_url oldFolder newFolder file :
  Str.replace (uploads_segment oldFolder) (uploads_segment newFolder)
    (upload_url oldFolder file)
  = upload_url newFolder file.
Proof.
  unfold upload_url, base_url.
  assert (forall folder,
             "/uploads/" +:+ folder +:+ "/" +:+ file
             = uploads_segment folder +:+ file) as Hsplit.
  { intros folder. unfold uploads_segment.
    now rewrite !append_assoc. }
  rewrite !Hsplit, !append_cons, append_nil.
  assert (exists tail, uploads_segment oldFolder
                       = String "/" (String "u" tail)) as [tail Hseg]
      by (eexists; reflexivity).
  repeat (rewrite replace_skip; [f_equal|rewrite Hseg; reflexivity]).
  rewrite replace_here by apply prefix_append.
  now rewrite drop_append.
Qed.

End Replace.

(** ** The update route *)

Section UpdateRoute.

Context {F : Type} `{FileSystem F}.
Variable appDataPath : string.

Lemma getGameById_row id d existing :
  getGameById id d = Resolved (Some existing) ->
  exists r, rows d !! id = Some r /\ decode_row id r = Resolved existing.
Proof.
  unfold getGameById. destruct (rows d !! id) as [r|]; [|discriminate].
  destruct (decode_row id r) eqn:Hr; [|discriminate].
  intros [= ->]. eauto.
Qed.

Lemma getGameById_decoded id d r existing :
  rows d !! id = Some r -> decode_row id r = Resolved existing ->
  getGameById id d = Resolved (Some existing).
Proof. intros Hrow Hr. unfold getGameById. now rewrite Hrow, Hr. Qed.

(** The rename block always hands on the data, rewritten when the title
    changed, and leaves the database alone. *)
Lemma rename_step_result b existing gameData w :
  exists w',
    rename_step appDataPath b existing gameData w
    = (Resolved
         (if title_changed b existing
          then rewritten_data (Game.title existing)
                 (default EmptyString (Form.title b)) gameData
          else gameData), w') /\
    db w' = db w.
Proof.
  unfold rename_step. destruct (title_changed b existing); [|now exists w].
  destruct (renameGameFolder_resolves appDataPath (Game.title existing)
              (default EmptyString (Form.title b)) w)
    as (r & w1 & Hrun & Hdb).
  unfold bind at 1. rewrite Hrun.
  destruct (success r); cbn; eexists; split; try reflexivity; exact Hdb.
Qed.

Lemma upload_step_result files existing folderName gameData w gameData' w' :
  upload_step appDataPath files existing folderName gameData w
  = (Resolved gameData', w') ->
  gameData' = uploaded_data files folderName gameData /\ db w' = db w.
Proof.
  intros Hrun.
  split; [|exact (keeps_db_upload_step appDataPath _ _ _ _ _ _ _ Hrun)].
  revert Hrun. unfold upload_step, uploaded_data, bind.
  destruct (Files.coverArt files) as [cover|].
  - destruct (delete_old_file appDataPath (Game.coverArtPath existing) w)
      as [[[]|e] w1]; [|discriminate]. cbn [ret].
    destruct (Files.gameplayImage files) as [gameplay|].
    + destruct (delete_old_file appDataPath (Game.gameplayImagePath existing)
                  w1) as [[[]|e] w2]; [|discriminate].
      now intros [= <- _].
    + now intros [= <- _].
  - cbn [ret]. destruct (Files.gameplayImage files) as [gameplay|].
    + destruct (delete_old_file appDataPath (Game.gameplayImagePath existing)
                  w) as [[[]|e] w2]; [|discriminate].
      now intros [= <- _].
    + now intros [= <- _].
Qed.

Lemma upload_step_none existing folderName gameData w :
  upload_step appDataPath Files.none existing folderName gameData w
  = (Resolved gameData, w).
Proof. reflexivity. Qed.

(** What a successful update has done: the record was there, the form
    carried a title, and [updateGame] stored the data of the route. *)
Lemma update_route_ok gameId b files w reply w' :
  update_route appDataPath gameId b files w = (Resolved reply, w') ->
  status reply = 200 ->
  exists r existing title,
    rows (db w) !! gameId = Some r /\
    decode_row gameId r = Resolved existing /\
    Form.title b = Some title /\
    updateGame gameId (final_data b files existing title) (db w)
    = (Resolved 1, db w').
Proof.
  unfold update_route, try_catch, bind at 1, db_read.
  destruct (getGameById gameId (db w)) as [[existing|]|e] eqn:Hget.
  2: { cbn. intros [= <- _]. discriminate. }
  2: { cbn. intros [= <- _]. discriminate. }
  destruct (getGameById_row _ _ _ Hget) as (r & Hrow & Hdec).
  destruct (rename_step_result b existing (form_data b existing) w)
    as (w1 & Hrename & Hdb1).
  unfold bind at 1. rewrite Hrename.
  set (gameData1 := if title_changed b existing
                    then rewritten_data (Game.title existing)
                           (default EmptyString (Form.title b))
                           (form_data b existing)
                    else form_data b existing).
  assert (GameData.title gameData1 = to_field_undefined (Form.title b))
    as Htitle1 by (subst gameData1; now destruct (title_changed b existing)).
  assert (forall title, Form.title b = Some title ->
            uploaded_data files (sanitizeFolderName title) gameData1
            = final_data b files existing title) as Hfinal.
  { intros title Htitle. unfold final_data. subst gameData1.
    now rewrite Htitle. }
  clearbody gameData1.
  unfold bind at 1. rewrite Htitle1.
  destruct (Form.title b) as [title|] eqn:Htitle.
  2: { cbn. intros [= <- _]. discriminate. }
  specialize (Hfinal title eq_refl).
  cbn [to_field_undefined].
  cbn [folder_of ret]. unfold bind at 1.
  destruct (upload_step appDataPath files existing (sanitizeFolderName title)
              gameData1 w1) as [[gameData'|e] w2] eqn:Hup.
  2: { cbn. intros [= <- _]. discriminate. }
  apply upload_step_result in Hup as [-> Hdb2].
  unfold bind at 1, db_run. rewrite Hdb2, Hdb1, Hfinal.
  destruct (updateGame gameId (final_data b files existing title) (db w))
    as [[n|e] d'] eqn:Hupd.
  2: { cbn. intros [= <- _]. discriminate. }
  cbn. intros [= _ <-] _. cbn [db].
  destruct (updateGame_resolved _ _ _ _ _ Hupd)
    as (_ & _ & _ & _ & _ & _ & -> & _).
  exists r, existing, title. auto.
Qed.

End UpdateRoute.

Section UpdateProperties.

Context {F : Type} `{FileSystem F}.
Variable appDataPath : string.

(** C8.  For an id with no stored record the update fails with "Game not
    found" before anything else is done: [updateGame] rejects with that
    error and the route answers 404 with it, once, and neither the
    database, nor the file system, nor the console has changed; no merge
    is computed and no record is written. *)
Theorem update_of_unknown_id gameId b files g (w : World F) :
  rows (db w) !! gameId = None ->
  update_route appDataPath gameId b files w
  = (Resolved (mkReply 404 (Error game_not_found)), w) /\
  updateGame gameId g (db w) = (Rejected game_not_found, db w) /\
  getGameById gameId (db w) = Resolved None.
Proof.
  intros Hrow.
  assert (getGameById gameId (db w) = Resolved None) as Hget
      by (unfold getGameById; now rewrite Hrow).
  split; [|split; [|exact Hget]].
  - unfold update_route, try_catch, bind, db_read. now rewrite Hget.
  - unfold updateGame. now rewrite Hget.
Qed.

(** *** Running the route on a stored record, without uploads *)

Lemma updateGame_titled id g d r existing title :
  rows d !! id = Some r -> decode_row id r = Resolved existing ->
  GameData.title g = Val title ->
  updateGame id g d
  = (Resolved 1,
     mkDB (<[id := write_row title (merge g existing) r]> (rows d))
          (sequence d) (today d)).
Proof.
  intros Hrow Hdec Htitle. unfold updateGame.
  rewrite (getGameById_decoded _ _ _ _ Hrow Hdec).
  unfold merge at 1. cbn [Merged.title]. rewrite Htitle. cbn [provided_or].
  now rewrite Hrow.
Qed.

Lemma uploaded_data_title files folderName gameData :
  GameData.title (uploaded_data files folderName gameData)
  = GameData.title gameData.
Proof.
  unfold uploaded_data.
  destruct (Files.coverArt files), (Files.gameplayImage files); reflexivity.
Qed.

(** The route on a stored record whose remaining steps go through. *)
Lemma update_route_run gameId b files (w : World F) r existing title
    gameData1 w1 gameData2 w2 :
  rows (db w) !! gameId = Some r ->
  decode_row gameId r = Resolved existing ->
  rename_step appDataPath b existing (form_data b existing) w
  = (Resolved gameData1, w1) ->
  GameData.title gameData1 = Val title ->
  upload_step appDataPath files existing (sanitizeFolderName title)
    gameData1 w1 = (Resolved gameData2, w2) ->
  update_route appDataPath gameId b files w
  = (Resolved (mkReply 200 (Message "Game updated successfully")),
     mkWorld
       (mkDB (<[gameId := write_row title (merge gameData2 existing) r]>
                (rows (db w)))
             (sequence (db w)) (today (db w)))
       (fs w2) (console w2)).
Proof.
  intros Hrow Hdec Hrename Htitle Hupload.
  pose proof (keeps_db_rename_step appDataPath _ _ _ _ _ _ Hrename) as Hdb.
  destruct (upload_step_result _ _ _ _ _ _ _ _ Hupload) as [Hdata Hdb2].
  unfold update_route, try_catch, bind at 1, db_read.
  rewrite (getGameById_decoded _ _ _ _ Hrow Hdec).
  unfold bind at 1. rewrite Hrename.
  unfold bind at 1. rewrite Htitle. cbn [folder_of ret].
  unfold bind at 1. rewrite Hupload.
  unfold bind at 1, db_run. rewrite Hdb2, Hdb.
  rewrite (updateGame_titled gameId gameData2 (db w) r existing title);
    [reflexivity | assumption | assumption |].
  now rewrite Hdata, uploaded_data_title.
Qed.

Lemma update_route_no_files gameId b (w : World F) r existing title
    gameData1 w1 :
  rows (db w) !! gameId = Some r ->
  decode_row gameId r = Resolved existing ->
  rename_step appDataPath b existing (form_data b existing) w
  = (Resolved gameData1, w1) ->
  GameData.title gameData1 = Val title ->
  update_route appDataPath gameId b Files.none w
  = (Resolved (mkReply 200 (Message "Game updated successfully")),
     mkWorld
       (mkDB (<[gameId := write_row title (merge gameData1 existing) r]>
                (rows (db w)))
             (sequence (db w)) (today (db w)))
       (fs w1) (console w1)).
Proof.
  intros Hrow Hdec Hrename Htitle.
  now apply (update_route_run gameId b Files.none w r existing title
               gameData1 w1 gameData1 w1).
Qed.

Lemma decode_row_paths id r existing :
  decode_row id r = Resolved existing ->
  Game.title existing = Row.title r /\
  Game.coverArtPath existing = Row.coverArtPath r /\
  Game.gameplayImagePath existing = Row.gameplayImagePath r.
Proof.
  unfold decode_row.
  destruct (decode_list (Row.additionalPhotos r)); [|discriminate].
  destruct (decode_list (Row.additionalNotes r)); [|discriminate].
  intros [= <-]. auto.
Qed.

(** *** The migration that has nothing to do *)

Lemma renameGameFolder_same_token oldTitle newTitle (w : World F) :
  sanitizeFolderName oldTitle = sanitizeFolderName newTitle ->
  renameGameFolder appDataPath oldTitle newTitle w = (Resolved NoChange, w).
Proof.
  intros Htoken. unfold renameGameFolder, try_catch, bind, fs_query.
  rewrite Htoken, String.eqb_refl, andb_false_r. reflexivity.
Qed.

Lemma renameGameFolder_no_folder oldTitle newTitle (w : World F) :
  existsSync (path_join (path_join appDataPath "uploads")
                (sanitizeFolderName oldTitle)) (fs w) = false ->
  renameGameFolder appDataPath oldTitle newTitle w = (Resolved NoChange, w).
Proof.
  intros Hold. unfold renameGameFolder, try_catch, bind, fs_query.
  rewrite Hold. reflexivity.
Qed.

Lemma rewrite_path_same_token oldTitle newTitle p :
  sanitizeFolderName oldTitle = sanitizeFolderName newTitle ->
  rewrite_path oldTitle newTitle p = p.
Proof.
  intros Htoken. destruct p as [| |s]; try reflexivity.
  unfold rewrite_path. rewrite Htoken, replace_same.
  now destruct (truthy s).
Qed.

(** C4.  Whenever the old and the new title have the same folder token the
    migration is skipped ([renameGameFolder] returns its "no changes
    needed" result and has changed nothing), and an update that carries
    the new title leaves the file system as it is and stores the image
    paths that were stored before, with the new title; the migration is
    skipped in the same way when the old folder does not exist, and the
    update then goes through without touching the file system. *)
Theorem same_token_update_skips_migration :
  (forall oldTitle newTitle (w : World F),
      sanitizeFolderName oldTitle = sanitizeFolderName newTitle ->
      renameGameFolder appDataPath oldTitle newTitle w
      = (Resolved NoChange, w)) /\
  (forall oldTitle newTitle (w : World F),
      existsSync (path_join (path_join appDataPath "uploads")
                    (sanitizeFolderName oldTitle)) (fs w) = false ->
      renameGameFolder appDataPath oldTitle newTitle w
      = (Resolved NoChange, w)) /\
  (forall gameId b (w : World F) r existing newTitle,
      rows (db w) !! gameId = Some r ->
      decode_row gameId r = Resolved existing ->
      Form.title b = Some newTitle ->
      sanitizeFolderName (Row.title r) = sanitizeFolderName newTitle ->
      Row.coverArtPath r <> Some EmptyString ->
      Row.gameplayImagePath r <> Some EmptyString ->
      exists w' r',
        update_route appDataPath gameId b Files.none w
        = (Resolved (mkReply 200 (Message "Game updated successfully")), w') /\
        fs w' = fs w /\
        console w'
        = console w
          ++ (if title_changed b existing
              then ["Folder rename warning: " +:+ no_change_message]
              else []) /\
        rows (db w') !! gameId = Some r' /\
        Row.title r' = newTitle /\
        Row.coverArtPath r' = Row.coverArtPath r /\
        Row.gameplayImagePath r' = Row.gameplayImagePath r) /\
  (forall gameId b (w : World F) r existing newTitle,
      rows (db w) !! gameId = Some r ->
      decode_row gameId r = Resolved existing ->
      Form.title b = Some newTitle ->
      title_changed b existing = true ->
      existsSync (path_join (path_join appDataPath "uploads")
                    (sanitizeFolderName (Row.title r))) (fs w) = false ->
      exists w',
        update_route appDataPath gameId b Files.none w
        = (Resolved (mkReply 200 (Message "Game updated successfully")), w') /\
        fs w' = fs w /\
        console w'
        = console w ++ ["Folder rename warning: " +:+ no_change_message]).
Proof.
  split; [exact renameGameFolder_same_token|].
  split; [exact renameGameFolder_no_folder|].
  split.
  2: { intros gameId b w r existing newTitle Hrow Hdec Htitle Hchanged Hold.
       destruct (decode_row_paths _ _ _ Hdec) as (Ht & _ & _).
       assert (rename_step appDataPath b existing (form_data b existing) w
               = (Resolved (rewritten_data (Game.title existing) newTitle
                              (form_data b existing)),
                  mkWorld (db w) (fs w)
                    (console w
                     ++ ["Folder rename warning: " +:+ no_change_message])))
         as Hstep.
       { unfold rename_step. rewrite Hchanged, Htitle.
         cbn [default from_option id]. unfold bind at 1.
         rewrite renameGameFolder_no_folder by now rewrite Ht.
         reflexivity. }
       assert (GameData.title (rewritten_data (Game.title existing) newTitle
                                 (form_data b existing)) = Val newTitle)
         as Hgt by (cbn; now rewrite Htitle).
       pose proof (update_route_no_files gameId b w r existing newTitle _ _
                     Hrow Hdec Hstep Hgt) as Hrun.
       eexists. split; [exact Hrun|]. split; reflexivity. }
  intros gameId b w r existing newTitle Hrow Hdec Htitle Htoken Hcover Hplay.
  destruct (decode_row_paths _ _ _ Hdec) as (Ht & Hc & Hg).
  assert (exists w1,
             rename_step appDataPath b existing (form_data b existing) w
             = (Resolved (form_data b existing), w1) /\ fs w1 = fs w /\
             console w1
             = console w
               ++ (if title_changed b existing
                   then ["Folder rename warning: " +:+ no_change_message]
                   else []))
    as (w1 & Hrename & Hfs & Hconsole).
  { unfold rename_step. destruct (title_changed b existing).
    - unfold bind at 1. rewrite Htitle. cbn [default from_option id].
      rewrite renameGameFolder_same_token by now rewrite Ht.
      cbn [success negb when].
      unfold rewritten_data. rewrite !rewrite_path_same_token
        by now rewrite Ht.
      eexists. split; [reflexivity|]. split; reflexivity.
    - exists w. split; [reflexivity|]. split; [reflexivity|].
      now rewrite app_nil_r. }
  assert (GameData.title (form_data b existing) = Val newTitle) as Hgt
      by (cbn; now rewrite Htitle).
  pose proof (update_route_no_files gameId b w r existing newTitle _ _
                Hrow Hdec Hrename Hgt) as Hrun.
  eexists _, _. split; [exact Hrun|]. split; [exact Hfs|].
  split; [exact Hconsole|].
  cbn [db rows]. rewrite lookup_insert_eq. split; [reflexivity|].
  unfold write_row, merge, form_data.
  cbn [Row.title Row.coverArtPath Row.gameplayImagePath
       Merged.coverArtPath Merged.gameplayImagePath
       GameData.coverArtPath GameData.gameplayImagePath].
  rewrite Hc, Hg.
  split; [reflexivity|].
  split.
  - destruct (Row.coverArtPath r) as [p|]; [|reflexivity].
    cbn [to_field provided_or]. now apply or_null_written.
  - destruct (Row.gameplayImagePath r) as [p|]; [|reflexivity].
    cbn [to_field provided_or]. now apply or_null_written.
Qed.

(** *** Uploads and rewritten paths *)

Lemma upload_url_truthy folder file : truthy (upload_url folder file) = true.
Proof. reflexivity. Qed.

Lemma final_data_title b files existing title :
  Form.title b = Some title ->
  GameData.title (final_data b files existing title) = Val title.
Proof.
  intros Htitle. unfold final_data, uploaded_data, rewritten_data.
  destruct (Files.coverArt files), (Files.gameplayImage files),
    (title_changed b existing); cbn; now rewrite Htitle.
Qed.

Lemma final_data_coverArtPath b files existing title :
  GameData.coverArtPath (final_data b files existing title) =
  match Files.coverArt files with
  | Some filename => Val (upload_url (sanitizeFolderName title) filename)
  | None =>
      if title_changed b existing
      then rewrite_path (Game.title existing) title
             (to_field (Game.coverArtPath existing))
      else to_field (Game.coverArtPath existing)
  end.
Proof.
  unfold final_data, uploaded_data, rewritten_data.
  destruct (Files.coverArt files), (Files.gameplayImage files),
    (title_changed b existing); reflexivity.
Qed.

Lemma final_data_gameplayImagePath b files existing title :
  GameData.gameplayImagePath (final_data b files existing title) =
  match Files.gameplayImage files with
  | Some filename => Val (upload_url (sanitizeFolderName title) filename)
  | None =>
      if title_changed b existing
      then rewrite_path (Game.title existing) title
             (to_field (Game.gameplayImagePath existing))
      else to_field (Game.gameplayImagePath existing)
  end.
Proof.
  unfold final_data, uploaded_data, rewritten_data.
  destruct (Files.coverArt files), (Files.gameplayImage files),
    (title_changed b existing); reflexivity.
Qed.

(** The row that a successful update has stored. *)
Lemma update_route_stored gameId b files (w : World F) reply w' :
  update_route appDataPath gameId b files w = (Resolved reply, w') ->
  status reply = 200 ->
  exists r existing title,
    rows (db w) !! gameId = Some r /\
    decode_row gameId r = Resolved existing /\
    Form.title b = Some title /\
    updateGame gameId (final_data b files existing title) (db w)
    = (Resolved 1, db w') /\
    rows (db w') !! gameId
    = Some (write_row title
              (merge (final_data b files existing title) existing) r).
Proof.
  intros Hrun Hok.
  destruct (update_route_ok appDataPath _ _ _ _ _ _ Hrun Hok)
    as (r & existing & title & Hrow & Hdec & Htitle & Hupd).
  exists r, existing, title. repeat split; try assumption.
  rewrite (updateGame_titled gameId _ (db w) r existing title) in Hupd
    by (try assumption; now apply final_data_title).
  injection Hupd as <-. cbn [rows]. apply lookup_insert_eq.
Qed.

(** C7.  In every update that succeeds with a changed title, the image
    paths are first rewritten from the old folder token to the new one and
    the URL of an uploaded file, built under the folder of the new title,
    then takes the place of the rewritten reference: the path stored for
    an uploaded file is the URL of that file in the folder keyed by the
    token of the new title. *)
Theorem uploaded_file_supersedes_rewrite gameId b files (w : World F) r
    existing reply w' :
  rows (db w) !! gameId = Some r ->
  decode_row gameId r = Resolved existing ->
  title_changed b existing = true ->
  update_route appDataPath gameId b files w = (Resolved reply, w') ->
  status reply = 200 ->
  exists newTitle stored,
    Form.title b = Some newTitle /\
    updateGame gameId
      (uploaded_data files (sanitizeFolderName newTitle)
         (rewritten_data (Game.title existing) newTitle
            (form_data b existing)))
      (db w)
    = (Resolved 1, db w') /\
    rows (db w') !! gameId = Some stored /\
    Row.title stored = newTitle /\
    (forall filename,
        Files.coverArt files = Some filename ->
        Row.coverArtPath stored
        = Some (upload_url (sanitizeFolderName newTitle) filename)) /\
    (forall filename,
        Files.gameplayImage files = Some filename ->
        Row.gameplayImagePath stored
        = Some (upload_url (sanitizeFolderName newTitle) filename)).
Proof.
  intros Hrow Hdec Hchanged Hrun Hok.
  destruct (update_route_stored _ _ _ _ _ _ Hrun Hok)
    as (r0 & existing0 & title & Hrow0 & Hdec0 & Htitle & Hupd & Hstored).
  assert (r0 = r) as -> by congruence.
  assert (existing0 = existing) as -> by congruence.
  exists title, (write_row title
                   (merge (final_data b files existing title) existing) r).
  split; [exact Htitle|]. split.
  { unfold final_data in Hupd. now rewrite Hchanged in Hupd. }
  split; [exact Hstored|]. split; [reflexivity|].
  unfold write_row, merge.
  cbn [Row.coverArtPath Row.gameplayImagePath Merged.coverArtPath
       Merged.gameplayImagePath].
  rewrite final_data_coverArtPath, final_data_gameplayImagePath.
  split; intros filename ->; reflexivity.
Qed.

(** *** The folder token embedded in the stored image paths *)

Lemma truthy_title_changed_false b existing title :
  Form.title b = Some title -> title <> EmptyString ->
  title_changed b existing = false -> Game.title existing = title.
Proof.
  intros Htitle Hne. unfold title_changed. rewrite Htitle.
  cbn [default from_option id].
  change (truthy (Some title)) with (negb (String.eqb title EmptyString)).
  destruct (String.eqb_spec title EmptyString); [contradiction|].
  cbn [negb andb]. destruct (String.eqb_spec (Game.title existing) title);
    [trivial | discriminate].
Qed.

Lemma keyed_by_or_null title x :
  keyed_by title x -> keyed_by title (or_null x).
Proof.
  intros Hx p Hp. apply Hx. unfold or_null in Hp.
  destruct (truthy x); [exact Hp | discriminate].
Qed.

Lemma keyed_by_rewritten oldTitle newTitle path :
  keyed_by oldTitle path ->
  keyed_by newTitle
    (provided_or (rewrite_path oldTitle newTitle (to_field path)) path).
Proof.
  intros Hkeyed. destruct path as [s|]; [|intros p [=]].
  destruct (Hkeyed s eq_refl) as [file ->].
  cbn [to_field rewrite_path]. rewrite upload_url_truthy.
  cbn [provided_or]. rewrite replace_upload_url.
  intros p [= <-]. now exists file.
Qed.

Lemma provided_or_to_field {A} (x : option A) : provided_or (to_field x) x = x.
Proof. now destruct x. Qed.

(** *** A migration that fails *)

(** C1, as amended.  When the title change of an update triggers a folder
    migration and the migration fails, the update is not aborted: the
    failure is logged as a warning, the image paths are rewritten to the
    folder of the new title and, the remaining step (the uploads, with the
    removal of the files they replace) going through, the merged record,
    with the new title, is stored; the route answers that the game was
    updated.  Without uploads there is no remaining step that can throw. *)
Theorem failed_migration_is_only_logged gameId b files (w : World F) r
    existing newTitle error w1 gameData w2 :
  rows (db w) !! gameId = Some r ->
  decode_row gameId r = Resolved existing ->
  Form.title b = Some newTitle ->
  title_changed b existing = true ->
  renameGameFolder appDataPath (Game.title existing) newTitle w
  = (Resolved (RenameError error), w1) ->
  upload_step appDataPath files existing (sanitizeFolderName newTitle)
    (rewritten_data (Game.title existing) newTitle (form_data b existing))
    (mkWorld (db w1) (fs w1)
       (console w1 ++ ["Folder rename warning: " +:+ error]))
  = (Resolved gameData, w2) ->
  let stored := write_row newTitle (merge gameData existing) r in
  update_route appDataPath gameId b files w
  = (Resolved (mkReply 200 (Message "Game updated successfully")),
     mkWorld (mkDB (<[gameId := stored]> (rows (db w)))
                   (sequence (db w)) (today (db w)))
             (fs w2) (console w2)) /\
  Row.title stored = newTitle /\
  (Files.coverArt files = None ->
   Row.coverArtPath stored
   = or_null (to_option (rewrite_path (Game.title existing) newTitle
                           (to_field (Game.coverArtPath existing))))) /\
  (Files.gameplayImage files = None ->
   Row.gameplayImagePath stored
   = or_null (to_option (rewrite_path (Game.title existing) newTitle
                           (to_field (Game.gameplayImagePath existing))))) /\
  (files = Files.none ->
   fs w2 = fs w1 /\
   console w2 = console w1 ++ ["Folder rename warning: " +:+ error]).
Proof.
  intros Hrow Hdec Htitle Hchanged Hrename Hupload stored.
  assert (rename_step appDataPath b existing (form_data b existing) w
          = (Resolved (rewritten_data (Game.title existing) newTitle
                         (form_data b existing)),
             mkWorld (db w1) (fs w1)
               (console w1 ++ ["Folder rename warning: " +:+ error])))
    as Hstep.
  { unfold rename_step. rewrite Hchanged, Htitle.
    cbn [default from_option id]. unfold bind at 1. now rewrite Hrename. }
  assert (GameData.title (rewritten_data (Game.title existing) newTitle
                            (form_data b existing)) = Val newTitle) as Hgt
      by (cbn; now rewrite Htitle).
  split; [|split; [reflexivity|]].
  - exact (update_route_run gameId b files w r existing newTitle _ _ _ _
             Hrow Hdec Hstep Hgt Hupload).
  - destruct (upload_step_result _ _ _ _ _ _ _ _ Hupload) as [Hdata _].
    subst stored. unfold write_row, merge.
    cbn [Row.coverArtPath Row.gameplayImagePath Merged.coverArtPath
         Merged.gameplayImagePath].
    rewrite Hdata. unfold uploaded_data, rewritten_data.
    split; [|split].
    + intros ->. destruct (Files.gameplayImage files) as [gameplay|];
        cbn [GameData.coverArtPath set_coverArtPath set_gameplayImagePath
             form_data];
        (destruct (Game.coverArtPath existing) as [path|]; [|reflexivity]);
        cbn [to_field rewrite_path]; now destruct (truthy path).
    + intros ->. destruct (Files.coverArt files) as [cover|];
        cbn [GameData.gameplayImagePath set_coverArtPath
             set_gameplayImagePath form_data];
        (destruct (Game.gameplayImagePath existing) as [path|];
         [|reflexivity]);
        cbn [to_field rewrite_path]; now destruct (truthy path).
    + intros ->. rewrite upload_step_none in Hupload.
      now injection Hupload as _ <-.
Qed.

End UpdateProperties.

(** ** The payload of the update route *)

Section UpdatePayload.

Context {F : Type} `{FileSystem F}.
Variable appDataPath : string.

Lemma updateGame_null_title id p d r :
  rows d !! id = Some r -> written r -> GameData.title p = Null ->
  updateGame id p d = (Rejected not_null_title, d).
Proof.
  intros Hrow Hr Htitle.
  destruct (decode_written id r Hr) as (game & Hgame & _).
  unfold updateGame, getGameById. rewrite Hrow, Hgame.
  unfold merge. cbn [Merged.title]. now rewrite Htitle.
Qed.

(** The payload of the route: every text, number and flag of the form is
    there, defaulted when the form does not carry it. *)
Lemma final_data_fields b files existing title :
  let q := final_data b files existing title in
  GameData.link q = Val (or_default (Form.link b) EmptyString) /\
  GameData.rageRating q = Val (parseInt_or_0 (Form.rageRating b)) /\
  GameData.finished q = Val (bool_decide (Form.finished b = Some "true")) /\
  GameData.is_checked q
  = Val (bool_decide (Form.is_checked b = Some "true")) /\
  GameData.platform q = Val (or_default (Form.platform b) EmptyString) /\
  GameData.strikes q = Val (parseInt_or_0 (Form.strikes b)) /\
  GameData.notes q = Val (or_default (Form.notes b) EmptyString) /\
  UpdateSpec.provided (GameData.coverArtPath q) = true /\
  UpdateSpec.provided (GameData.gameplayImagePath q) = true /\
  GameData.additionalPhotos q = Undefined /\
  GameData.additionalNotes q = Undefined.
Proof.
  unfold final_data, uploaded_data, rewritten_data, rewrite_path.
  destruct (Files.coverArt files), (Files.gameplayImage files),
    (title_changed b existing); cbn;
    repeat split;
    repeat match goal with
      | |- context [Game.coverArtPath existing] =>
          destruct (Game.coverArtPath existing) as [?p|]; cbn
      | |- context [Game.gameplayImagePath existing] =>
          destruct (Game.gameplayImagePath existing) as [?p|]; cbn
      | |- context [truthy ?p] => destruct (truthy p); cbn
      end; reflexivity.
Qed.

(** C2, as amended.  For every payload [p] applied by [updateGame] to a
    stored record [r] that the store wrote: a title that is [null] is
    refused by the store and nothing is written; otherwise the record
    stored afterwards is [r] with exactly the keys present in [p] replaced
    and every other column unchanged, each provided value passing through
    the normalization of the write boundary, and the other rows are
    untouched.  Wherever that normalization leaves [p]'s values alone (no
    [null] for a column with a default, no empty image path, no falsy
    list) the stored record is [r] with [p]'s own values: an empty string,
    a zero or [false] that [p] provides overrides the stored value.  In
    an update of the route that succeeds, the payload that the route
    hands to [updateGame] is the data of the form (a number as [parseInt]
    reads it, where a number holds it exactly) and has every key but the
    two lists present, whatever the form: the record stored is [r] with
    those keys replaced, a text, number or flag that the form does not
    carry is stored as its default, not retained, and the two lists are
    retained. *)
Theorem updateGame_replaces_provided_keys id p d r :
  rows d !! id = Some r -> written r ->
  (GameData.title p = Null ->
   updateGame id p d = (Rejected not_null_title, d)) /\
  (GameData.title p <> Null ->
   exists d',
     updateGame id p d = (Resolved 1, d') /\
     rows d' !! id = Some (UpdateSpec.replace_keys_normalized p r) /\
     (forall other, other <> id -> rows d' !! other = rows d !! other) /\
     (stored_as_given p ->
      rows d' !! id = Some (UpdateSpec.replace_keys p r))) /\
  (forall b files (w : World F) reply w',
      db w = d ->
      update_route appDataPath id b files w = (Resolved reply, w') ->
      status reply = 200 ->
      exists q stored,
        updateGame id q d = (Resolved 1, db w') /\
        rows (db w') !! id = Some stored /\
        stored = UpdateSpec.replace_keys_normalized q r /\
        (GameData.title q = to_field_undefined (Form.title b) /\
         GameData.link q = Val (or_default (Form.link b) EmptyString) /\
         (safe_integer (parseInt_or_0 (Form.rageRating b)) = true ->
          GameData.rageRating q = Val (parseInt_or_0 (Form.rageRating b))) /\
         GameData.finished q
         = Val (bool_decide (Form.finished b = Some "true")) /\
         GameData.is_checked q
         = Val (bool_decide (Form.is_checked b = Some "true")) /\
         GameData.platform q
         = Val (or_default (Form.platform b) EmptyString) /\
         (safe_integer (parseInt_or_0 (Form.strikes b)) = true ->
          GameData.strikes q = Val (parseInt_or_0 (Form.strikes b))) /\
         GameData.notes q = Val (or_default (Form.notes b) EmptyString)) /\
        (UpdateSpec.provided (GameData.title q) = true /\
         UpdateSpec.provided (GameData.link q) = true /\
         UpdateSpec.provided (GameData.rageRating q) = true /\
         UpdateSpec.provided (GameData.finished q) = true /\
         UpdateSpec.provided (GameData.is_checked q) = true /\
         UpdateSpec.provided (GameData.platform q) = true /\
         UpdateSpec.provided (GameData.strikes q) = true /\
         UpdateSpec.provided (GameData.notes q) = true /\
         UpdateSpec.provided (GameData.coverArtPath q) = true /\
         UpdateSpec.provided (GameData.gameplayImagePath q) = true /\
         UpdateSpec.provided (GameData.additionalPhotos q) = false /\
         UpdateSpec.provided (GameData.additionalNotes q) = false) /\
        (Form.link b = None -> Row.link stored = Some EmptyString) /\
        (Form.rageRating b = None -> Row.rageRating stored = Some 0) /\
        (Form.finished b = None -> Row.finished stored = Some 0) /\
        (Form.is_checked b = None -> Row.is_checked stored = Some 0) /\
        (Form.platform b = None -> Row.platform stored = Some EmptyString) /\
        (Form.strikes b = None -> Row.strikes stored = Some 0) /\
        (Form.notes b = None -> Row.notes stored = Some EmptyString) /\
        Row.additionalPhotos stored = Row.additionalPhotos r /\
        Row.additionalNotes stored = Row.additionalNotes r).
Proof.
  intros Hrow Hr. split; [|split].
  - intros Htitle. exact (updateGame_null_title _ _ _ _ Hrow Hr Htitle).
  - intros Htitle.
    exists (mkDB (<[id := UpdateSpec.replace_keys_normalized p r]> (rows d))
              (sequence d) (today d)).
    split; [now apply updateGame_written|].
    cbn [rows]. split; [apply lookup_insert_eq | split].
    + intros other Hother. now apply lookup_insert_ne.
    + intros Hgiven. rewrite <- replace_keys_as_given by assumption.
      apply lookup_insert_eq.
  - intros b files w reply w' <- Hrun Hok.
    destruct (update_route_stored appDataPath _ _ _ _ _ _ Hrun Hok)
      as (r0 & existing & title & Hrow0 & _ & Htitle & Hupd & _).
    assert (r0 = r) as -> by congruence.
    set (q := final_data b files existing title) in *.
    assert (GameData.title q <> Null) as Hq
        by (subst q; rewrite (final_data_title _ _ _ _ Htitle); discriminate).
    pose proof Hupd as Hupd'.
    rewrite (updateGame_written _ q _ _ Hrow Hr Hq) in Hupd'.
    injection Hupd' as Hdb.
    destruct (final_data_fields b files existing title)
      as (Hl & Hra & Hf & Hc & Hp & Hs & Hn & Hco & Hg & Hph & Hnt).
    fold q in Hl, Hra, Hf, Hc, Hp, Hs, Hn, Hco, Hg, Hph, Hnt.
    exists q, (UpdateSpec.replace_keys_normalized q r).
    split; [exact Hupd|].
    split; [rewrite <- Hdb; apply lookup_insert_eq|].
    split; [reflexivity|].
    split.
    { rewrite Hl, Hra, Hf, Hc, Hp, Hs, Hn. subst q.
      rewrite (final_data_title _ _ _ _ Htitle), Htitle. now repeat split. }
    split.
    { subst q. rewrite (final_data_title _ _ _ _ Htitle).
      fold (final_data b files existing title).
      rewrite Hl, Hra, Hf, Hc, Hp, Hs, Hn, Hco, Hg, Hph, Hnt.
      repeat split. }
    unfold UpdateSpec.replace_keys_normalized.
    cbn [Row.link Row.rageRating Row.finished Row.is_checked Row.platform
         Row.strikes Row.notes Row.additionalPhotos Row.additionalNotes].
    rewrite Hl, Hra, Hf, Hc, Hp, Hs, Hn, Hph, Hnt.
    repeat split; intros ->; reflexivity.
Qed.

End UpdatePayload.

(** ** Paths *)

Section Paths.

Lemma prefix_refl s : String.prefix s s = true.
Proof.
  induction s as [|a s IH]; [reflexivity|]. cbn.
  destruct (ascii_dec a a); [exact IH | contradiction].
Qed.

Lemma prefix_common u x y :
  String.prefix (u +:+ x) (u +:+ y) = String.prefix x y.
Proof.
  induction u as [|a u IH]; [reflexivity|].
  change (String.prefix (String a (u +:+ x)) (String a (u +:+ y))
          = String.prefix x y).
  cbn. destruct (ascii_dec a a); [exact IH | contradiction].
Qed.

Lemma append_cancel u (x y : string) : u +:+ x = u +:+ y -> x = y.
Proof.
  induction u as [|a u IH]; [trivial|].
  intros Heq. apply IH. now injection Heq.
Qed.

Lemma no_separator_append a b :
  no_separator (a +:+ b) = (no_separator a && no_separator b)%bool.
Proof.
  unfold no_separator. induction a as [|c a IH]; [reflexivity|].
  change (String c a +:+ b) with (String c (a +:+ b)).
  cbn [list_ascii_of_string forallb]. now rewrite IH, andb_assoc.
Qed.

Lemma no_separator_cons c s :
  no_separator (String c s)
  = (negb (Ascii.eqb c "/") && no_separator s)%bool.
Proof. reflexivity. Qed.

(** Where two paths part at their first separator. *)
Lemma first_separator t1 t2 x y :
  no_separator t1 = true -> no_separator t2 = true ->
  String.prefix (t1 +:+ String "/" x) (t2 +:+ String "/" y) = true ->
  t1 = t2.
Proof.
  revert t2; induction t1 as [|a t1 IH]; intros [|b t2] H1 H2;
    rewrite ?append_cons, ?append_nil; cbn [String.prefix].
  - reflexivity.
  - destruct (ascii_dec "/" b) as [<-|]; [|intros [=]].
    rewrite no_separator_cons in H2. discriminate H2.
  - destruct (ascii_dec a "/") as [->|]; [|intros [=]].
    rewrite no_separator_cons in H1. discriminate H1.
  - destruct (ascii_dec a b) as [->|]; [|intros [=]].
    rewrite no_separator_cons in H1, H2.
    apply andb_true_iff in H1 as [_ H1]. apply andb_true_iff in H2 as [_ H2].
    intros Hp. f_equal. now apply IH.
Qed.

Lemma path_join_name dir name :
  name <> EmptyString -> path_join dir name = dir +:+ String "/" name.
Proof.
  intros Hne. unfold path_join.
  destruct (String.eqb_spec name EmptyString); [contradiction | reflexivity].
Qed.

Lemma path_join_prefix dir name :
  exists rest, path_join dir name = dir +:+ rest /\
               (rest = EmptyString \/ exists n, rest = String "/" n).
Proof.
  unfold path_join. destruct (String.eqb name EmptyString).
  - exists EmptyString. split; [|now left].
    induction dir as [|a dir IH]; [reflexivity|].
    change (String a dir = String a (dir +:+ "")). now rewrite <- IH.
  - exists (String "/" name). split; [reflexivity | right; eauto].
Qed.

(** A file of the folder of one token is neither an entry of the folder
    of another token nor below one. *)
Lemma below_other_folder uploads t1 t2 n file :
  no_separator t1 = true -> no_separator t2 = true ->
  t1 <> EmptyString -> t2 <> EmptyString -> t1 <> t2 ->
  file <> EmptyString ->
  below (path_join (path_join uploads t1) n)
        (path_join (path_join uploads t2) file) = false.
Proof.
  intros H1 H2 Hne1 Hne2 Hne Hfile.
  rewrite (path_join_name uploads t1), (path_join_name uploads t2),
    (path_join_name _ file) by assumption.
  destruct (path_join_prefix (uploads +:+ String "/" t1) n)
    as (rest & -> & Hrest).
  rewrite !append_assoc.
  change (String "/" t1 +:+ rest) with (String "/" (t1 +:+ rest)).
  change (String "/" t2 +:+ String "/" file)
    with (String "/" (t2 +:+ String "/" file)).
  unfold below. apply orb_false_iff. split.
  - apply String.eqb_neq. intros Heq. apply append_cancel in Heq.
    injection Heq as Heq.
    destruct Hrest as [->|[n' ->]].
    + assert (no_separator (t1 +:+ "") = true) as Hsep
          by (rewrite no_separator_append, H1; reflexivity).
      rewrite <- Heq, no_separator_append, no_separator_cons in Hsep.
      cbn in Hsep. now rewrite andb_false_r in Hsep.
    + apply Hne. symmetry.
      apply (first_separator t2 t1 file n' H2 H1).
      rewrite Heq. apply prefix_refl.
  - rewrite !append_assoc.
    change (String "/" (t1 +:+ rest) +:+ "/")
      with (String "/" ((t1 +:+ rest) +:+ "/")).
    rewrite prefix_common. cbn [String.prefix].
    destruct (ascii_dec "/" "/"); [|contradiction].
    destruct (String.prefix ((t1 +:+ rest) +:+ "/")
                (t2 +:+ String "/" file)) eqn:Hp; [|reflexivity].
    exfalso. apply Hne. rewrite append_assoc in Hp.
    destruct Hrest as [->|[n' ->]].
    + now apply (first_separator t1 t2 EmptyString file H1 H2).
    + now apply (first_separator t1 t2 (n' +:+ "/") file H1 H2).
Qed.

Lemma file_not_folder uploads t1 t2 file :
  no_separator t1 = true ->
  t1 <> EmptyString -> t2 <> EmptyString -> file <> EmptyString ->
  path_join (path_join uploads t2) file <> path_join uploads t1.
Proof.
  intros H1 Hne1 Hne2 Hfile.
  rewrite (path_join_name uploads t1), (path_join_name uploads t2),
    (path_join_name _ file) by assumption.
  rewrite append_assoc. intros Heq. apply append_cancel in Heq.
  change (String "/" t2 +:+ String "/" file)
    with (String "/" (t2 +:+ String "/" file)) in Heq.
  injection Heq as Heq.
  rewrite <- Heq, no_separator_append, no_separator_cons in H1.
  cbn in H1. now rewrite andb_false_r in H1.
Qed.

Lemma token_no_separator title :
  no_separator (sanitizeFolderName title) = true.
Proof.
  unfold no_separator. apply forallb_forall. intros c Hc.
  pose proof (sanitizeFolderName_alphabet title) as Hall.
  rewrite Forall_forall in Hall. apply list_elem_of_In in Hc.
  specialize (Hall c Hc). destruct (Ascii.eqb_spec c "/") as [->|];
    [discriminate Hall | reflexivity].
Qed.

Lemma is_name_not_empty name : is_name name = true -> name <> EmptyString.
Proof.
  unfold is_name. intros [Hne _]%andb_true_iff ->. discriminate.
Qed.

End Paths.

(** ** The files through the folder migration and the uploads *)

Section MovedFiles.

Context {F : Type} `{FileSystemLaws F}.
Variable appDataPath : string.

Lemma is_file_exists p (f : F) : is_file p f -> existsSync p f = true.
Proof. now intros [He _]. Qed.

(** What exists away from the files that are moved is still there after
    the loop. *)
Lemma move_files_keeps oldPath newPath files c (w : World F) w' :
  move_files oldPath newPath files w = (Resolved tt, w') ->
  (forall n, below (path_join oldPath n) c = false) ->
  existsSync c (fs w) = true -> existsSync c (fs w') = true.
Proof.
  intros Hrun Haway. revert w Hrun.
  induction files as [|file files IH]; intros w; cbn [move_files].
  - now intros [= <-].
  - unfold bind at 1, fs_call.
    destruct (renameSync _ _ (fs w)) as [f1|e] eqn:Hmove; [|discriminate].
    intros Hrun Hc. apply (IH _ Hrun). cbn [fs].
    exact (renameSync_keeps _ _ _ _ _ Hmove Hc (Haway file)).
Qed.

(** A file that the loop moves is in the new folder after the loop. *)
Lemma move_files_moves oldPath newPath files file (w : World F) w' :
  move_files oldPath newPath files w = (Resolved tt, w') ->
  (forall n, below (path_join oldPath n) (path_join newPath file) = false) ->
  file ∈ files ->
  existsSync (path_join newPath file) (fs w') = true.
Proof.
  intros Hrun Haway. revert w Hrun.
  induction files as [|n files IH]; intros w; cbn [move_files].
  - intros _ Hin. now apply not_elem_of_nil in Hin.
  - unfold bind at 1, fs_call.
    destruct (renameSync _ _ (fs w)) as [f1|e] eqn:Hmove; [|discriminate].
    intros Hrun Hin. apply elem_of_cons in Hin as [->|Hin].
    + apply (move_files_keeps _ _ _ _ _ _ Hrun Haway). cbn [fs].
      exact (renameSync_target _ _ _ _ Hmove).
    + exact (IH _ Hrun Hin).
Qed.

(** A migration that has moved the folder: a file of the old folder, and
    a file that was in the new folder already, is in the new folder. *)
Lemma renameGameFolder_moves oldTitle newTitle (w : World F) oldPath newPath
    w1 file :
  renameGameFolder appDataPath oldTitle newTitle w
  = (Resolved (Renamed oldPath newPath), w1) ->
  sanitizeFolderName oldTitle <> EmptyString ->
  sanitizeFolderName newTitle <> EmptyString ->
  is_name file = true ->
  is_file (upload_file appDataPath (sanitizeFolderName oldTitle) file) (fs w)
  \/ existsSync (upload_file appDataPath (sanitizeFolderName newTitle) file)
       (fs w) = true ->
  existsSync (upload_file appDataPath (sanitizeFolderName newTitle) file)
    (fs w1) = true.
Proof.
  intros Hrun Hold Hnew Hfile Hthere.
  pose proof (is_name_not_empty _ Hfile) as Hne.
  unfold upload_file in *.
  set (uploads := path_join appDataPath "uploads") in *.
  set (t1 := sanitizeFolderName oldTitle) in *.
  set (t2 := sanitizeFolderName newTitle) in *.
  revert Hrun. unfold renameGameFolder, try_catch, bind at 1, fs_query.
  fold uploads. fold t1. fold t2.
  destruct (existsSync (path_join uploads t1) (fs w)); cbn [andb];
    [|intros [=]].
  destruct (String.eqb_spec t1 t2) as [Heq|Hdiff]; cbn [negb]; [intros [=]|].
  assert (forall n,
             below (path_join (path_join uploads t1) n)
               (path_join (path_join uploads t2) file) = false) as Haway.
  { intros n. apply below_other_folder; try assumption;
      apply token_no_separator. }
  match goal with |- context [match ?m w with _ => _ end] =>
    destruct (m w) as [[a|e] w5] eqn:Hm end.
  2: { cbn. intros [=]. }
  intros [= _ <-]. revert Hm. unfold bind at 1, fs_query.
  unfold bind at 1.
  destruct (when _ _ w) as [[[]|e1] w2] eqn:Hmkdir; [|discriminate].
  assert (is_file (path_join (path_join uploads t1) file) (fs w2)
          \/ existsSync (path_join (path_join uploads t2) file) (fs w2)
             = true) as Hthere2.
  { revert Hmkdir. unfold when.
    destruct (negb (existsSync (path_join uploads t2) (fs w))).
    - unfold fs_call.
      destruct (mkdirSync _ (fs w)) as [f1|e1] eqn:Hmk; [|discriminate].
      intros [= <-]. cbn [fs]. destruct Hthere as [Hf|He].
      + left. exact (mkdirSync_keeps_file _ _ _ _ Hmk Hf).
      + right. exact (mkdirSync_keeps _ _ _ _ Hmk He).
    - now intros [= <-]. }
  unfold bind at 1, fs_read.
  destruct (readdirSync _ (fs w2)) as [files|e2] eqn:Hread; [|discriminate].
  unfold bind at 1.
  destruct (move_files _ _ files w2) as [[[]|e3] w4] eqn:Hmove;
    [|discriminate].
  assert (existsSync (path_join (path_join uploads t2) file) (fs w4) = true)
    as Hmoved.
  { destruct Hthere2 as [Hf|He].
    - apply (move_files_moves _ _ _ _ _ _ Hmove Haway).
      exact (readdirSync_lists _ _ _ _ Hread Hfile Hf).
    - exact (move_files_keeps _ _ _ _ _ _ Hmove Haway He). }
  unfold bind at 1, try_catch, fs_call.
  destruct (rmdirSync _ (fs w4)) as [f5|e4] eqn:Hrm.
  - cbn. intros [= _ <-]. cbn [fs].
    apply (rmdirSync_keeps _ _ _ _ Hrm Hmoved).
    apply file_not_folder; try assumption. apply token_no_separator.
  - cbn. intros [= _ <-]. exact Hmoved.
Qed.

(** Removing the old file of an image removes nothing else. *)
Lemma delete_old_file_others old (w : World F) w' c :
  delete_old_file appDataPath old w = (Resolved tt, w') ->
  (truthy old = true ->
   c <> Str.replace base_url appDataPath (default EmptyString old)) ->
  existsSync c (fs w) = true -> existsSync c (fs w') = true.
Proof.
  unfold delete_old_file. destruct (truthy old); [|now intros [= <-]].
  intros Hrun Hc. specialize (Hc eq_refl). revert Hrun.
  unfold bind, fs_query. cbn zeta.
  destruct (existsSync _ (fs w)); [|now intros [= <-]].
  unfold when, fs_call.
  destruct (unlinkSync _ (fs w)) as [f'|e] eqn:Hunlink; [|discriminate].
  intros [= <-] Hthere. cbn [fs].
  exact (unlinkSync_keeps _ _ _ _ Hunlink Hthere Hc).
Qed.

Lemma upload_step_others files existing folderName gameData (w : World F)
    gameData' w' c :
  upload_step appDataPath files existing folderName gameData w
  = (Resolved gameData', w') ->
  c ∉ replaced_files appDataPath files (Game.coverArtPath existing)
        (Game.gameplayImagePath existing) ->
  existsSync c (fs w) = true -> existsSync c (fs w') = true.
Proof.
  unfold upload_step, replaced_files, replaced_file.
  intros Hrun Hc Hthere. rewrite not_elem_of_app in Hc.
  destruct Hc as [Hcover Hplay]. revert Hrun. unfold bind at 1.
  assert (forall (upload : option string) old w1 w2,
             c ∉ (match upload with
                  | Some _ =>
                      if truthy old
                      then [Str.replace base_url appDataPath
                              (default EmptyString old)]
                      else []
                  | None => []
                  end) ->
             match upload with
             | Some _ =>
                 delete_old_file appDataPath old w1 = (Resolved tt, w2)
             | None => w2 = w1
             end ->
             existsSync c (fs w1) = true -> existsSync c (fs w2) = true)
    as Hstep.
  { intros [filename|] old w1 w2 Hno; [|now intros ->].
    intros Hdel. apply (delete_old_file_others _ _ _ _ Hdel).
    intros Hold. rewrite Hold in Hno. now apply not_elem_of_cons in Hno. }
  destruct (Files.coverArt files) as [cover|] eqn:Hcv.
  - unfold bind at 1.
    destruct (delete_old_file appDataPath (Game.coverArtPath existing) w)
      as [[[]|e] w1] eqn:Hdel1; [|discriminate].
    cbn [ret].
    pose proof (Hstep (Some cover) _ _ _ Hcover Hdel1 Hthere) as Hthere1.
    destruct (Files.gameplayImage files) as [gameplay|] eqn:Hgp.
    + unfold bind at 1.
      destruct (delete_old_file appDataPath (Game.gameplayImagePath existing)
                  w1) as [[[]|e] w2] eqn:Hdel2; [|discriminate].
      intros [= _ <-].
      exact (Hstep (Some gameplay) _ _ _ Hplay Hdel2 Hthere1).
    + now intros [= _ <-].
  - cbn [ret].
    destruct (Files.gameplayImage files) as [gameplay|] eqn:Hgp.
    + unfold bind at 1.
      destruct (delete_old_file appDataPath (Game.gameplayImagePath existing)
                  w) as [[[]|e] w2] eqn:Hdel2; [|discriminate].
      intros [= _ <-].
      exact (Hstep (Some gameplay) _ _ _ Hplay Hdel2 Hthere).
    + now intros [= _ <-].
Qed.

End MovedFiles.

(** ** The disk is a file system of that kind *)

Section DiskLaws.

Import Disk.

Lemma disk_lookup_app_Some dir l l' files :
  lookup dir l = Some files -> lookup dir (l ++ l') = Some files.
Proof.
  induction l as [|[d fs] l IH]; [discriminate|]. cbn.
  destruct (String.eqb d dir); [trivial | exact IH].
Qed.

Lemma disk_lookup_app_None dir l p files :
  lookup dir l = None -> p <> dir -> lookup dir (l ++ [(p, files)]) = None.
Proof.
  intros Hl Hne. induction l as [|[d fs] l IH]; cbn in *.
  - now destruct (String.eqb_spec p dir).
  - destruct (String.eqb d dir); [discriminate | now apply IH].
Qed.

Lemma disk_lookup_update dir k files l :
  lookup dir (update k files l)
  = if String.eqb k dir
    then match lookup dir l with Some _ => Some files | None => None end
    else lookup dir l.
Proof.
  induction l as [|[d fs] l IH]; cbn.
  - now destruct (String.eqb k dir).
  - destruct (String.eqb_spec d k) as [->|Hdk]; cbn.
    + destruct (String.eqb_spec k dir); reflexivity.
    + destruct (String.eqb_spec d dir) as [->|Hd].
      * destruct (String.eqb_spec k dir); [congruence | reflexivity].
      * exact IH.
Qed.

Lemma disk_lookup_remove dir p l :
  dir <> p -> lookup dir (remove p l) = lookup dir l.
Proof.
  intros Hne. induction l as [|[d fs] l IH]; [reflexivity|]. cbn.
  destruct (String.eqb_spec d p) as [->|Hdp]; cbn.
  - destruct (String.eqb_spec p dir); [congruence | reflexivity].
  - destruct (String.eqb d dir); [reflexivity | exact IH].
Qed.

Lemma disk_mem_elem_of x l : mem x l = true <-> x ∈ l.
Proof.
  unfold mem. rewrite existsb_exists. split.
  - intros (y & Hin & ->%String.eqb_eq). now apply list_elem_of_In.
  - intros Hin. exists x. split; [now apply list_elem_of_In|].
    apply String.eqb_refl.
Qed.

Lemma disk_mem_without x y l :
  x <> y -> mem x l = true -> mem x (without y l) = true.
Proof.
  rewrite !disk_mem_elem_of. unfold without. intros Hne Hin.
  apply list_elem_of_In, filter_In. split; [now apply list_elem_of_In|].
  destruct (String.eqb_spec y x); [congruence | reflexivity].
Qed.

Lemma disk_mem_app_last x y l : mem x (without y l ++ [y]) = true <->
                           x = y \/ mem x (without y l) = true.
Proof.
  rewrite !disk_mem_elem_of, elem_of_app, list_elem_of_singleton. tauto.
Qed.

Lemma split_path_path p dir name :
  split_path p = Some (dir, name) -> p = dir +:+ String "/" name.
Proof.
  revert dir; induction p as [|c p IH]; intros dir; [discriminate|].
  cbn. destruct (split_path p) as [[d n]|].
  - intros [= <- <-]. rewrite append_cons. f_equal. now apply IH.
  - destruct (Ascii.eqb_spec c "/") as [->|]; [|discriminate].
    now intros [= <- <-].
Qed.

Lemma split_path_no_separator s : no_separator s = true -> split_path s = None.
Proof.
  induction s as [|c s IH]; [reflexivity|].
  rewrite no_separator_cons. intros [Hc Hs]%andb_true_iff.
  cbn. rewrite (IH Hs). now destruct (Ascii.eqb c "/").
Qed.

Lemma split_path_join dir name :
  is_name name = true ->
  split_path (path_join dir name) = Some (dir, name).
Proof.
  intros Hname. rewrite path_join_name by now apply is_name_not_empty.
  apply andb_true_iff in Hname as [_ Hsep].
  induction dir as [|c dir IH].
  - rewrite append_nil. cbn. now rewrite (split_path_no_separator _ Hsep).
  - rewrite append_cons. cbn. now rewrite IH.
Qed.

Lemma disk_exists_update c k files d :
  exists_ c d = true ->
  (forall cdir cname cfiles,
      split_path c = Some (cdir, cname) -> cdir = k ->
      lookup k (folders d) = Some cfiles -> mem cname cfiles = true ->
      mem cname files = true) ->
  exists_ c (mk (update k files (folders d)) (locked d)) = true.
Proof.
  unfold exists_, has_folder, has_file. cbn [folders].
  intros Hc Hfiles. rewrite !disk_lookup_update.
  apply orb_true_iff in Hc as [Hc|Hc]; apply orb_true_iff.
  - left. revert Hc. destruct (lookup c (folders d)); [|intros [=]].
    now destruct (String.eqb k c).
  - right. revert Hc Hfiles.
    destruct (split_path c) as [[cdir cname]|]; [|intros [=]].
    rewrite disk_lookup_update.
    destruct (String.eqb_spec k cdir) as [->|]; [|trivial].
    destruct (lookup cdir (folders d)) as [cfiles|] eqn:Hl; [|intros [=]].
    intros Hc Hfiles. now apply (Hfiles cdir cname cfiles).
Qed.

Lemma disk_exists_app c d l :
  exists_ c d = true -> exists_ c (mk (folders d ++ l) (locked d)) = true.
Proof.
  unfold exists_, has_folder, has_file. cbn [folders].
  intros [Hc|Hc]%orb_true_iff; apply orb_true_iff.
  - left. revert Hc. destruct (lookup c (folders d)) eqn:Hl; [|intros [=]].
    now rewrite (disk_lookup_app_Some _ _ _ _ Hl).
  - right. revert Hc.
    destruct (split_path c) as [[cdir cname]|]; [|intros [=]].
    destruct (lookup cdir (folders d)) eqn:Hl; [|intros [=]].
    now rewrite (disk_lookup_app_Some _ _ _ _ Hl).
Qed.

Lemma disk_laws : FileSystemLaws Disk.t.
Proof.
  split.
  - (* mkdir keeps what exists *)
    intros p d d' c. cbn. unfold mkdir.
    destruct (exists_ p d); intros [= <-]; [trivial|]. apply disk_exists_app.
  - (* mkdir keeps a file a file *)
    intros p d d' c. cbn. unfold mkdir.
    destruct (exists_ p d) eqn:Hp; intros [= <-]; [trivial|].
    intros [Hc [e He]]. split; [now apply disk_exists_app|].
    revert He. cbn. unfold readdir. cbn [folders].
    destruct (lookup c (folders d)) eqn:Hl; [intros [=]|]. intros _.
    rewrite (disk_lookup_app_None _ _ _ _ Hl); [eauto|].
    intros ->. change (exists_ c d = true) in Hc. congruence.
  - (* the files of a folder are listed *)
    intros dir d names name. cbn. unfold readdir.
    destruct (lookup dir (folders d)) as [files|] eqn:Hdir; [|discriminate].
    intros [= <-] Hname [Hc [e He]].
    change (exists_ (path_join dir name) d = true) in Hc.
    change (readdir (path_join dir name) d = Rejected e) in He.
    revert Hc He. unfold exists_, has_folder, has_file, readdir.
    rewrite (split_path_join _ _ Hname), Hdir.
    destruct (lookup (path_join dir name) (folders d)); [discriminate|].
    cbn [orb]. intros Hmem _. now apply disk_mem_elem_of.
  - (* the target of a move exists *)
    intros a b d d'. cbn. unfold rename.
    destruct (mem a (locked d)); [discriminate|].
    destruct (split_path a) as [[odir oname]|]; [|discriminate].
    destruct (split_path b) as [[ndir nname]|] eqn:Hb; [|discriminate].
    destruct (lookup odir (folders d)) as [ofiles|]; [|discriminate].
    destruct (mem oname ofiles); [|discriminate].
    destruct (lookup ndir _) as [nfiles|] eqn:Hn; [|discriminate].
    intros [= <-]. unfold exists_, has_file. cbn [folders].
    rewrite Hb, disk_lookup_update, String.eqb_refl, Hn.
    apply orb_true_iff. right. apply disk_mem_app_last. now left.
  - (* a move keeps what is elsewhere *)
    intros a b d d' c. cbn. unfold rename.
    destruct (mem a (locked d)); [discriminate|].
    destruct (split_path a) as [[odir oname]|] eqn:Ha; [|discriminate].
    destruct (split_path b) as [[ndir nname]|] eqn:Hb; [|discriminate].
    destruct (lookup odir (folders d)) as [ofiles|] eqn:Ho; [|discriminate].
    destruct (mem oname ofiles); [|discriminate].
    destruct (lookup ndir _) as [nfiles|] eqn:Hn; [|discriminate].
    intros [= <-] Hc Hbelow.
    assert (c <> a) as Hca.
    { intros ->. unfold below in Hbelow.
      now rewrite String.eqb_refl in Hbelow. }
    set (d1 := mk (update odir (without oname ofiles) (folders d))
                 (locked d)).
    assert (exists_ c d1 = true) as Hc1.
    { apply disk_exists_update; [exact Hc|].
      intros cdir cname cfiles Hsplit -> Hl Hmem.
      rewrite Ho in Hl. injection Hl as <-.
      apply disk_mem_without; [|exact Hmem].
      intros ->. apply Hca.
      now rewrite (split_path_path _ _ _ Hsplit), (split_path_path _ _ _ Ha). }
    change (exists_ c (mk (update ndir (without nname nfiles ++ [nname])
                             (folders d1)) (locked d1)) = true).
    apply disk_exists_update; [exact Hc1|].
    intros cdir cname cfiles Hsplit -> Hl Hmem.
    cbn [d1 folders] in Hl. rewrite Hn in Hl. injection Hl as <-.
    apply disk_mem_app_last.
    destruct (String.eqb_spec cname nname) as [->|Hne]; [now left|].
    right. now apply disk_mem_without.
  - (* removing a folder removes nothing else *)
    intros p d d' c. cbn. unfold rmdir.
    destruct (lookup p (folders d)) as [[|x files]|] eqn:Hp; try discriminate.
    intros [= <-]. unfold exists_, has_folder, has_file. cbn [folders].
    intros Hc Hne. rewrite (disk_lookup_remove c p) by exact Hne.
    apply orb_true_iff in Hc as [Hc|Hc]; apply orb_true_iff;
      [now left | right].
    revert Hc. destruct (split_path c) as [[cdir cname]|]; [|intros [=]].
    destruct (String.eqb_spec cdir p) as [->|Hdir].
    + rewrite Hp. intros [=].
    + now rewrite disk_lookup_remove.
  - (* removing a file removes nothing else *)
    intros p d d' c. cbn. unfold unlink.
    destruct (split_path p) as [[dir name]|] eqn:Hp; [|discriminate].
    destruct (lookup dir (folders d)) as [files|] eqn:Hd; [|discriminate].
    destruct (mem name files); [|discriminate].
    intros [= <-] Hc Hne.
    apply disk_exists_update; [exact Hc|].
    intros cdir cname cfiles Hsplit -> Hl Hmem.
    rewrite Hd in Hl. injection Hl as <-.
    apply disk_mem_without; [|exact Hmem].
    intros ->. apply Hne.
    now rewrite (split_path_path _ _ _ Hsplit), (split_path_path _ _ _ Hp).
Qed.

End DiskLaws.

(** ** The image files through an update *)

Section UpdateFiles.

Context {F : Type} `{FileSystem F}.
Variable appDataPath : string.

(** The steps of a successful update. *)
Lemma update_route_steps gameId b files (w : World F) reply w' :
  update_route appDataPath gameId b files w = (Resolved reply, w') ->
  status reply = 200 ->
  exists existing title gameData1 w1 gameData2 w2,
    getGameById gameId (db w) = Resolved (Some existing) /\
    Form.title b = Some title /\
    rename_step appDataPath b existing (form_data b existing) w
    = (Resolved gameData1, w1) /\
    upload_step appDataPath files existing (sanitizeFolderName title)
      gameData1 w1 = (Resolved gameData2, w2) /\
    fs w' = fs w2.
Proof.
  unfold update_route, try_catch, bind at 1, db_read.
  destruct (getGameById gameId (db w)) as [[existing|]|e] eqn:Hget.
  2: { cbn. intros [= <- _]. discriminate. }
  2: { cbn. intros [= <- _]. discriminate. }
  destruct (rename_step_result appDataPath b existing (form_data b existing) w)
    as (w1 & Hrename & Hdb1).
  unfold bind at 1. rewrite Hrename.
  set (gameData1 := if title_changed b existing
                    then rewritten_data (Game.title existing)
                           (default EmptyString (Form.title b))
                           (form_data b existing)
                    else form_data b existing) in *.
  assert (GameData.title gameData1 = to_field_undefined (Form.title b))
    as Htitle1 by (subst gameData1; now destruct (title_changed b existing)).
  clearbody gameData1.
  unfold bind at 1. rewrite Htitle1.
  destruct (Form.title b) as [title|] eqn:Htitle.
  2: { cbn. intros [= <- _]. discriminate. }
  cbn [to_field_undefined folder_of ret]. unfold bind at 1.
  destruct (upload_step appDataPath files existing (sanitizeFolderName title)
              gameData1 w1) as [[gameData2|e] w2] eqn:Hup.
  2: { cbn. intros [= <- _]. discriminate. }
  unfold bind at 1, db_run.
  destruct (updateGame gameId gameData2 (db w2)) as [[n|e] d'].
  2: { cbn. intros [= <- _]. discriminate. }
  cbn. intros [= _ <-] _.
  exists existing, title, gameData1, w1, gameData2, w2. auto.
Qed.

(** The file system after the rename block is the one that the migration
    leaves, or the one before when the title is not changed. *)
Lemma rename_step_fs b existing gameData (w : World F) gameData1 w1 title :
  rename_step appDataPath b existing gameData w = (Resolved gameData1, w1) ->
  Form.title b = Some title ->
  if title_changed b existing
  then exists result w2,
         renameGameFolder appDataPath (Game.title existing) title w
         = (Resolved result, w2) /\ fs w1 = fs w2
  else w1 = w.
Proof.
  unfold rename_step. intros Hrun Htitle. revert Hrun.
  destruct (title_changed b existing); [|now intros [= _ <-]].
  rewrite Htitle. cbn [default from_option id]. unfold bind at 1.
  destruct (renameGameFolder appDataPath (Game.title existing) title w)
    as [[result|e] w2]; [|discriminate].
  unfold bind. destruct (success result); cbn; intros [= _ <-]; eauto.
Qed.



(** An image path that no upload replaces follows the title. *)
Lemma rewritten_path_stored b existing title file :
  Form.title b = Some title -> title <> EmptyString ->
  or_null
    (provided_or
       (if title_changed b existing
        then rewrite_path (Game.title existing) title
               (to_field
                  (Some (upload_url (sanitizeFolderName (Game.title existing))
                           file)))
        else to_field
               (Some (upload_url (sanitizeFolderName (Game.title existing))
                        file)))
       (Some (upload_url (sanitizeFolderName (Game.title existing)) file)))
  = Some (upload_url (sanitizeFolderName title) file).
Proof.
  intros Htitle Hne. destruct (title_changed b existing) eqn:Hchanged.
  - cbn [to_field rewrite_path]. rewrite upload_url_truthy.
    cbn [provided_or]. now rewrite replace_upload_url.
  - now rewrite (truthy_title_changed_false _ _ _ Htitle Hne Hchanged).
Qed.

(** The files of the folder through a successful update. *)
Lemma update_route_files gameId b files (w : World F) r reply w' title file :
  FileSystemLaws F ->
  rows (db w) !! gameId = Some r ->
  Form.title b = Some title -> title <> EmptyString ->
  update_route appDataPath gameId b files w = (Resolved reply, w') ->
  status reply = 200 ->
  migrated appDataPath (Row.title r) title w ->
  sanitizeFolderName (Row.title r) <> EmptyString ->
  sanitizeFolderName title <> EmptyString ->
  is_name file = true ->
  is_file (upload_file appDataPath (sanitizeFolderName (Row.title r)) file)
    (fs w)
  \/ existsSync (upload_file appDataPath (sanitizeFolderName title) file)
       (fs w) = true ->
  upload_file appDataPath (sanitizeFolderName title) file
  ∉ replaced_files appDataPath files (Row.coverArtPath r)
      (Row.gameplayImagePath r) ->
  existsSync (upload_file appDataPath (sanitizeFolderName title) file) (fs w')
  = true.
Proof.
  intros Hlaws Hrow Htitle Hne Hrun Hok Hmigrated Hold Hnew Hfile Hthere Hkept.
  destruct (update_route_steps _ _ _ _ _ _ Hrun Hok)
    as (existing & title0 & gameData1 & w1 & gameData2 & w2 & Hget & Htitle0
        & Hrename & Hupload & ->).
  assert (title0 = title) as -> by congruence.
  destruct (getGameById_row _ _ _ Hget) as (r0 & Hrow0 & Hdec).
  assert (r0 = r) as -> by congruence.
  destruct (decode_row_paths _ _ _ Hdec) as (Ht & Hc & Hg).
  rewrite <- Ht in *. rewrite <- Hc, <- Hg in Hkept.
  apply (upload_step_others appDataPath _ _ _ _ _ _ _ _ Hupload Hkept).
  pose proof (rename_step_fs _ _ _ _ _ _ _ Hrename Htitle)
    as Hstep.
  destruct (title_changed b existing) eqn:Hchanged.
  - destruct Hstep as (result & w3 & Hmove & ->).
    destruct Hmigrated as [Hsame | (oldPath & newPath & w4 & Hmoved)].
    + rewrite (renameGameFolder_same_token appDataPath _ _ _ Hsame) in Hmove.
      injection Hmove as _ <-. rewrite <- Hsame.
      destruct Hthere as [Hf|He]; [now apply is_file_exists|].
      now rewrite Hsame.
    + rewrite Hmoved in Hmove. injection Hmove as _ <-.
      now apply (renameGameFolder_moves appDataPath _ _ _ _ _ _ _ Hmoved).
  - subst w1.
    rewrite <- (truthy_title_changed_false _ _ _ Htitle Hne Hchanged) in *.
    destruct Hthere as [Hf|He]; [now apply is_file_exists | exact He].
Qed.

(** C3, as amended.  After every successful update that carries a
    non-empty title, of a record whose image paths are null or upload URLs
    under the folder token of its title, every image path stored is null
    or an upload URL under the folder token of the title now stored; a
    path that no upload of the request replaces is the URL of the file it
    named, under the new token.  And the files are where the paths
    point, when the migration has not failed: on a file system that
    keeps what exists elsewhere than where a call acts, when the folder
    has been moved, or had not to be because the two titles have the same
    token, every file that was in the folder of the old token, or already
    in the folder of the new one as the file of an upload is, and that
    the request does not replace, is in the folder of the new token
    after the update. *)
Theorem update_keeps_paths_keyed gameId b files (w : World F) r reply w' :
  rows (db w) !! gameId = Some r ->
  keyed_by (Row.title r) (Row.coverArtPath r) ->
  keyed_by (Row.title r) (Row.gameplayImagePath r) ->
  Form.title b <> Some EmptyString ->
  update_route appDataPath gameId b files w = (Resolved reply, w') ->
  status reply = 200 ->
  exists stored,
    rows (db w') !! gameId = Some stored /\
    Form.title b = Some (Row.title stored) /\
    keyed_by (Row.title stored) (Row.coverArtPath stored) /\
    keyed_by (Row.title stored) (Row.gameplayImagePath stored) /\
    let oldFolder := sanitizeFolderName (Row.title r) in
    let newFolder := sanitizeFolderName (Row.title stored) in
    (forall file,
        Files.coverArt files = None ->
        Row.coverArtPath r = Some (upload_url oldFolder file) ->
        Row.coverArtPath stored = Some (upload_url newFolder file)) /\
    (forall file,
        Files.gameplayImage files = None ->
        Row.gameplayImagePath r = Some (upload_url oldFolder file) ->
        Row.gameplayImagePath stored = Some (upload_url newFolder file)) /\
    (FileSystemLaws F -> Str.literal appDataPath = true ->
     migrated appDataPath (Row.title r) (Row.title stored) w ->
     oldFolder <> EmptyString -> newFolder <> EmptyString ->
     forall file,
       is_name file = true ->
       is_file (upload_file appDataPath oldFolder file) (fs w)
       \/ existsSync (upload_file appDataPath newFolder file) (fs w) = true ->
       upload_file appDataPath newFolder file
       ∉ replaced_files appDataPath files (Row.coverArtPath r)
           (Row.gameplayImagePath r) ->
       existsSync (upload_file appDataPath newFolder file) (fs w') = true).
Proof.
  intros Hrow Hcover Hplay Hne Hrun Hok.
  destruct (update_route_stored appDataPath _ _ _ _ _ _ Hrun Hok)
    as (r0 & existing & title & Hrow0 & Hdec & Htitle & _ & Hstored).
  assert (r0 = r) as -> by congruence.
  destruct (decode_row_paths _ _ _ Hdec) as (Ht & Hc & Hg).
  assert (title <> EmptyString) as Hne' by congruence.
  eexists. split; [exact Hstored|]. split; [exact Htitle|].
  unfold write_row, merge.
  cbn [Row.title Row.coverArtPath Row.gameplayImagePath Merged.coverArtPath
       Merged.gameplayImagePath].
  rewrite final_data_coverArtPath, final_data_gameplayImagePath.
  rewrite <- Ht, <- Hc, <- Hg in *.
  split; [|split; [|cbn zeta; split; [|split]]].
  - apply keyed_by_or_null.
    destruct (Files.coverArt files) as [filename|].
    { intros p [= <-]. now exists filename. }
    destruct (title_changed b existing) eqn:Hchanged.
    + now apply keyed_by_rewritten.
    + rewrite provided_or_to_field.
      now rewrite <- (truthy_title_changed_false _ _ _ Htitle Hne' Hchanged).
  - apply keyed_by_or_null.
    destruct (Files.gameplayImage files) as [filename|].
    { intros p [= <-]. now exists filename. }
    destruct (title_changed b existing) eqn:Hchanged.
    + now apply keyed_by_rewritten.
    + rewrite provided_or_to_field.
      now rewrite <- (truthy_title_changed_false _ _ _ Htitle Hne' Hchanged).
  - intros file -> ->. now apply rewritten_path_stored.
  - intros file -> ->. now apply rewritten_path_stored.
  - intros Hlaws _ Hmigrated Hold Hnew file Hfile Hthere Hkept.
    rewrite Ht in Hmigrated, Hold, Hthere. rewrite Hc, Hg in Hkept.
    exact (update_route_files gameId b files w r reply w' title file Hlaws
             Hrow Htitle Hne' Hrun Hok Hmigrated Hold Hnew Hfile Hthere
             Hkept).
Qed.

End UpdateFiles.

Lemma update_of_unknown_id_witness :
  rows (db SampleWorld.world) !! 7 = None /\
  update_route SampleWorld.root 7 (SampleWorld.form (Some "Quake"))
    (Files.mk (Some "cover_new.png") None) SampleWorld.world
  = (Resolved (mkReply 404 (Error game_not_found)), SampleWorld.world) /\
  updateGame 7 Sample.finished_only (db SampleWorld.world)
  = (Rejected game_not_found, db SampleWorld.world) /\
  getGameById 7 (db SampleWorld.world) = Resolved None.
Proof.
  split; [reflexivity|].
  apply (update_of_unknown_id SampleWorld.root 7
           (SampleWorld.form (Some "Quake"))
           (Files.mk (Some "cover_new.png") None)
           Sample.finished_only SampleWorld.world).
  reflexivity.
Defined.

(** ** The properties on sample worlds *)

Lemma decode_doom : decode_row 1 Sample.doom = Resolved SampleWorld.doom_game.
Proof. reflexivity. Qed.

Lemma same_token_update_skips_migration_witness :
  sanitizeFolderName "Doom" = sanitizeFolderName "DOOM!" /\
  exists w' r',
    update_route SampleWorld.root 1 (SampleWorld.form (Some "DOOM!"))
      Files.none SampleWorld.world
    = (Resolved (mkReply 200 (Message "Game updated successfully")), w') /\
    fs w' = fs SampleWorld.world /\
    console w'
    = console SampleWorld.world
      ++ (if title_changed (SampleWorld.form (Some "DOOM!"))
               SampleWorld.doom_game
          then ["Folder rename warning: " +:+ no_change_message]
          else []) /\
    rows (db w') !! 1 = Some r' /\
    Row.title r' = "DOOM!" /\
    Row.coverArtPath r' = Row.coverArtPath Sample.doom /\
    Row.gameplayImagePath r' = Row.gameplayImagePath Sample.doom.
Proof.
  split; [reflexivity|].
  apply (proj1 (proj2 (proj2 (same_token_update_skips_migration
                                SampleWorld.root)))
           1 (SampleWorld.form (Some "DOOM!")) SampleWorld.world Sample.doom
           _ "DOOM!" eq_refl decode_doom eq_refl eq_refl);
    discriminate.
Defined.

Lemma uploaded_file_supersedes_rewrite_witness :
  exists newTitle stored,
    Form.title (SampleWorld.form (Some "Quake")) = Some newTitle /\
    rows (db (snd (update_route SampleWorld.root 1
                     (SampleWorld.form (Some "Quake"))
                     (Files.mk (Some "cover_new.png") None)
                     SampleWorld.world))) !! 1 = Some stored /\
    Row.title stored = newTitle /\
    Row.coverArtPath stored
    = Some "http://localhost:3000/uploads/quake/cover_new.png".
Proof.
  assert (update_route SampleWorld.root 1 (SampleWorld.form (Some "Quake"))
            (Files.mk (Some "cover_new.png") None) SampleWorld.world
          = (Resolved (mkReply 200 (Message "Game updated successfully")),
             snd (update_route SampleWorld.root 1
                    (SampleWorld.form (Some "Quake"))
                    (Files.mk (Some "cover_new.png") None)
                    SampleWorld.world))) as Hrun
      by (vm_compute; reflexivity).
  destruct (uploaded_file_supersedes_rewrite SampleWorld.root 1
              (SampleWorld.form (Some "Quake"))
              (Files.mk (Some "cover_new.png") None)
              SampleWorld.world Sample.doom _ _ _
              eq_refl decode_doom eq_refl Hrun eq_refl)
    as (newTitle & stored & Htitle & _ & Hstored & Hst & Hcover & _).
  exists newTitle, stored. split; [exact Htitle|]. split; [exact Hstored|].
  split; [exact Hst|].
  injection Htitle as <-. apply (Hcover "cover_new.png" eq_refl).
Defined.

Lemma keyed_doom : keyed_by "Doom" (Some Sample.doom_cover).
Proof. intros p [= <-]. now exists "cover_x.png". Qed.

Lemma keyed_null title : keyed_by title None.
Proof. intros p [=]. Qed.

Lemma update_keeps_paths_keyed_witness :
  exists stored,
    rows (db (snd (update_route SampleWorld.root 1
                     (SampleWorld.form (Some "Quake")) Files.none
                     SampleWorld.world))) !! 1 = Some stored /\
    Row.title stored = "Quake" /\
    keyed_by "Quake" (Row.coverArtPath stored) /\
    keyed_by "Quake" (Row.gameplayImagePath stored) /\
    Row.coverArtPath stored
    = Some "http://localhost:3000/uploads/quake/cover_x.png" /\
    existsSync "/app/uploads/quake/cover_x.png"
      (fs (snd (update_route SampleWorld.root 1
                  (SampleWorld.form (Some "Quake")) Files.none
                  SampleWorld.world))) = true.
Proof.
  destruct (@update_keeps_paths_keyed Disk.t Disk.file_system
              SampleWorld.root 1
              (SampleWorld.form (Some "Quake")) Files.none SampleWorld.world
              Sample.doom
              (mkReply 200 (Message "Game updated successfully"))
              (snd (update_route SampleWorld.root 1
                      (SampleWorld.form (Some "Quake")) Files.none
                      SampleWorld.world)))
    as (stored & Hstored & Htitle & Hcover & Hplay & Hpath & _ & Hfiles).
  - reflexivity.
  - exact keyed_doom.
  - apply keyed_null.
  - discriminate.
  - vm_compute; reflexivity.
  - reflexivity.
  - injection Htitle as Htitle. rewrite <- Htitle in *.
    exists stored. split; [exact Hstored|]. split; [now symmetry|].
    split; [exact Hcover|]. split; [exact Hplay|]. split.
    + exact (Hpath "cover_x.png" eq_refl eq_refl).
    + change (existsSync
                (upload_file SampleWorld.root (sanitizeFolderName "Quake")
                   "cover_x.png")
                (fs (snd (update_route SampleWorld.root 1
                            (SampleWorld.form (Some "Quake")) Files.none
                            SampleWorld.world))) = true).
      apply (Hfiles disk_laws eq_refl).
      * right. eexists _, _, _. vm_compute. reflexivity.
      * discriminate.
      * discriminate.
      * reflexivity.
      * left. split; [reflexivity|]. eexists. reflexivity.
      * apply not_elem_of_nil.
Defined.

Lemma bare_update_run :
  update_route SampleWorld.root 1 SampleWorld.bare_form Files.none
    SampleWorld.world
  = (Resolved (mkReply 200 (Message "Game updated successfully")),
     snd SampleWorld.bare_update).
Proof. vm_compute. reflexivity. Qed.

Lemma updateGame_replaces_provided_keys_witness :
  (exists d',
      updateGame 1 Sample.finished_only Sample.store = (Resolved 1, d') /\
      rows d' !! 1
      = Some (UpdateSpec.replace_keys Sample.finished_only Sample.doom)) /\
  (exists stored,
      rows (db (snd SampleWorld.bare_update)) !! 1 = Some stored /\
      Row.platform Sample.doom = Some "PC" /\
      Row.platform stored = Some EmptyString /\
      Row.rageRating Sample.doom = Some 5 /\
      Row.rageRating stored = Some 0 /\
      Row.additionalPhotos stored = Row.additionalPhotos Sample.doom).
Proof.
  destruct (@updateGame_replaces_provided_keys Disk.t Disk.file_system
              SampleWorld.root 1 Sample.finished_only Sample.store
              Sample.doom eq_refl written_doom)
    as (_ & Hupdate & Hroute).
  split.
  - destruct (Hupdate ltac:(discriminate)) as (d' & Hrun & _ & _ & Hgiven).
    exists d'. split; [exact Hrun|]. apply Hgiven.
    repeat split; discriminate.
  - destruct (Hroute SampleWorld.bare_form Files.none SampleWorld.world _ _
                eq_refl bare_update_run eq_refl)
      as (q & stored & _ & Hstored & _ & _ & _ & _ & Hrating & _ & _
          & Hplatform & _ & _ & Hphotos & _).
    exists stored. split; [exact Hstored|]. split; [reflexivity|].
    split; [exact (Hplatform eq_refl)|]. split; [reflexivity|].
    split; [exact (Hrating eq_refl) | exact Hphotos].
Defined.

Lemma failed_migration_is_only_logged_witness :
  fst (renameGameFolder SampleWorld.root "Doom" "Quake"
         SampleWorld.locked_world)
  = Resolved (RenameError SampleWorld.eacces) /\
  fst SampleWorld.failed_update
  = Resolved (mkReply 200 (Message "Game updated successfully")) /\
  (Row.title <$> rows (db (snd SampleWorld.failed_update)) !! 1)
  = Some "Quake".
Proof.
  split; [vm_compute; reflexivity|].
  assert (renameGameFolder SampleWorld.root "Doom" "Quake"
            SampleWorld.locked_world
          = (Resolved (RenameError SampleWorld.eacces),
             snd (renameGameFolder SampleWorld.root "Doom" "Quake"
                    SampleWorld.locked_world))) as Hrename
      by (vm_compute; reflexivity).
  destruct (failed_migration_is_only_logged SampleWorld.root 1
              (SampleWorld.form (Some "Quake")) Files.none
              SampleWorld.locked_world Sample.doom SampleWorld.doom_game
              "Quake" SampleWorld.eacces _ _ _
              eq_refl decode_doom eq_refl eq_refl Hrename eq_refl)
    as (Hrun & Htitle & _).
  unfold SampleWorld.failed_update. rewrite Hrun. cbn [fst snd db rows].
  rewrite lookup_insert_eq. split; [reflexivity|].
  cbn [fmap option_fmap option_map]. now rewrite Htitle.
Defined.

(** C1 as stated fails: on the sample world whose cover may not be moved,
    the migration to the folder of "Quake" fails, yet the route answers
    that the game was updated and the stored record carries the new title
    and a cover path in the new folder. *)
Lemma failed_migration_counterexample :
  title_changed (SampleWorld.form (Some "Quake")) SampleWorld.doom_game
  = true /\
  fst (renameGameFolder SampleWorld.root "Doom" "Quake"
         SampleWorld.locked_world)
  = Resolved (RenameError SampleWorld.eacces) /\
  fst SampleWorld.failed_update
  = Resolved (mkReply 200 (Message "Game updated successfully")) /\
  rows (db (snd SampleWorld.failed_update)) !! 1
  <> rows (db SampleWorld.locked_world) !! 1 /\
  (Row.title <$> rows (db (snd SampleWorld.failed_update)) !! 1)
  = Some "Quake" /\
  (Row.coverArtPath <$> rows (db (snd SampleWorld.failed_update)) !! 1)
  = Some (Some "http://localhost:3000/uploads/quake/cover_x.png").
Proof.
  repeat split; try (vm_compute; reflexivity).
  vm_compute. discriminate.
Qed.

(** C3 as stated fails, in both halves.  After the failed migration above
    the stored cover path points into the folder of "Quake", where the
    file is not: it is still in the folder of "Doom".  And after a
    successful update with an empty title the stored cover path still
    names the folder "doom", which is not the token of the stored title. *)
Lemma paths_keyed_counterexample :
  (fst SampleWorld.failed_update
   = Resolved (mkReply 200 (Message "Game updated successfully")) /\
   (Row.coverArtPath <$> rows (db (snd SampleWorld.failed_update)) !! 1)
   = Some (Some "http://localhost:3000/uploads/quake/cover_x.png") /\
   existsSync "/app/uploads/quake/cover_x.png"
     (fs (snd SampleWorld.failed_update)) = false /\
   existsSync "/app/uploads/doom/cover_x.png"
     (fs (snd SampleWorld.failed_update)) = true) /\
  (fst SampleWorld.untitled_update
   = Resolved (mkReply 200 (Message "Game updated successfully")) /\
   (Row.title <$> rows (db (snd SampleWorld.untitled_update)) !! 1)
   = Some EmptyString /\
   (Row.coverArtPath <$> rows (db (snd SampleWorld.untitled_update)) !! 1)
   = Some (Some "http://localhost:3000/uploads/doom/cover_x.png") /\
   ~ keyed_by EmptyString
       (Some "http://localhost:3000/uploads/doom/cover_x.png")).
Proof.
  repeat split; try (vm_compute; reflexivity).
  intros Hkeyed. destruct (Hkeyed _ eq_refl) as [file Hfile].
  vm_compute in Hfile. discriminate.
Qed.

(** ** Deleting by an index that is not a number *)

Section DeleteRoutes.

Context {F : Type} `{FileSystem F}.
Variable appDataPath : string.

Lemma splice_nan {A} (x : A) l : splice None 1 (x :: l) = l.
Proof.
  unfold splice. cbn [default from_option id List.length].
  replace (0 <? 0) with false by reflexivity.
  rewrite Z.min_l by lia. rewrite Z.min_l by lia. reflexivity.
Qed.

Lemma updateGame_merged id g d r existing title :
  rows d !! id = Some r -> decode_row id r = Resolved existing ->
  Merged.title (merge g existing) = Some title ->
  updateGame id g d
  = (Resolved 1,
     mkDB (<[id := write_row title (merge g existing) r]> (rows d))
          (sequence d) (today d)).
Proof.
  intros Hrow Hdec Htitle. unfold updateGame.
  rewrite (getGameById_decoded _ _ _ _ Hrow Hdec).
  now rewrite Htitle, Hrow.
Qed.

(** C10, as amended.  When the index of a delete request does not parse as
    an integer, the range guard lets the request through.  For a note, the
    splice then removes the first note of the list, the shortened list is
    stored and is what the game reads back with.  For a photo, no element
    is selected: reading the path of the photo to delete throws, the
    request ends with status 500, and neither the stored list nor the file
    system has changed. *)
Theorem delete_with_non_numeric_index gameId param (w : World F) r game :
  parseInt param = None ->
  rows (db w) !! gameId = Some r ->
  decode_row gameId r = Resolved game ->
  (forall photo photos,
      Game.additionalPhotos game = JSON.JArr (photo :: photos) ->
      out_of_range (parseInt param) (List.length (photo :: photos)) = false /\
      delete_photo_route appDataPath gameId param w
      = Some (Resolved (mkReply 500 (Error cannot_read_path)),
              mkWorld (db w) (fs w)
                (console w
                 ++ ["Error deleting photo: " +:+ cannot_read_path]))) /\
  (forall note notes,
      Game.additionalNotes game = JSON.JArr (note :: notes) ->
      out_of_range (parseInt param) (List.length (note :: notes)) = false /\
      exists stored game',
        delete_note_route gameId param w
        = Some (Resolved (mkReply 200 (Message "Note deleted successfully")),
                mkWorld (mkDB (<[gameId := stored]> (rows (db w)))
                              (sequence (db w)) (today (db w)))
                        (fs w) (console w)) /\
        Row.additionalNotes stored = Some (JSON.stringify (JSON.JArr notes)) /\
        getGameById gameId
          (mkDB (<[gameId := stored]> (rows (db w)))
                (sequence (db w)) (today (db w)))
        = Resolved (Some game') /\
        Game.additionalNotes game' = JSON.JArr notes).
Proof.
  intros Hnan Hrow Hdec.
  pose proof (getGameById_decoded _ _ _ _ Hrow Hdec) as Hget.
  destruct (decode_row_distinct _ _ _ Hdec) as [Hphotos_ok Hnotes_ok].
  split.
  - intros photo photos Hphotos. split; [now rewrite Hnan|].
    unfold delete_photo_route. rewrite Hget, Hphotos, Hnan.
    reflexivity.
  - intros note notes Hnotes. split; [now rewrite Hnan|].
    rewrite Hnotes in Hnotes_ok.
    apply distinct_keys_arr in Hnotes_ok.
    apply Forall_cons in Hnotes_ok as [_ Hnotes_ok].
    destruct (decode_write_row gameId (Game.title game)
                (merge (notes_payload notes) game) r)
      as (game' & Hgame' & _ & _ & Hread).
    { intros v [= <-]. exact Hphotos_ok. }
    { intros v [= <-]. now apply distinct_keys_arr. }
    exists (write_row (Game.title game) (merge (notes_payload notes) game) r),
      game'.
    split; [|split; [reflexivity|split]].
    + unfold delete_note_route. rewrite Hget, Hnotes, Hnan.
      cbn [as_array]. unfold try_catch, delete_note_from.
      cbn [out_of_range]. rewrite splice_nan.
      unfold bind, db_run.
      rewrite (updateGame_merged gameId (notes_payload notes) (db w) r game
                 (Game.title game)) by (assumption || reflexivity).
      reflexivity.
    + unfold getGameById. cbn [rows]. now rewrite lookup_insert_eq, Hgame'.
    + exact Hread.
Qed.

End DeleteRoutes.

Lemma decode_annotated :
  decode_row 1 SampleWorld.annotated
  = Resolved
      (Game.mk 1 "Doom" (Some EmptyString) 5 false false (Some "PC") 0
         (Some EmptyString)
         None None (Some "2024-01-01")
         (JSON.JArr [Sample.photo "additional_1.png";
                     Sample.photo "additional_2.png"])
         (JSON.JArr [Sample.note "first"; Sample.note "second"])).
Proof. vm_compute. reflexivity. Qed.

Lemma delete_with_non_numeric_index_witness :
  parseInt "abc" = None /\
  delete_photo_route SampleWorld.root 1 "abc" SampleWorld.annotated_world
  = Some (Resolved (mkReply 500 (Error cannot_read_path)),
          mkWorld (db SampleWorld.annotated_world)
            (fs SampleWorld.annotated_world)
            (console SampleWorld.annotated_world
             ++ ["Error deleting photo: " +:+ cannot_read_path])) /\
  exists stored game',
    delete_note_route 1 "abc" SampleWorld.annotated_world
    = Some (Resolved (mkReply 200 (Message "Note deleted successfully")),
            mkWorld (mkDB (<[1 := stored]>
                             (rows (db SampleWorld.annotated_world)))
                          (sequence (db SampleWorld.annotated_world))
                          (today (db SampleWorld.annotated_world)))
                    (fs SampleWorld.annotated_world)
                    (console SampleWorld.annotated_world)) /\
    Row.additionalNotes stored
    = Some (JSON.stringify (JSON.JArr [Sample.note "second"])) /\
    getGameById 1
      (mkDB (<[1 := stored]> (rows (db SampleWorld.annotated_world)))
            (sequence (db SampleWorld.annotated_world))
            (today (db SampleWorld.annotated_world)))
    = Resolved (Some game') /\
    Game.additionalNotes game' = JSON.JArr [Sample.note "second"].
Proof.
  split; [reflexivity|].
  destruct (delete_with_non_numeric_index SampleWorld.root 1 "abc"
              SampleWorld.annotated_world SampleWorld.annotated _
              eq_refl eq_refl decode_annotated) as [Hphoto Hnote].
  split.
  - exact (proj2 (Hphoto _ _ eq_refl)).
  - exact (proj2 (Hnote _ _ eq_refl)).
Defined.

(** C10 as stated fails for photos: with the index "abc" on a game with
    two photos the request is not rejected by the range guard, but it ends
    with status 500 and the first photo is still in the stored list. *)
Lemma delete_photo_nan_counterexample :
  parseInt "abc" = None /\
  (fst <$> SampleWorld.delete_photo_abc)
  = Some (Resolved (mkReply 500 (Error cannot_read_path))) /\
  ((fun run => rows (db (snd run)) !! 1) <$> SampleWorld.delete_photo_abc)
  = Some (Some SampleWorld.annotated) /\
  Row.additionalPhotos SampleWorld.annotated
  = Some (JSON.stringify
            (JSON.JArr [Sample.photo "additional_1.png";
                        Sample.photo "additional_2.png"])) /\
  JSON.stringify (JSON.JArr [Sample.photo "additional_1.png";
                             Sample.photo "additional_2.png"])
  <> JSON.stringify (JSON.JArr [Sample.photo "additional_2.png"]).
Proof.
  repeat split; try (vm_compute; reflexivity).
  vm_compute. discriminate.
Qed.

(** * Further properties of the code *)

(** ** The other operations of the store *)

Section StoreOperations.

Lemma last_rowid_ge d : sequence d <= last_rowid d.
Proof.
  unfold last_rowid.
  apply (map_fold_weak_ind (fun acc _ => sequence d <= acc)); [lia|].
  intros k r m acc _ IH. lia.
Qed.

Lemma last_rowid_key d id r : rows d !! id = Some r -> id <= last_rowid d.
Proof.
  unfold last_rowid. revert id r.
  apply (map_fold_weak_ind
           (fun acc m => forall id r, m !! id = Some r -> id <= acc)).
  - intros id r Hl. rewrite lookup_empty in Hl. discriminate.
  - intros k r m acc Hk IH id r' Hl.
    destruct (decide (id = k)) as [->|Hne].
    + lia.
    + rewrite lookup_insert_ne in Hl by congruence.
      specialize (IH _ _ Hl). lia.
Qed.

Lemma last_rowid_fresh d : rows d !! (last_rowid d + 1) = None.
Proof.
  destruct (rows d !! (last_rowid d + 1)) as [r|] eqn:Hl; [|reflexivity].
  apply last_rowid_key in Hl. lia.
Qed.

Lemma last_rowid_sequenced d : sequenced d -> last_rowid d = sequence d.
Proof.
  intros Hs. apply Z.le_antisymm; [|apply last_rowid_ge].
  unfold sequenced in Hs. unfold last_rowid. revert Hs.
  apply (map_fold_weak_ind
           (fun acc m => (forall id r, m !! id = Some r -> id <= sequence d)
                         -> acc <= sequence d)).
  - intros _. lia.
  - intros k r m acc Hk IH Hs.
    assert (k <= sequence d) by (apply (Hs k r), lookup_insert_eq).
    assert (acc <= sequence d); [|lia].
    apply IH. intros id r' Hl. apply (Hs id r').
    rewrite lookup_insert_ne; [assumption|]. intros ->. congruence.
Qed.

Lemma createGame_resolved g d id d' :
  createGame g d = (Resolved id, d') ->
  exists title,
    GameData.title g = Val title /\ id = last_rowid d + 1 /\
    sequence d' = id /\ today d' = today d /\
    exists row, rows d' = <[id := row]> (rows d) /\ Row.title row = title.
Proof.
  unfold createGame. intros Hc.
  destruct (GameData.title g) as [| |title]; try discriminate.
  injection Hc as <- <-. exists title. cbn. repeat split; try reflexivity.
  eexists. split; reflexivity.
Qed.

Lemma updateGame_sequence id g d :
  sequence (snd (updateGame id g d)) = sequence d /\
  dom (rows (snd (updateGame id g d))) = dom (rows d).
Proof.
  unfold updateGame.
  destruct (getGameById id d) as [[existing|]|e]; try (split; reflexivity).
  destruct (Merged.title (merge g existing)); [|split; reflexivity].
  destruct (rows d !! id) as [old|] eqn:Hold; [|split; reflexivity].
  cbn. split; [reflexivity|].
  apply set_eq. intros k. rewrite !elem_of_dom.
  destruct (decide (k = id)) as [->|Hne].
  - rewrite lookup_insert_eq, Hold. split; eauto.
  - rewrite lookup_insert_ne by congruence. reflexivity.
Qed.


Lemma decode_rows_ids l games :
  decode_rows l = Resolved games -> Game.id <$> games = l.*1.
Proof.
  revert games. induction l as [|[id r] l IH]; intros games Hd; cbn in Hd.
  - injection Hd as <-. reflexivity.
  - destruct (decode_row id r) as [game|] eqn:Hrow; [|discriminate].
    destruct (decode_rows l) as [gs|]; [|discriminate].
    injection Hd as <-. cbn. f_equal; [|now apply IH].
    now apply decode_row_id in Hrow.
Qed.

Lemma decode_rows_resolves l :
  Forall (fun x => exists game, decode_row x.1 x.2 = Resolved game) l ->
  exists games, decode_rows l = Resolved games.
Proof.
  induction 1 as [|[id r] l [game Hrow] _ [games IH]]; cbn.
  - eexists; reflexivity.
  - cbn in Hrow. rewrite Hrow, IH. eexists; reflexivity.
Qed.

Lemma decode_rows_rejects l id r e :
  (id, r) ∈ l -> decode_row id r = Rejected e ->
  exists e', decode_rows l = Rejected e'.
Proof.
  intros Hin Hrow. destruct (decode_rows l) as [games|e'] eqn:Hd.
  - destruct (decode_rows_complete _ _ _ _ Hd Hin) as (game & Hg & _).
    congruence.
  - eexists; reflexivity.
Qed.

(** The games that [getAllGames] lists are the rows, each decoded. *)
Lemma getAllGames_elem d games game :
  getAllGames d = Resolved games ->
  game ∈ games <->
  exists r, rows d !! Game.id game = Some r /\
            decode_row (Game.id game) r = Resolved game.
Proof.
  unfold getAllGames. intros Hd. split.
  - intros Hin.
    destruct (decode_rows_elem _ _ _ Hd Hin) as (id & r & Hl & Hrow).
    pose proof (decode_row_id _ _ _ Hrow) as <-.
    apply elem_of_table_scan in Hl. eauto.
  - intros (r & Hl & Hrow). apply elem_of_table_scan in Hl.
    destruct (decode_rows_complete _ _ _ _ Hd Hl) as (game' & Hrow' & Hin).
    congruence.
Qed.

Lemma getAllGames_resolves d :
  (forall id r, rows d !! id = Some r ->
                exists game, decode_row id r = Resolved game) ->
  exists games, getAllGames d = Resolved games.
Proof.
  intros Hrows. apply decode_rows_resolves, Forall_forall.
  intros [id r] Hin. apply elem_of_table_scan in Hin. cbn. eauto.
Qed.

Lemma getAllGames_decodes d games id r :
  getAllGames d = Resolved games -> rows d !! id = Some r ->
  exists game, decode_row id r = Resolved game.
Proof.
  intros Hd Hl. apply elem_of_table_scan in Hl.
  destruct (decode_rows_complete _ _ _ _ Hd Hl) as (game & Hrow & _). eauto.
Qed.

Lemma getGameById_lookup id d d' :
  rows d' !! id = rows d !! id -> getGameById id d' = getGameById id d.
Proof. unfold getGameById. now intros ->. Qed.

Lemma read_uint_no_digit c l :
  JSON.digit c = None -> JSON.read_uint (c :: l) = (Decimal.Nil, c :: l).
Proof. intros Hc. cbn. now rewrite Hc. Qed.

Lemma value_start_digit c :
  JSONSize.value_start c = false -> JSON.digit c = None.
Proof.
  unfold JSONSize.value_start, JSON.digit, Str.in_range.
  intros Hc. repeat (apply orb_false_iff in Hc as [Hc ?]).
  destruct (nat_of_ascii c) as [|n] eqn:Hn; [reflexivity|].
  do 47 (destruct n as [|n]; [reflexivity|]).
  do 10 (destruct n as [|n]; [discriminate|]).
  reflexivity.
Qed.

(** A text that starts with no value is not JSON. *)
Lemma parse_no_value s : starts_no_value s -> JSON.parse s = None.
Proof.
  unfold starts_no_value, JSON.parse. intros Hs.
  cbn [JSON.parse_value].
  destruct (JSON.skip_ws (list_ascii_of_string s)) as [|c r]; [reflexivity|].
  unfold JSONSize.value_start in Hs.
  pose proof (value_start_digit c Hs) as Hdigit.
  repeat (apply orb_false_iff in Hs as [Hs ?]).
  repeat match goal with
         | Hc : Ascii.eqb c ?x = false |- _ => rewrite Hc; clear Hc
         end.
  unfold JSON.parse_number.
  match goal with
  | Hc : Ascii.eqb c "-" = false |- _ => rewrite Hc
  end.
  rewrite read_uint_no_digit by exact Hdigit. reflexivity.
Qed.


Lemma decode_list_no_value text :
  text <> EmptyString -> starts_no_value text ->
  decode_list (Some text) = Rejected syntax_error.
Proof.
  intros Hne Htext. unfold decode_list.
  assert (truthy text = true) as ->.
  { unfold_truthy. now destruct (String.eqb_spec text EmptyString). }
  now rewrite (parse_no_value _ Htext).
Qed.

Lemma decode_list_error col e :
  decode_list col = Rejected e -> e = syntax_error.
Proof.
  unfold decode_list. destruct col as [s|]; [|discriminate].
  destruct (truthy s); [|discriminate].
  destruct (JSON.parse s); [discriminate|]. now intros [= <-].
Qed.

End StoreOperations.

(** X1.  The ids of the store are never reused.  On a database whose rows
    all have an id up to the counter of [AUTOINCREMENT], [createGame]
    hands out the counter plus one, an id that no row has, and moves the
    counter there; [updateGame], [deleteGame] and [clearAllGames] leave
    the counter where it is, and all four keep every id up to the counter.
    So the id of a deleted game, or of a game cleared by an import, is not
    given to a later game. *)
Theorem auto_increment_ids_are_not_reused d :
  sequenced d ->
  (forall g id d',
      createGame g d = (Resolved id, d') ->
      id = sequence d + 1 /\ rows d !! id = None /\
      sequence d' = id /\ sequenced d') /\
  (forall id g,
      sequence (snd (updateGame id g d)) = sequence d /\
      sequenced (snd (updateGame id g d))) /\
  (forall id,
      sequence (snd (deleteGame id d)) = sequence d /\
      sequenced (snd (deleteGame id d))) /\
  sequence (snd (clearAllGames d)) = sequence d /\
  sequenced (snd (clearAllGames d)).
Proof.
  intros Hs. repeat split.
  - apply createGame_resolved in H as (t & _ & -> & _).
    now rewrite last_rowid_sequenced.
  - apply createGame_resolved in H as (t & _ & -> & _).
    apply last_rowid_fresh.
  - now apply createGame_resolved in H as (t & _ & _ & -> & _).
  - apply createGame_resolved in H
      as (t & _ & Hid & Hseq & _ & row & Hrows & _).
    intros k r. rewrite Hrows, Hseq.
    destruct (decide (k = id)) as [->|Hne]; [lia|].
    rewrite lookup_insert_ne by congruence. intros Hl.
    pose proof (last_rowid_key _ _ _ Hl). lia.
  - apply updateGame_sequence.
  - intros k r Hl. destruct (updateGame_sequence id g d) as [-> Hdom].
    assert (k ∈ dom (rows d)) as Hk
        by (rewrite <- Hdom; apply elem_of_dom; eauto).
    apply elem_of_dom in Hk as [r' Hr']. now apply (Hs k r').
  - unfold deleteGame. now destruct (rows d !! id).
  - unfold deleteGame. destruct (rows d !! id) eqn:Hid; cbn; [|exact Hs].
    intros k r Hl. cbn in *.
    apply lookup_delete_Some in Hl as [_ Hl]. now apply (Hs k r).
  - intros k r Hl. cbn in Hl. rewrite lookup_empty in Hl. discriminate.
Qed.

Section CreatedRow.

Lemma decode_bool_one_or_zero {A} `{Truthy A} (x : A) :
  decode_bool (Some (one_or_zero x)) = truthy x.
Proof. unfold decode_bool, one_or_zero. now destruct (truthy x). Qed.

Lemma createGame_created_row g d title :
  GameData.title g = Val title ->
  createGame g d
  = (Resolved (last_rowid d + 1),
     mkDB (<[last_rowid d + 1 := created_row g title (today d)]> (rows d))
          (last_rowid d + 1) (today d)).
Proof. intros Htitle. unfold createGame. now rewrite Htitle. Qed.

(** The game that a row just created decodes to. *)
Lemma decode_created_row id g title today :
  payload_lists_ok g ->
  decode_row id (created_row g title today)
  = Resolved
      (Game.mk id title
         (Some (or_default (to_option (GameData.link g)) EmptyString))
         (or_default (to_option (GameData.rageRating g)) 0)
         (truthy (to_option (GameData.finished g)))
         (truthy (to_option (GameData.is_checked g)))
         (Some (or_default (to_option (GameData.platform g)) EmptyString))
         (or_default (to_option (GameData.strikes g)) 0)
         (Some (or_default (to_option (GameData.notes g)) EmptyString))
         (or_null (to_option (GameData.coverArtPath g)))
         (or_null (to_option (GameData.gameplayImagePath g)))
         (Some today)
         (if truthy (to_option (GameData.additionalPhotos g))
          then default JSON.JNull (to_option (GameData.additionalPhotos g))
          else JSON.JArr [])
         (if truthy (to_option (GameData.additionalNotes g))
          then default JSON.JNull (to_option (GameData.additionalNotes g))
          else JSON.JArr [])).
Proof.
  intros [Hphotos Hnotes]. unfold decode_row, created_row.
  cbn [Row.additionalPhotos Row.additionalNotes].
  rewrite !decode_encode_list.
  - cbn -[or_default or_null one_or_zero decode_bool truthy].
    now rewrite !decode_bool_one_or_zero, !or_default_idem_Z.
  - intros v Hv. apply Hnotes. now apply to_option_val.
  - intros v Hv. apply Hphotos. now apply to_option_val.
Qed.

End CreatedRow.

(** X2.  [createGame] with a title stores one new row under an id that no
    row had and leaves the other rows as they were; [getGameById] of the
    new id returns the game with that title, the date of the day, each
    missing or falsy text and number as [''] and [0], each flag as a
    boolean, an empty image path as [null], and each list as given (the
    empty array when it is missing or falsy). *)
Theorem createGame_stores_the_game g d title :
  GameData.title g = Val title -> payload_lists_ok g ->
  exists id d' game,
    createGame g d = (Resolved id, d') /\
    rows d !! id = None /\
    (forall other, other <> id -> rows d' !! other = rows d !! other) /\
    getGameById id d' = Resolved (Some game) /\
    Game.id game = id /\
    Game.title game = title /\
    Game.link game
    = Some (or_default (to_option (GameData.link g)) EmptyString) /\
    Game.rageRating game = or_default (to_option (GameData.rageRating g)) 0 /\
    Game.finished game = truthy (to_option (GameData.finished g)) /\
    Game.is_checked game = truthy (to_option (GameData.is_checked g)) /\
    Game.platform game
    = Some (or_default (to_option (GameData.platform g)) EmptyString) /\
    Game.strikes game = or_default (to_option (GameData.strikes g)) 0 /\
    Game.notes game
    = Some (or_default (to_option (GameData.notes g)) EmptyString) /\
    Game.coverArtPath game = or_null (to_option (GameData.coverArtPath g)) /\
    Game.gameplayImagePath game
    = or_null (to_option (GameData.gameplayImagePath g)) /\
    Game.dateAdded game = Some (today d) /\
    Game.additionalPhotos game
    = (if truthy (to_option (GameData.additionalPhotos g))
       then default JSON.JNull (to_option (GameData.additionalPhotos g))
       else JSON.JArr []) /\
    Game.additionalNotes game
    = (if truthy (to_option (GameData.additionalNotes g))
       then default JSON.JNull (to_option (GameData.additionalNotes g))
       else JSON.JArr []).
Proof.
  intros Htitle Hlists. rewrite (createGame_created_row _ _ _ Htitle).
  eexists _, _, _. split; [reflexivity|].
  split; [apply last_rowid_fresh|].
  split; [intros other Hne; cbn; now apply lookup_insert_ne|].
  split.
  { unfold getGameById. cbn [rows].
    rewrite lookup_insert_eq, (decode_created_row _ _ _ _ Hlists).
    reflexivity. }
  cbn [Game.id Game.title Game.link Game.rageRating Game.finished
       Game.is_checked Game.platform Game.strikes Game.notes
       Game.coverArtPath Game.gameplayImagePath Game.dateAdded
       Game.additionalPhotos Game.additionalNotes].
  repeat split.
Qed.

(** X3.  [deleteGame] resolves to 1 and removes the row when the id has a
    row, and to 0 when it has none; afterwards [getGameById] of the id
    resolves to [null], every other id reads as before, [getAllGames]
    lists the games it listed except that one, and a second [deleteGame]
    of the id resolves to 0 and changes nothing. *)
Theorem deleteGame_removes_one_row id d :
  fst (deleteGame id d)
  = Resolved (match rows d !! id with Some _ => 1 | None => 0 end) /\
  getGameById id (snd (deleteGame id d)) = Resolved None /\
  (forall other,
      other <> id ->
      getGameById other (snd (deleteGame id d)) = getGameById other d) /\
  (forall games,
      getAllGames d = Resolved games ->
      exists games',
        getAllGames (snd (deleteGame id d)) = Resolved games' /\
        forall game, game ∈ games' <-> game ∈ games /\ Game.id game <> id) /\
  deleteGame id (snd (deleteGame id d))
  = (Resolved 0, snd (deleteGame id d)).
Proof.
  assert (rows (snd (deleteGame id d)) = delete id (rows d)) as Hrows.
  { unfold deleteGame. destruct (rows d !! id) eqn:Hid; cbn; [reflexivity|].
    symmetry. now apply delete_id. }
  split; [unfold deleteGame; now destruct (rows d !! id)|].
  split; [unfold getGameById; now rewrite Hrows, lookup_delete_eq|].
  split.
  { intros other Hne. apply getGameById_lookup.
    rewrite Hrows. now apply lookup_delete_ne. }
  split.
  - intros games Hgames.
    destruct (getAllGames_resolves (snd (deleteGame id d))) as [games' Hg'].
    { intros k r. rewrite Hrows. intros Hl.
      apply lookup_delete_Some in Hl as [_ Hl].
      exact (getAllGames_decodes _ _ _ _ Hgames Hl). }
    exists games'. split; [exact Hg'|]. intros game.
    rewrite (getAllGames_elem _ _ _ Hg'), (getAllGames_elem _ _ _ Hgames).
    rewrite Hrows. split.
    + intros (r & Hl & Hrow). apply lookup_delete_Some in Hl as [Hne Hl].
      split; [eauto | congruence].
    + intros [(r & Hl & Hrow) Hne]. exists r. split; [|exact Hrow].
      apply lookup_delete_Some. split; [congruence | exact Hl].
  - unfold deleteGame at 1. now rewrite Hrows, lookup_delete_eq.
Qed.

(** X4.  [clearAllGames] resolves to the number of rows, which is the
    number of games that [getAllGames] listed; afterwards [getAllGames]
    resolves to the empty list and [getGameById] of every id to [null]. *)
Theorem clearAllGames_removes_every_row d :
  fst (clearAllGames d) = Resolved (Z.of_nat (size (rows d))) /\
  (forall games,
      getAllGames d = Resolved games ->
      fst (clearAllGames d) = Resolved (Z.of_nat (length games))) /\
  getAllGames (snd (clearAllGames d)) = Resolved [] /\
  (forall id, getGameById id (snd (clearAllGames d)) = Resolved None).
Proof.
  split; [reflexivity|]. split; [|split].
  - intros games Hgames. cbn. do 2 f_equal.
    apply decode_rows_ids in Hgames.
    rewrite <- (length_fmap Game.id), Hgames, length_fmap.
    symmetry. apply length_table_scan.
  - unfold getAllGames. cbn. now rewrite table_scan_empty.
  - intros id. unfold getGameById. cbn. now rewrite lookup_empty.
Qed.

Section StoreInvariant.

Lemma createGame_rejected g d e d' :
  createGame g d = (Rejected e, d') -> d' = d.
Proof.
  unfold createGame.
  destruct (GameData.title g); intros Hc; now inversion Hc.
Qed.

Lemma updateGame_rejected id g d e d' :
  updateGame id g d = (Rejected e, d') -> d' = d.
Proof.
  unfold updateGame.
  destruct (getGameById id d) as [[existing|]|e'];
    try (intros Hu; now inversion Hu).
  destruct (Merged.title (merge g existing));
    [|intros Hu; now inversion Hu].
  destruct (rows d !! id); intros Hu; now inversion Hu.
Qed.

Lemma replaced_twice {A B} (encode : option A -> B) (x : field A) stored :
  UpdateSpec.replaced encode x (UpdateSpec.replaced encode x stored)
  = UpdateSpec.replaced encode x stored.
Proof. unfold UpdateSpec.replaced. now destruct (UpdateSpec.provided x). Qed.

Lemma replace_keys_normalized_twice p r :
  UpdateSpec.replace_keys_normalized p (UpdateSpec.replace_keys_normalized p r)
  = UpdateSpec.replace_keys_normalized p r.
Proof.
  unfold UpdateSpec.replace_keys_normalized.
  cbn [Row.title Row.link Row.rageRating Row.finished Row.is_checked
       Row.platform Row.strikes Row.notes Row.coverArtPath
       Row.gameplayImagePath Row.dateAdded Row.additionalPhotos
       Row.additionalNotes].
  f_equal; apply replaced_twice.
Qed.

Lemma replace_keys_normalized_empty r :
  UpdateSpec.replace_keys_normalized GameData.empty r = r.
Proof. now destruct r. Qed.

Lemma updateGame_row_written id p d r :
  rows d !! id = Some r -> written r -> payload_lists_ok p ->
  GameData.title p <> Null ->
  written (UpdateSpec.replace_keys_normalized p r).
Proof.
  intros Hrow Hr [Hphotos Hnotes] Htitle.
  pose proof (updateGame_written _ _ _ _ Hrow Hr Htitle) as Hu.
  destruct (updateGame_resolved _ _ _ _ _ Hu)
    as (existing & old & title & Hget & Hold & _ & _ & Hd').
  apply (f_equal (fun d => rows d !! id)) in Hd'. cbn [rows] in Hd'.
  rewrite !lookup_insert_eq in Hd'.
  assert (UpdateSpec.replace_keys_normalized p r
          = write_row title (merge p existing) old) as -> by congruence.
  destruct (decode_written id r Hr)
    as (game & Hdec & _ & _ & _ & _ & _ & _ & _ & _ & _ & _ & _ & _
        & (Hpk & _) & (Hnk & _)).
  unfold getGameById in Hget. rewrite Hrow, Hdec in Hget.
  injection Hget as <-.
  apply write_row_written; cbn [merge Merged.additionalPhotos
                                  Merged.additionalNotes]; intros v.
  - destruct (GameData.additionalPhotos p) eqn:Hp; cbn; intros Hv;
      try discriminate; injection Hv as <-; [exact Hpk | now apply Hphotos].
  - destruct (GameData.additionalNotes p) eqn:Hp; cbn; intros Hv;
      try discriminate; injection Hv as <-; [exact Hnk | now apply Hnotes].
Qed.

End StoreInvariant.

(** X5.  The rows stay as the store writes them.  On a database where
    every row is as [createGame] and [updateGame] write rows, each of
    [createGame], [updateGame], [deleteGame] and [clearAllGames] leaves
    such a database (an operation that rejects leaves it as it was), and
    [getGameById] and [getAllGames] never reject: every list column holds
    JSON text that parses. *)
Theorem store_keeps_its_rows_readable d :
  store_written d ->
  (forall g r d',
      payload_lists_ok g -> createGame g d = (r, d') -> store_written d') /\
  (forall id g r d',
      payload_lists_ok g -> updateGame id g d = (r, d') ->
      store_written d') /\
  (forall id, store_written (snd (deleteGame id d))) /\
  store_written (snd (clearAllGames d)) /\
  (forall id, exists game, getGameById id d = Resolved game) /\
  (exists games, getAllGames d = Resolved games).
Proof.
  intros Hd. split; [|split; [|split; [|split; [|split]]]].
  - intros g [id|e] d' Hg Hc.
    + exact (createGame_store_written _ _ _ _ Hd Hg Hc).
    + now rewrite (createGame_rejected _ _ _ _ Hc).
  - intros id g [n|e] d' Hg Hu.
    + exact (updateGame_store_written _ _ _ _ _ Hd Hg Hu).
    + now rewrite (updateGame_rejected _ _ _ _ _ Hu).
  - intros id k r. unfold deleteGame.
    destruct (rows d !! id); cbn; [|apply Hd].
    intros Hl. apply lookup_delete_Some in Hl as [_ Hl]. exact (Hd _ _ Hl).
  - intros k r Hl. cbn in Hl. rewrite lookup_empty in Hl. discriminate.
  - intros id. unfold getGameById.
    destruct (rows d !! id) as [r|] eqn:Hrow; [|eexists; reflexivity].
    destruct (decode_written id r (Hd _ _ Hrow)) as (game & -> & _).
    eexists; reflexivity.
  - destruct (getAllGames_written d Hd) as (games & Hgames & _). eauto.
Qed.

(** X6.  [getAllGames] lists every row once: when it resolves, the list
    has as many games as the table has rows, no two games of the list
    have the same id, and a game is in the list exactly when
    [getGameById] of its id returns it. *)
Theorem getAllGames_lists_each_row_once d games :
  getAllGames d = Resolved games ->
  length games = size (rows d) /\
  NoDup (Game.id <$> games) /\
  (forall game,
      game ∈ games <-> getGameById (Game.id game) d = Resolved (Some game)).
Proof.
  intros Hgames. pose proof (decode_rows_ids _ _ Hgames) as Hids.
  split; [|split].
  - rewrite <- (length_fmap Game.id), Hids, length_fmap.
    apply length_table_scan.
  - rewrite Hids. apply NoDup_fst_table_scan.
  - intros game. rewrite (getAllGames_elem _ _ _ Hgames).
    unfold getGameById. split.
    + intros (r & -> & ->). reflexivity.
    + destruct (rows d !! Game.id game) as [r|]; [|discriminate].
      destruct (decode_row (Game.id game) r) as [game'|] eqn:Hrow;
        [|discriminate].
      intros Hg. injection Hg as ->. eauto.
Qed.

(** X7.  A row whose list column does not hold JSON blocks the reads.
    When the text of the photos or of the notes of a row is not empty and
    does not begin with a JSON value, [getGameById] of its id rejects
    with the syntax error, [getAllGames] rejects for the whole table,
    and [updateGame] of that id, which reads the game first, rejects and
    writes nothing; [deleteGame] does not read and removes the row all
    the same. *)
Theorem unreadable_row_blocks_the_reads d id r text :
  rows d !! id = Some r ->
  Row.additionalPhotos r = Some text \/ Row.additionalNotes r = Some text ->
  text <> EmptyString -> starts_no_value text ->
  getGameById id d = Rejected syntax_error /\
  (exists e, getAllGames d = Rejected e) /\
  (forall g, updateGame id g d = (Rejected syntax_error, d)) /\
  fst (deleteGame id d) = Resolved 1 /\
  rows (snd (deleteGame id d)) !! id = None.
Proof.
  intros Hrow Hcol Hne Htext.
  pose proof (decode_list_no_value _ Hne Htext) as Hbad.
  assert (decode_row id r = Rejected syntax_error) as Hdec.
  { unfold decode_row. destruct Hcol as [-> | ->].
    - now rewrite Hbad.
    - rewrite Hbad.
      destruct (decode_list (Row.additionalPhotos r)) as [photos|e] eqn:Hp;
        [reflexivity|].
      now rewrite (decode_list_error _ _ Hp). }
  assert (getGameById id d = Rejected syntax_error) as Hget
      by (unfold getGameById; now rewrite Hrow, Hdec).
  split; [exact Hget|]. split; [|split; [|split]].
  - apply (decode_rows_rejects _ id r syntax_error); [|exact Hdec].
    now apply elem_of_table_scan.
  - intros g. unfold updateGame. now rewrite Hget.
  - unfold deleteGame. now rewrite Hrow.
  - unfold deleteGame. rewrite Hrow. cbn. apply lookup_delete_eq.
Qed.

(** X8.  Repeating an update changes nothing.  On a row that the store
    wrote, [updateGame] with the empty payload resolves to 1 and leaves
    the database exactly as it was, and [updateGame] is idempotent: a
    payload applied a second time resolves to 1 again and leaves the
    database as the first application left it. *)
Theorem updateGame_repeated_changes_nothing id d r :
  rows d !! id = Some r -> written r ->
  updateGame id GameData.empty d = (Resolved 1, d) /\
  (forall p,
      payload_lists_ok p -> GameData.title p <> Null ->
      exists d1,
        updateGame id p d = (Resolved 1, d1) /\
        updateGame id p d1 = (Resolved 1, d1)).
Proof.
  intros Hrow Hr. split.
  - rewrite (updateGame_written _ _ _ _ Hrow Hr) by discriminate.
    rewrite replace_keys_normalized_empty, insert_id by exact Hrow.
    now destruct d.
  - intros p Hp Htitle.
    rewrite (updateGame_written _ _ _ _ Hrow Hr Htitle).
    eexists. split; [reflexivity|].
    erewrite updateGame_written;
      [| cbn; apply lookup_insert_eq
       | now apply (updateGame_row_written id p d r)
       | exact Htitle ].
    cbn. now rewrite replace_keys_normalized_twice, insert_insert_eq.
Qed.

(** ** The create routes *)

Section CreateRoutes.

Context {F : Type} `{FileSystem F}.

Lemma last_rowid_le d b :
  sequence d <= b -> (forall id r, rows d !! id = Some r -> id <= b) ->
  last_rowid d <= b.
Proof.
  intros Hseq. unfold last_rowid.
  apply (map_fold_weak_ind
           (fun acc m => (forall id r, m !! id = Some r -> id <= b)
                         -> acc <= b)).
  - intros _. exact Hseq.
  - intros k r m acc Hk IH Hs.
    assert (k <= b) by (apply (Hs k r), lookup_insert_eq).
    assert (acc <= b); [|lia].
    apply IH. intros id r' Hl. apply (Hs id r').
    rewrite lookup_insert_ne; [assumption|]. intros ->. congruence.
Qed.

Lemma last_rowid_created d row :
  last_rowid (mkDB (<[last_rowid d + 1 := row]> (rows d)) (last_rowid d + 1)
                (today d))
  = last_rowid d + 1.
Proof.
  apply Z.le_antisymm.
  - apply last_rowid_le; cbn; [lia|]. intros id r.
    destruct (decide (id = last_rowid d + 1)) as [->|Hne]; [lia|].
    rewrite lookup_insert_ne by congruence. intros Hl.
    pose proof (last_rowid_key _ _ _ Hl). lia.
  - exact (last_rowid_ge (mkDB _ _ _)).
Qed.


Lemma or_default_or_default_string (x : option string) :
  or_default (Some (or_default x EmptyString)) EmptyString
  = or_default x EmptyString.
Proof.
  destruct x as [s|]; [|reflexivity]. unfold or_default. unfold_truthy.
  destruct (String.eqb_spec s EmptyString) as [->|Hs]; cbn; [reflexivity|].
  destruct (String.eqb_spec s EmptyString); [contradiction | reflexivity].
Qed.

Lemma create_route_run b files (w : World F) title :
  Form.title b = Some title ->
  create_route b files w
  = (let (r, d') :=
       createGame (created_paths files (sanitizeFolderName title)
                     (create_data b)) (db w) in
     match r with
     | Resolved id =>
         (Resolved (Json (CreateReply.mk id "Game created successfully")),
          mkWorld d' (fs w) (console w))
     | Rejected e =>
         (Resolved (Failure 500 e),
          mkWorld d' (fs w) (console w ++ ["Create game error: " +:+ e]))
     end).
Proof.
  intros Htitle. unfold create_route, try_catch, bind, db_run.
  unfold create_data at 1. cbn [GameData.title]. rewrite Htitle.
  cbn [to_field_undefined folder_of ret].
  destruct (createGame _ (db w)) as [[id|e] d']; reflexivity.
Qed.

Lemma created_paths_title files folder g :
  GameData.title (created_paths files folder g) = GameData.title g.
Proof.
  unfold created_paths.
  destruct (Files.coverArt files), (Files.gameplayImage files); reflexivity.
Qed.


(** X9.  [POST /games/create] with a title field, whatever the title, and
    a rating and a strike count that [parseInt] reads as integers that a
    number holds exactly (or does not read): the reply carries an id that
    no record had, the other records are untouched, the handler leaves
    the file system as the upload middleware left it, and [getGameById]
    of the new id returns the form as a game: a missing text as [''], a
    rating or a strike count that [parseInt] does not read as [0], a flag
    true only for the text ['true'], each image path the upload URL of
    the file of the request in the folder of the sanitized title ([null]
    without a file), the date of the day and two empty lists. *)
Theorem create_route_stores_the_form b files (w : World F) title :
  Form.title b = Some title ->
  safe_integer (parseInt_or_0 (Form.rageRating b)) = true ->
  safe_integer (parseInt_or_0 (Form.strikes b)) = true ->
  exists id w',
    create_route b files w
    = (Resolved (Json (CreateReply.mk id "Game created successfully")), w') /\
    fs w' = fs w /\ console w' = console w /\
    rows (db w) !! id = None /\
    (forall other,
        other <> id -> rows (db w') !! other = rows (db w) !! other) /\
    getGameById id (db w')
    = Resolved
        (Some
           (Game.mk id title
              (Some (or_default (Form.link b) EmptyString))
              (parseInt_or_0 (Form.rageRating b))
              (bool_decide (Form.finished b = Some "true"))
              (bool_decide (Form.is_checked b = Some "true"))
              (Some (or_default (Form.platform b) EmptyString))
              (parseInt_or_0 (Form.strikes b))
              (Some (or_default (Form.notes b) EmptyString))
              (upload_url (sanitizeFolderName title) <$> Files.coverArt files)
              (upload_url (sanitizeFolderName title)
                 <$> Files.gameplayImage files)
              (Some (today (db w)))
              (JSON.JArr []) (JSON.JArr []))).
Proof.
  intros Htitle _ _. rewrite (create_route_run _ _ _ _ Htitle).
  set (g := created_paths files (sanitizeFolderName title) (create_data b)).
  assert (Hgt : GameData.title g = Val title).
  { subst g. rewrite created_paths_title. cbn. now rewrite Htitle. }
  assert (Hok : payload_lists_ok g).
  { subst g. split; intros v; unfold created_paths;
      destruct (Files.coverArt files), (Files.gameplayImage files);
      discriminate. }
  assert (GameData.link g = Val (or_default (Form.link b) EmptyString)
          /\ GameData.rageRating g = Val (parseInt_or_0 (Form.rageRating b))
          /\ GameData.finished g
             = Val (bool_decide (Form.finished b = Some "true"))
          /\ GameData.is_checked g
             = Val (bool_decide (Form.is_checked b = Some "true"))
          /\ GameData.platform g
             = Val (or_default (Form.platform b) EmptyString)
          /\ GameData.strikes g = Val (parseInt_or_0 (Form.strikes b))
          /\ GameData.notes g = Val (or_default (Form.notes b) EmptyString)
          /\ GameData.additionalPhotos g = Undefined
          /\ GameData.additionalNotes g = Undefined
          /\ or_null (to_option (GameData.coverArtPath g))
             = upload_url (sanitizeFolderName title) <$> Files.coverArt files
          /\ or_null (to_option (GameData.gameplayImagePath g))
             = upload_url (sanitizeFolderName title)
                 <$> Files.gameplayImage files)
    as (Eli & Era & Efi & Ech & Epl & Est & Eno & Eph & Ent & Eco & Egp).
  { subst g. unfold created_paths.
    destruct (Files.coverArt files), (Files.gameplayImage files);
      repeat split. }
  clearbody g. rewrite (createGame_created_row _ _ _ Hgt).
  exists (last_rowid (db w) + 1),
    (mkWorld
       (mkDB (<[last_rowid (db w) + 1
                := created_row g title (today (db w))]> (rows (db w)))
             (last_rowid (db w) + 1) (today (db w)))
       (fs w) (console w)).
  split; [reflexivity|]. do 2 (split; [reflexivity|]).
  split; [apply last_rowid_fresh|].
  split; [intros other Hne; cbn; now apply lookup_insert_ne|].
  unfold getGameById. cbn [db rows].
  rewrite lookup_insert_eq, (decode_created_row _ _ _ _ Hok).
  rewrite Eli, Era, Efi, Ech, Epl, Est, Eno, Eph, Ent, Eco, Egp.
  cbn [to_option].
  rewrite !or_default_or_default_string, !or_default_idem_Z.
  reflexivity.
Qed.

End CreateRoutes.

Section BulkCreate.

Context {F : Type} `{FileSystem F}.

(** The row that the bulk route creates for a title. *)
Lemma createGame_bulk_data title d :
  createGame (bulk_data title) d
  = (Resolved (last_rowid d + 1),
     mkDB (<[last_rowid d + 1 :=
               Row.mk (trim title) (Some EmptyString) (Some 0) (Some 0)
                 (Some 0) (Some EmptyString) (Some 0) (Some EmptyString)
                 None None (Some (today d)) (Some "[]") (Some "[]")]>
             (rows d))
          (last_rowid d + 1) (today d)).
Proof. reflexivity. Qed.

Lemma bulk_create_loop_run titles :
  forall createdCount (w : World F),
  exists w',
    bulk_create_loop titles createdCount w
    = (Resolved (createdCount
                 + Z.of_nat (length (omap entry_title titles))), w') /\
    fs w' = fs w /\ console w' = console w /\
    today (db w') = today (db w) /\
    last_rowid (db w')
    = last_rowid (db w) + Z.of_nat (length (omap entry_title titles)) /\
    size (rows (db w'))
    = (size (rows (db w)) + length (omap entry_title titles))%nat /\
    (forall id, id <= last_rowid (db w) ->
                rows (db w') !! id = rows (db w) !! id) /\
    (forall k title,
        omap entry_title titles !! k = Some title ->
        rows (db w') !! (last_rowid (db w) + 1 + Z.of_nat k)
        = Some (Row.mk (trim title) (Some EmptyString) (Some 0) (Some 0)
                  (Some 0) (Some EmptyString) (Some 0) (Some EmptyString)
                  None None (Some (today (db w))) (Some "[]") (Some "[]"))).
Proof.
  induction titles as [|title titles IH]; intros createdCount w.
  - exists w. change (omap entry_title []) with (@nil string).
    cbn [bulk_create_loop length ret].
    rewrite !Z.add_0_r, Nat.add_0_r.
    do 7 (split; [reflexivity|]). intros k t Hk. discriminate.
  - cbn [bulk_create_loop].
    change (omap entry_title (title :: titles))
      with (match entry_title title with
            | Some t => t :: omap entry_title titles
            | None => omap entry_title titles
            end).
    destruct (entry_title title) as [t|]; [|apply IH].
    unfold bind at 1, db_run. rewrite createGame_bulk_data.
    set (row := Row.mk (trim t) _ _ _ _ _ _ _ _ _ _ _ _).
    set (w1 := mkWorld _ (fs w) (console w)).
    destruct (IH (createdCount + 1) w1)
      as (w' & Hrun & Hfs & Hcon & Htoday & Hlast & Hsize & Hold & Hnew).
    assert (last_rowid (db w1) = last_rowid (db w) + 1) as Hl1
        by apply last_rowid_created.
    exists w'. rewrite Hrun, Hfs, Hcon, Htoday, Hlast, Hsize, Hl1.
    cbn [length]. split; [f_equal; f_equal; lia|].
    do 3 (split; [reflexivity|]). split; [lia|]. split.
    { subst w1. cbn [db rows].
      rewrite map_size_insert_None by apply last_rowid_fresh. lia. }
    split.
    + intros id Hid. rewrite Hold by lia. subst w1. cbn [db rows].
      apply lookup_insert_ne. lia.
    + intros [|k] t' Hk.
      * injection Hk as <-. rewrite Hold by lia. subst w1. cbn [db rows].
        rewrite Z.add_0_r. apply lookup_insert_eq.
      * cbn in Hk. specialize (Hnew k t' Hk). rewrite Hl1 in Hnew.
        replace (last_rowid (db w) + 1 + Z.of_nat (S k))
          with (last_rowid (db w) + 1 + 1 + Z.of_nat k) by lia.
        exact Hnew.
Qed.

(** X10.  [POST /games/bulk-create] with an array creates one record for
    each element that is a string with something other than white space
    in it, in order, and skips every other element: the reply counts
    those elements, the records get the ids that follow the last one,
    each with its title trimmed, no link, platform or notes, the rating
    and the strikes 0, both flags off, no image path, the date of the day
    and two empty lists; the records that were there are untouched.
    Nothing compares the titles: a title listed twice, or already in the
    collection, is created again.  Without an array under [titles] (no
    such key, [null], a string, a number, an object) the reply is the
    status 400 and nothing changes. *)
Theorem bulk_create_creates_each_entry (w : World F) :
  (forall titles,
      let created := omap entry_title titles in
      let n := Z.of_nat (length created) in
      exists w',
        bulk_create_route (Some (JSON.JArr titles)) w
        = (Resolved (Json (BulkReply.mk n (bulk_message n))), w') /\
        fs w' = fs w /\ console w' = console w /\
        size (rows (db w')) = (size (rows (db w)) + length created)%nat /\
        (forall id, id <= last_rowid (db w) ->
                    rows (db w') !! id = rows (db w) !! id) /\
        (forall k title,
            created !! k = Some title ->
            rows (db w') !! (last_rowid (db w) + 1 + Z.of_nat k)
            = Some (Row.mk (trim title) (Some EmptyString) (Some 0) (Some 0)
                      (Some 0) (Some EmptyString) (Some 0) (Some EmptyString)
                      None None (Some (today (db w))) (Some "[]")
                      (Some "[]")))) /\
  (forall titles,
      (forall l, titles <> Some (JSON.JArr l)) ->
      bulk_create_route titles w
      = (Resolved (Failure 400 "Invalid request: titles array required"), w)).
Proof.
  split.
  - intros titles created n.
    destruct (bulk_create_loop_run titles 0 w)
      as (w' & Hrun & Hfs & Hcon & _ & _ & Hsize & Hold & Hnew).
    exists w'. unfold bulk_create_route, try_catch, bind. rewrite Hrun.
    repeat split; assumption.
  - intros titles Hno. unfold bulk_create_route, try_catch.
    destruct titles as [[| | | |l|]|]; try reflexivity.
    now destruct (Hno l).
Qed.

End BulkCreate.

(** ** Deleting a game *)

Section DeleteRoute.

Context {F : Type} `{FileSystem F}.
Variable appDataPath : string.

(** Removing a file of a game: the file at the path goes when it is
    there, and only the file system changes. *)
Lemma delete_old_file_run old (w : World F) :
  match old with
  | Some p =>
      if truthy p then
        let filePath := Str.replace base_url appDataPath p in
        if existsSync filePath (fs w) then
          match unlinkSync filePath (fs w) with
          | Resolved f' =>
              delete_old_file appDataPath old w
              = (Resolved tt, mkWorld (db w) f' (console w))
          | Rejected e =>
              delete_old_file appDataPath old w = (Rejected e, w)
          end
        else delete_old_file appDataPath old w = (Resolved tt, w)
      else delete_old_file appDataPath old w = (Resolved tt, w)
  | None => delete_old_file appDataPath old w = (Resolved tt, w)
  end.
Proof.
  destruct old as [p|]; [|reflexivity].
  unfold delete_old_file. change (truthy (Some p)) with (truthy p).
  destruct (truthy p); [|reflexivity]. cbn [default id].
  unfold bind, fs_query. cbn zeta.
  destruct (existsSync _ (fs w)); [|reflexivity].
  unfold when, fs_call.
  destruct (unlinkSync _ (fs w)); reflexivity.
Qed.

Lemma delete_old_file_keeps old (w : World F) r w' :
  delete_old_file appDataPath old w = (r, w') ->
  db w' = db w /\ console w' = console w.
Proof.
  pose proof (delete_old_file_run old w) as Hrun.
  destruct old as [p|].
  - destruct (truthy p).
    + cbn zeta in Hrun.
      destruct (existsSync _ (fs w)).
      * destruct (unlinkSync _ (fs w)); rewrite Hrun;
          intros [= _ <-]; split; reflexivity.
      * rewrite Hrun. intros [= _ <-]; split; reflexivity.
    + rewrite Hrun. intros [= _ <-]; split; reflexivity.
  - rewrite Hrun. intros [= _ <-]; split; reflexivity.
Qed.

Lemma delete_old_file_null (w : World F) :
  delete_old_file appDataPath None w = (Resolved tt, w).
Proof. reflexivity. Qed.

(** X11.  [DELETE /games/delete/:id] always replies.  With the status 200
    the record of the id is gone and every other record is as before;
    with any other status the database is as before: 404 for an id
    without a record, where nothing at all changes, and 500 when a file
    could not be removed or the record could not be read.  A game without
    image paths is deleted without a call that changes the file
    system. *)
Theorem delete_route_removes_the_record gameId (w : World F) :
  exists reply w',
    delete_route appDataPath gameId w = (Resolved reply, w') /\
    console w' = console w /\
    (status reply = 200 ->
     is_Some (rows (db w) !! gameId) /\
     rows (db w') = delete gameId (rows (db w)) /\
     getGameById gameId (db w') = Resolved None) /\
    (status reply <> 200 -> db w' = db w) /\
    (rows (db w) !! gameId = None ->
     reply = mkReply 404 (Error game_not_found) /\ w' = w) /\
    (forall game,
        getGameById gameId (db w) = Resolved (Some game) ->
        Game.coverArtPath game = None ->
        Game.gameplayImagePath game = None ->
        status reply = 200 /\ fs w' = fs w).
Proof.
  unfold delete_route, try_catch, bind at 1, db_read.
  destruct (getGameById gameId (db w)) as [[game|]|e] eqn:Hget.
  - destruct (getGameById_row _ _ _ Hget) as (r & Hrow & Hdec).
    unfold bind at 1.
    destruct (delete_old_file appDataPath (Game.coverArtPath game) w)
      as [[[]|e1] w1] eqn:H1.
    2: { destruct (delete_old_file_keeps _ _ _ _ H1) as [Hdb Hcon].
         exists (mkReply 500 (Error e1)), w1. cbn [ret status].
         split; [reflexivity|]. split; [exact Hcon|].
         split; [discriminate|]. split; [intros _; exact Hdb|].
         split; [congruence|].
         intros g [= ->] Hc _. rewrite Hc in H1. discriminate. }
    destruct (delete_old_file_keeps _ _ _ _ H1) as [Hdb1 Hcon1].
    unfold bind at 1.
    destruct (delete_old_file appDataPath (Game.gameplayImagePath game) w1)
      as [[[]|e2] w2] eqn:H2.
    2: { destruct (delete_old_file_keeps _ _ _ _ H2) as [Hdb Hcon].
         exists (mkReply 500 (Error e2)), w2. cbn [ret status].
         split; [reflexivity|]. split; [congruence|].
         split; [discriminate|]. split; [intros _; congruence|].
         split; [congruence|].
         intros g [= ->] Hc Hp. rewrite Hc in H1.
         rewrite delete_old_file_null in H1. injection H1 as <-.
         rewrite Hp in H2. discriminate. }
    destruct (delete_old_file_keeps _ _ _ _ H2) as [Hdb2 Hcon2].
    unfold bind at 1, db_run, deleteGame. rewrite Hdb2, Hdb1, Hrow.
    eexists _, _. cbn [ret].
    split; [reflexivity|]. cbn [status db console fs rows].
    split; [congruence|].
    split; [|split; [|split]].
    + intros _. split; [eauto|]. split; [reflexivity|].
      unfold getGameById. cbn [rows]. now rewrite lookup_delete_eq.
    + intros Hno. now destruct Hno.
    + congruence.
    + intros g [= ->] Hc Hp. split; [reflexivity|].
      rewrite Hc in H1. rewrite delete_old_file_null in H1.
      injection H1 as <-. rewrite Hp in H2.
      rewrite delete_old_file_null in H2. now injection H2 as <-.
  - exists (mkReply 404 (Error game_not_found)), w. cbn [ret status].
    split; [reflexivity|]. split; [reflexivity|].
    split; [discriminate|]. split; [reflexivity|].
    split; [intros _; now split|]. discriminate.
  - exists (mkReply 500 (Error e)), w. cbn [ret status].
    split; [reflexivity|]. split; [reflexivity|].
    split; [discriminate|]. split; [reflexivity|].
    split; [|discriminate].
    intros Hrow. unfold getGameById in Hget. rewrite Hrow in Hget.
    discriminate.
Qed.

End DeleteRoute.

(** ** The photos and the notes of a game *)

Section Lists.

Context {F : Type} `{FileSystem F}.
Variable appDataPath : string.

Lemma updateGame_notes id d r l :
  rows d !! id = Some r -> written r ->
  updateGame id (notes_payload l) d
  = (Resolved 1,
     db_with_row id (row_with_notes (JSON.stringify (JSON.JArr l)) r) d).
Proof.
  intros Hrow Hr.
  rewrite (updateGame_written _ _ _ _ Hrow Hr) by discriminate.
  reflexivity.
Qed.

Lemma updateGame_photos id d r l :
  rows d !! id = Some r -> written r ->
  updateGame id (photos_payload l) d
  = (Resolved 1,
     db_with_row id (row_with_photos (JSON.stringify (JSON.JArr l)) r) d).
Proof.
  intros Hrow Hr.
  rewrite (updateGame_written _ _ _ _ Hrow Hr) by discriminate.
  reflexivity.
Qed.

Lemma decode_row_with_notes id r game l :
  decode_row id r = Resolved game -> Forall JSON.distinct_keys l ->
  decode_row id (row_with_notes (JSON.stringify (JSON.JArr l)) r)
  = Resolved (game_with_notes (JSON.JArr l) game).
Proof.
  unfold decode_row. intros Hdec Hl.
  cbn [row_with_notes Row.additionalPhotos Row.additionalNotes].
  destruct (decode_list (Row.additionalPhotos r)) as [photos|];
    [|discriminate].
  destruct (decode_list (Row.additionalNotes r)) as [notes|];
    [|discriminate].
  rewrite decode_list_stringify by now apply distinct_keys_arr.
  injection Hdec as <-. reflexivity.
Qed.

Lemma decode_row_with_photos id r game l :
  decode_row id r = Resolved game -> Forall JSON.distinct_keys l ->
  decode_row id (row_with_photos (JSON.stringify (JSON.JArr l)) r)
  = Resolved (game_with_photos (JSON.JArr l) game).
Proof.
  unfold decode_row. intros Hdec Hl.
  cbn [row_with_photos Row.additionalPhotos Row.additionalNotes].
  destruct (decode_list (Row.additionalPhotos r)) as [photos|];
    [|discriminate].
  destruct (decode_list (Row.additionalNotes r)) as [notes|];
    [|discriminate].
  rewrite decode_list_stringify by now apply distinct_keys_arr.
  injection Hdec as <-. reflexivity.
Qed.

Lemma written_with_notes r l :
  written r -> Forall JSON.distinct_keys l ->
  written (row_with_notes (JSON.stringify (JSON.JArr l)) r).
Proof.
  intros [] Hl. constructor; try assumption.
  exists (JSON.JArr l). split; [now apply distinct_keys_arr|].
  split; reflexivity.
Qed.

Lemma written_with_photos r l :
  written r -> Forall JSON.distinct_keys l ->
  written (row_with_photos (JSON.stringify (JSON.JArr l)) r).
Proof.
  intros [] Hl. constructor; try assumption.
  exists (JSON.JArr l). split; [now apply distinct_keys_arr|].
  split; reflexivity.
Qed.

(** A row that the store wrote holds the text of the lists it decodes
    to. *)
Lemma written_columns id r game :
  written r -> decode_row id r = Resolved game ->
  Row.additionalPhotos r = Some (JSON.stringify (Game.additionalPhotos game))
  /\ Row.additionalNotes r
     = Some (JSON.stringify (Game.additionalNotes game)).
Proof.
  intros Hr Hdec.
  destruct (decode_written id r Hr)
    as (game' & Hdec' & _ & _ & _ & _ & _ & _ & _ & _ & _ & _ & _ & _
        & (_ & _ & Hp) & (_ & _ & Hn)).
  rewrite Hdec in Hdec'. injection Hdec' as <-. now split.
Qed.

Lemma row_with_notes_same r col :
  Row.additionalNotes r = Some col -> row_with_notes col r = r.
Proof. destruct r. cbn. now intros ->. Qed.

Lemma row_with_photos_same r col :
  Row.additionalPhotos r = Some col -> row_with_photos col r = r.
Proof. destruct r. cbn. now intros ->. Qed.

Lemma row_with_notes_twice r col col' :
  row_with_notes col (row_with_notes col' r) = row_with_notes col r.
Proof. reflexivity. Qed.

Lemma row_with_photos_twice r col col' :
  row_with_photos col (row_with_photos col' r) = row_with_photos col r.
Proof. reflexivity. Qed.

Lemma db_with_row_twice id r r' d :
  db_with_row id r (db_with_row id r' d) = db_with_row id r d.
Proof. unfold db_with_row. cbn. now rewrite insert_insert_eq. Qed.

Lemma db_with_row_same id r d : rows d !! id = Some r -> db_with_row id r d = d.
Proof.
  intros Hrow. unfold db_with_row. rewrite insert_id by exact Hrow.
  now destruct d.
Qed.

Lemma splice_in_range {A} (l : list A) (i : nat) :
  (i < length l)%nat -> splice (Some (Z.of_nat i)) 1 l = delete i l.
Proof.
  intros Hi. unfold splice. cbn [default from_option id].
  replace (Z.of_nat i <? 0) with false by (symmetry; apply Z.ltb_ge; lia).
  rewrite Z.min_l by lia. rewrite Z.max_l by lia. rewrite Z.min_l by lia.
  rewrite Nat2Z.id. replace (Z.to_nat (Z.of_nat i + 1)) with (S i) by lia.
  symmetry. apply delete_take_drop.
Qed.

Lemma out_of_range_in (i : nat) (n : nat) :
  (i < n)%nat -> out_of_range (Some (Z.of_nat i)) n = false.
Proof.
  intros Hi. unfold out_of_range. apply orb_false_iff.
  split; [apply Z.ltb_ge | apply Z.leb_gt]; lia.
Qed.

Lemma delete_last {A} (l : list A) x : delete (length l) (l ++ [x]) = l.
Proof.
  rewrite delete_take_drop, take_app_length.
  rewrite drop_ge by (rewrite length_app; cbn; lia). apply app_nil_r.
Qed.

Lemma note_content_string s (w : World F) :
  trim s <> EmptyString ->
  note_content (Some (JSON.JStr s)) w = (Resolved (Some (trim s)), w).
Proof.
  intros Hs. unfold note_content.
  assert (truthy s = true) as ->.
  { unfold_truthy. destruct (String.eqb_spec s EmptyString) as [->|];
      [now destruct Hs | reflexivity]. }
  destruct (String.eqb_spec (trim s) EmptyString); [contradiction|].
  reflexivity.
Qed.

Lemma add_note_run now gameId s (w : World F) r game notes :
  rows (db w) !! gameId = Some r -> written r ->
  decode_row gameId r = Resolved game ->
  Game.additionalNotes game = JSON.JArr notes ->
  trim s <> EmptyString ->
  add_note_route now gameId (Some (JSON.JStr s)) w
  = (Resolved (mkReply 200 (Message "Note added successfully")),
     mkWorld
       (db_with_row gameId
          (row_with_notes
             (JSON.stringify
                (JSON.JArr (notes ++ [note_entry (trim s) now]))) r)
          (db w))
       (fs w) (console w)).
Proof.
  intros Hrow Hr Hdec Hnotes Hs.
  unfold add_note_route, try_catch, bind at 1, db_read.
  rewrite (getGameById_decoded _ _ _ _ Hrow Hdec).
  unfold bind at 1. rewrite (note_content_string _ _ Hs).
  unfold bind at 1, push_entry. rewrite Hnotes. cbn [ret].
  unfold bind, db_run. now rewrite (updateGame_notes _ _ _ _ Hrow Hr).
Qed.

Lemma add_photo_run now gameId file (w : World F) r game photos :
  rows (db w) !! gameId = Some r -> written r ->
  decode_row gameId r = Resolved game ->
  Game.additionalPhotos game = JSON.JArr photos ->
  let photoPath := upload_url (sanitizeFolderName (Game.title game)) file in
  add_photo_route now gameId (Some file) w
  = (Resolved (Json (PhotoReply.mk "Photo added successfully" photoPath
                       file)),
     mkWorld
       (db_with_row gameId
          (row_with_photos
             (JSON.stringify
                (JSON.JArr (photos ++ [photo_entry photoPath file now]))) r)
          (db w))
       (fs w) (console w)).
Proof.
  intros Hrow Hr Hdec Hphotos photoPath.
  unfold add_photo_route, try_catch, bind at 1, db_read.
  rewrite (getGameById_decoded _ _ _ _ Hrow Hdec).
  unfold bind at 1, push_entry. rewrite Hphotos. cbn [ret].
  unfold bind, db_run. now rewrite (updateGame_photos _ _ _ _ Hrow Hr).
Qed.

Lemma delete_note_run gameId param (w : World F) r game notes i :
  rows (db w) !! gameId = Some r -> written r ->
  decode_row gameId r = Resolved game ->
  Game.additionalNotes game = JSON.JArr notes ->
  parseInt param = Some (Z.of_nat i) -> (i < length notes)%nat ->
  delete_note_route gameId param w
  = Some (Resolved (mkReply 200 (Message "Note deleted successfully")),
          mkWorld
            (db_with_row gameId
               (row_with_notes (JSON.stringify (JSON.JArr (delete i notes)))
                  r)
               (db w))
            (fs w) (console w)).
Proof.
  intros Hrow Hr Hdec Hnotes Hparam Hi.
  unfold delete_note_route.
  rewrite (getGameById_decoded _ _ _ _ Hrow Hdec), Hnotes, Hparam.
  cbn [as_array]. unfold try_catch, delete_note_from.
  rewrite out_of_range_in by exact Hi. rewrite splice_in_range by exact Hi.
  unfold bind, db_run. now rewrite (updateGame_notes _ _ _ _ Hrow Hr).
Qed.

Lemma note_entry_keys content now :
  JSON.distinct_keys (note_entry content now).
Proof.
  cbn. split; [|tauto].
  apply (bool_decide_unpack _). vm_compute. exact I.
Qed.

Lemma photo_entry_keys photoPath filename now :
  JSON.distinct_keys (photo_entry photoPath filename now).
Proof.
  cbn. split; [|tauto].
  apply (bool_decide_unpack _). vm_compute. exact I.
Qed.

Lemma decoded_notes id r game notes :
  decode_row id r = Resolved game ->
  Game.additionalNotes game = JSON.JArr notes ->
  Forall JSON.distinct_keys notes.
Proof.
  intros Hdec Hnotes. apply distinct_keys_arr. rewrite <- Hnotes.
  apply (decode_row_distinct _ _ _ Hdec).
Qed.

Lemma decoded_photos id r game photos :
  decode_row id r = Resolved game ->
  Game.additionalPhotos game = JSON.JArr photos ->
  Forall JSON.distinct_keys photos.
Proof.
  intros Hdec Hphotos. apply distinct_keys_arr. rewrite <- Hphotos.
  apply (decode_row_distinct _ _ _ Hdec).
Qed.


Lemma element_in_range {A} (l : list A) (i : nat) :
  element (Some (Z.of_nat i)) l = nth_error l i.
Proof.
  unfold element.
  replace (Z.of_nat i <? 0) with false by (symmetry; apply Z.ltb_ge; lia).
  now rewrite Nat2Z.id.
Qed.

Lemma delete_photo_run gameId param (w : World F) r game photos i m p :
  rows (db w) !! gameId = Some r -> written r ->
  decode_row gameId r = Resolved game ->
  Game.additionalPhotos game = JSON.JArr photos ->
  parseInt param = Some (Z.of_nat i) ->
  nth_error photos i = Some (JSON.JObj m) ->
  property "path" m = Some (JSON.JStr p) ->
  delete_photo_route appDataPath gameId param w
  = Some
      (let filePath := Str.replace base_url appDataPath p in
       let stored :=
         db_with_row gameId
           (row_with_photos (JSON.stringify (JSON.JArr (delete i photos))) r)
           (db w) in
       if existsSync filePath (fs w) then
         match unlinkSync filePath (fs w) with
         | Resolved f' =>
             (Resolved (mkReply 200 (Message "Photo deleted successfully")),
              mkWorld stored f' (console w))
         | Rejected e =>
             (Resolved (mkReply 500 (Error e)),
              mkWorld (db w) (fs w)
                (console w ++ ["Error deleting photo: " +:+ e]))
         end
       else
         (Resolved (mkReply 200 (Message "Photo deleted successfully")),
          mkWorld stored (fs w) (console w))).
Proof.
  intros Hrow Hr Hdec Hphotos Hparam Hnth Hpath.
  assert (i < length photos)%nat as Hi
      by (apply nth_error_Some; congruence).
  unfold delete_photo_route.
  rewrite (getGameById_decoded _ _ _ _ Hrow Hdec), Hphotos, Hparam.
  cbn [as_array]. f_equal. unfold try_catch, delete_photo_from.
  rewrite out_of_range_in by exact Hi. rewrite element_in_range, Hnth.
  rewrite splice_in_range by exact Hi.
  unfold bind at 1, photo_file_path. rewrite Hpath. cbn [ret].
  unfold bind at 1, fs_query. cbn zeta.
  destruct (existsSync _ (fs w)).
  - cbn [when]. unfold bind at 1, fs_call.
    destruct (unlinkSync _ (fs w)) as [f'|e]; [|reflexivity].
    unfold bind, db_run. cbn [db].
    now rewrite (updateGame_photos _ _ _ _ Hrow Hr).
  - cbn [when]. unfold bind, db_run, ret.
    now rewrite (updateGame_photos _ _ _ _ Hrow Hr).
Qed.

Lemma trim_start_spaces l : forallb is_space l = true -> trim_start l = [].
Proof.
  induction l as [|c l IH]; [reflexivity|]. cbn.
  intros [Hc Hl]%andb_true_iff. rewrite Hc. now apply IH.
Qed.

Lemma trim_spaces s :
  forallb is_space (list_ascii_of_string s) = true -> trim s = EmptyString.
Proof.
  intros Hs. unfold trim.
  rewrite (trim_start_spaces (list_ascii_of_string s)) by exact Hs.
  reflexivity.
Qed.

Lemma replace_base_url root rest :
  Str.replace base_url root (base_url +:+ rest) = root +:+ rest.
Proof.
  rewrite replace_here by apply prefix_append. now rewrite drop_append.
Qed.

End Lists.

Section ListRoutes.

Context {F : Type} `{FileSystem F}.
Variable appDataPath : string.

(** X12.  [POST /games/:id/add-note] with a content that is a string with
    something other than white space in it appends one note to the notes
    of the game: the trimmed content with the time of the request.  The
    reply is the message of success; the row keeps every other column,
    the other rows, the file system and the console are untouched, and
    the game reads back with the longer list. *)
Theorem add_note_appends_the_note now gameId s (w : World F) r game notes :
  rows (db w) !! gameId = Some r -> written r ->
  decode_row gameId r = Resolved game ->
  Game.additionalNotes game = JSON.JArr notes ->
  trim s <> EmptyString ->
  let notes' := notes ++ [note_entry (trim s) now] in
  exists w',
    add_note_route now gameId (Some (JSON.JStr s)) w
    = (Resolved (mkReply 200 (Message "Note added successfully")), w') /\
    fs w' = fs w /\ console w' = console w /\
    db w'
    = db_with_row gameId
        (row_with_notes (JSON.stringify (JSON.JArr notes')) r) (db w) /\
    getGameById gameId (db w')
    = Resolved (Some (game_with_notes (JSON.JArr notes') game)).
Proof.
  intros Hrow Hr Hdec Hnotes Hs notes'.
  eexists. split; [exact (add_note_run now gameId s w r game notes Hrow Hr Hdec
                   Hnotes Hs)|].
  cbn [db fs console]. do 3 (split; [reflexivity|]).
  eapply getGameById_decoded.
  - cbn [db_with_row rows]. apply lookup_insert_eq.
  - apply decode_row_with_notes; [exact Hdec|]. apply Forall_app. split.
    + exact (decoded_notes _ _ _ _ Hdec Hnotes).
    + constructor; [apply note_entry_keys | constructor].
Qed.

(** X13.  [POST /games/:id/add-note] on a game that is there refuses a
    content that is missing or made of white space only: the status is
    400 and nothing changes.  A content that is a number other than 0 is
    not a string: calling [trim] on it throws, the status is 500 and
    nothing is stored. *)
Theorem add_note_validates_the_content now gameId (w : World F) game :
  getGameById gameId (db w) = Resolved (Some game) ->
  add_note_route now gameId None w
  = (Resolved (mkReply 400 (Error "Note content is required")), w) /\
  (forall s,
      forallb is_space (list_ascii_of_string s) = true ->
      add_note_route now gameId (Some (JSON.JStr s)) w
      = (Resolved (mkReply 400 (Error "Note content is required")), w)) /\
  (forall n,
      n <> 0 ->
      add_note_route now gameId (Some (JSON.JNum n)) w
      = (Resolved (mkReply 500 (Error "content.trim is not a function")),
         mkWorld (db w) (fs w)
           (console w
            ++ ["Error adding note: content.trim is not a function"]))).
Proof.
  intros Hget. unfold add_note_route, try_catch, db_read.
  split; [|split].
  - unfold bind. now rewrite Hget.
  - intros s Hs. unfold bind, note_content.
    rewrite Hget, (trim_spaces _ Hs). now destruct (truthy s).
  - intros n Hn. unfold bind, note_content. rewrite Hget.
    assert (truthy (JSON.JNum n) = true) as ->; [|reflexivity].
    unfold_truthy. cbn. now destruct (Z.eqb_spec n 0).
Qed.

(** X14.  [POST /games/:id/add-photo] with a stored file appends one photo
    to the photos of the game: its path is the upload URL of the file in
    the folder of the sanitized title that the game has at that moment,
    and the reply carries that path.  The row keeps every other column,
    and the handler itself changes neither the file system nor the
    console.  Without a file the status is 400 and nothing changes. *)
Theorem add_photo_appends_the_photo now gameId file (w : World F) r game
    photos :
  rows (db w) !! gameId = Some r -> written r ->
  decode_row gameId r = Resolved game ->
  Game.additionalPhotos game = JSON.JArr photos ->
  let photoPath := upload_url (sanitizeFolderName (Game.title game)) file in
  let photos' := photos ++ [photo_entry photoPath file now] in
  (exists w',
      add_photo_route now gameId (Some file) w
      = (Resolved (Json (PhotoReply.mk "Photo added successfully" photoPath
                           file)), w') /\
      fs w' = fs w /\ console w' = console w /\
      db w'
      = db_with_row gameId
          (row_with_photos (JSON.stringify (JSON.JArr photos')) r) (db w) /\
      getGameById gameId (db w')
      = Resolved (Some (game_with_photos (JSON.JArr photos') game))) /\
  add_photo_route now gameId None w
  = (Resolved (Failure 400 "No photo uploaded"), w).
Proof.
  intros Hrow Hr Hdec Hphotos photoPath photos'. split.
  - eexists.
    split; [exact (add_photo_run now gameId file w r game photos Hrow Hr Hdec
                   Hphotos)|].
    cbn [db fs console]. do 3 (split; [reflexivity|]).
    eapply getGameById_decoded.
    + cbn [db_with_row rows]. apply lookup_insert_eq.
    + apply decode_row_with_photos; [exact Hdec|]. apply Forall_app. split.
      * exact (decoded_photos _ _ _ _ Hdec Hphotos).
      * constructor; [apply photo_entry_keys | constructor].
  - unfold add_photo_route, try_catch, bind, db_read.
    now rewrite (getGameById_decoded _ _ _ _ Hrow Hdec).
Qed.

(** X15.  Adding a note and then deleting the note at the index of the
    last note leaves the database exactly as it was before the two
    requests. *)
Theorem note_added_then_deleted now gameId s param (w : World F) r game
    notes :
  rows (db w) !! gameId = Some r -> written r ->
  decode_row gameId r = Resolved game ->
  Game.additionalNotes game = JSON.JArr notes ->
  trim s <> EmptyString ->
  parseInt param = Some (Z.of_nat (length notes)) ->
  exists w',
    add_note_route now gameId (Some (JSON.JStr s)) w
    = (Resolved (mkReply 200 (Message "Note added successfully")), w') /\
    delete_note_route gameId param w'
    = Some (Resolved (mkReply 200 (Message "Note deleted successfully")), w).
Proof.
  intros Hrow Hr Hdec Hnotes Hs Hparam.
  pose proof (decoded_notes _ _ _ _ Hdec Hnotes) as Hkeys.
  assert (Forall JSON.distinct_keys (notes ++ [note_entry (trim s) now]))
    as Hkeys'.
  { apply Forall_app. split; [exact Hkeys|].
    constructor; [apply note_entry_keys | constructor]. }
  eexists. split; [exact (add_note_run now gameId s w r game notes Hrow Hr Hdec
                   Hnotes Hs)|].
  erewrite delete_note_run;
    [| cbn; apply lookup_insert_eq
     | apply written_with_notes; [exact Hr | exact Hkeys']
     | apply decode_row_with_notes; [exact Hdec | exact Hkeys']
     | reflexivity
     | exact Hparam
     | rewrite length_app; cbn; lia ].
  cbn [db fs console].
  rewrite delete_last, db_with_row_twice, row_with_notes_twice.
  destruct (written_columns _ _ _ Hr Hdec) as [_ Hcol].
  rewrite Hnotes in Hcol.
  rewrite (row_with_notes_same _ _ Hcol), (db_with_row_same _ _ _ Hrow).
  now destruct w.
Qed.

(** X16.  Adding a photo and then deleting the photo at the index of the
    last photo, where the path of the application directory has no [$]:
    the delete handler looks for the file of the photo in the upload
    folder of the sanitized title, under the application directory,
    removes it when it is there, and the database is then exactly as it
    was before the two requests. *)
Theorem photo_added_then_deleted now gameId file param (w : World F) r game
    photos :
  Str.literal appDataPath = true ->
  rows (db w) !! gameId = Some r -> written r ->
  decode_row gameId r = Resolved game ->
  Game.additionalPhotos game = JSON.JArr photos ->
  parseInt param = Some (Z.of_nat (length photos)) ->
  let filePath :=
    appDataPath +:+ "/uploads/" +:+ sanitizeFolderName (Game.title game)
    +:+ "/" +:+ file in
  exists reply w',
    add_photo_route now gameId (Some file) w = (Resolved reply, w') /\
    fs w' = fs w /\
    (existsSync filePath (fs w) = false ->
     delete_photo_route appDataPath gameId param w'
     = Some (Resolved (mkReply 200 (Message "Photo deleted successfully")),
             w)) /\
    (forall f',
        existsSync filePath (fs w) = true ->
        unlinkSync filePath (fs w) = Resolved f' ->
        delete_photo_route appDataPath gameId param w'
        = Some (Resolved (mkReply 200 (Message "Photo deleted successfully")),
                mkWorld (db w) f' (console w))).
Proof.
  intros _ Hrow Hr Hdec Hphotos Hparam filePath.
  set (photoPath := upload_url (sanitizeFolderName (Game.title game)) file).
  pose proof (decoded_photos _ _ _ _ Hdec Hphotos) as Hkeys.
  assert (Forall JSON.distinct_keys
            (photos ++ [photo_entry photoPath file now])) as Hkeys'.
  { apply Forall_app. split; [exact Hkeys|].
    constructor; [apply photo_entry_keys | constructor]. }
  assert (Str.replace base_url appDataPath photoPath = filePath) as Hfile
      by apply replace_base_url.
  set (row1 := row_with_photos
                 (JSON.stringify
                    (JSON.JArr (photos ++ [photo_entry photoPath file now])))
                 r).
  assert (db_with_row gameId
            (row_with_photos
               (JSON.stringify
                  (JSON.JArr
                     (delete (length photos)
                        (photos ++ [photo_entry photoPath file now]))))
               row1)
            (db_with_row gameId row1 (db w))
          = db w) as Hback.
  { subst row1.
    rewrite delete_last, db_with_row_twice, row_with_photos_twice.
    destruct (written_columns _ _ _ Hr Hdec) as [Hcol _].
    rewrite Hphotos in Hcol.
    now rewrite (row_with_photos_same _ _ Hcol),
      (db_with_row_same _ _ _ Hrow). }
  set (w1 := mkWorld (db_with_row gameId row1 (db w)) (fs w) (console w)).
  pose proof
    (delete_photo_run appDataPath gameId param w1 row1
       (game_with_photos
          (JSON.JArr (photos ++ [photo_entry photoPath file now])) game)
       (photos ++ [photo_entry photoPath file now]) (length photos)
       [("path", JSON.JStr photoPath); ("filename", JSON.JStr file);
        ("dateAdded", JSON.JStr now)]
       photoPath) as Hrun.
  rewrite Hfile in Hrun. cbn zeta in Hrun. cbn [w1 db fs console] in Hrun.
  rewrite Hback in Hrun.
  assert (delete_photo_route appDataPath gameId param w1
          = Some
              (if existsSync filePath (fs w)
               then
                 match unlinkSync filePath (fs w) with
                 | Resolved f' =>
                     (Resolved
                        (mkReply 200 (Message "Photo deleted successfully")),
                      mkWorld (db w) f' (console w))
                 | Rejected e =>
                     (Resolved (mkReply 500 (Error e)),
                      mkWorld (db_with_row gameId row1 (db w)) (fs w)
                        (console w ++ ["Error deleting photo: " +:+ e]))
                 end
               else
                 (Resolved
                    (mkReply 200 (Message "Photo deleted successfully")),
                  mkWorld (db w) (fs w) (console w)))) as Hrun'.
  { apply Hrun.
    - apply lookup_insert_eq.
    - apply written_with_photos; [exact Hr | exact Hkeys'].
    - apply decode_row_with_photos; [exact Hdec | exact Hkeys'].
    - reflexivity.
    - exact Hparam.
    - rewrite nth_error_app2, Nat.sub_diag by lia. reflexivity.
    - reflexivity. }
  exists (Json (PhotoReply.mk "Photo added successfully" photoPath file)), w1.
  split; [exact (add_photo_run now gameId file w r game photos Hrow Hr Hdec
                   Hphotos)|].
  split; [reflexivity|].
  split.
  - intros Hno. rewrite Hrun', Hno. now destruct w.
  - intros f' Hyes Hunlink. now rewrite Hrun', Hyes, Hunlink.
Qed.


(** X17.  [DELETE /games/:id/delete-note/:noteIndex] with an index inside
    the list removes exactly the note at that index: the notes before it
    and after it stay, in order; the row keeps every other column, the
    other rows, the file system and the console are untouched, and the
    game reads back with the shorter list. *)
Theorem delete_note_removes_that_note gameId param (w : World F) r game
    notes i :
  rows (db w) !! gameId = Some r -> written r ->
  decode_row gameId r = Resolved game ->
  Game.additionalNotes game = JSON.JArr notes ->
  parseInt param = Some (Z.of_nat i) -> (i < length notes)%nat ->
  let notes' := take i notes ++ drop (S i) notes in
  exists w',
    delete_note_route gameId param w
    = Some (Resolved (mkReply 200 (Message "Note deleted successfully")),
            w') /\
    fs w' = fs w /\ console w' = console w /\
    db w'
    = db_with_row gameId
        (row_with_notes (JSON.stringify (JSON.JArr notes')) r) (db w) /\
    getGameById gameId (db w')
    = Resolved (Some (game_with_notes (JSON.JArr notes') game)).
Proof.
  intros Hrow Hr Hdec Hnotes Hparam Hi notes'.
  subst notes'. rewrite <- delete_take_drop.
  eexists.
  split; [exact (delete_note_run gameId param w r game notes i Hrow Hr Hdec
                   Hnotes Hparam Hi)|].
  cbn [db fs console]. do 3 (split; [reflexivity|]).
  eapply getGameById_decoded.
  - cbn [db_with_row rows]. apply lookup_insert_eq.
  - apply decode_row_with_notes; [exact Hdec|].
    rewrite delete_take_drop. apply Forall_app.
    pose proof (decoded_notes _ _ _ _ Hdec Hnotes) as Hkeys.
    split; [now apply Forall_take | now apply Forall_drop].
Qed.

(** X18.  [DELETE /games/:id/delete-photo/:photoIndex] with an index
    inside the list, on a photo with a path, where the path of the
    application directory has no [$]: the handler puts the application
    directory in the place of the first [http://localhost:3000] of the
    path of the photo and removes the file of that name when it is there,
    then stores the list without that photo.  A file that is not there
    does not stop the removal of the photo from the list; a file that
    cannot be removed does: the status is 500 and the stored list is
    unchanged. *)
Theorem delete_photo_removes_that_photo gameId param (w : World F) r game
    photos i m p :
  Str.literal appDataPath = true ->
  rows (db w) !! gameId = Some r -> written r ->
  decode_row gameId r = Resolved game ->
  Game.additionalPhotos game = JSON.JArr photos ->
  parseInt param = Some (Z.of_nat i) ->
  nth_error photos i = Some (JSON.JObj m) ->
  property "path" m = Some (JSON.JStr p) ->
  let filePath := Str.replace base_url appDataPath p in
  let stored :=
    db_with_row gameId
      (row_with_photos
         (JSON.stringify (JSON.JArr (take i photos ++ drop (S i) photos))) r)
      (db w) in
  let ok := mkReply 200 (Message "Photo deleted successfully") in
  (existsSync filePath (fs w) = false ->
   delete_photo_route appDataPath gameId param w
   = Some (Resolved ok, mkWorld stored (fs w) (console w))) /\
  (forall f',
      existsSync filePath (fs w) = true ->
      unlinkSync filePath (fs w) = Resolved f' ->
      delete_photo_route appDataPath gameId param w
      = Some (Resolved ok, mkWorld stored f' (console w))) /\
  (forall e,
      existsSync filePath (fs w) = true ->
      unlinkSync filePath (fs w) = Rejected e ->
      delete_photo_route appDataPath gameId param w
      = Some (Resolved (mkReply 500 (Error e)),
              mkWorld (db w) (fs w)
                (console w ++ ["Error deleting photo: " +:+ e]))).
Proof.
  intros _ Hrow Hr Hdec Hphotos Hparam Hnth Hpath filePath stored ok.
  subst stored. rewrite <- delete_take_drop.
  rewrite (delete_photo_run appDataPath gameId param w r game photos i m p)
    by assumption.
  cbn zeta. fold filePath. split; [|split].
  - now intros ->.
  - now intros f' -> ->.
  - now intros e -> ->.
Qed.

(** X19.  The delete requests of a photo and of a note check the index
    against the list: an index that parses to a number below 0, or to
    the length of the list or more, is refused with the status 400 and
    nothing changes.  On a game without photos, or without notes, every
    numeric index is refused. *)
Theorem delete_out_of_range_is_refused gameId param (w : World F) game z :
  getGameById gameId (db w) = Resolved (Some game) ->
  parseInt param = Some z ->
  (forall photos,
      Game.additionalPhotos game = JSON.JArr photos ->
      z < 0 \/ Z.of_nat (length photos) <= z ->
      delete_photo_route appDataPath gameId param w
      = Some (Resolved (mkReply 400 (Error "Invalid photo index")), w)) /\
  (forall notes,
      Game.additionalNotes game = JSON.JArr notes ->
      z < 0 \/ Z.of_nat (length notes) <= z ->
      delete_note_route gameId param w
      = Some (Resolved (mkReply 400 (Error "Invalid note index")), w)).
Proof.
  intros Hget Hparam.
  assert (forall n, z < 0 \/ Z.of_nat n <= z ->
                    out_of_range (Some z) n = true) as Hout.
  { intros n Hz. unfold out_of_range. apply orb_true_iff.
    destruct Hz; [left; now apply Z.ltb_lt | right; now apply Z.leb_le]. }
  split.
  - intros photos Hphotos Hz. unfold delete_photo_route.
    rewrite Hget, Hphotos, Hparam. cbn [as_array].
    unfold try_catch, delete_photo_from. now rewrite (Hout _ Hz).
  - intros notes Hnotes Hz. unfold delete_note_route.
    rewrite Hget, Hnotes, Hparam. cbn [as_array].
    unfold try_catch, delete_note_from. now rewrite (Hout _ Hz).
Qed.

End ListRoutes.

(** ** The counts *)

Section Stats.

Context {F : Type} `{FileSystem F}.

Lemma decode_rows_flags l games :
  Forall (fun x : Z * Row.t => written x.2) l ->
  decode_rows l = Resolved games ->
  length (filter (fun kr : Z * Row.t => Row.is_checked kr.2 = Some 0) l)
  = length (filter (fun g => Game.is_checked g = false) games) /\
  length (filter (fun kr : Z * Row.t => Row.is_checked kr.2 = Some 1) l)
  = length (filter (fun g => Game.is_checked g = true) games).
Proof.
  intros Hl. revert games.
  induction Hl as [|[id r] l Hr _ IH]; intros games Hd; cbn in Hd.
  - injection Hd as <-. split; reflexivity.
  - destruct (decode_row id r) as [game|] eqn:Hrow; [|discriminate].
    destruct (decode_rows l) as [gs|]; [|discriminate].
    injection Hd as <-. destruct (IH gs eq_refl) as [IH0 IH1].
    destruct (decode_written id r Hr)
      as (game' & Hdec' & _ & _ & _ & _ & _ & Hchk & _).
    rewrite Hrow in Hdec'. injection Hdec' as <-.
    rewrite !filter_cons. cbn [snd].
    rewrite Hchk.
    destruct (Game.is_checked game); repeat case_decide;
      try discriminate; try contradiction; cbn; now rewrite IH0, IH1.
Qed.

Lemma filter_flag_partition (games : list Game.t) :
  (length (filter (fun g => Game.is_checked g = false) games)
   + length (filter (fun g => Game.is_checked g = true) games))%nat
  = length games.
Proof.
  induction games as [|g games IH]; [reflexivity|].
  rewrite !filter_cons.
  destruct (Game.is_checked g); repeat case_decide;
    try discriminate; try contradiction; cbn; lia.
Qed.

(** X20.  The two counts partition the collection.  On a database whose
    rows the store wrote, [GET /games/stats/checked] replies with the
    number of games whose flag [is_checked] reads [false], and
    [GET /games/stats/todo] with the number of games whose flag reads
    [true]; the two counts add up to the number of games that
    [getAllGames] lists, and neither request changes anything. *)
Theorem stats_partition_the_games (w : World F) :
  store_written (db w) ->
  exists games,
    getAllGames (db w) = Resolved games /\
    stats_checked_route w
    = (Resolved
         (Json (Z.of_nat
                  (length (filter (fun g => Game.is_checked g = false)
                             games)))), w) /\
    stats_todo_route w
    = (Resolved
         (Json (Z.of_nat
                  (length (filter (fun g => Game.is_checked g = true)
                             games)))), w) /\
    (length (filter (fun g => Game.is_checked g = false) games)
     + length (filter (fun g => Game.is_checked g = true) games))%nat
    = length games.
Proof.
  intros Hd. destruct (getAllGames_written _ Hd) as (games & Hgames & _).
  exists games. split; [exact Hgames|].
  destruct (decode_rows_flags (table_scan (db w)) games)
    as [H0 H1]; [|exact Hgames|].
  { apply Forall_forall. intros [id r] Hin.
    apply elem_of_table_scan in Hin. exact (Hd _ _ Hin). }
  unfold stats_checked_route, stats_todo_route, try_catch, bind, db_read,
    count_is_checked.
  cbn [ret]. rewrite H0, H1.
  split; [reflexivity|]. split; [reflexivity|]. apply filter_flag_partition.
Qed.

End Stats.

(** ** More on the update route and the folder migration *)

Section UpdateMore.

Context {F : Type} `{FileSystem F}.
Variable appDataPath : string.

Lemma uploaded_data_lists files folderName gameData :
  GameData.additionalPhotos (uploaded_data files folderName gameData)
  = GameData.additionalPhotos gameData /\
  GameData.additionalNotes (uploaded_data files folderName gameData)
  = GameData.additionalNotes gameData.
Proof.
  unfold uploaded_data.
  destruct (Files.coverArt files), (Files.gameplayImage files); now split.
Qed.

(** What the update route does to the database: nothing, or one
    [updateGame] with a payload that carries a title and no list. *)
Lemma update_route_db gameId b files (w : World F) result w' :
  update_route appDataPath gameId b files w = (result, w') ->
  db w' = db w \/
  exists gameData title,
    GameData.title gameData = Val title /\
    GameData.additionalPhotos gameData = Undefined /\
    GameData.additionalNotes gameData = Undefined /\
    db w' = snd (updateGame gameId gameData (db w)).
Proof.
  unfold update_route, try_catch, bind at 1, db_read.
  destruct (getGameById gameId (db w)) as [[existing|]|e] eqn:Hget.
  2: { cbn. intros [= _ <-]. now left. }
  2: { cbn. intros [= _ <-]. now left. }
  destruct (rename_step_result appDataPath b existing (form_data b existing) w)
    as (w1 & Hrename & Hdb1).
  unfold bind at 1. rewrite Hrename.
  set (gameData1 := if title_changed b existing
                    then rewritten_data (Game.title existing)
                           (default EmptyString (Form.title b))
                           (form_data b existing)
                    else form_data b existing).
  assert (GameData.title gameData1 = to_field_undefined (Form.title b)
          /\ GameData.additionalPhotos gameData1 = Undefined
          /\ GameData.additionalNotes gameData1 = Undefined)
    as (Htitle1 & Hp1 & Hn1)
      by (subst gameData1; destruct (title_changed b existing);
          repeat split).
  clearbody gameData1.
  unfold bind at 1. rewrite Htitle1.
  destruct (Form.title b) as [title|] eqn:Htitle.
  2: { cbn. intros [= _ <-]. left. exact Hdb1. }
  cbn [to_field_undefined folder_of ret]. unfold bind at 1.
  destruct (upload_step appDataPath files existing (sanitizeFolderName title)
              gameData1 w1) as [[gameData'|e] w2] eqn:Hup.
  2: { pose proof (keeps_db_upload_step appDataPath _ _ _ _ _ _ _ Hup) as Hdb2.
       cbn. intros [= _ <-]. left. cbn. congruence. }
  apply upload_step_result in Hup as [-> Hdb2].
  unfold bind at 1, db_run. rewrite Hdb2, Hdb1.
  destruct (uploaded_data_lists files (sanitizeFolderName title) gameData1)
    as [Hp2 Hn2].
  destruct (updateGame gameId _ (db w)) as [[n|e] d'] eqn:Hupd.
  - cbn. intros [= _ <-]. right.
    exists (uploaded_data files (sanitizeFolderName title) gameData1), title.
    rewrite uploaded_data_title, Hp2, Hn2, Hupd. now repeat split.
  - cbn. intros [= _ <-]. left. cbn [db].
    now apply updateGame_rejected in Hupd.
Qed.

(** X21.  [POST /games/update/:id] never touches the photos, the notes or
    the date of a record that the store wrote: whatever the form, the
    files and the outcome of the request, the record is still there and
    these three columns hold what they held.  In particular the paths of
    the photos are not rewritten when the title changes and the upload
    folder moves. *)
Theorem update_route_keeps_the_lists gameId b files (w : World F) r result
    w' :
  rows (db w) !! gameId = Some r -> written r ->
  update_route appDataPath gameId b files w = (result, w') ->
  exists r',
    rows (db w') !! gameId = Some r' /\
    Row.additionalPhotos r' = Row.additionalPhotos r /\
    Row.additionalNotes r' = Row.additionalNotes r /\
    Row.dateAdded r' = Row.dateAdded r.
Proof.
  intros Hrow Hr Hrun.
  destruct (update_route_db _ _ _ _ _ _ Hrun)
    as [-> | (gameData & title & Htitle & Hp & Hn & ->)].
  - exists r. now repeat split.
  - rewrite (updateGame_written _ gameData _ _ Hrow Hr) by congruence.
    cbn [snd rows]. rewrite lookup_insert_eq. eexists. split; [reflexivity|].
    unfold UpdateSpec.replace_keys_normalized.
    cbn [Row.additionalPhotos Row.additionalNotes Row.dateAdded].
    rewrite Hp, Hn. now repeat split.
Qed.


(** X22.  [renameGameFolder] never throws and never touches the
    database: it always resolves to a result object.  The result reports
    success only when the folder of the old title was there and the two
    titles sanitize to different tokens, and then carries the old and the
    new folder path; when the folder is not there, or the tokens are the
    same, nothing at all is done; an error thrown in between is caught,
    logged as the last line of the console and returned as the message
    of a result without success. *)
Theorem renameGameFolder_reports oldTitle newTitle (w : World F) :
  let uploadsPath := path_join appDataPath "uploads" in
  let oldPath := path_join uploadsPath (sanitizeFolderName oldTitle) in
  let newPath := path_join uploadsPath (sanitizeFolderName newTitle) in
  exists r w',
    renameGameFolder appDataPath oldTitle newTitle w = (Resolved r, w') /\
    db w' = db w /\
    (success r = true ->
     r = Renamed oldPath newPath /\
     existsSync oldPath (fs w) = true /\
     sanitizeFolderName oldTitle <> sanitizeFolderName newTitle) /\
    (existsSync oldPath (fs w) = false
     \/ sanitizeFolderName oldTitle = sanitizeFolderName newTitle ->
     r = NoChange /\ w' = w) /\
    (forall e,
        r = RenameError e ->
        exists lines,
          console w' = lines ++ ["Error renaming game folder: " +:+ e]).
Proof.
  intros uploadsPath oldPath newPath.
  destruct (renameGameFolder_resolves appDataPath oldTitle newTitle w)
    as (r & w' & Hrun & Hdb).
  exists r, w'. split; [exact Hrun|]. split; [exact Hdb|].
  revert Hrun. unfold renameGameFolder, try_catch, bind at 1, fs_query.
  fold uploadsPath. fold oldPath. fold newPath.
  destruct (existsSync oldPath (fs w)) eqn:Hold; cbn [andb].
  2: { intros [= <- <-]. split; [discriminate|].
       split; [now split|]. discriminate. }
  destruct (String.eqb_spec (sanitizeFolderName oldTitle)
              (sanitizeFolderName newTitle)) as [Heq|Hne]; cbn [negb].
  { intros [= <- <-]. split; [discriminate|].
    split; [now split|]. discriminate. }
  match goal with |- context [match ?m w with _ => _ end] =>
    destruct (m w) as [[a|e] w1] eqn:Hm end.
  - intros [= <- <-]. revert Hm. unfold bind at 1, fs_query.
    unfold bind at 1.
    destruct (when _ _ w) as [[[]|e1] w2]; [|discriminate].
    unfold bind at 1.
    destruct (fs_read _ w2) as [[files|e2] w3]; [|discriminate].
    unfold bind at 1.
    destruct (move_files _ _ _ w3) as [[[]|e3] w4]; [|discriminate].
    unfold bind at 1.
    destruct (fs_call _ w4) as [[[]|e4] w5]; cbn; intros [= <- _];
      (split; [now intros _|]); (split; [|discriminate]);
      (intros [Hno|Heq]; [congruence | contradiction]).
  - cbn. intros [= <- <-]. split; [discriminate|].
    split; [intros [Hno|Heq]; [congruence | contradiction]|].
    intros e' [= <-]. now exists (console w1).
Qed.

(** X23.  A form without a title field is an error of the server, not of
    the request.  [POST /games/create], and [POST /games/update/:id] on a
    game that is there, call the sanitizer on [undefined]: the reply is
    the status 500 with the message of that [TypeError], the error is
    logged, and neither the database nor the file system has changed. *)
Theorem route_without_title_is_an_error b files (w : World F) :
  Form.title b = None ->
  (exists w',
      create_route b files w
      = (Resolved (Failure 500 cannot_read_replace), w') /\
      db w' = db w /\ fs w' = fs w /\
      console w'
      = console w ++ ["Create game error: " +:+ cannot_read_replace]) /\
  (forall gameId existing,
      getGameById gameId (db w) = Resolved (Some existing) ->
      exists w',
        update_route appDataPath gameId b files w
        = (Resolved (mkReply 500 (Error cannot_read_replace)), w') /\
        db w' = db w /\ fs w' = fs w /\
        console w'
        = console w ++ ["Error updating game: " +:+ cannot_read_replace]).
Proof.
  intros Htitle. split.
  - unfold create_route, try_catch, bind.
    unfold create_data at 1. cbn [GameData.title]. rewrite Htitle.
    eexists. split; [reflexivity|]. repeat split.
  - intros gameId existing Hget.
    unfold update_route, try_catch, bind at 1, db_read. rewrite Hget.
    unfold bind at 1, rename_step, title_changed. rewrite Htitle.
    cbn [truthy truthy_option andb ret].
    unfold bind at 1, form_data at 1. cbn [GameData.title]. rewrite Htitle.
    eexists. split; [reflexivity|]. repeat split.
Qed.

End UpdateMore.

(** ** Export and import *)

Section ExportImportProperties.

Context {F : Type} `{FileSystem F} `{FileReader F}.

Lemma createGame_untitled g d :
  (forall title, GameData.title g <> Val title) ->
  exists e, createGame g d = (Rejected e, d).
Proof.
  intros Hno. unfold createGame.
  destruct (GameData.title g) as [| |title]; eauto. now destruct (Hno title).
Qed.

Lemma import_loop_run games datas :
  Forall2 titled games datas ->
  forall importedCount (w : World F),
  exists w',
    import_loop games importedCount w
    = Some (Resolved (importedCount + Z.of_nat (length datas)), w') /\
    fs w' = fs w /\ console w' = console w /\
    today (db w') = today (db w) /\
    last_rowid (db w') = last_rowid (db w) + Z.of_nat (length datas) /\
    size (rows (db w')) = (size (rows (db w)) + length datas)%nat /\
    (forall id, id <= last_rowid (db w) ->
                rows (db w') !! id = rows (db w) !! id) /\
    (forall k data,
        datas !! k = Some data ->
        exists title,
          GameData.title data = Val title /\
          rows (db w') !! (last_rowid (db w) + 1 + Z.of_nat k)
          = Some (created_row data title (today (db w)))).
Proof.
  induction 1 as [|game data games datas [Hdata [title Htitle]] _ IH];
    intros importedCount w.
  - exists w. cbn [import_loop length]. rewrite !Z.add_0_r, Nat.add_0_r.
    do 7 (split; [reflexivity|]). intros k t Hk. discriminate.
  - cbn [import_loop]. rewrite Hdata. unfold db_run.
    rewrite (createGame_created_row _ _ _ Htitle).
    set (row := created_row data title (today (db w))).
    set (w1 := mkWorld _ (fs w) (console w)).
    destruct (IH (importedCount + 1) w1)
      as (w' & Hrun & Hfs & Hcon & Htoday & Hlast & Hsize & Hold & Hnew).
    assert (last_rowid (db w1) = last_rowid (db w) + 1) as Hl1
        by apply last_rowid_created.
    exists w'. rewrite Hrun, Hfs, Hcon, Htoday, Hlast, Hsize, Hl1.
    cbn [length]. split; [do 3 f_equal; lia|].
    do 3 (split; [reflexivity|]). split; [lia|]. split.
    { subst w1. cbn [db rows].
      rewrite map_size_insert_None by apply last_rowid_fresh. lia. }
    split.
    + intros id Hid. rewrite Hold by lia. subst w1. cbn [db rows].
      apply lookup_insert_ne. lia.
    + intros [|k] data' Hk.
      * injection Hk as <-. exists title. split; [exact Htitle|].
        rewrite Hold by lia. subst w1. cbn [db rows].
        rewrite Z.add_0_r. apply lookup_insert_eq.
      * cbn in Hk. destruct (Hnew k data' Hk) as (title' & Ht' & Hrow').
        exists title'. split; [exact Ht'|]. rewrite Hl1 in Hrow'.
        replace (last_rowid (db w) + 1 + Z.of_nat (S k))
          with (last_rowid (db w) + 1 + 1 + Z.of_nat k) by lia.
        exact Hrow'.
Qed.

Lemma import_loop_app games1 games2 importedCount (w : World F) :
  import_loop (games1 ++ games2) importedCount w
  = match import_loop games1 importedCount w with
    | Some (Resolved n, w') => import_loop games2 n w'
    | other => other
    end.
Proof.
  revert importedCount w.
  induction games1 as [|game games1 IH]; intros importedCount w;
    [reflexivity|].
  cbn [app import_loop]. destruct (game_data game); [|reflexivity].
  destruct (db_run _ w) as [[id|e] w']; [apply IH | reflexivity].
Qed.

Lemma last_rowid_cleared d : last_rowid (snd (clearAllGames d)) = sequence d.
Proof. unfold last_rowid. cbn. apply map_fold_empty. Qed.


(** The import of data whose games all have a title, once the file is
    read. *)
Lemma import_data_run path importData games datas (w : World F) f' :
  games_of importData = Some (JSON.JArr games) ->
  Forall2 titled games datas ->
  unlinkSync path (fs w) = Resolved f' ->
  exists d',
    import_data path importData w
    = Some (Resolved
              (mkReply 200
                 (Message (import_message (Z.of_nat (length games))))),
            mkWorld d' f' (console w)) /\
    size (rows d') = length games /\
    (forall k data,
        datas !! k = Some data ->
        exists title,
          GameData.title data = Val title /\
          rows d' !! (sequence (db w) + 1 + Z.of_nat k)
          = Some (created_row data title (today (db w)))).
Proof.
  intros Hgames Hdatas Hunlink.
  pose proof (Forall2_length _ _ _ Hdatas) as Hlen.
  set (w0 := mkWorld (snd (clearAllGames (db w))) (fs w) (console w)).
  destruct (import_loop_run games datas Hdatas 0 w0)
    as (w' & Hrun & Hfs & Hcon & Htoday & Hlast & Hsize & _ & Hnew).
  exists (db w').
  destruct importData as [| | | | |m]; try discriminate Hgames.
  split.
  { unfold import_data.
    change (db_run clearAllGames w)
      with (Resolved (Z.of_nat (size (rows (db w)))), w0).
    cbv beta iota. rewrite Hgames, Hrun. unfold bind, fs_call.
    rewrite Hfs, Hcon.
    cbn [w0 fs console]. now rewrite Hunlink, Z.add_0_l, <- Hlen. }
  unfold w0 in Hnew, Hsize. cbn [db] in Hnew, Hsize.
  rewrite last_rowid_cleared in Hnew.
  split; [rewrite Hsize; cbn; rewrite map_size_empty; lia | exact Hnew].
Qed.


Lemma game_data_game_json g : game_data (game_json g) = Some (exported_data g).
Proof.
  destruct g as [id title link rating fin chk platform strikes notes cover
                   play date photos nts].
  destruct link, platform, notes, cover, play; reflexivity.
Qed.

Lemma titled_game_json games :
  Forall2 titled (game_json <$> games) (exported_data <$> games).
Proof.
  induction games as [|g games IH]; constructor; [|exact IH].
  split; [apply game_data_game_json|]. now exists (Game.title g).
Qed.

Lemma text_json_keys x : JSON.distinct_keys (text_json x).
Proof. now destruct x. Qed.

Lemma game_json_keys g :
  JSON.distinct_keys (Game.additionalPhotos g) ->
  JSON.distinct_keys (Game.additionalNotes g) ->
  JSON.distinct_keys (game_json g).
Proof.
  intros Hp Hn. apply distinct_keys_obj. split.
  - apply (bool_decide_unpack _). vm_compute. exact I.
  - repeat constructor; try apply text_json_keys; assumption.
Qed.

Lemma export_json_keys now games :
  Forall (fun g => JSON.distinct_keys (Game.additionalPhotos g)
                   /\ JSON.distinct_keys (Game.additionalNotes g)) games ->
  JSON.distinct_keys (export_json now games).
Proof.
  intros Hgames. apply distinct_keys_obj. split.
  - apply (bool_decide_unpack _). vm_compute. exact I.
  - repeat constructor. cbn [snd]. apply distinct_keys_arr.
    apply Forall_fmap. eapply Forall_impl; [exact Hgames|].
    intros g [Hp Hn]. now apply game_json_keys.
Qed.

(** The row created from an exported game decodes to that game under the
    new id and the date of the day. *)
Lemma decode_exported_game id today r game id' :
  written r -> decode_row id r = Resolved game ->
  decode_row id' (created_row (exported_data game) (Game.title game) today)
  = Resolved
      (Game.mk id' (Game.title game) (Game.link game) (Game.rageRating game)
         (Game.finished game) (Game.is_checked game) (Game.platform game)
         (Game.strikes game) (Game.notes game) (Game.coverArtPath game)
         (Game.gameplayImagePath game) (Some today)
         (Game.additionalPhotos game) (Game.additionalNotes game)).
Proof.
  intros Hr Hdec.
  destruct (decode_written id r Hr)
    as (game' & Hdec' & _ & _ & Hlink & _ & _ & _ & Hplat & _ & Hnotes
        & Hcover & Hplay & _ & (Hpk & Hpt & _) & (Hnk & Hnt & _)).
  rewrite Hdec in Hdec'. injection Hdec' as <-.
  destruct Hr as [[link Hl] _ _ _ [plat Hpl] _ [nts Hno] Hco Hgp _ _].
  rewrite <- Hlink in Hl. rewrite <- Hplat in Hpl. rewrite <- Hnotes in Hno.
  rewrite <- Hcover in Hco. rewrite <- Hplay in Hgp.
  unfold decode_row, created_row, exported_data.
  cbn [Row.additionalPhotos Row.additionalNotes GameData.additionalPhotos
       GameData.additionalNotes to_option].
  rewrite !encode_list_truthy by assumption.
  rewrite !decode_list_stringify by assumption.
  f_equal.
  cbn [Row.title Row.link Row.rageRating Row.finished Row.is_checked
       Row.platform Row.strikes Row.notes Row.coverArtPath
       Row.gameplayImagePath Row.dateAdded GameData.link
       GameData.rageRating GameData.finished GameData.is_checked
       GameData.platform GameData.strikes GameData.notes
       GameData.coverArtPath GameData.gameplayImagePath to_option].
  rewrite !decode_bool_one_or_zero, !or_default_idem_Z.
  change (truthy (Some ?b)) with b.
  rewrite Hl, Hpl, Hno. cbn [to_field to_option].
  rewrite !or_default_idem_string by eauto.
  assert (forall x : option string,
             x <> Some EmptyString -> or_null (to_option (to_field x)) = x)
    as Hnull.
  { intros [s|] Hx; [|reflexivity]. cbn [to_field to_option].
    now apply or_null_written. }
  now rewrite !Hnull by assumption.
Qed.


(** X24.  [POST /games/import] with a file that cannot be read, or whose
    text does not begin with a JSON value, changes nothing: [JSON.parse]
    throws before the collection is cleared, the reply is the status 500,
    and the database and the uploaded file are as they were. *)
Theorem import_of_a_file_that_is_not_JSON path (w : World F) :
  (forall e,
      readFileSync path (fs w) = Rejected e ->
      import_route (Some path) w
      = Some (Resolved (mkReply 500 (Error e)), w)) /\
  (forall text,
      readFileSync path (fs w) = Resolved text -> starts_no_value text ->
      import_route (Some path) w
      = Some (Resolved (mkReply 500 (Error syntax_error)), w)).
Proof.
  split.
  - intros e Hread. unfold import_route. now rewrite Hread.
  - intros text Hread Htext. unfold import_route.
    now rewrite Hread, (parse_no_value _ Htext).
Qed.

(** X25.  The import clears the collection before it looks at the
    games of the file.  For a file that parses to a value without an
    array under [games] (an object with another shape, an array, a
    string, a number), every game is deleted, nothing is created, the
    file is removed and the reply is the success message with the count
    0.  For the value [null], reading [games] throws after the
    collection has been cleared: the reply is the status 500 and the
    games are gone all the same. *)
Theorem import_clears_before_it_looks_for_games path text importData
    (w : World F) :
  readFileSync path (fs w) = Resolved text ->
  JSON.parse text = Some importData ->
  (forall games, games_of importData <> Some (JSON.JArr games)) ->
  let cleared := mkDB ∅ (sequence (db w)) (today (db w)) in
  (importData = JSON.JNull ->
   import_route (Some path) w
   = Some (Resolved (mkReply 500 (Error cannot_read_games)),
           mkWorld cleared (fs w) (console w))) /\
  (importData <> JSON.JNull ->
   forall f',
     unlinkSync path (fs w) = Resolved f' ->
     import_route (Some path) w
     = Some (Resolved
               (mkReply 200 (Message "Successfully imported 0 games")),
             mkWorld cleared f' (console w))) /\
  getAllGames cleared = Resolved [].
Proof.
  intros Hread Hparse Hgames cleared. split; [|split].
  - intros ->. unfold import_route. now rewrite Hread, Hparse.
  - intros Hnull f' Hunlink. unfold import_route. rewrite Hread, Hparse.
    unfold import_data.
    change (db_run clearAllGames w)
      with (Resolved (Z.of_nat (size (rows (db w)))),
            mkWorld cleared (fs w) (console w)).
    cbv beta iota.
    assert (match games_of importData with
            | Some (JSON.JArr games) =>
                import_loop games 0 (mkWorld cleared (fs w) (console w))
            | _ => Some (Resolved 0, mkWorld cleared (fs w) (console w))
            end
            = Some (Resolved 0, mkWorld cleared (fs w) (console w))) as ->.
    { destruct (games_of importData) as [[| | | |games|]|]; try reflexivity.
      now destruct (Hgames games). }
    unfold bind, fs_call. cbn [fs]. rewrite Hunlink.
    now destruct importData.
  - unfold getAllGames, cleared, clearAllGames. cbn [snd].
    now rewrite table_scan_empty.
Qed.

(** X26.  The import of a file with an array of games that all have a
    title replaces the collection: the reply counts the games of the
    file, the uploaded file is removed, and the table then holds exactly
    one row per game of the file, in the order of the file, under the
    ids that follow the counter, each the row that [createGame] writes
    for that game with the date of the day.  The ids and the dates that
    the file gives are not read. *)
Theorem import_replaces_the_collection path text importData games datas
    (w : World F) f' :
  readFileSync path (fs w) = Resolved text ->
  JSON.parse text = Some importData ->
  games_of importData = Some (JSON.JArr games) ->
  Forall2 titled games datas ->
  unlinkSync path (fs w) = Resolved f' ->
  exists d',
    import_route (Some path) w
    = Some (Resolved
              (mkReply 200
                 (Message (import_message (Z.of_nat (length games))))),
            mkWorld d' f' (console w)) /\
    size (rows d') = length games /\
    (forall k data,
        datas !! k = Some data ->
        exists title,
          GameData.title data = Val title /\
          rows d' !! (sequence (db w) + 1 + Z.of_nat k)
          = Some (created_row data title (today (db w)))).
Proof.
  intros Hread Hparse Hgames Hdatas Hunlink.
  destruct (import_data_run path importData games datas w f'
              Hgames Hdatas Hunlink) as (d' & Hdata & Hsize & Hnew).
  exists d'. split; [|split; [exact Hsize | exact Hnew]].
  unfold import_route. now rewrite Hread, Hparse, Hdata.
Qed.

(** X27.  The import has no way back.  When a game of the file has no
    title, the games before it have been created and the collection that
    was there has been cleared: the reply is the status 500 with the
    error of the statement, the table holds the games of the file before
    that one and nothing else, and the uploaded file is still there. *)
Theorem import_stops_at_a_game_without_title path text importData good bad
    rest datas data (w : World F) :
  readFileSync path (fs w) = Resolved text ->
  JSON.parse text = Some importData ->
  games_of importData = Some (JSON.JArr (good ++ bad :: rest)) ->
  Forall2 titled good datas ->
  game_data bad = Some data ->
  (forall title, GameData.title data <> Val title) ->
  exists e d',
    import_route (Some path) w
    = Some (Resolved (mkReply 500 (Error e)),
            mkWorld d' (fs w) (console w)) /\
    size (rows d') = length good /\
    (forall k data,
        datas !! k = Some data ->
        exists title,
          GameData.title data = Val title /\
          rows d' !! (sequence (db w) + 1 + Z.of_nat k)
          = Some (created_row data title (today (db w)))).
Proof.
  intros Hread Hparse Hgames Hdatas Hbad Hno.
  pose proof (Forall2_length _ _ _ Hdatas) as Hlen.
  set (w0 := mkWorld (snd (clearAllGames (db w))) (fs w) (console w)).
  destruct (import_loop_run good datas Hdatas 0 w0)
    as (w' & Hrun & Hfs & Hcon & Htoday & Hlast & Hsize & _ & Hnew).
  destruct (createGame_untitled data (db w') Hno) as [e He].
  exists e, (db w').
  destruct importData as [| | | | |m]; try discriminate Hgames.
  assert (import_data path (JSON.JObj m) w
          = Some (Rejected e, mkWorld (db w') (fs w) (console w))) as Hdata.
  { unfold import_data.
    change (db_run clearAllGames w)
      with (Resolved (Z.of_nat (size (rows (db w)))), w0).
    cbv beta iota. rewrite Hgames, import_loop_app, Hrun.
    cbn [import_loop]. rewrite Hbad. unfold db_run. rewrite He.
    now rewrite Hfs, Hcon. }
  unfold import_route. rewrite Hread, Hparse, Hdata.
  split; [reflexivity|].
  unfold w0 in Hnew, Hsize. cbn [db] in Hnew, Hsize.
  rewrite last_rowid_cleared in Hnew.
  split; [rewrite Hsize; cbn; rewrite map_size_empty; lia | exact Hnew].
Qed.

(** X28.  The import restores exported games.  Take the games that
    [getAllGames] lists on a database whose rows the store wrote, and a
    file that holds the JSON text of an export of them, [{ exportDate,
    games }].  Importing the file, into any database, creates one game
    for each game of the list, in the order of the list: each reads back
    with the title, link, rating, flags, platform, strikes, notes, image
    paths, photos and notes it was listed with; only its id, which
    follows the counter of the importing database, and its date, which
    is the day of the import, are new. *)
Theorem import_restores_exported_games exportDate d0 games path
    (w : World F) f' :
  store_written d0 ->
  getAllGames d0 = Resolved games ->
  readFileSync path (fs w)
  = Resolved (JSON.stringify (export_json exportDate games)) ->
  unlinkSync path (fs w) = Resolved f' ->
  exists d',
    import_route (Some path) w
    = Some (Resolved
              (mkReply 200
                 (Message (import_message (Z.of_nat (length games))))),
            mkWorld d' f' (console w)) /\
    size (rows d') = length games /\
    (forall k game,
        games !! k = Some game ->
        let id := sequence (db w) + 1 + Z.of_nat k in
        getGameById id d'
        = Resolved
            (Some
               (Game.mk id (Game.title game) (Game.link game)
                  (Game.rageRating game) (Game.finished game)
                  (Game.is_checked game) (Game.platform game)
                  (Game.strikes game) (Game.notes game)
                  (Game.coverArtPath game) (Game.gameplayImagePath game)
                  (Some (today (db w)))
                  (Game.additionalPhotos game)
                  (Game.additionalNotes game)))).
Proof.
  intros Hstore Hgames Hread Hunlink.
  assert (forall game, game ∈ games ->
            exists r, written r /\
                      decode_row (Game.id game) r = Resolved game) as Hrows.
  { intros game Hin.
    apply (getAllGames_elem _ _ _ Hgames) in Hin as (r & Hrow & Hdec).
    exists r. split; [exact (Hstore _ _ Hrow) | exact Hdec]. }
  assert (JSON.distinct_keys (export_json exportDate games)) as Hkeys.
  { apply export_json_keys, Forall_forall. intros game Hin.
    destruct (Hrows game Hin) as (r & _ & Hdec).
    exact (decode_row_distinct _ _ _ Hdec). }
  destruct (import_data_run path (export_json exportDate games)
              (game_json <$> games) (exported_data <$> games) w f')
    as (d' & Hdata & Hsize & Hnew);
    [ reflexivity | apply titled_game_json | exact Hunlink | ].
  rewrite length_fmap in Hdata, Hsize.
  exists d'. split.
  { unfold import_route.
    now rewrite Hread, (parse_stringify _ Hkeys), Hdata. }
  split; [exact Hsize|].
  intros k game Hk id.
  destruct (Hnew k (exported_data game)) as (title & Htitle & Hrow).
  { now rewrite list_lookup_fmap, Hk. }
  injection Htitle as <-.
  destruct (Hrows game) as (r & Hr & Hdec);
    [now apply list_elem_of_lookup_2 in Hk|].
  unfold getGameById. fold id in Hrow. rewrite Hrow.
  now rewrite (decode_exported_game _ _ _ _ id Hr Hdec).
Qed.

End ExportImportProperties.

(** ** The shape of a folder token *)

Section TokenShape.

Import SanitizeSpec.

Lemma single_underscores_cons2 c d l :
  single_underscores (c :: d :: l)
  = (negb (Str.is_underscore c && Str.is_underscore d)
     && single_underscores (d :: l))%bool.
Proof. reflexivity. Qed.

Lemma collapse_cons2 c d l :
  collapse (c :: d :: l)
  = if (Str.is_underscore c && Str.is_underscore d)%bool
    then collapse (d :: l) else c :: collapse (d :: l).
Proof. reflexivity. Qed.

Lemma collapse_head d l :
  exists x m, collapse (d :: l) = x :: m /\
              Str.is_underscore x = Str.is_underscore d.
Proof.
  revert d. induction l as [|e l IH]; intros d.
  - now exists d, [].
  - rewrite collapse_cons2.
    destruct (Str.is_underscore d && Str.is_underscore e)%bool eqn:Hde.
    + destruct (IH e) as (x & m & Hm & Hx). exists x, m.
      split; [exact Hm|]. rewrite Hx.
      apply andb_true_iff in Hde as [-> ->]. reflexivity.
    + now exists d, (collapse (e :: l)).
Qed.

Lemma single_underscores_collapse l : single_underscores (collapse l) = true.
Proof.
  induction l as [|c l IH]; [reflexivity|].
  destruct l as [|d l]; [reflexivity|].
  rewrite collapse_cons2.
  destruct (Str.is_underscore c && Str.is_underscore d)%bool eqn:Hcd;
    [exact IH|].
  destruct (collapse_head d l) as (x & m & Hm & Hx).
  rewrite Hm in IH |- *. rewrite single_underscores_cons2.
  now rewrite Hx, Hcd, IH.
Qed.

Lemma single_underscores_tail c l :
  single_underscores (c :: l) = true -> single_underscores l = true.
Proof.
  destruct l as [|d l]; [reflexivity|]. rewrite single_underscores_cons2.
  now intros [_ Hl]%andb_true_iff.
Qed.

Lemma single_underscores_strip_leading l :
  single_underscores l = true -> single_underscores (strip_leading l) = true.
Proof.
  induction l as [|c l IH]; [reflexivity|]. intros Hl. cbn [strip_leading].
  destruct (Str.is_underscore c); [|exact Hl].
  apply IH. exact (single_underscores_tail _ _ Hl).
Qed.

Lemma single_underscores_firstn n l :
  single_underscores l = true -> single_underscores (firstn n l) = true.
Proof.
  revert l. induction n as [|n IH]; intros l Hl; [reflexivity|].
  destruct l as [|c l]; [reflexivity|].
  pose proof (IH l (single_underscores_tail _ _ Hl)) as Hn.
  destruct l as [|d l]; [destruct n; reflexivity|].
  destruct n as [|n]; [reflexivity|].
  change (single_underscores (c :: d :: firstn n l) = true).
  change (single_underscores (d :: firstn n l) = true) in Hn.
  rewrite single_underscores_cons2 in Hl |- *.
  apply andb_true_iff in Hl as [-> _]. exact Hn.
Qed.

Lemma single_underscores_strip_trailing l :
  single_underscores l = true -> single_underscores (strip_trailing l) = true.
Proof.
  induction l as [|c l IH]; [reflexivity|]. intros Hl.
  rewrite strip_trailing_cons.
  destruct (all_underscores l) eqn:Hall.
  - now destruct (Str.is_underscore c).
  - pose proof (IH (single_underscores_tail _ _ Hl)) as Hs.
    destruct l as [|d l]; [discriminate Hall|].
    rewrite strip_trailing_cons in Hs |- *.
    destruct (all_underscores l).
    + destruct (Str.is_underscore d) eqn:Hd; [reflexivity|].
      rewrite single_underscores_cons2 in Hl |- *.
      apply andb_true_iff in Hl as [Hcd _]. now rewrite Hcd.
    + rewrite single_underscores_cons2 in Hl |- *.
      apply andb_true_iff in Hl as [-> _]. exact Hs.
Qed.

Lemma is_underscore_lower c :
  Str.is_underscore (Str.lower c) = Str.is_underscore c.
Proof. destruct c as [[] [] [] [] [] [] [] []]; reflexivity. Qed.

Lemma single_underscores_lowercase l :
  single_underscores (lowercase l) = single_underscores l.
Proof.
  unfold lowercase. induction l as [|c l IH]; [reflexivity|].
  destruct l as [|d l]; [reflexivity|].
  change (List.map Str.lower (c :: d :: l))
    with (Str.lower c :: Str.lower d :: List.map Str.lower l).
  change (List.map Str.lower (d :: l))
    with (Str.lower d :: List.map Str.lower l) in IH.
  now rewrite !single_underscores_cons2, !is_underscore_lower, IH.
Qed.

Lemma starts_clean_strip_leading l : starts_clean (strip_leading l) = true.
Proof.
  induction l as [|c l IH]; [reflexivity|]. cbn [strip_leading].
  destruct (Str.is_underscore c) eqn:Hc; [exact IH|]. cbn. now rewrite Hc.
Qed.

Lemma starts_clean_strip_trailing l :
  starts_clean l = true -> starts_clean (strip_trailing l) = true.
Proof.
  destruct l as [|c l]; [reflexivity|]. rewrite strip_trailing_cons.
  cbn [starts_clean]. intros Hc.
  destruct (all_underscores l); [|exact Hc].
  destruct (Str.is_underscore c) eqn:Hu; [reflexivity|]. cbn. now rewrite Hu.
Qed.

Lemma starts_clean_firstn n l :
  starts_clean l = true -> starts_clean (firstn n l) = true.
Proof. destruct n, l; trivial. Qed.

Lemma starts_clean_lowercase l : starts_clean (lowercase l) = starts_clean l.
Proof.
  destruct l as [|c l]; [reflexivity|]. cbn. now rewrite is_underscore_lower.
Qed.

End TokenShape.

(** X29.  A folder token is a safe name.  For every title the token of
    [sanitizeFolderName] is made of lower-case letters, digits, hyphens
    and underscores only, so it holds no separator and no dot; it does
    not begin with an underscore and has no two underscores in a row.
    It may end with an underscore, where the cut to 50 characters falls
    after one. *)
Theorem sanitizeFolderName_is_a_safe_name title :
  let token := list_ascii_of_string (sanitizeFolderName title) in
  Forall (fun c => is_token_char c = true) token /\
  starts_clean token = true /\
  single_underscores token = true.
Proof.
  intros token. split; [apply sanitizeFolderName_alphabet|].
  subst token. rewrite sanitizeFolderName_sanitize.
  unfold SanitizeSpec.sanitize.
  rewrite list_ascii_of_string_of_list_ascii. split.
  - rewrite starts_clean_lowercase.
    apply starts_clean_firstn, starts_clean_strip_trailing,
      starts_clean_strip_leading.
  - rewrite single_underscores_lowercase.
    apply single_underscores_firstn, single_underscores_strip_trailing,
      single_underscores_strip_leading, single_underscores_collapse.
Qed.

Section EmptyToken.

Import SanitizeSpec.

Lemma strip_leading_nil l :
  strip_leading l = [] <-> all_underscores l = true.
Proof.
  induction l as [|c l IH]; [easy|].
  cbn [strip_leading all_underscores forallb].
  destruct (Str.is_underscore c); [exact IH | easy].
Qed.

Lemma strip_trailing_nil l :
  strip_trailing l = [] <-> all_underscores l = true.
Proof.
  unfold strip_trailing. rewrite <- all_underscores_rev, <- strip_leading_nil.
  split; [|now intros ->].
  intros Hr. apply (f_equal (@rev ascii)) in Hr.
  now rewrite rev_involutive in Hr.
Qed.

Lemma all_underscores_strip_leading l :
  all_underscores (strip_leading l) = all_underscores l.
Proof.
  induction l as [|c l IH]; [reflexivity|].
  cbn [strip_leading]. destruct (Str.is_underscore c) eqn:Hc; [|reflexivity].
  rewrite IH. cbn. now rewrite Hc.
Qed.

Lemma all_underscores_collapse l :
  all_underscores (collapse l) = all_underscores l.
Proof.
  unfold all_underscores.
  induction l as [|c l IH]; [reflexivity|].
  destruct l as [|d l]; [reflexivity|].
  rewrite collapse_cons2.
  change (forallb Str.is_underscore (c :: d :: l))
    with (Str.is_underscore c && forallb Str.is_underscore (d :: l))%bool.
  destruct (Str.is_underscore c) eqn:Hc, (Str.is_underscore d) eqn:Hd;
    cbn [andb].
  - exact IH.
  - change (forallb Str.is_underscore (c :: collapse (d :: l)))
      with (Str.is_underscore c
            && forallb Str.is_underscore (collapse (d :: l)))%bool.
    now rewrite Hc, IH.
  - change (forallb Str.is_underscore (c :: collapse (d :: l)))
      with (Str.is_underscore c
            && forallb Str.is_underscore (collapse (d :: l)))%bool.
    now rewrite Hc.
  - change (forallb Str.is_underscore (c :: collapse (d :: l)))
      with (Str.is_underscore c
            && forallb Str.is_underscore (collapse (d :: l)))%bool.
    now rewrite Hc.
Qed.

Lemma folder_char_not_underscore c :
  Str.is_folder_char c = true -> Str.is_underscore c = false.
Proof.
  destruct c as [[] [] [] [] [] [] [] []]; try discriminate; reflexivity.
Qed.

Lemma all_underscores_replace_outside l :
  all_underscores (replace_outside l)
  = forallb (fun c => negb (Str.is_folder_char c)) l.
Proof.
  unfold replace_outside, all_underscores.
  induction l as [|c l IH]; [reflexivity|].
  cbn [List.map forallb]. rewrite IH.
  destruct (Str.is_folder_char c) eqn:Hc; [|reflexivity].
  now rewrite (folder_char_not_underscore _ Hc).
Qed.

Lemma text_nil l : text l = EmptyString <-> l = [].
Proof. split; [|now intros ->]. now destruct l. Qed.

End EmptyToken.

(** X30.  The token of a title is empty exactly when no character of the
    title is a letter, a digit or a hyphen: one such character anywhere
    in the title is enough for a token that is not empty, whatever the
    length of the title, and a title made of other characters only has
    the empty token, whose upload folder is the upload directory
    itself. *)
Theorem sanitizeFolderName_empty_token title :
  sanitizeFolderName title = EmptyString <->
  forallb (fun c => negb (Str.is_folder_char c)) (list_ascii_of_string title)
  = true.
Proof.
  rewrite sanitizeFolderName_sanitize. unfold SanitizeSpec.sanitize.
  rewrite text_nil.
  rewrite <- all_underscores_replace_outside, <- all_underscores_collapse,
    <- all_underscores_strip_leading, <- strip_trailing_nil.
  unfold SanitizeSpec.lowercase, SanitizeSpec.truncate.
  split.
  - intros Hl. apply map_eq_nil in Hl.
    destruct (SanitizeSpec.strip_trailing _); [reflexivity | discriminate].
  - now intros ->.
Qed.

(** ** The properties on sample requests *)

Lemma sequenced_store : sequenced Sample.store.
Proof.
  intros id r Hl. cbn [Sample.store rows] in Hl.
  apply lookup_singleton_Some in Hl as [<- _]. cbn. lia.
Qed.

Lemma store_written_sample : store_written Sample.store.
Proof.
  intros id r Hl. cbn [Sample.store rows] in Hl.
  apply lookup_singleton_Some in Hl as [_ <-]. exact written_doom.
Qed.

Lemma sample_note_keys content : JSON.distinct_keys (Sample.note content).
Proof.
  cbn. split; [|tauto].
  apply (bool_decide_unpack _). vm_compute. exact I.
Qed.

Lemma written_annotated : written SampleWorld.annotated.
Proof.
  constructor; cbn; try (eexists; reflexivity); try discriminate;
    try (left; reflexivity).
  - exists (JSON.JArr [Sample.photo "additional_1.png";
                       Sample.photo "additional_2.png"]).
    split; [|split; reflexivity].
    apply distinct_keys_arr.
    do 2 (constructor; [apply sample_photo_keys|]). constructor.
  - exists (JSON.JArr [Sample.note "first"; Sample.note "second"]).
    split; [|split; reflexivity].
    apply distinct_keys_arr.
    do 2 (constructor; [apply sample_note_keys|]). constructor.
Qed.

Lemma quake_lists_ok : payload_lists_ok SampleRoutes.quake.
Proof.
  apply (array_payload_ok _ [Sample.photo "additional_1.png"]
           [Sample.note "first"]); try reflexivity.
  - constructor; [apply sample_photo_keys | constructor].
  - constructor; [apply sample_note_keys | constructor].
Qed.

Lemma getAllGames_sample :
  getAllGames Sample.store = Resolved [SampleWorld.doom_game].
Proof. vm_compute. reflexivity. Qed.

Lemma auto_increment_ids_are_not_reused_witness :
  (forall g id d',
      createGame g (snd (clearAllGames Sample.store)) = (Resolved id, d') ->
      id = 2) /\
  sequence (snd (deleteGame 1 Sample.store)) = 1.
Proof.
  destruct (auto_increment_ids_are_not_reused Sample.store sequenced_store)
    as (_ & _ & Hdelete & Hseq & Hclear).
  split; [|exact (proj1 (Hdelete 1))].
  intros g id d' Hcreate.
  destruct (auto_increment_ids_are_not_reused
              (snd (clearAllGames Sample.store)) Hclear)
    as (Hnew & _).
  now destruct (Hnew g id d' Hcreate) as [-> _].
Defined.

Lemma createGame_stores_the_game_witness :
  exists id d' game,
    createGame SampleRoutes.quake Sample.store = (Resolved id, d') /\
    getGameById id d' = Resolved (Some game) /\
    Game.title game = "Quake" /\
    Game.dateAdded game = Some "2024-01-02" /\
    Game.additionalNotes game = JSON.JArr [Sample.note "first"].
Proof.
  destruct (createGame_stores_the_game SampleRoutes.quake Sample.store
              "Quake" eq_refl quake_lists_ok)
    as (id & d' & game & Hc & _ & _ & Hget & _ & Ht & _ & _ & _ & _ & _ & _
        & _ & _ & _ & Hdate & _ & Hnotes).
  exists id, d', game. repeat split; assumption.
Defined.

Lemma store_keeps_its_rows_readable_witness :
  store_written (snd (deleteGame 1 Sample.store)) /\
  (exists games, getAllGames Sample.store = Resolved games).
Proof.
  destruct (store_keeps_its_rows_readable Sample.store store_written_sample)
    as (_ & _ & Hdelete & _ & _ & Hall).
  split; [exact (Hdelete 1) | exact Hall].
Defined.

Lemma getAllGames_lists_each_row_once_witness :
  length [SampleWorld.doom_game] = size (rows Sample.store) /\
  NoDup (Game.id <$> [SampleWorld.doom_game]) /\
  (forall game,
      game ∈ [SampleWorld.doom_game] <->
      getGameById (Game.id game) Sample.store = Resolved (Some game)).
Proof.
  exact (getAllGames_lists_each_row_once Sample.store
           [SampleWorld.doom_game] getAllGames_sample).
Defined.

Lemma starts_no_value_oops : starts_no_value "oops".
Proof. reflexivity. Qed.

Lemma unreadable_row_blocks_the_reads_witness :
  getGameById 1 SampleRoutes.broken_store = Rejected syntax_error /\
  (exists e, getAllGames SampleRoutes.broken_store = Rejected e) /\
  (forall g,
      updateGame 1 g SampleRoutes.broken_store
      = (Rejected syntax_error, SampleRoutes.broken_store)) /\
  fst (deleteGame 1 SampleRoutes.broken_store) = Resolved 1 /\
  rows (snd (deleteGame 1 SampleRoutes.broken_store)) !! 1 = None.
Proof.
  apply (unreadable_row_blocks_the_reads SampleRoutes.broken_store 1
           SampleRoutes.broken "oops").
  - reflexivity.
  - left. reflexivity.
  - discriminate.
  - exact starts_no_value_oops.
Defined.

Lemma updateGame_repeated_changes_nothing_witness :
  updateGame 1 GameData.empty Sample.store = (Resolved 1, Sample.store) /\
  exists d1,
    updateGame 1 Sample.finished_only Sample.store = (Resolved 1, d1) /\
    updateGame 1 Sample.finished_only d1 = (Resolved 1, d1).
Proof.
  destruct (updateGame_repeated_changes_nothing 1 Sample.store Sample.doom
              eq_refl written_doom) as [Hempty Htwice].
  split; [exact Hempty|]. apply Htwice; [|discriminate].
  split; discriminate.
Defined.

Lemma create_route_stores_the_form_witness :
  exists id w',
    create_route (SampleWorld.form (Some "Quake II"))
      (Files.mk (Some "cover_new.png") None) SampleWorld.world
    = (Resolved (Json (CreateReply.mk id "Game created successfully")), w') /\
    getGameById id (db w')
    = Resolved
        (Some
           (Game.mk id "Quake II" (Some EmptyString) 5 false false (Some "PC")
              0 (Some EmptyString)
              (Some "http://localhost:3000/uploads/quake_ii/cover_new.png")
              None (Some "2024-01-02") (JSON.JArr []) (JSON.JArr []))).
Proof.
  destruct (create_route_stores_the_form (SampleWorld.form (Some "Quake II"))
              (Files.mk (Some "cover_new.png") None) SampleWorld.world
              "Quake II" eq_refl eq_refl eq_refl)
    as (id & w' & Hrun & _ & _ & _ & _ & Hget).
  exists id, w'. split; [exact Hrun | exact Hget].
Defined.

Lemma route_without_title_is_an_error_witness :
  fst (create_route (SampleWorld.form None) Files.none SampleWorld.world)
  = Resolved (Failure 500 cannot_read_replace) /\
  exists w',
    update_route SampleWorld.root 1 (SampleWorld.form None) Files.none
      SampleWorld.world
    = (Resolved (mkReply 500 (Error cannot_read_replace)), w') /\
    db w' = Sample.store.
Proof.
  destruct (route_without_title_is_an_error SampleWorld.root
              (SampleWorld.form None) Files.none SampleWorld.world eq_refl)
    as [(w1 & Hcreate & _) Hupdate].
  split; [now rewrite Hcreate|].
  destruct (Hupdate 1 SampleWorld.doom_game eq_refl)
    as (w' & Hrun & Hdb & _).
  exists w'. split; [exact Hrun | exact Hdb].
Defined.

Lemma trim_third : trim " third " = "third".
Proof. reflexivity. Qed.

Lemma add_note_appends_the_note_witness :
  exists w',
    add_note_route SampleRoutes.now 1 (Some (JSON.JStr " third "))
      SampleWorld.annotated_world
    = (Resolved (mkReply 200 (Message "Note added successfully")), w') /\
    getGameById 1 (db w')
    = Resolved
        (Some
           (game_with_notes
              (JSON.JArr [Sample.note "first"; Sample.note "second";
                          note_entry "third" SampleRoutes.now])
              SampleRoutes.annotated_game)).
Proof.
  destruct (add_note_appends_the_note SampleRoutes.now 1 " third "
              SampleWorld.annotated_world SampleWorld.annotated
              SampleRoutes.annotated_game
              [Sample.note "first"; Sample.note "second"]
              eq_refl written_annotated decode_annotated eq_refl)
    as (w' & Hrun & _ & _ & _ & Hget).
  { rewrite trim_third. discriminate. }
  exists w'. split; [exact Hrun|]. rewrite trim_third in Hget. exact Hget.
Defined.

Lemma add_note_validates_the_content_witness :
  add_note_route SampleRoutes.now 1 (Some (JSON.JStr "  "))
    SampleWorld.annotated_world
  = (Resolved (mkReply 400 (Error "Note content is required")),
     SampleWorld.annotated_world) /\
  fst (add_note_route SampleRoutes.now 1 (Some (JSON.JNum 7))
         SampleWorld.annotated_world)
  = Resolved (mkReply 500 (Error "content.trim is not a function")).
Proof.
  destruct (add_note_validates_the_content SampleRoutes.now 1
              SampleWorld.annotated_world SampleRoutes.annotated_game)
    as (_ & Hblank & Hnumber).
  { unfold getGameById. cbn [SampleWorld.annotated_world db rows].
    rewrite lookup_singleton_eq. now rewrite decode_annotated. }
  split; [apply Hblank; reflexivity|].
  rewrite (Hnumber 7) by discriminate. reflexivity.
Defined.

Lemma add_photo_appends_the_photo_witness :
  exists w',
    add_photo_route SampleRoutes.now 1 (Some "additional_3.png")
      SampleWorld.annotated_world
    = (Resolved
         (Json (PhotoReply.mk "Photo added successfully"
                  "http://localhost:3000/uploads/doom/additional_3.png"
                  "additional_3.png")), w') /\
    fs w' = SampleWorld.disk.
Proof.
  destruct (add_photo_appends_the_photo SampleRoutes.now 1 "additional_3.png"
              SampleWorld.annotated_world SampleWorld.annotated
              SampleRoutes.annotated_game
              [Sample.photo "additional_1.png"; Sample.photo "additional_2.png"]
              eq_refl written_annotated decode_annotated eq_refl)
    as [(w' & Hrun & Hfs & _) _].
  exists w'. split; [exact Hrun | exact Hfs].
Defined.

Lemma note_added_then_deleted_witness :
  exists w',
    add_note_route SampleRoutes.now 1 (Some (JSON.JStr " third "))
      SampleWorld.annotated_world
    = (Resolved (mkReply 200 (Message "Note added successfully")), w') /\
    delete_note_route 1 "2" w'
    = Some (Resolved (mkReply 200 (Message "Note deleted successfully")),
            SampleWorld.annotated_world).
Proof.
  apply (note_added_then_deleted SampleRoutes.now 1 " third " "2"
           SampleWorld.annotated_world SampleWorld.annotated
           SampleRoutes.annotated_game
           [Sample.note "first"; Sample.note "second"]
           eq_refl written_annotated decode_annotated eq_refl).
  - rewrite trim_third. discriminate.
  - reflexivity.
Defined.

Lemma photo_added_then_deleted_witness :
  exists reply w',
    add_photo_route SampleRoutes.now 1 (Some "additional_3.png")
      SampleWorld.annotated_world
    = (Resolved reply, w') /\
    delete_photo_route SampleWorld.root 1 "2" w'
    = Some (Resolved (mkReply 200 (Message "Photo deleted successfully")),
            SampleWorld.annotated_world).
Proof.
  destruct (photo_added_then_deleted SampleWorld.root SampleRoutes.now 1
              "additional_3.png" "2"
              SampleWorld.annotated_world SampleWorld.annotated
              SampleRoutes.annotated_game
              [Sample.photo "additional_1.png"; Sample.photo "additional_2.png"]
              eq_refl eq_refl written_annotated decode_annotated eq_refl
              eq_refl)
    as (reply & w' & Hadd & _ & Hmissing & _).
  exists reply, w'. split; [exact Hadd|]. apply Hmissing. reflexivity.
Defined.

Lemma delete_note_removes_that_note_witness :
  exists w',
    delete_note_route 1 "0" SampleWorld.annotated_world
    = Some (Resolved (mkReply 200 (Message "Note deleted successfully")),
            w') /\
    getGameById 1 (db w')
    = Resolved
        (Some
           (game_with_notes (JSON.JArr [Sample.note "second"])
              SampleRoutes.annotated_game)).
Proof.
  destruct (delete_note_removes_that_note 1 "0" SampleWorld.annotated_world
              SampleWorld.annotated SampleRoutes.annotated_game
              [Sample.note "first"; Sample.note "second"] 0
              eq_refl written_annotated decode_annotated eq_refl eq_refl)
    as (w' & Hrun & _ & _ & _ & Hget).
  { cbn. lia. }
  exists w'. split; [exact Hrun | exact Hget].
Defined.

Lemma delete_photo_removes_that_photo_witness :
  exists d',
    delete_photo_route SampleWorld.root 1 "1" SampleWorld.annotated_world
    = Some (Resolved (mkReply 200 (Message "Photo deleted successfully")),
            mkWorld d' SampleWorld.disk []) /\
    (Row.additionalPhotos <$> rows d' !! 1)
    = Some (Some (JSON.stringify
                    (JSON.JArr [Sample.photo "additional_1.png"]))).
Proof.
  destruct (delete_photo_removes_that_photo SampleWorld.root 1 "1"
              SampleWorld.annotated_world SampleWorld.annotated
              SampleRoutes.annotated_game
              [Sample.photo "additional_1.png"; Sample.photo "additional_2.png"]
              1
              [("path", JSON.JStr (upload_url "doom" "additional_2.png"));
               ("filename", JSON.JStr "additional_2.png");
               ("dateAdded", JSON.JStr "2024-01-02T10:00:00.000Z")]
              (upload_url "doom" "additional_2.png")
              eq_refl eq_refl written_annotated decode_annotated eq_refl
              eq_refl eq_refl eq_refl)
    as (Hmissing & _ & _).
  eexists. split; [apply Hmissing; reflexivity|].
  cbn [db_with_row rows]. now rewrite lookup_insert_eq.
Defined.

Lemma delete_out_of_range_is_refused_witness :
  delete_photo_route SampleWorld.root 1 "2" SampleWorld.annotated_world
  = Some (Resolved (mkReply 400 (Error "Invalid photo index")),
          SampleWorld.annotated_world) /\
  delete_note_route 1 "2" SampleWorld.annotated_world
  = Some (Resolved (mkReply 400 (Error "Invalid note index")),
          SampleWorld.annotated_world).
Proof.
  destruct (delete_out_of_range_is_refused SampleWorld.root 1 "2"
              SampleWorld.annotated_world SampleRoutes.annotated_game 2)
    as [Hphoto Hnote].
  - unfold getGameById. cbn [SampleWorld.annotated_world db rows].
    rewrite lookup_singleton_eq. now rewrite decode_annotated.
  - reflexivity.
  - split.
    + apply (Hphoto [Sample.photo "additional_1.png";
                     Sample.photo "additional_2.png"]); [reflexivity|].
      right. cbn. lia.
    + apply (Hnote [Sample.note "first"; Sample.note "second"]);
        [reflexivity|].
      right. cbn. lia.
Defined.

Lemma stats_partition_the_games_witness :
  stats_checked_route SampleWorld.world = (Resolved (Json 1), SampleWorld.world)
  /\ stats_todo_route SampleWorld.world
     = (Resolved (Json 0), SampleWorld.world).
Proof.
  destruct (stats_partition_the_games SampleWorld.world store_written_sample)
    as (games & Hgames & Hchecked & Htodo & _).
  cbn [SampleWorld.world db] in Hgames. rewrite getAllGames_sample in Hgames.
  injection Hgames as <-. split; [exact Hchecked | exact Htodo].
Defined.

Lemma update_route_keeps_the_lists_witness :
  exists r',
    rows (db (snd (update_route SampleWorld.root 1
                     (SampleWorld.form (Some "Quake")) Files.none
                     SampleWorld.world))) !! 1 = Some r' /\
    Row.additionalPhotos r' = Some "[]" /\
    Row.additionalNotes r' = Some "[]" /\
    Row.dateAdded r' = Some "2024-01-01".
Proof.
  apply (update_route_keeps_the_lists SampleWorld.root 1
           (SampleWorld.form (Some "Quake")) Files.none SampleWorld.world
           Sample.doom
           (fst (update_route SampleWorld.root 1
                   (SampleWorld.form (Some "Quake")) Files.none
                   SampleWorld.world))).
  - reflexivity.
  - exact written_doom.
  - apply surjective_pairing.
Defined.

Lemma parse_sample v :
  JSON.distinct_keys v -> JSON.parse (JSON.stringify v) = Some v.
Proof. apply parse_stringify. Qed.

Lemma no_games_keys : JSON.distinct_keys SampleRoutes.no_games.
Proof.
  cbn. split; [|tauto]. apply (bool_decide_unpack _). vm_compute. exact I.
Qed.

Lemma one_game_keys : JSON.distinct_keys SampleRoutes.one_game.
Proof.
  cbn. repeat split; apply (bool_decide_unpack _); vm_compute; exact I.
Qed.

Lemma two_games_keys : JSON.distinct_keys SampleRoutes.two_games.
Proof.
  cbn. repeat split; apply (bool_decide_unpack _); vm_compute; exact I.
Qed.

Lemma titled_sample :
  titled SampleRoutes.titled_game SampleRoutes.titled_data.
Proof. split; [reflexivity | now exists "Quake"]. Qed.

Lemma import_clears_before_it_looks_for_games_witness :
  import_route (Some SampleRoutes.import_path)
    (SampleRoutes.import_world (JSON.stringify SampleRoutes.no_games))
  = Some (Resolved (mkReply 200 (Message "Successfully imported 0 games")),
          mkWorld (mkDB ∅ 1 "2024-01-02")
            (SampleRoutes.imported_disk
               (JSON.stringify SampleRoutes.no_games)) []).
Proof.
  destruct (import_clears_before_it_looks_for_games SampleRoutes.import_path
              (JSON.stringify SampleRoutes.no_games) SampleRoutes.no_games
              (SampleRoutes.import_world
                 (JSON.stringify SampleRoutes.no_games)))
    as (_ & Hclear & _).
  - reflexivity.
  - exact (parse_sample _ no_games_keys).
  - discriminate.
  - apply Hclear; [discriminate | reflexivity].
Defined.

Lemma import_replaces_the_collection_witness :
  exists d',
    import_route (Some SampleRoutes.import_path)
      (SampleRoutes.import_world (JSON.stringify SampleRoutes.one_game))
    = Some (Resolved (mkReply 200 (Message "Successfully imported 1 games")),
            mkWorld d'
              (SampleRoutes.imported_disk
                 (JSON.stringify SampleRoutes.one_game)) []) /\
    size (rows d') = 1%nat /\
    (Row.title <$> rows d' !! 2) = Some "Quake".
Proof.
  destruct (import_replaces_the_collection SampleRoutes.import_path
              (JSON.stringify SampleRoutes.one_game) SampleRoutes.one_game
              [SampleRoutes.titled_game] [SampleRoutes.titled_data]
              (SampleRoutes.import_world
                 (JSON.stringify SampleRoutes.one_game))
              (SampleRoutes.imported_disk
                 (JSON.stringify SampleRoutes.one_game)))
    as (d' & Hrun & Hsize & Hrows).
  - reflexivity.
  - exact (parse_sample _ one_game_keys).
  - reflexivity.
  - constructor; [exact titled_sample | constructor].
  - reflexivity.
  - exists d'. split; [exact Hrun|]. split; [exact Hsize|].
    destruct (Hrows 0%nat SampleRoutes.titled_data eq_refl)
      as (title & Htitle & Hrow).
    injection Htitle as <-.
    change (rows d' !! 2
            = Some (created_row SampleRoutes.titled_data "Quake"
                      "2024-01-02")) in Hrow.
    now rewrite Hrow.
Defined.

Lemma import_stops_at_a_game_without_title_witness :
  exists e d',
    import_route (Some SampleRoutes.import_path)
      (SampleRoutes.import_world (JSON.stringify SampleRoutes.two_games))
    = Some (Resolved (mkReply 500 (Error e)),
            mkWorld d'
              (SampleRoutes.import_disk
                 (JSON.stringify SampleRoutes.two_games)) []) /\
    size (rows d') = 1%nat /\
    (Row.title <$> rows d' !! 2) = Some "Quake".
Proof.
  destruct (import_stops_at_a_game_without_title SampleRoutes.import_path
              (JSON.stringify SampleRoutes.two_games) SampleRoutes.two_games
              [SampleRoutes.titled_game] SampleRoutes.untitled_game []
              [SampleRoutes.titled_data] SampleRoutes.untitled_data
              (SampleRoutes.import_world
                 (JSON.stringify SampleRoutes.two_games)))
    as (e & d' & Hrun & Hsize & Hrows).
  - reflexivity.
  - exact (parse_sample _ two_games_keys).
  - reflexivity.
  - constructor; [exact titled_sample | constructor].
  - reflexivity.
  - discriminate.
  - exists e, d'. split; [exact Hrun|]. split; [exact Hsize|].
    destruct (Hrows 0%nat SampleRoutes.titled_data eq_refl)
      as (title & Htitle & Hrow).
    injection Htitle as <-.
    change (rows d' !! 2
            = Some (created_row SampleRoutes.titled_data "Quake"
                      "2024-01-02")) in Hrow.
    now rewrite Hrow.
Defined.

Lemma import_restores_exported_games_witness :
  exists d',
    import_route (Some SampleRoutes.import_path)
      (SampleRoutes.import_world
         (JSON.stringify
            (export_json SampleRoutes.now [SampleWorld.doom_game])))
    = Some (Resolved (mkReply 200 (Message "Successfully imported 1 games")),
            mkWorld d'
              (SampleRoutes.imported_disk
                 (JSON.stringify
                    (export_json SampleRoutes.now [SampleWorld.doom_game])))
              []) /\
    getGameById 2 d'
    = Resolved
        (Some
           (Game.mk 2 "Doom" (Some EmptyString) 5 false false (Some "PC") 0
              (Some EmptyString) (Some Sample.doom_cover) None
              (Some "2024-01-02") (JSON.JArr []) (JSON.JArr []))).
Proof.
  destruct (@import_restores_exported_games TextDisk.t TextDisk.file_system
              TextDisk.file_reader SampleRoutes.now Sample.store
              [SampleWorld.doom_game] SampleRoutes.import_path
              (SampleRoutes.import_world
                 (JSON.stringify
                    (export_json SampleRoutes.now [SampleWorld.doom_game])))
              (SampleRoutes.imported_disk
                 (JSON.stringify
                    (export_json SampleRoutes.now [SampleWorld.doom_game])))
              store_written_sample getAllGames_sample eq_refl eq_refl)
    as (d' & Hrun & _ & Hgames).
  exists d'. split; [exact Hrun|].
  exact (Hgames 0%nat SampleWorld.doom_game eq_refl).
Defined.
